(* ===== verification/_CoqProject ===== *)
-Q . S2P
Prelude.v
Strings.v
Substrate.v
Lifecycle.v
Connection.v
App.v
ContractCalls.v
Auth.v
Pages.v
JsObject.v
JsonCodec.v
Hook.v
Editors.v
Tokens.v
Config.v
Integration.v
Races.v
