(* ===== verification/Prelude.v ===== *)
(** * A verification development of Substrate-SupplyChain-UI

    The repository is a React front end for a supply-chain smart contract on
    a Substrate chain, with an e-mail login served by a REST API. Its logic
    outside the rendering code sits in the places below. Each one is
    modelled by executable Rocq definitions that follow the source
    function by function, with the theorems that say what it does. The
    libraries the code calls (the Polkadot API and extension, Redux, axios,
    the browser's [localStorage]) are modelled by what they return to it.

    - [src/src/utils/strings.js] [trim] is in [Strings.v] (Module [Trim]).
      It cuts the JSON text out of the bytes a contract query returns. JS
      strings are lists of characters ([jsstr]), the two [for] loops are a
      Fixpoint over the string and one over a descending index, and
      [substr] is [js_substr]. Theorem (C1): a JSON text framed by
      bracket-free padding comes back exactly. Lemmas: a bracket byte in
      the padding breaks the cut, text without brackets is unchanged,
      [trim] is idempotent and returns a slice of its input.

    - [src/src/substrate-lib/SubstrateContext.js] [reducer] is in
      [Substrate.v] (Module [Store]). The connection store becomes a
      Record, the action objects an Inductive, and the reducer a function
      into [result] (its [default:] branch throws).

    - [src/src/contexts/useSubstrate.js] is split over several files.
      [Lifecycle.v] models [connect], [loadAccounts], [loadContract] and
      [setAccountAddress]. Each handler returns the actions it dispatches.
      The asynchronous callbacks (api events, extension answers, the
      contract's [version] query) are events of an executable [step] on
      the store together with the shared ui-keyring singleton; [reachable]
      is its closure. Theorems (C6, C7, C9, C11-C14): invariants of every
      reachable state (proved by induction on [reachable] from one
      invariant [Inv]), among them that a built contract whose version
      query has settled is final (no second query, no change of its
      state), the guard order of [loadContract], a run to the fully
      ready state, and the defect in the account fallback.
      [Connection.v] states what the three status fields of the store may
      do, as an abstract machine with stuttering steps ([conn_step]), and
      proves that the hook refines it (C26): the reducer commutes with the
      abstraction [status], and every event of a reachable state moves
      each field along its own transitions. It also shows that the
      [disconnected] event, which the comment of [connect] says is
      listened to, leaves the store READY.
      [App.v] models what [Main] of [App.js] renders from this store (an
      error, a loader, or the editors) and shows that the editors are
      rendered only in reachable states that satisfy the invariant. The
      store [App]'s provider creates ([app_store]) is the initial state
      of [Lifecycle.v], and its first render is the connection loader.
      [ContractCalls.v] models the query helpers (trim, then a JSON parser
      passed as the class [JsonParse], with their fallbacks) and the shared
      body of the six update helpers ([send_tx]): signer choice, the
      extension call outside the [try], and the settlement of the promise
      from the statuses the node reports. The six update helpers are
      [send_tx] paired with the contract message each one builds
      ([Message]), [JSON.stringify] being the class [JsonStringify].
      Theorems (C15, C17-C19): a framed array is decoded as the parser
      reads it, the promise resolves exactly on an [InBlock] status, a
      transaction never reported in a block stays exactly pending (it is
      rejected only when building or signing threw), and a failing
      extension leaves the promise unsettled; a lemma gives the error
      behaviour of the JSON queries.
      [Hook.v] models the object [useSubstrate] returns: the record
      [Hook] of the helpers closed over the store ([useSubstrate]), the
      queries over [tokenContract], the updates over [accountAddress]
      and [accountPair]. Composed with [Main]'s guard and the invariant
      of [Lifecycle.v]: on every reachable state in which the editors are
      rendered, the query helpers reach the contract (C34), and an update
      call with a selected pair signs with it and resolves on [InBlock]
      (C35). [Main] does not guard on [accountPair]:
      [setAccountAddress('')] keeps the editors rendered with no pair,
      and every update call then hangs (C27).

    - [src/src/redux] with [utils/setApiAuthHeader.js] is in [Auth.v]. It
      covers the action-type table in both environments, the reducer as a
      [switch] tried case by case with [===], and every thunk, split into
      its synchronous half and its [.then]/[.catch]. A step relation
      interleaves thunk calls with the settling of their HTTP calls; Redux's
      refusal of an action whose type is [undefined] is part of [dispatch].
      Theorems (C21-C25, C28): the reducer's [switch] over the
      numbered types is equivalent to a lookup of the case by its key,
      under the random production numbering too, the in-flight guards,
      the header always being the stored token, and three
      defects (unsubscribe can never run, a failed loginWithToken locks
      login, a failed getMe keeps the store's token). A lemma gives the
      outcome of a login answered without a token.

    - [Pages.v] covers the three pages of the e-mail flow under
      [containers/Pages]: the login page ([AssetHandler/index.js], with
      its forgot-password and resend-verification tabs), [Auth/Signup]
      and [Auth/ResetPassword]. Each handler is one function of the page
      state, the [World] of [Auth.v] and the outcome of each HTTP call it
      awaits, composed from the thunks of [Auth.v] ([call_thunk]); it
      returns the new state and world, the notifications, the navigation
      and how the handler ends (done, an unhandled rejection, or an
      exception). The validator module the pages import
      ([utils/validator]) is not in the repository and is a class.
      Theorems (C38, C40): a login whose [getMe] fails never navigates and
      leaves the session half cleared, and a remount during a token check
      hangs; a lemma shows that a 401 switches to the resend-verification
      tab.
      The signup page's resend countdown ([countdown_tick], one run of
      its [setInterval]) is composed with the page's handlers into runs
      of [SignupEvent]s: the counter stays within
      [0..DEFAULT_EMAIL_RESEND_COUNTER] in every run (C4, bounds), and the
      countdown reaches 0 after as many ticks as its start value and then
      stays fixed (C2, termination). On the rendered page ([signup_view],
      a session observed with a clock that records each resend whose
      handler reports success), every resend click comes at least thirty
      runs of the interval after the last successful resend (C10). On the rendered reset page ([reset_view]), every [resetPwd]
      request of a visit carries the URL's code, accepted by the server,
      and a password equal to its confirmation (C20).
      Each view reads the store through its page's [mapStateToProps]
      ([LoginProps], [SignupProps], [ResetProps]); composed with the
      invariant of [Auth.v], every page spins and takes no click while a
      thunk whose flag it reads is in flight, whichever page called it
      (C3, [pages_locked_inflight]).
      The pages are not routed by [App.js]; they are modelled as written.

    - [JsObject.v] models the JS objects the editors build: property
      access, assignment and spread syntax over JSON values. Its lemmas give
      the value of a key after each operation.

    - [JsonCodec.v] defines [JSON.stringify] and [JSON.parse], the two
      built-ins the helpers call, and instantiates the two classes with
      them. A number is printed as its sign, integer part and at most
      twenty fraction digits ([number_parts]). The round trip
      [parse (stringify v) = Some (reparse v)] holds for every value
      without repeated object keys, [reparse] reading each number back
      from its printed digits; for an integer or a decimal of at most
      twenty places that number is the same rational ([num_value_exact]),
      so [reparse v] and [v] are equal up to [json_equiv] (numbers in
      lowest terms), and equal outright for integral values
      ([parse_stringify]). [stringify] writes each number by its value,
      so it is [Proper] for [json_equiv], and a value read back and
      written again gives the same text ([restringify]).
      Theorem (C36): the query helpers' decoding
      ([u8aToString], [trim], [JSON.parse]) gives back every array or
      object the update helpers encode, framed by the bytes [trim]
      skips, decimal coordinates included, and falls back to the
      default on an output cut after its opening bracket;
      composed with [updateSupplyChain] and [getSupplyChain], a supply
      chain saved to the contract reads back as the same array.
      [Integration.v] splits the save at its [await]: the click, then the
      settlement, with the user's events in between ([save_split] shows
      that nothing in between gives the atomic handler back). It carries
      the round trip through the editor (C37): a Save enabled on the
      rendered supply-chain editor sends the array; once the transaction
      is in a block, the code after the [await] leaves no pending edit,
      and the next load of the component shows exactly the nodes that
      were saved. Composed with [Hook.v] (C16): on the helper the rendered
      dashboard hands it, the Save resolves and clears the edit and the
      dimmer when a pair is selected, and never settles when none is. It
      also shows that a node added while a save is in
      flight is displayed but marked as saved, so it is never sent (C39).
      [Races.v] splits the token editor's metadata effect at its two
      awaits ([select_split] gives the atomic handler of [Tokens.v] back
      when nothing comes in between) and shows the race of two
      selections (C33): answers for an earlier token arriving last are
      shown under the later one, and the edit modal writes them to it.
      It does the same for the profile editor's metadata effect, with
      [accountAddress] changing while a query is in flight (C5): the
      profile of the earlier account is saved to the later one.

    - [Editors.v] covers [components/SupplyChainEditor] and
      [components/RolesManager]. The supply-chain editor's state refers to
      its array through a heap ([Heap]), because [splice] mutates it in
      place. Theorems (C8, C29, C30, C32): removals can never be
      saved, the removal defect, a save that stalls on a dropped
      transaction (composed with [send_tx]), the refinement of the roles
      table by a finite map ([gmap] from address to entry, C32:
      [onModalFinish] is an insertion and the search a lookup), and the
      stale search result (a lemma). The upsert is also proved equal to a reference
      definition ([upsert_spec]).
      [Tokens.v] covers [components/TokenEditor], [components/AccountMetadata]
      and [store/StoreContext.js]. Theorem (C31): every update and
      transfer a session sends names a token picked from the table.
      Lemmas: every run of the token editor keeps its two form objects
      with distinct keys, the upload callback drops the form,
      and the profile modal carries fields over from the previous
      account.

    - [src/src/config/index.js], [src/src/utils/notifier.js],
      [components/ScrollToTop] and [components/LoadingIndicator] are in
      [Config.v]. The configuration is the object spread of the two JSON
      files (parameters: they are not in the repository), the
      [REACT_APP_] variables the environment defines (the [reduce] with
      its [slice(10)]) and [callParams]. Lemmas: a key comes from the
      environment first, then the [NODE_ENV] file, then [common.json],
      so [PROVIDER_SOCKET] is the environment's whenever it is set. The
      notifier is a record with its [timer]; every notice a page shows
      lasts its six seconds with no description.
      [constants/index.js] concatenates [API_SERVER_URL] from the
      environment ([undefined] for an unset variable).

    - The renders of the four editors and of the three pages are
      modelled by what they show and enable: a [View] record (rows, texts, disabled buttons, modal contents) and
      [enabled], which says whether an event's control is on screen and
      enabled. A [session] (below) fires a list of events, ignoring those
      whose control is disabled or absent, and collects the requests the
      handlers send to the contract; [session_inv] carries an invariant
      through it.

    Choices of the model. Characters are [ascii]: the JSON the contract
    stores is 7-bit text, and no theorem depends on multi-byte decoding.
    JSON numbers are rationals, so the decimal literals of the editors are
    exact. Every loop of the code runs over a list or an index bounded by
    the input, and is a structural Fixpoint. The one definition on fuel
    is the recursive-descent [JSON.parse]: it is given one more unit than
    the length of its input, which is enough since each nested call
    consumes at least one character, and the round trip theorem proves
    that this fuel is enough on every printed value.
    Handlers that await a promise take its outcome as an argument; a
    promise that never settles is the [Pending] outcome, after which the
    handler does nothing more.

    Not modelled: the component tree [Main] renders once the store is
    ready ([AccountSelector], the chain information and the developer
    console are not in the repository), the markup of the renders beyond
    what they show and enable (headers, CSS, the validator's error
    display), routing (the pages are not routed by [App.js]; a
    navigation is the path and [location.state] it pushes), the rules of
    the missing validator module, the mounting and unmounting of the
    signup page's interval (the sessions run on a mounted page), the
    rendering-only files ([context/themeContext.js],
    [transactions/Balance.tsx], [contracts/Codes], [contracts/translate.ts]),
    the HTTP client ([redux/api] is not in the sources),
    [src/store/configureStore.js] (dead code: nothing imports it, and it
    imports reducer modules that are not in the repository), and the
    Polkadot libraries themselves.

    This file holds what the components share: the JS string type and
    [substr], the error monad for code that throws, the hint databases
    [jsmodel] and [jsrw], the tactic [vm_decide], the list lemmas the
    proofs reuse, and the [session] runner of the rendered components. *)

From Stdlib Require Export Ascii String ZArith Lia.
From stdpp Require Export base list strings.

(** ** JS strings *)

(** A JS string as the sequence of its characters. *)
Abbreviation jsstr := (list ascii).

(** A literal, written as a Rocq string. *)
Definition js (s : string) : jsstr := list_ascii_of_string s.

(** [String.prototype.substr(start, length)] for [0 <= start]: at most
    [length] characters from [start]; a length [<= 0] gives [""]. *)
Definition js_substr (s : jsstr) (start : nat) (len : Z) : jsstr :=
  take (Z.to_nat len) (drop start s).

(** ** Code that throws *)

(** The outcome of JS code that may throw: [Throw msg] is an exception
    that propagates to the caller. *)
Inductive result (A : Type) : Type :=
| Ok (a : A)
| Throw (msg : string).
Arguments Ok {A} a.
Arguments Throw {A} msg.

(** stdpp's monad classes, so that [x ← r; k] sequences code that throws. *)
#[export] Instance result_ret : MRet result := fun _ a => Ok a.
#[export] Instance result_bind : MBind result :=
  fun _ _ f r => match r with Ok a => f a | Throw m => Throw m end.

#[export] Instance result_fmap : FMap result :=
  fun _ _ f r => match r with Ok a => Ok (f a) | Throw m => Throw m end.

Definition is_ok {A} (r : result A) : bool :=
  match r with Ok _ => true | Throw _ => false end.

(** ** Hint database of the development *)

Create HintDb jsmodel discriminated.
Create Rewrite HintDb jsrw.

Ltac invc H := inversion H; subst; clear H.

(** A decidable proposition on closed values, by evaluation. *)
Ltac vm_decide := apply (bool_decide_unpack _); vm_compute; reflexivity.

(** ** Shared lemmas on lists *)

Section ListFacts.
Context {A : Type}.

(** A slice never invents characters: the input is the slice with what
    was cut on either side. *)
Lemma js_substr_infix (s : list A) (start : nat) (len : Z) :
  exists a b, s = a ++ take (Z.to_nat len) (drop start s) ++ b.
Proof.
  exists (take start s), (drop (Z.to_nat len) (drop start s)).
  by rewrite !take_drop.
Qed.

(** The first position where a test holds splits a list. *)
Lemma list_first_split (P : A -> bool) (l : list A) :
  Forall (fun x => P x = false) l \/
  exists p x r, l = p ++ x :: r /\ Forall (fun y => P y = false) p /\ P x = true.
Proof.
  induction l as [|y l [Hall|(p & x & r & -> & Hp & Hx)]].
  - left. constructor.
  - destruct (P y) eqn:Hy.
    + right. exists [], y, l. auto.
    + left. by constructor.
  - destruct (P y) eqn:Hy.
    + right. exists [], y, (p ++ x :: r). auto.
    + right. exists (y :: p), x, r. split; [done|]. split; [by constructor|done].
Qed.

(** The last position where a test holds splits a list. *)
Lemma list_last_split (P : A -> bool) (l : list A) :
  Forall (fun x => P x = false) l \/
  exists p x r, l = p ++ x :: r /\ P x = true /\ Forall (fun y => P y = false) r.
Proof.
  destruct (list_first_split P (reverse l)) as [H|(p & x & r & Hl & Hp & Hx)].
  - left. by apply Forall_reverse in H; rewrite reverse_involutive in H.
  - right. exists (reverse r), x, (reverse p).
    split; [|split; [done|by apply Forall_reverse]].
    rewrite <- (reverse_involutive l), Hl.
    by rewrite reverse_app, reverse_cons, <- app_assoc.
Qed.

(** Reading past a prefix. *)
Lemma lookup_app_r_add (p l : list A) (i : nat) :
  (p ++ l) !! (length p + i) = l !! i.
Proof. rewrite lookup_app_r by lia. f_equal. lia. Qed.

Lemma Forall_lookup_false (P : A -> bool) (l : list A) (i : nat) (x : A) :
  Forall (fun y => P y = false) l -> l !! i = Some x -> P x = false.
Proof. intros H Hi. by eapply Forall_lookup_1 in H; [|exact Hi]. Qed.
(** A position at or after [length l] in [l ++ q] reads [q]. *)
Lemma Forall_lookup_after (P : A -> bool) (l q : list A) (m : nat) (x : A) :
  Forall (fun y => P y = false) q -> length l <= m -> (l ++ q) !! m = Some x ->
  P x = false.
Proof.
  intros Hq Hm Hx. rewrite lookup_app_r in Hx by done.
  by eapply Forall_lookup_false.
Qed.
End ListFacts.

#[export] Hint Resolve Forall_nil_2 : jsmodel.
#[export] Hint Rewrite @lookup_app_r_add @length_app @length_cons : jsrw.

(** ** Sessions on a rendered component

    A session replays the events a user fires on a component: an event
    whose control is disabled or not rendered is ignored ([enabled]), any
    other runs its handler ([step]), which gives the next state and the
    requests the handler sends. *)
Section Session.
Context {S O W : Type} (enabled : S -> O -> bool) (step : S -> O -> S * list W).

Fixpoint session (s : S) (ops : list O) : S * list W :=
  match ops with
  | [] => (s, [])
  | op :: ops' =>
      if enabled s op then
        let '(s', w) := step s op in
        let '(s'', ws) := session s' ops' in
        (s'', w ++ ws)
      else session s ops'
  end.

(** An invariant that every enabled event keeps, and a property of the
    requests every enabled event sends from a state of the invariant, hold
    of every session from a state of the invariant. *)
(** An enabled event runs its handler, then the rest of the session. *)
Lemma session_cons_enabled (s : S) (op : O) (ops : list O) :
  enabled s op = true ->
  session s (op :: ops) = ((session (step s op).1 ops).1, (step s op).2 ++ (session (step s op).1 ops).2).
Proof. intros H. cbn. rewrite H. destruct (step s op), (session _ ops). reflexivity. Qed.

Lemma session_inv (P : S -> Prop) (Q : W -> Prop) :
  (forall s op, P s -> enabled s op = true -> P (step s op).1 /\ Forall Q (step s op).2) ->
  forall ops s, P s -> P (session s ops).1 /\ Forall Q (session s ops).2.
Proof.
  intros Hstep ops. induction ops as [|op ops IH]; intros s Hs; cbn [session]; [by split|].
  destruct (enabled s op) eqn:Hen; [|by apply IH].
  destruct (Hstep s op Hs Hen) as [Hs' Hw]. destruct (step s op) as [s' w].
  destruct (IH s' Hs') as [Hf Hws]. destruct (session s' ops) as [s'' ws].
  split; [done|]. apply Forall_app. by split.
Qed.

End Session.
