(* ===== verification/Strings.v ===== *)
(** * [trim] of [src/src/utils/strings.js]

    The contract returns its JSON documents inside a byte buffer that carries
    a few bytes of encoding around the text; [trim] keeps the part from the
    first '[' or '{' to the last matching ']' or '}'. Module [Trim] models the
    function line by line: the ascending search for the first bracket, the
    descending search (which stops before index 0) for the closing one, and
    the final [substr]. The theorems characterise the result completely:
    unchanged text without brackets, exact recovery of a framed JSON text,
    a slice of the input, idempotence, and the padding that defeats it. *)

From S2P Require Import Prelude.

Module Trim.

(** [input[i] === '[' || input[i] === '{'] *)
Definition is_open (c : ascii) : bool :=
  bool_decide (c = "["%char) || bool_decide (c = "{"%char).

(** [endChar = startChar === '[' ? ']' : '}'] *)
Definition end_char_of (c : ascii) : ascii :=
  if bool_decide (c = "["%char) then "]"%char else "}"%char.

(** The first loop: [for (let i = 0; i < input.length; i++)], breaking at
    the first bracket. It walks the remaining characters with the index
    [i]; the result is [(startPoint, endChar)], and [endChar] is [None]
    while it is still the empty string it was initialised to. *)
Fixpoint scan_start (l : jsstr) (i : nat) : nat * option ascii :=
  match l with
  | [] => (0, None)
  | c :: l' => if is_open c then (i, Some (end_char_of c)) else scan_start l' (S i)
  end.

(** [input[i] === endChar]: a character is never the empty string. *)
Definition char_is (c : option ascii) (e : option ascii) : bool :=
  match c, e with
  | Some c, Some e => bool_decide (c = e)
  | _, _ => false
  end.

(** The second loop: [for (let i = input.length - 1; i > 0; i--)],
    breaking at the first (from the end) occurrence of [endChar]; [None]
    when the loop runs out, and [endPoint] keeps [input.length]. *)
Fixpoint scan_end (input : jsstr) (e : option ascii) (i : nat) : option nat :=
  match i with
  | O => None
  | S k => if char_is (input !! i) e then Some i else scan_end input e k
  end.

(** The whole function. *)
Definition trim (input : jsstr) : jsstr :=
  if decide (input = []) then [] else
  let '(startPoint, endChar) := scan_start input 0 in
  let endPoint := default (length input) (scan_end input endChar (length input - 1)) in
  js_substr input startPoint (Z.of_nat endPoint - Z.of_nat startPoint + 1).

(** ** Lemmas on the two loops *)

Lemma end_char_of_not_open (c : ascii) :
  is_open c = true -> end_char_of c <> c.
Proof. unfold is_open, end_char_of. repeat case_bool_decide; naive_solver. Qed.

Lemma char_is_some (c : option ascii) (e : ascii) :
  char_is c (Some e) = true <-> c = Some e.
Proof. destruct c; simpl; [rewrite bool_decide_eq_true|]; naive_solver. Qed.

(** The first loop skips characters that are not brackets. *)
Lemma scan_start_skip (p l : jsstr) (i : nat) :
  Forall (fun x => is_open x = false) p ->
  scan_start (p ++ l) i = scan_start l (length p + i).
Proof.
  intros Hp. revert i. induction Hp as [|x p Hx Hp IH]; intros i; [done|].
  simpl. rewrite Hx, IH. f_equal. lia.
Qed.

(** The second loop, ran to the end, finds nothing. *)
Lemma scan_end_absent (s : jsstr) (e : ascii) (i : nat) :
  (forall m, 0 < m <= i -> s !! m <> Some e) -> scan_end s (Some e) i = None.
Proof.
  induction i as [|k IH]; intros H; [done|]. simpl.
  destruct (char_is _ _) eqn:Hc.
  - apply char_is_some in Hc. exfalso. apply (H (S k)); [lia|done].
  - apply IH. intros m Hm. apply H. lia.
Qed.

(** The second loop finds the last occurrence above index 0. *)
Lemma scan_end_last (s : jsstr) (e : ascii) (i j : nat) :
  0 < j <= i -> s !! j = Some e ->
  (forall m, j < m <= i -> s !! m <> Some e) ->
  scan_end s (Some e) i = Some j.
Proof.
  induction i as [|k IH]; intros Hj Hs Habove; [lia|]. simpl.
  destruct (decide (j = S k)) as [->|Hne].
  - by rewrite (proj2 (char_is_some _ _) Hs).
  - destruct (char_is _ _) eqn:Hc.
    + apply char_is_some in Hc. exfalso. apply (Habove (S k)); [lia|done].
    + apply IH; [lia|done|]. intros m Hm. apply Habove. lia.
Qed.

(** What the second loop returns. *)
Lemma scan_end_sound (s : jsstr) (e : ascii) (i j : nat) :
  scan_end s (Some e) i = Some j ->
  0 < j <= i /\ s !! j = Some e /\ (forall m, j < m <= i -> s !! m <> Some e).
Proof.
  induction i as [|k IH]; simpl; [done|].
  destruct (char_is _ _) eqn:Hc.
  - intros [= <-]. apply char_is_some in Hc. split; [lia|]. split; [done|lia].
  - intros Hk. destruct (IH Hk) as (Hj & Hs & Habove). split; [lia|]. split; [done|].
    intros m Hm. destruct (decide (m = S k)) as [->|].
    + intros Hm'. by rewrite (proj2 (char_is_some _ _) Hm') in Hc.
    + apply Habove. lia.
Qed.

(** Either the second loop runs out, or it stops at the last occurrence. *)
Lemma scan_end_cases (s : jsstr) (e : ascii) (i : nat) :
  (scan_end s (Some e) i = None /\ forall m, 0 < m <= i -> s !! m <> Some e) \/
  (exists j, scan_end s (Some e) i = Some j /\ 0 < j <= i /\ s !! j = Some e /\
             forall m, j < m <= i -> s !! m <> Some e).
Proof.
  destruct (scan_end s (Some e) i) as [j|] eqn:H.
  - right. exists j. split; [done|]. by apply scan_end_sound.
  - left. split; [done|]. induction i as [|k IH]; [lia|].
    simpl in H. destruct (char_is _ _) eqn:Hc; [done|].
    intros m Hm Hsm. destruct (decide (m = S k)) as [->|].
    + by rewrite (proj2 (char_is_some _ _) Hsm) in Hc.
    + apply (IH H m); [lia|done].
Qed.

(** [trim] of a text whose first bracket is [c], after the bracket-free
    prefix [p]. *)
Lemma trim_open_split (p r : jsstr) (c : ascii) :
  Forall (fun x => is_open x = false) p -> is_open c = true ->
  trim (p ++ c :: r) =
  js_substr (p ++ c :: r) (length p)
    (Z.of_nat (default (length (p ++ c :: r))
       (scan_end (p ++ c :: r) (Some (end_char_of c)) (length (p ++ c :: r) - 1)))
     - Z.of_nat (length p) + 1).
Proof.
  intros Hp Hc. unfold trim.
  rewrite decide_False by (by destruct p).
  by rewrite scan_start_skip, Nat.add_0_r by done; simpl; rewrite Hc.
Qed.

(** A slice starting at the bracket, cut right after position [j]. *)
Lemma substr_from_bracket (p r : jsstr) (c : ascii) (k : nat) :
  js_substr (p ++ c :: r) (length p)
    (Z.of_nat (length p + S k) - Z.of_nat (length p) + 1) = c :: take (S k) r.
Proof.
  unfold js_substr. rewrite drop_app_length.
  replace (Z.to_nat _) with (S (S k)) by lia. done.
Qed.

Lemma scan_end_no_char (s : jsstr) (i : nat) : scan_end s None i = None.
Proof. induction i as [|k IH]; simpl; [done|]. by destruct (s !! S k). Qed.

(** A bracket that is never closed: everything from it on is kept. *)
Lemma trim_open_unclosed (p r : jsstr) (c : ascii) :
  Forall (fun x => is_open x = false) p -> is_open c = true ->
  (forall m, 0 < m -> (p ++ c :: r) !! m <> Some (end_char_of c)) ->
  trim (p ++ c :: r) = c :: r.
Proof.
  intros Hp Hc Hnone. rewrite trim_open_split by done.
  rewrite scan_end_absent by (intros m Hm; apply Hnone; lia). simpl.
  unfold js_substr. rewrite drop_app_length. apply take_ge. rewrite length_app. simpl. lia.
Qed.

(** ** Properties of [trim] *)

(** A text without '[' or '{' comes back unchanged. *)
Theorem trim_no_bracket (s : jsstr) :
  Forall (fun x => is_open x = false) s -> trim s = s.
Proof.
  intros Hs. unfold trim. case_decide; [done|].
  pose proof (scan_start_skip s [] 0 Hs) as Hst. rewrite app_nil_r in Hst.
  rewrite Hst. simpl. rewrite scan_end_no_char. unfold js_substr. simpl. apply take_ge. lia.
Qed.

(** The text [trim] cuts out of a framed JSON text. *)
Lemma trim_bracketed (p body q : jsstr) (c : ascii) :
  Forall (fun x => is_open x = false) p -> is_open c = true ->
  Forall (fun x => x <> end_char_of c) q ->
  trim (p ++ c :: body ++ end_char_of c :: q) = c :: body ++ [end_char_of c].
Proof.
  intros Hp Hc Hq. rewrite trim_open_split by done.
  rewrite (scan_end_last _ _ _ (length p + S (length body))); simpl.
  - rewrite substr_from_bracket, take_app, take_ge by lia.
    by replace (S (length body) - length body) with 1 by lia.
  - rewrite !length_app. simpl. rewrite length_app. simpl. lia.
  - rewrite lookup_app_r_add. simpl. by apply list_lookup_middle.
  - intros m Hm Hsm.
    replace (p ++ c :: body ++ end_char_of c :: q)
      with ((p ++ c :: body ++ [end_char_of c]) ++ q) in Hsm
      by (rewrite <- app_assoc; simpl; by rewrite <- app_assoc).
    rewrite lookup_app_r in Hsm by (rewrite !length_app; simpl; rewrite length_app; simpl; lia).
    by eapply Forall_lookup_1 in Hsm; [|exact Hq].
Qed.

(** C1: a JSON text [c ++ body ++ e] between a prefix without opening
    brackets and a suffix without its closing bracket [e] is recovered
    exactly, whatever the body holds. *)
Theorem trim_frame (p body q : jsstr) (c : ascii) :
  Forall (fun x => is_open x = false) p -> is_open c = true ->
  Forall (fun x => x <> end_char_of c) q ->
  trim (p ++ c :: body ++ end_char_of c :: q) = c :: body ++ [end_char_of c].
Proof. apply trim_bracketed. Qed.

(** What [trim] can return: its input, nothing, an unclosed text from its
    first bracket, or a text from a bracket to its matching closer. *)
Lemma trim_shape (s : jsstr) :
  trim s = s \/ trim s = [] \/
  (exists c r, is_open c = true /\ trim s = c :: r /\
               Forall (fun x => x <> end_char_of c) r) \/
  (exists c b, is_open c = true /\ trim s = c :: b ++ [end_char_of c]).
Proof.
  destruct (list_first_split is_open s) as [Hs|(p & c & r & -> & Hp & Hc)].
  { left. by apply trim_no_bracket. }
  rewrite trim_open_split by done.
  destruct (scan_end_cases (p ++ c :: r) (end_char_of c) (length (p ++ c :: r) - 1))
    as [[-> Hnone]|(j & -> & Hj & Hsj & Habove)]; simpl.
  - right; right; left. exists c, r. split; [done|]. split.
    + unfold js_substr. rewrite drop_app_length. apply take_ge. rewrite length_app. simpl. lia.
    + apply Forall_lookup_2. intros i x Hx ->.
      apply (Hnone (length p + S i)).
      * apply lookup_lt_Some in Hx. rewrite length_app. simpl. lia.
      * by rewrite lookup_app_r_add.
  - destruct (lt_eq_lt_dec j (length p)) as [[Hlt| ->]|Hgt].
    + right; left. unfold js_substr. by replace (Z.to_nat _) with 0 by lia.
    + exfalso. rewrite <- (Nat.add_0_r (length p)), lookup_app_r_add in Hsj.
      simpl in Hsj. injection Hsj as Hsj. by apply (end_char_of_not_open c Hc).
    + right; right; right. exists c, (take (j - length p - 1) r). split; [done|].
      replace j with (length p + S (j - length p - 1)) in * by lia.
      rewrite substr_from_bracket. rewrite lookup_app_r_add in Hsj.
      simpl in Hsj. rewrite (take_S_r _ _ _ Hsj). do 3 f_equal. lia.
Qed.

(** [trim] is idempotent: trimming a trimmed text changes nothing. *)
Theorem trim_idempotent (s : jsstr) : trim (trim s) = trim s.
Proof.
  destruct (trim_shape s) as [Hs|[->|[(c & r & Hc & -> & Hr)|(c & b & Hc & ->)]]].
  - by rewrite !Hs.
  - done.
  - apply (trim_open_unclosed []); [constructor|done|].
    intros [|m] Hm Hsm; [lia|]. simpl in Hsm.
    by eapply Forall_lookup_1 in Hsm; [|exact Hr].
  - by apply (trim_bracketed [] b []).
Qed.

(** [trim] only cuts: its result is a contiguous slice of the input. *)
Theorem trim_slice (s : jsstr) : exists a b, s = a ++ trim s ++ b.
Proof.
  unfold trim. case_decide; [subst; by exists [], []|].
  destruct (scan_start s 0). apply js_substr_infix.
Qed.

(** An opening bracket in the padding before an object wins: [trim]
    returns the text from that bracket, which still holds the padding's
    '[' and is no longer the object (when nothing in the buffer closes
    it). A byte 0x5B in the encoding header of the buffer does this. *)
Theorem trim_bracket_padding (p body q : jsstr) :
  Forall (fun x => is_open x = false) p ->
  Forall (fun x => x <> "]"%char) (p ++ body ++ q) ->
  trim (p ++ "["%char :: "{"%char :: body ++ "}"%char :: q) =
  "["%char :: "{"%char :: body ++ "}"%char :: q.
Proof.
  intros Hp Hclose.
  assert (Forall (fun x => x <> "]"%char)
            (p ++ "["%char :: "{"%char :: body ++ "}"%char :: q)) as Hall.
  { rewrite !Forall_app in Hclose. destruct Hclose as (Hp' & Hb & Hq).
    apply Forall_app. split; [done|].
    repeat constructor; try discriminate. apply Forall_app. split; [done|].
    repeat constructor; [discriminate|done]. }
  apply trim_open_unclosed; [done|done|].
  intros m _ Hm. change (end_char_of "[") with "]"%char in Hm.
  by eapply Forall_lookup_1 in Hm; [|exact Hall].
Qed.

(** ** Witnesses *)

Lemma trim_frame_witness :
  trim (js "01" ++ "["%char :: js "1,[2]" ++ "]"%char :: js "xy") =
  "["%char :: js "1,[2]" ++ ["]"%char].
Proof.
  apply (trim_frame (js "01") (js "1,[2]") (js "xy") "["%char);
    repeat constructor; discriminate.
Defined.

Lemma trim_no_bracket_witness : trim (js "plain text") = js "plain text".
Proof. apply trim_no_bracket. repeat constructor. Defined.

Lemma trim_bracket_padding_witness :
  trim (js "A" ++ "["%char :: "{"%char :: js "k:1" ++ "}"%char :: []) =
  "["%char :: "{"%char :: js "k:1" ++ "}"%char :: [].
Proof.
  apply (trim_bracket_padding (js "A") (js "k:1") []);
    repeat constructor; discriminate.
Defined.

End Trim.
