(* ===== verification/Substrate.v ===== *)
(** * The connection store of [src/src/substrate-lib/SubstrateContext.js]

    [INIT_STATE] becomes the Record [State]. The string constants the code
    stores in [apiState], [keyringState] and [tokenContractState] become one
    Inductive [Phase] ([null] is [None]). The action objects become the
    Inductive [Action], and [reducer] maps a state and an action to the next
    state, or to the exception its [default:] branch throws. The objects the
    store only holds by reference (the ApiPromise, the ui-keyring module,
    the contract and its ABI) become handles that carry what the hook reads
    from them. *)

From S2P Require Import Prelude.

Module Store.

(** The string literals of the three status fields. *)
Inductive Phase := CONNECTING | READY | ERROR | NO_ACCOUNTS | LOADING.

(** An [ApiPromise] object, by identity. *)
Inductive Api := ApiHandle (id : nat).

(** The [@polkadot/ui-keyring] module object (a singleton). *)
Inductive Keyring := UiKeyring.

(** An injected account, [{ address, meta: { name, source } }]; a keyring
    pair carries the same fields. *)
Record Account := mkAccount {
  address : string;
  meta_name : string;
  meta_source : string
}.

(** [new Abi(api.registry, TOKEN_CONTRACT_ABI)]: built from an api. *)
Record Abi := mkAbi { abi_registry : Api }.

(** [new PromiseContract(api, abi, config.TOKEN_CONTRACT_ADDRESS)]. *)
Record Contract := mkContract {
  contract_api : Api;
  contract_abi : Abi;
  contract_address : string
}.

#[export] Instance Phase_eq_dec : EqDecision Phase.
Proof. solve_decision. Defined.
#[export] Instance Api_eq_dec : EqDecision Api.
Proof. solve_decision. Defined.
#[export] Instance Keyring_eq_dec : EqDecision Keyring.
Proof. solve_decision. Defined.
#[export] Instance Account_eq_dec : EqDecision Account.
Proof. solve_decision. Defined.
#[export] Instance Abi_eq_dec : EqDecision Abi.
Proof. solve_decision. Defined.
#[export] Instance Contract_eq_dec : EqDecision Contract.
Proof. solve_decision. Defined.

(** [INIT_STATE] and the fields the reducer writes. *)
Record State := mkState {
  socket : string;
  jsonrpc : list string;
  types : list string;
  keyring : option Keyring;
  keyringState : option Phase;
  api : option Api;
  apiError : option string;
  apiState : option Phase;
  tokenContract : option Contract;
  tokenContractAbi : option Abi;
  tokenContractState : option Phase;
  accountAddress : option string;
  accountPair : option Account
}.

(** [INIT_STATE], given the values of its [socket], [jsonrpc] and [types]
    fields. *)
Definition INIT_STATE (sock : string) (rpc tys : list string) : State :=
  mkState sock rpc tys None None None None None None None None None None.

(** [parsedQuery.rpc || config.PROVIDER_SOCKET] *)
Definition connectedSocket (rpc_query : option string) (PROVIDER_SOCKET : string) : string :=
  match rpc_query with
  | Some r => if decide (r = ""%string) then PROVIDER_SOCKET else r
  | None => PROVIDER_SOCKET
  end.

(** [SubstrateContextProvider]'s [initState]: [INIT_STATE] with each of
    the [socket] and [types] props that is not [undefined]. *)
Definition provider_init (rpc_query : option string) (PROVIDER_SOCKET : string)
    (rpc CUSTOM_TYPES : list string) (socket_prop : option string) (types_prop : option (list string)) : State :=
  INIT_STATE (default (connectedSocket rpc_query PROVIDER_SOCKET) socket_prop) rpc
    (default CUSTOM_TYPES types_prop).

(** The payload of [SET_CONTRACT_DATA], spread over the state: a field the
    payload does not carry is [None] and keeps its value. *)
Record ContractData := mkContractData {
  cd_tokenContractAbi : option Abi;
  cd_tokenContract : option Contract;
  cd_tokenContractState : option Phase
}.

Inductive Action :=
| RESET_SOCKET (payload : option string)
| CONNECT (payload : Api)
| CONNECT_SUCCESS
| CONNECT_ERROR (payload : string)
| SET_KEYRING (payload : Keyring)
| KEYRING_ERROR
| KEYRING_NO_ACCOUNTS
| SET_CONTRACT_DATA (payload : ContractData)
| CONTRACT_ERROR
| SET_ACCOUNT_ADDRESS (accountAddress : option string) (accountPair : option Account)
| UNKNOWN (type : string).

(** [{ ...state, ...payload }] *)
Definition spread_contract_data (s : State) (d : ContractData) : State :=
  mkState s.(socket) s.(jsonrpc) s.(types) s.(keyring) s.(keyringState)
    s.(api) s.(apiError) s.(apiState)
    (from_option Some s.(tokenContract) d.(cd_tokenContract))
    (from_option Some s.(tokenContractAbi) d.(cd_tokenContractAbi))
    (from_option Some s.(tokenContractState) d.(cd_tokenContractState))
    s.(accountAddress) s.(accountPair).

(** [action.payload || state.socket]: an absent or empty payload keeps
    the current socket. *)
Definition socket_or (payload : option string) (cur : string) : string :=
  match payload with
  | Some p => if decide (p = ""%string) then cur else p
  | None => cur
  end.

Definition reducer (s : State) (a : Action) : result State :=
  match a with
  | RESET_SOCKET p =>
      Ok (mkState (socket_or p s.(socket)) s.(jsonrpc) s.(types) s.(keyring)
            s.(keyringState) None s.(apiError) None s.(tokenContract)
            s.(tokenContractAbi) s.(tokenContractState) s.(accountAddress) s.(accountPair))
  | CONNECT a =>
      Ok (mkState s.(socket) s.(jsonrpc) s.(types) s.(keyring) s.(keyringState)
            (Some a) s.(apiError) (Some CONNECTING) s.(tokenContract)
            s.(tokenContractAbi) s.(tokenContractState) s.(accountAddress) s.(accountPair))
  | CONNECT_SUCCESS =>
      Ok (mkState s.(socket) s.(jsonrpc) s.(types) s.(keyring) s.(keyringState)
            s.(api) s.(apiError) (Some READY) s.(tokenContract)
            s.(tokenContractAbi) s.(tokenContractState) s.(accountAddress) s.(accountPair))
  | CONNECT_ERROR e =>
      Ok (mkState s.(socket) s.(jsonrpc) s.(types) s.(keyring) s.(keyringState)
            s.(api) (Some e) (Some ERROR) s.(tokenContract)
            s.(tokenContractAbi) s.(tokenContractState) s.(accountAddress) s.(accountPair))
  | SET_KEYRING k =>
      Ok (mkState s.(socket) s.(jsonrpc) s.(types) (Some k) (Some READY)
            s.(api) s.(apiError) s.(apiState) s.(tokenContract)
            s.(tokenContractAbi) s.(tokenContractState) s.(accountAddress) s.(accountPair))
  | KEYRING_ERROR =>
      Ok (mkState s.(socket) s.(jsonrpc) s.(types) None (Some ERROR)
            s.(api) s.(apiError) s.(apiState) s.(tokenContract)
            s.(tokenContractAbi) s.(tokenContractState) s.(accountAddress) s.(accountPair))
  | KEYRING_NO_ACCOUNTS =>
      Ok (mkState s.(socket) s.(jsonrpc) s.(types) s.(keyring) (Some NO_ACCOUNTS)
            s.(api) s.(apiError) s.(apiState) s.(tokenContract)
            s.(tokenContractAbi) s.(tokenContractState) s.(accountAddress) s.(accountPair))
  | SET_CONTRACT_DATA d => Ok (spread_contract_data s d)
  | CONTRACT_ERROR =>
      Ok (mkState s.(socket) s.(jsonrpc) s.(types) s.(keyring) s.(keyringState)
            s.(api) s.(apiError) s.(apiState) s.(tokenContract)
            s.(tokenContractAbi) (Some ERROR) s.(accountAddress) s.(accountPair))
  | SET_ACCOUNT_ADDRESS addr pr =>
      Ok (mkState s.(socket) s.(jsonrpc) s.(types) s.(keyring) s.(keyringState)
            s.(api) s.(apiError) s.(apiState) s.(tokenContract)
            s.(tokenContractAbi) s.(tokenContractState) addr pr)
  | UNKNOWN t => Throw ("Unknown type: " ++ t)%string
  end.

(** Successive [dispatch] calls: the first exception stops the sequence
    (it propagates out of the handler that dispatched). *)
Fixpoint dispatch_all (s : State) (acts : list Action) : result State :=
  match acts with
  | [] => Ok s
  | a :: rest => s' ← reducer s a; dispatch_all s' rest
  end.

(** ** Frame lemmas: what a sequence of actions leaves alone *)

Definition keyring_action (a : Action) : bool :=
  match a with
  | SET_KEYRING _ | KEYRING_ERROR | KEYRING_NO_ACCOUNTS => true
  | _ => false
  end.

Definition contract_action (a : Action) : bool :=
  match a with
  | SET_CONTRACT_DATA _ | CONTRACT_ERROR => true
  | _ => false
  end.

Lemma dispatch_all_cons (s s' : State) (a : Action) (acts : list Action) :
  dispatch_all s (a :: acts) = Ok s' ->
  exists s1, reducer s a = Ok s1 /\ dispatch_all s1 acts = Ok s'.
Proof. simpl. destruct (reducer s a) as [s1|]; [eauto|done]. Qed.

(** Actions other than the keyring ones leave [keyringState] alone. *)
Lemma dispatch_keyringState (s s' : State) (acts : list Action) :
  Forall (fun a => keyring_action a = false) acts ->
  dispatch_all s acts = Ok s' -> s'.(keyringState) = s.(keyringState).
Proof.
  intros Hacts. revert s. induction Hacts as [|a acts Ha Hacts IH]; intros s H.
  - by injection H as <-.
  - apply dispatch_all_cons in H as (s1 & H1 & H2). rewrite (IH _ H2).
    destruct a; simpl in *; try discriminate; by injection H1 as <-.
Qed.

(** Only [SET_CONTRACT_DATA] carrying a contract sets [tokenContract]. *)
Lemma dispatch_tokenContract (s s' : State) (acts : list Action) :
  Forall (fun a => forall d, a = SET_CONTRACT_DATA d -> d.(cd_tokenContract) = None) acts ->
  dispatch_all s acts = Ok s' -> s'.(tokenContract) = s.(tokenContract).
Proof.
  intros Hacts. revert s. induction Hacts as [|a acts Ha Hacts IH]; intros s H.
  - by injection H as <-.
  - apply dispatch_all_cons in H as (s1 & H1 & H2). rewrite (IH _ H2).
    destruct a; simpl in *; try discriminate; injection H1 as <-; try done.
    simpl. by rewrite (Ha _ eq_refl).
Qed.

(** Actions other than the two contract ones leave [tokenContractState]. *)
Lemma dispatch_contract_state (s s' : State) (acts : list Action) :
  Forall (fun a => contract_action a = false) acts ->
  dispatch_all s acts = Ok s' -> s'.(tokenContractState) = s.(tokenContractState).
Proof.
  intros Hacts. revert s. induction Hacts as [|a acts Ha Hacts IH]; intros s H.
  - by injection H as <-.
  - apply dispatch_all_cons in H as (s1 & H1 & H2). rewrite (IH _ H2).
    destruct a; simpl in *; try discriminate; by injection H1 as <-.
Qed.

(** The contract becomes READY only through a [SET_CONTRACT_DATA] that
    says so. *)
Lemma dispatch_contract_ready (s s' : State) (acts : list Action) :
  dispatch_all s acts = Ok s' -> s'.(tokenContractState) = Some READY ->
  s.(tokenContractState) = Some READY \/
  exists d, SET_CONTRACT_DATA d ∈ acts /\ d.(cd_tokenContractState) = Some READY.
Proof.
  revert s. induction acts as [|a acts IH]; intros s H Hr.
  - injection H as <-. by left.
  - apply dispatch_all_cons in H as (s1 & H1 & H2).
    destruct (IH _ H2 Hr) as [H1r|(d & Hd & Hdr)].
    + destruct a; simpl in H1; try discriminate; injection H1 as <-; simpl in H1r; try by left.
      destruct (cd_tokenContractState _) eqn:Hc; simpl in H1r.
      * right. exists payload. split; [by left|congruence].
      * by left.
    + right. exists d. split; [by right|done].
Qed.

End Store.
