(* ===== verification/Lifecycle.v ===== *)
(** * The connection lifecycle of [src/src/contexts/useSubstrate.js]

    The hook's handlers [connect], [loadAccounts], [loadContract] and
    [setAccountAddress] are modelled as functions that return the actions
    they dispatch. The hook runs in an event-driven world: React re-runs an
    effect when its callback's dependencies changed since its last run; the
    ApiPromise emits [connected], [ready], [error] and [disconnected]; the
    extension answers [web3Enable]/[web3Accounts]; the contract answers the
    [version] query; and the user picks an account. [HState] is the store
    together with that world: the [@polkadot/ui-keyring] singleton (shared
    between the hook and the store, which only holds a reference to it), the
    ApiPromise objects created so far with their socket status, the
    dependency snapshot of each effect's last run, and the requests in
    flight. [step] is executable and returns [None] for an event that cannot
    happen in that state; [reachable] is its reflexive-transitive closure
    from [init].

    The configuration ([config.DEVELOPMENT_KEYRING] accounts and
    [config.TOKEN_CONTRACT_ADDRESS]) is a Section variable. *)

From S2P Require Import Prelude Substrate.
Import Store.

Module Lifecycle.

(** ** What the libraries answer *)

(** [web3Enable] and [web3Accounts] resolve with the injected accounts or
    reject. *)
Inductive ExtensionAnswer :=
| ExtAccounts (accounts : list Account)
| ExtFailure (msg : string).

(** What happens in [loadContract]'s [try] block: [new Abi] throws, the
    [tokenContract.call('rpc', ...)] throws synchronously, or the query is
    sent. *)
Inductive ContractSetup := AbiThrows | CallThrows | CallSent.

(** The [version] query: its output parsed by [Number.parseInt] ([None] is
    [NaN]), or a rejection. *)
Inductive RpcAnswer :=
| RpcOutput (version : option Z)
| RpcRejected (msg : string).

Inductive Event :=
| EffectConnect
| EffectLoadAccounts
| EffectLoadContract (setup : ContractSetup)
| ApiConnected (h : Api)
| ApiReady (h : Api)
| ApiErrored (h : Api) (err : string)
| ApiDisconnected (h : Api)
| ExtensionAnswered (ans : ExtensionAnswer)
| VersionAnswered (ans : RpcAnswer)
| SelectAccount (addr : option string).

Section Hook.

Context (DEVELOPMENT_KEYRING : list Account) (TOKEN_CONTRACT_ADDRESS : string).

(** ** The ui-keyring singleton *)

(** [keyring.getPair(address)]: the pair of a loaded address; an unknown
    or [undefined] address throws. *)
Definition getPair (kr : list Account) (addr : option string) : result Account :=
  match addr with
  | Some a =>
      match list_find (fun p => p.(address) = a) kr with
      | Some (_, p) => Ok p
      | None => Throw "Unable to retrieve keypair"
      end
  | None => Throw "Invalid address: undefined"
  end.

(** [keyring.loadAll({ isDevelopment }, allAccounts)]. *)
Definition loadAll (accounts : list Account) : list Account :=
  DEVELOPMENT_KEYRING ++ accounts.

(** ** [loadAccounts] *)

(** [{ address, meta: { ...meta, name: `${meta.name} (${meta.source})` } }] *)
Definition rename (a : Account) : Account :=
  mkAccount a.(address) (a.(meta_name) ++ " (" ++ a.(meta_source) ++ ")")%string a.(meta_source).

Definition is_polkadot_js (a : Account) : Prop := a.(meta_source) = "polkadot-js"%string.

(** The body of the [try] block once the extension has answered: the
    keyring after [loadAll] (a side effect that survives an exception) and
    the dispatched actions or the exception. The account selected when no
    account comes from polkadot-js is [allAccounts[0].address], a string,
    whose [.address] is [undefined]. *)
Definition loadAccounts_try (kr : list Account) (accs : list Account)
    : list Account * result (list Action) :=
  let allAccounts := map rename accs in
  let kr' := loadAll allAccounts in
  match allAccounts with
  | [] => (kr', Ok [KEYRING_NO_ACCOUNTS])
  | first :: _ =>
      match list_find is_polkadot_js allAccounts with
      | Some (_, account) =>
          (kr', pr ← getPair kr' (Some account.(address));
                Ok [SET_ACCOUNT_ADDRESS (Some account.(address)) (Some pr); SET_KEYRING UiKeyring])
      | None =>
          if decide (first.(address) = ""%string)
          then (kr', Ok [SET_ACCOUNT_ADDRESS None None; SET_KEYRING UiKeyring])
          else (kr', pr ← getPair kr' None;
                     Ok [SET_ACCOUNT_ADDRESS None (Some pr); SET_KEYRING UiKeyring])
      end
  end.

(** The continuation after [await web3Accounts()], with its [catch]. *)
Definition loadAccounts_done (kr : list Account) (ans : ExtensionAnswer)
    : list Account * list Action :=
  match ans with
  | ExtFailure _ => (kr, [KEYRING_ERROR])
  | ExtAccounts accs =>
      let '(kr', r) := loadAccounts_try kr accs in
      match r with
      | Ok acts => (kr', acts)
      | Throw _ => (kr', [KEYRING_ERROR])
      end
  end.

(** ** [loadContract] *)

(** The synchronous part: the guards, the contract built from [api], the
    dispatch of [LOADING], and the query left in flight. *)
Definition loadContract (s : State) (setup : ContractSetup)
    : list Action * option Contract :=
  match s.(tokenContract) with
  | Some _ => ([], None)
  | None =>
      match s.(apiState), s.(keyringState), s.(accountAddress) with
      | Some READY, Some READY, Some addr =>
          if decide (addr = ""%string) then ([], None) else
          match s.(api) with
          | None => ([CONTRACT_ERROR], None)
          | Some a =>
              let abi := mkAbi a in
              let c := mkContract a abi TOKEN_CONTRACT_ADDRESS in
              let loading := SET_CONTRACT_DATA (mkContractData (Some abi) (Some c) (Some LOADING)) in
              match setup with
              | AbiThrows => ([CONTRACT_ERROR], None)
              | CallThrows => ([loading; CONTRACT_ERROR], None)
              | CallSent => ([loading], Some c)
              end
          end
      | _, _, _ => ([], None)
      end
  end.

(** The [.then]/[.catch] of the version query. *)
Definition version_done (ans : RpcAnswer) : list Action :=
  match ans with
  | RpcOutput (Some v) =>
      if decide (v = 0%Z) then [CONTRACT_ERROR]
      else [SET_CONTRACT_DATA (mkContractData None None (Some READY))]
  | RpcOutput None => [CONTRACT_ERROR]
  | RpcRejected _ => [CONTRACT_ERROR]
  end.

(** ** [setAccountAddress] *)

(** [accountAddress && keyringState === 'READY' && keyring.getPair(accountAddress)];
    a falsy result is no pair. [getPair] throws out of the handler. *)
Definition setAccountAddress (s : State) (kr : list Account) (addr : option string)
    : result (list Action) :=
  match addr with
  | Some a =>
      if decide (a = ""%string) then Ok [SET_ACCOUNT_ADDRESS addr None]
      else if decide (s.(keyringState) = Some READY)
      then pr ← getPair kr addr; Ok [SET_ACCOUNT_ADDRESS addr (Some pr)]
      else Ok [SET_ACCOUNT_ADDRESS addr None]
  | None => Ok [SET_ACCOUNT_ADDRESS None None]
  end.

(** ** The hook in its world *)

Definition ConnectDeps : Type := option Api * string * list string * list string.
Definition ContractDeps : Type :=
  option Api * option Phase * option Phase * option string * option Contract.

Record HState := mkH {
  store : State;
  ui_keyring : list Account;
  apis : list (Api * bool);
  connect_deps : option ConnectDeps;
  accounts_deps : option (option Phase);
  contract_deps : option ContractDeps;
  accounts_pending : bool;
  version_pending : option Contract
}.

Definition init (sock : string) (rpc tys : list string) : HState :=
  mkH (INIT_STATE sock rpc tys) [] [] None None None false None.

(** [useCallback] dependencies of each effect. *)
Definition connect_deps_of (s : State) : ConnectDeps :=
  (s.(api), s.(socket), s.(jsonrpc), s.(types)).
Definition contract_deps_of (s : State) : ContractDeps :=
  (s.(api), s.(apiState), s.(keyringState), s.(accountAddress), s.(tokenContract)).

Definition set_connected (h : Api) (b : bool) (l : list (Api * bool)) : list (Api * bool) :=
  map (fun '(h', f) => if decide (h' = h) then (h', b) else (h', f)) l.

(** Dispatch from a handler: the store after the actions, the world
    otherwise unchanged. *)
Definition with_store (hs : HState) (s : State) : HState :=
  mkH s hs.(ui_keyring) hs.(apis) hs.(connect_deps) hs.(accounts_deps)
    hs.(contract_deps) hs.(accounts_pending) hs.(version_pending).

(** Dispatch, then rebuild the world around the new store. *)
Definition after (s : State) (acts : list Action) (k : State -> HState) : option HState :=
  match dispatch_all s acts with
  | Ok s' => Some (k s')
  | Throw _ => None
  end.

Definition dispatch (hs : HState) (acts : list Action) : option HState :=
  after hs.(store) acts (with_store hs).

Definition step (hs : HState) (ev : Event) : option HState :=
  let s := hs.(store) in
  match ev with
  | EffectConnect =>
      if decide (hs.(connect_deps) = Some (connect_deps_of s)) then None else
      let deps := Some (connect_deps_of s) in
      match s.(api) with
      | Some _ =>
          Some (mkH s hs.(ui_keyring) hs.(apis) deps hs.(accounts_deps)
                  hs.(contract_deps) hs.(accounts_pending) hs.(version_pending))
      | None =>
          let h := ApiHandle (length hs.(apis)) in
          Some (mkH s hs.(ui_keyring) (hs.(apis) ++ [(h, false)]) deps hs.(accounts_deps)
                  hs.(contract_deps) hs.(accounts_pending) hs.(version_pending))
      end
  | EffectLoadAccounts =>
      if decide (hs.(accounts_deps) = Some s.(keyringState)) then None else
      Some (mkH s hs.(ui_keyring) hs.(apis) hs.(connect_deps) (Some s.(keyringState))
              hs.(contract_deps)
              (if s.(keyringState) is Some _ then hs.(accounts_pending) else true)
              hs.(version_pending))
  | EffectLoadContract setup =>
      if decide (hs.(contract_deps) = Some (contract_deps_of s)) then None else
      let '(acts, pending) := loadContract s setup in
      after s acts (fun s' =>
        mkH s' hs.(ui_keyring) hs.(apis) hs.(connect_deps) hs.(accounts_deps)
          (Some (contract_deps_of s))
          hs.(accounts_pending) (from_option Some hs.(version_pending) pending))
  | ApiConnected h =>
      if decide ((h, false) ∈ hs.(apis)) then
        after s [CONNECT h] (fun s' =>
          mkH s' hs.(ui_keyring) (set_connected h true hs.(apis)) hs.(connect_deps)
            hs.(accounts_deps) hs.(contract_deps) hs.(accounts_pending) hs.(version_pending))
      else None
  | ApiReady h =>
      if decide ((h, true) ∈ hs.(apis)) then dispatch hs [CONNECT_SUCCESS] else None
  | ApiErrored h e =>
      if decide (h ∈ map fst hs.(apis)) then dispatch hs [CONNECT_ERROR e] else None
  | ApiDisconnected h =>
      if decide ((h, true) ∈ hs.(apis)) then
        Some (mkH s hs.(ui_keyring) (set_connected h false hs.(apis)) hs.(connect_deps)
                hs.(accounts_deps) hs.(contract_deps) hs.(accounts_pending) hs.(version_pending))
      else None
  | ExtensionAnswered ans =>
      if hs.(accounts_pending) then
        let '(kr', acts) := loadAccounts_done hs.(ui_keyring) ans in
        after s acts (fun s' =>
          mkH s' kr' hs.(apis) hs.(connect_deps) hs.(accounts_deps) hs.(contract_deps)
            false hs.(version_pending))
      else None
  | VersionAnswered ans =>
      match hs.(version_pending) with
      | Some _ =>
          after s (version_done ans) (fun s' =>
            mkH s' hs.(ui_keyring) hs.(apis) hs.(connect_deps) hs.(accounts_deps)
              hs.(contract_deps) hs.(accounts_pending) None)
      | None => None
      end
  | SelectAccount addr =>
      match setAccountAddress s hs.(ui_keyring) addr with
      | Ok acts => dispatch hs acts
      | Throw _ => Some hs
      end
  end.

(** Runs of events, and the states they reach. *)
Fixpoint run (hs : HState) (evs : list Event) : option HState :=
  match evs with
  | [] => Some hs
  | ev :: rest => hs' ← step hs ev; run hs' rest
  end.

Inductive reachable (sock : string) (rpc tys : list string) : HState -> Prop :=
| reach_init : reachable sock rpc tys (init sock rpc tys)
| reach_step hs ev hs' :
    reachable sock rpc tys hs -> step hs ev = Some hs' -> reachable sock rpc tys hs'.

(** ** Helper lemmas *)

Lemma getPair_ok (kr : list Account) (addr : option string) (p : Account) :
  getPair kr addr = Ok p -> addr = Some p.(address) /\ p ∈ kr.
Proof.
  unfold getPair. destruct addr as [a|]; [|done].
  destruct (list_find _ kr) as [[i q]|] eqn:Hf; [|done]. intros [= <-].
  apply list_find_Some in Hf as (Hq & -> & _). split; [done|].
  by eapply list_elem_of_lookup_2.
Qed.

(** What the extension's answer makes [loadAccounts] dispatch: an error,
    no accounts, or a pair from the loaded keyring with its address. *)
Lemma loadAccounts_done_cases (kr : list Account) (ans : ExtensionAnswer) :
  let '(kr', acts) := loadAccounts_done kr ans in
  acts = [KEYRING_ERROR] \/ acts = [KEYRING_NO_ACCOUNTS] \/
  acts = [SET_ACCOUNT_ADDRESS None None; SET_KEYRING UiKeyring] \/
  exists p, p ∈ kr' /\
    acts = [SET_ACCOUNT_ADDRESS (Some p.(address)) (Some p); SET_KEYRING UiKeyring].
Proof.
  destruct ans as [accs|]; simpl; [|auto].
  unfold loadAccounts_try. destruct (map rename accs) as [|a rest]; [auto|].
  destruct (list_find _ _) as [[i acc]|].
  - destruct (getPair _ _) as [p|] eqn:Hp; simpl; [|auto].
    apply getPair_ok in Hp as [[= ->] Hin]. eauto 10.
  - case_decide; simpl; auto.
Qed.

Lemma setAccountAddress_cases (s : State) (kr : list Account) (addr : option string)
    (acts : list Action) :
  setAccountAddress s kr addr = Ok acts ->
  acts = [SET_ACCOUNT_ADDRESS addr None] \/
  exists p, p ∈ kr /\ addr = Some p.(address) /\ s.(keyringState) = Some READY /\
    acts = [SET_ACCOUNT_ADDRESS addr (Some p)].
Proof.
  unfold setAccountAddress. destruct addr as [a|]; [|intros [= <-]; auto].
  repeat case_decide; try (intros [= <-]; auto).
  destruct (getPair kr (Some a)) as [p|] eqn:Hp; [|done]. intros [= <-].
  apply getPair_ok in Hp as [Ha Hin]. right. eauto.
Qed.

Lemma version_done_cases (ans : RpcAnswer) :
  version_done ans = [CONTRACT_ERROR] \/
  version_done ans = [SET_CONTRACT_DATA (mkContractData None None (Some READY))].
Proof. destruct ans as [[v|]|]; simpl; [case_decide|..]; auto. Qed.

(** What [loadContract] dispatches, and what it leaves in flight. *)
Lemma loadContract_cases (s : State) (setup : ContractSetup) :
  let '(acts, pending) := loadContract s setup in
  (acts = [] /\ pending = None) \/
  (acts = [CONTRACT_ERROR] /\ pending = None /\ s.(tokenContract) = None) \/
  exists a, s.(tokenContract) = None /\ s.(api) = Some a /\
    let c := mkContract a (mkAbi a) TOKEN_CONTRACT_ADDRESS in
    let loading := SET_CONTRACT_DATA (mkContractData (Some (mkAbi a)) (Some c) (Some LOADING)) in
    ((acts = [loading; CONTRACT_ERROR] /\ pending = None) \/
     (acts = [loading] /\ pending = Some c)).
Proof.
  unfold loadContract. destruct (tokenContract s) eqn:Hc; [auto|].
  destruct (apiState s) as [[]|], (keyringState s) as [[]|], (accountAddress s) as [a|];
    simpl; auto.
  case_decide; [auto|]. destruct (api s) as [h|] eqn:Ha; [|auto].
  destruct setup; [auto|right; right; exists h; auto..].
Qed.

(** ** The invariant of every reachable state *)

Record Inv (hs : HState) : Prop := {
  inv_pair : forall p, hs.(store).(accountPair) = Some p ->
    hs.(store).(accountAddress) = Some p.(address) /\ p ∈ hs.(ui_keyring);
  inv_pair_none : hs.(store).(keyringState) = None -> hs.(store).(accountPair) = None;
  inv_pending : hs.(accounts_pending) = true -> hs.(store).(keyringState) = None;
  inv_keyring : hs.(store).(keyringState) = Some READY -> hs.(store).(keyring) = Some UiKeyring;
  inv_contract : hs.(store).(tokenContractState) = Some LOADING \/
                 hs.(store).(tokenContractState) = Some READY -> is_Some hs.(store).(tokenContract);
  inv_version : forall c, hs.(version_pending) = Some c -> hs.(store).(tokenContract) = Some c;
  inv_contract_api : forall c, hs.(store).(tokenContract) = Some c ->
    hs.(store).(api) = Some c.(contract_api) /\ hs.(store).(tokenContractAbi) = Some c.(contract_abi);
  inv_apis : (hs.(apis) = [] /\ hs.(store).(api) = None) \/
    exists h b, hs.(apis) = [(h, b)] /\
      (hs.(store).(api) = None \/ hs.(store).(api) = Some h) /\
      (b = true -> hs.(store).(api) = Some h);
  inv_fresh : hs.(apis) <> [] -> hs.(store).(api) = None ->
    hs.(connect_deps) = Some (connect_deps_of hs.(store))
}.

Lemma Inv_init (sock : string) (rpc tys : list string) : Inv (init sock rpc tys).
Proof. split; simpl; try done; [intros [?|?]; done|by left]. Qed.

Lemma Inv_effect_connect (hs hs' : HState) :
  Inv hs -> step hs EffectConnect = Some hs' -> Inv hs'.
Proof.
  intros [Ip Ipn Ipe Ik Ic Iv Ica Ia If] H. simpl in H. case_decide as Hd; [done|].
  destruct (api (store hs)) as [a|] eqn:Ha; injection H as H; subst hs'.
  - split; simpl; rewrite ?Ha; auto; intros; congruence.
  - destruct Ia as [[Hn _]|(h & b & Hab & _)]; [|by rewrite If in Hd; rewrite ?Hab].
    rewrite Hn. split; simpl; rewrite ?Ha; auto.
    right. exists (ApiHandle 0), false. split; [done|]. split; [by left|done].
Qed.

Lemma Inv_effect_accounts (hs hs' : HState) :
  Inv hs -> step hs EffectLoadAccounts = Some hs' -> Inv hs'.
Proof.
  intros [Ip Ipn Ipe Ik Ic Iv Ica Ia If] H. simpl in H. case_decide; [done|].
  injection H as H; subst hs'. split; simpl; auto.
  destruct (keyringState (store hs)); auto.
Qed.

Lemma Inv_effect_contract (hs hs' : HState) (setup : ContractSetup) :
  Inv hs -> step hs (EffectLoadContract setup) = Some hs' -> Inv hs'.
Proof.
  intros I H. simpl in H. case_decide; [done|].
  pose proof (loadContract_cases (store hs) setup) as Hc.
  destruct (loadContract _ _) as [acts pending].
  destruct Hc as [[-> ->]|[(-> & -> & _)|(a & Hnone & Ha & [[-> ->]|[-> ->]])]];
    unfold after in H; simpl in H; injection H as H; subst hs';
    try (assert (version_pending hs = None) as Hvp
           by (destruct (version_pending hs) as [c|] eqn:Hv; [|done];
               apply (inv_version _ I) in Hv; congruence); rewrite ?Hvp);
    destruct I.
  all: split; simpl; auto; try (intros [Hx|Hx]; discriminate Hx);
    try (intros c [= <-]; simpl; auto).
Qed.

(** The ApiPromise an event names is the only one, and the one in the store
    whenever it is connected. *)
Lemma Inv_single_api (hs : HState) (h : Api) (b : bool) :
  Inv hs -> (h, b) ∈ hs.(apis) ->
  hs.(apis) = [(h, b)] /\ (hs.(store).(api) = None \/ hs.(store).(api) = Some h) /\
  (b = true -> hs.(store).(api) = Some h).
Proof.
  intros I Hin. destruct (inv_apis _ I) as [[Hn _]|(h0 & b0 & Hab & Hapi & Hb)].
  - rewrite Hn in Hin. by apply not_elem_of_nil in Hin.
  - rewrite Hab in Hin. apply list_elem_of_singleton in Hin. by injection Hin as -> ->.
Qed.

Lemma set_connected_single (h : Api) (b b' : bool) :
  set_connected h b' [(h, b)] = [(h, b')].
Proof. simpl. by rewrite decide_True. Qed.

Lemma Inv_api_event (hs hs' : HState) (ev : Event) :
  (exists h, ev = ApiConnected h \/ ev = ApiReady h \/ ev = ApiDisconnected h \/
             exists e, ev = ApiErrored h e) ->
  Inv hs -> step hs ev = Some hs' -> Inv hs'.
Proof.
  intros (h & [->|[->|[->|[e ->]]]]) I H; simpl in H; case_decide as Hin; try done;
    unfold dispatch, after in H; simpl in H; injection H as H; subst hs'.
  - destruct (Inv_single_api _ _ _ I Hin) as (Hab & Hapi & _).
    rewrite Hab, set_connected_single. destruct I. split; simpl; auto.
    + intros c Hc. destruct (inv_contract_api0 c Hc) as [Ha Habi].
      destruct Hapi as [Hapi|Hapi]; rewrite Hapi in Ha; [done|]. by rewrite Ha.
    + right. exists h, true. split; [done|]. split; [by right|done].
    + done.
  - destruct I. split; simpl; auto.
  - destruct (Inv_single_api _ _ _ I Hin) as (Hab & _ & Hapi).
    rewrite Hab, set_connected_single. destruct I. split; simpl; auto.
    + right. exists h, false. split; [done|]. split; [by right; apply Hapi|done].
    + rewrite Hapi by done. done.
  - destruct I. split; simpl; auto.
Qed.

Lemma Inv_extension (hs hs' : HState) (ans : ExtensionAnswer) :
  Inv hs -> step hs (ExtensionAnswered ans) = Some hs' -> Inv hs'.
Proof.
  intros I H. simpl in H. destruct (accounts_pending hs) eqn:Hp; [|done].
  pose proof (inv_pair_none _ I (inv_pending _ I Hp)) as Hnopair.
  pose proof (loadAccounts_done_cases (ui_keyring hs) ans) as Hc.
  destruct (loadAccounts_done _ _) as [kr' acts].
  destruct Hc as [->|[->|[->|(p & Hin & ->)]]];
    unfold after in H; simpl in H; injection H as H; subst hs'; destruct I;
    split; simpl; auto; try done; try (rewrite Hnopair; done).
  intros q [= <-]. auto.
Qed.

Lemma Inv_version (hs hs' : HState) (ans : RpcAnswer) :
  Inv hs -> step hs (VersionAnswered ans) = Some hs' -> Inv hs'.
Proof.
  intros I H. simpl in H. destruct (version_pending hs) as [c|] eqn:Hv; [|done].
  pose proof (inv_version _ I c Hv) as Hc.
  destruct (version_done_cases ans) as [Ha|Ha]; rewrite Ha in H;
    unfold after in H; simpl in H; injection H as H; subst hs'; destruct I;
    split; simpl; auto; try (intros [Hx|Hx]; discriminate Hx); try done.
Qed.

Lemma Inv_select (hs hs' : HState) (addr : option string) :
  Inv hs -> step hs (SelectAccount addr) = Some hs' -> Inv hs'.
Proof.
  intros I H. simpl in H.
  destruct (setAccountAddress _ _ addr) as [acts|] eqn:Hs; [|by injection H as <-].
  apply setAccountAddress_cases in Hs as [->|(p & Hin & -> & Hk & ->)];
    unfold dispatch, after in H; simpl in H; injection H as H; subst hs'; destruct I;
    split; simpl; auto; try done.
  - intros q [= <-]. auto.
  - rewrite Hk. done.
Qed.

(** Every event preserves the invariant. *)
Lemma Inv_step (hs hs' : HState) (ev : Event) :
  Inv hs -> step hs ev = Some hs' -> Inv hs'.
Proof.
  destruct ev.
  - apply Inv_effect_connect.
  - apply Inv_effect_accounts.
  - apply Inv_effect_contract.
  - apply Inv_api_event. eauto.
  - apply Inv_api_event. eauto.
  - apply Inv_api_event. eauto 10.
  - apply Inv_api_event. eauto.
  - apply Inv_extension.
  - apply Inv_version.
  - apply Inv_select.
Qed.

Lemma reachable_Inv (sock : string) (rpc tys : list string) (hs : HState) :
  reachable sock rpc tys hs -> Inv hs.
Proof.
  induction 1 as [|hs ev hs' _ IH Hs]; [apply Inv_init|by eapply Inv_step].
Qed.

(** ** What each event dispatches *)

Definition loading_of (c : Contract) : Action :=
  SET_CONTRACT_DATA (mkContractData (Some c.(contract_abi)) (Some c) (Some LOADING)).

(** The action sequences an event can dispatch from the store [s] (and the
    ui-keyring [kr]). *)
Definition event_actions (s : State) (kr : list Account) (ev : Event) (acts : list Action) : Prop :=
  match ev with
  | EffectConnect | EffectLoadAccounts | ApiDisconnected _ => acts = []
  | EffectLoadContract _ =>
      acts = [] \/ (s.(tokenContract) = None /\
        (acts = [CONTRACT_ERROR] \/
         exists c, acts = [loading_of c; CONTRACT_ERROR] \/ acts = [loading_of c]))
  | ApiConnected h => acts = [CONNECT h]
  | ApiReady _ => acts = [CONNECT_SUCCESS]
  | ApiErrored _ e => acts = [CONNECT_ERROR e]
  | ExtensionAnswered ans => acts = (loadAccounts_done kr ans).2
  | VersionAnswered ans => acts = version_done ans
  | SelectAccount addr => acts = [] \/ exists p, acts = [SET_ACCOUNT_ADDRESS addr p]
  end.

Lemma step_dispatch (hs hs' : HState) (ev : Event) :
  step hs ev = Some hs' ->
  exists acts, event_actions hs.(store) hs.(ui_keyring) ev acts /\
    dispatch_all hs.(store) acts = Ok hs'.(store).
Proof.
  destruct ev; simpl; unfold dispatch, after;
    repeat case_decide; try done; intros Hst.
  - destruct (api _); injection Hst as <-; by exists [].
  - injection Hst as <-. by exists [].
  - pose proof (loadContract_cases (store hs) setup) as Hc.
    destruct (loadContract _ _) as [acts pending].
    destruct (dispatch_all _ acts) eqn:Hd; [|done]. injection Hst as <-.
    exists acts. split; [|done].
    destruct Hc as [[-> _]|[(-> & _ & Hn)|(a0 & Hn & _ & [[-> _]|[-> _]])]];
      [by left|right; split; [done|by left]|..];
      right; (split; [done|]); right; exists (mkContract a0 (mkAbi a0) TOKEN_CONTRACT_ADDRESS);
      [by left|by right].
  - destruct (dispatch_all _ _) eqn:Hd; [|done]. injection Hst as <-. eauto.
  - destruct (dispatch_all _ _) eqn:Hd; [|done]. injection Hst as <-. eauto.
  - destruct (dispatch_all _ _) eqn:Hd; [|done]. injection Hst as <-. eauto.
  - injection Hst as <-. by exists [].
  - destruct (accounts_pending hs); [|done].
    destruct (loadAccounts_done _ _) as [kr' acts] eqn:Hl.
    destruct (dispatch_all _ acts) eqn:Hd; [|done]. injection Hst as <-.
    exists acts. by split.
  - destruct (version_pending hs); [|done].
    destruct (dispatch_all _ _) eqn:Hd; [|done]. injection Hst as <-. eauto.
  - destruct (setAccountAddress _ _ addr) as [acts|] eqn:Hs.
    + destruct (dispatch_all _ acts) eqn:Hd; [|done]. injection Hst as <-.
      apply setAccountAddress_cases in Hs as [->|(p & _ & _ & _ & ->)]; eexists; (split; [right; eauto|done]).
    + injection Hst as <-. exists []. simpl. split; [by left|done].
Qed.

(** The events that do not load the contract nor answer its query. *)
Definition contract_event (ev : Event) : bool :=
  match ev with EffectLoadContract _ | VersionAnswered _ => true | _ => false end.

Lemma event_actions_noncontract (s : State) (kr : list Account) (ev : Event) (acts : list Action) :
  contract_event ev = false -> event_actions s kr ev acts ->
  Forall (fun a => contract_action a = false) acts.
Proof.
  destruct ev; simpl; intros Hc Hev; try discriminate; try (subst acts; by repeat constructor).
  - pose proof (loadAccounts_done_cases kr ans) as Hl.
    destruct (loadAccounts_done _ _) as [kr' acts']; simpl in Hev; subst acts'.
    destruct Hl as [->|[->|[->|(p & _ & ->)]]]; by repeat constructor.
  - destruct Hev as [->|(p & ->)]; by repeat constructor.
Qed.

Lemma step_version_frame (hs hs' : HState) (ev : Event) :
  contract_event ev = false -> step hs ev = Some hs' -> hs'.(version_pending) = hs.(version_pending).
Proof.
  destruct ev; simpl; intros Hc Hs; try discriminate; unfold dispatch, after in Hs;
    repeat case_match; simplify_eq; done.
Qed.

Lemma run_reachable (sock : string) (rpc tys : list string) (hs hs' : HState) (evs : list Event) :
  reachable sock rpc tys hs -> run hs evs = Some hs' -> reachable sock rpc tys hs'.
Proof.
  revert hs. induction evs as [|ev evs IH]; simpl; intros hs Hr H; [by injection H as <-|].
  destruct (step hs ev) as [hs1|] eqn:Hs; [|done]. eapply IH; [|done]. by econstructor.
Qed.

Ltac elem_cases H :=
  repeat (apply elem_of_cons in H as [H|H]; [try discriminate H|]);
  try (by apply not_elem_of_nil in H).

(** ** Properties of the lifecycle *)

(** C6: in every reachable state, the selected keyring pair belongs to the
    selected address and is a pair of the ui-keyring. *)
Theorem reachable_pair_consistent (sock : string) (rpc tys : list string) (hs : HState) (p : Account) :
  reachable sock rpc tys hs -> hs.(store).(accountPair) = Some p ->
  hs.(store).(accountAddress) = Some p.(address) /\ p ∈ hs.(ui_keyring).
Proof. intros Hr. apply (inv_pair _ (reachable_Inv _ _ _ _ Hr)). Qed.

(** C7: in every reachable state where the contract is LOADING or READY,
    the contract and its ABI exist and were built on the api the store
    holds. *)
Theorem reachable_contract_on_live_api (sock : string) (rpc tys : list string) (hs : HState) :
  reachable sock rpc tys hs ->
  hs.(store).(tokenContractState) = Some LOADING \/ hs.(store).(tokenContractState) = Some READY ->
  exists c, hs.(store).(tokenContract) = Some c /\ hs.(store).(api) = Some c.(contract_api) /\
            hs.(store).(tokenContractAbi) = Some c.(contract_abi).
Proof.
  intros Hr Hst. pose proof (reachable_Inv _ _ _ _ Hr) as I.
  destruct (inv_contract _ I Hst) as [c Hc]. exists c. split; [done|]. by apply (inv_contract_api _ I).
Qed.

(** [connect] creates at most one ApiPromise in any run: its guard on
    [api] and the effect's dependencies prevent a second socket. *)
Theorem reachable_single_api (sock : string) (rpc tys : list string) (hs : HState) :
  reachable sock rpc tys hs -> length hs.(apis) <= 1.
Proof.
  intros Hr. destruct (inv_apis _ (reachable_Inv _ _ _ _ Hr)) as [[-> _]|(h & b & -> & _)];
    simpl; lia.
Qed.

(** C9: the contract becomes READY only when the [version] query answers
    a non-zero number. *)
Theorem contract_ready_only_by_version (hs hs' : HState) (ev : Event) :
  step hs ev = Some hs' ->
  hs.(store).(tokenContractState) <> Some READY ->
  hs'.(store).(tokenContractState) = Some READY ->
  exists v, ev = VersionAnswered (RpcOutput (Some v)) /\ v <> 0%Z.
Proof.
  intros Hs Hnot Hready. destruct (step_dispatch _ _ _ Hs) as (acts & Hev & Hd).
  destruct (dispatch_contract_ready _ _ _ Hd Hready) as [|(d & Hin & Hdr)]; [done|].
  destruct ev; simpl in Hev.
  all: try (subst acts; elem_cases Hin; fail).
  - destruct Hev as [->|(_ & [->|(c & [->| ->])])]; elem_cases Hin;
      unfold loading_of in Hin; injection Hin as ->; discriminate Hdr.
  - pose proof (loadAccounts_done_cases (ui_keyring hs) ans) as Hc.
    destruct (loadAccounts_done _ _) as [kr' acts']; simpl in Hev; subst acts'.
    destruct Hc as [->|[->|[->|(p & _ & ->)]]]; elem_cases Hin.
  - subst acts. destruct ans as [[v|]|]; simpl in Hin; [|elem_cases Hin..].
    case_decide; elem_cases Hin. eauto.
  - destruct Hev as [->|(p & ->)]; elem_cases Hin.
Qed.

(** Once [loadAccounts] has settled the keyring state, no event
    changes it: the effect's guard [if (keyringState) return] makes the
    first answer final, an ERROR included. *)
Theorem keyring_state_stable (sock : string) (rpc tys : list string) (hs hs' : HState)
    (ev : Event) (k : Phase) :
  reachable sock rpc tys hs -> hs.(store).(keyringState) = Some k ->
  step hs ev = Some hs' -> hs'.(store).(keyringState) = Some k.
Proof.
  intros Hr Hk Hs. pose proof (reachable_Inv _ _ _ _ Hr) as I.
  destruct (step_dispatch _ _ _ Hs) as (acts & Hev & Hd).
  destruct ev; simpl in Hev.
  8: { simpl in Hs. destruct (accounts_pending hs) eqn:Hp; [|done].
       by rewrite (inv_pending _ I Hp) in Hk. }
  all: rewrite (dispatch_keyringState (store hs) (store hs') acts); [done| |done].
  all: try (subst acts; repeat constructor; fail).
  - destruct Hev as [->|(_ & [->|(c & [->| ->])])]; repeat constructor.
  - subst acts. destruct ans as [[v|]|]; simpl; [case_decide|..]; repeat constructor.
  - destruct Hev as [->|(p & ->)]; repeat constructor.
Qed.

(** C11: once a contract is in the store it stays the same contract, and
    once its version query has settled, no event starts another query or
    changes [tokenContractState]: the guard [if (tokenContract) return] of
    [loadContract] makes the first build final, its READY or ERROR
    included. *)
Theorem contract_stable (sock : string) (rpc tys : list string) (hs hs' : HState)
    (ev : Event) (c : Contract) :
  reachable sock rpc tys hs -> hs.(store).(tokenContract) = Some c ->
  step hs ev = Some hs' ->
  hs'.(store).(tokenContract) = Some c /\
  (hs.(version_pending) = None ->
   hs'.(version_pending) = None /\ hs'.(store).(tokenContractState) = hs.(store).(tokenContractState)).
Proof.
  intros Hr Hc Hs. destruct (step_dispatch _ _ _ Hs) as (acts & Hev & Hd). split.
  { rewrite (dispatch_tokenContract (store hs) (store hs') acts); [done| |done].
    destruct ev; simpl in Hev.
    all: try (subst acts; repeat constructor; intros ? [=]; fail).
    - destruct Hev as [->|(Hn & _)]; [constructor|congruence].
    - pose proof (loadAccounts_done_cases (ui_keyring hs) ans) as Hl.
      destruct (loadAccounts_done _ _) as [kr' acts']; simpl in Hev; subst acts'.
      destruct Hl as [->|[->|[->|(p & _ & ->)]]]; repeat constructor; intros ? [=].
    - subst acts. destruct ans as [[v|]|]; simpl; [case_decide|..];
        repeat constructor; intros ? [= <-]; done.
    - destruct Hev as [->|(p & ->)]; repeat constructor; intros ? [=]. }
  intros Hv. destruct (contract_event ev) eqn:Hce.
  - destruct ev; try discriminate; simpl in Hs; [|by rewrite Hv in Hs].
    case_decide; [done|]. unfold loadContract in Hs. rewrite Hc in Hs.
    injection Hs as <-. by rewrite Hv.
  - split; [by rewrite (step_version_frame _ _ _ Hce Hs)|].
    exact (dispatch_contract_state _ _ _ (event_actions_noncontract _ _ _ _ Hce Hev) Hd).
Qed.

(** C12: [loadContract] dispatches nothing unless there is no contract yet,
    the api and the keyring are READY and an account is selected. *)
Theorem loadContract_guard (s : State) (setup : ContractSetup) (acts : list Action)
    (pending : option Contract) :
  loadContract s setup = (acts, pending) -> acts <> [] ->
  s.(tokenContract) = None /\ s.(apiState) = Some READY /\ s.(keyringState) = Some READY /\
  exists a, s.(accountAddress) = Some a /\ a <> ""%string.
Proof.
  unfold loadContract. destruct (tokenContract s); [by intros [= <- _]|].
  destruct (apiState s) as [[]|], (keyringState s) as [[]|], (accountAddress s) as [a|];
    try (by intros [= <- _]).
  case_decide; [by intros [= <- _]|]. intros _ _. eauto 10.
Qed.

(** C13: when no injected account comes from polkadot-js, [loadAccounts]
    ends in KEYRING_ERROR: [allAccounts[0].address] is a string, its
    [.address] is [undefined], and [keyring.getPair(undefined)] throws,
    although the comment promises a fallback to the other accounts. *)
Theorem loadAccounts_without_polkadot_js (kr : list Account) (a : Account) (rest : list Account) :
  Forall (fun x => x.(meta_source) <> "polkadot-js"%string) (a :: rest) ->
  a.(address) <> ""%string ->
  loadAccounts_done kr (ExtAccounts (a :: rest)) = (loadAll (map rename (a :: rest)), [KEYRING_ERROR]).
Proof.
  intros Hnone Ha. unfold loadAccounts_done, loadAccounts_try.
  rewrite (proj2 (list_find_None _ _)).
  - simpl. by rewrite decide_False.
  - apply Forall_fmap. eapply Forall_impl; [exact Hnone|]. done.
Qed.

(** C14: the whole start-up can succeed: from [init], when the extension
    offers a polkadot-js account and the contract answers a non-zero
    version, some run reaches a store where the api, the keyring and the
    contract are READY and that account is selected. *)
Theorem ready_reachable (sock : string) (rpc tys : list string) (a : Account)
    (rest : list Account) (v : Z) :
  a.(meta_source) = "polkadot-js"%string -> a.(address) <> ""%string -> v <> 0%Z ->
  exists hs, reachable sock rpc tys hs /\
    hs.(store).(apiState) = Some READY /\ hs.(store).(keyringState) = Some READY /\
    hs.(store).(tokenContractState) = Some READY /\
    hs.(store).(accountAddress) = Some a.(address).
Proof.
  intros Hpj Ha Hv.
  destruct (list_find_elem_of (fun p => p.(address) = a.(address))
              (loadAll (map rename (a :: rest))) (rename a)) as [[i p] Hf];
    [apply elem_of_app; right; by left|done|].
  assert (getPair (loadAll (rename a :: map rename rest)) (Some a.(address)) = Ok p) as Hg.
  { unfold getPair. cbn [map] in Hf. by rewrite Hf. }
  assert (exists hs, run (init sock rpc tys)
      [EffectConnect; EffectLoadAccounts; ApiConnected (ApiHandle 0); ApiReady (ApiHandle 0);
       ExtensionAnswered (ExtAccounts (a :: rest)); EffectLoadContract CallSent;
       VersionAnswered (RpcOutput (Some v))] = Some hs /\
    hs.(store).(apiState) = Some READY /\ hs.(store).(keyringState) = Some READY /\
    hs.(store).(tokenContractState) = Some READY /\
    hs.(store).(accountAddress) = Some a.(address)) as (hs & Hrun & Hready).
  { eexists. split.
    { repeat (cbn -[getPair loadAll];
        first [rewrite Hg
              | rewrite decide_True by (first [done | by left | by rewrite Hpj])
              | rewrite decide_False by (first [done | discriminate])]).
      reflexivity. }
    split_and!; reflexivity. }
  exists hs. split; [|done]. eapply run_reachable; [constructor|exact Hrun].
Qed.

End Hook.

(** ** Concrete runs and witnesses *)

Definition alice : Account := mkAccount "5Alice" "alice" "polkadot-js".
Definition bob : Account := mkAccount "5Bob" "bob" "talisman".
Definition demo_contract_address : string := "5Token".
Definition demo_socket : string := "ws://127.0.0.1:9944".

Definition demo_start : list Event :=
  [EffectConnect; EffectLoadAccounts; ApiConnected (ApiHandle 0); ApiReady (ApiHandle 0);
   ExtensionAnswered (ExtAccounts [alice]); EffectLoadContract CallSent].

(** The state a run reaches, or [init] when the run is not possible. *)
Definition demo_after (evs : list Event) : HState :=
  from_option id (init demo_socket [] [])
    (run [] demo_contract_address (init demo_socket [] []) evs).

Definition demo_loading : HState := demo_after demo_start.
Definition demo_ready : HState :=
  demo_after (demo_start ++ [VersionAnswered (RpcOutput (Some 1%Z))]).
Definition demo_keyring_error : HState :=
  demo_after [EffectConnect; EffectLoadAccounts; ExtensionAnswered (ExtAccounts [bob])].

Lemma demo_reachable (evs : list Event) :
  is_Some (run [] demo_contract_address (init demo_socket [] []) evs) ->
  reachable [] demo_contract_address demo_socket [] [] (demo_after evs).
Proof.
  intros [hs Hhs]. unfold demo_after. rewrite Hhs.
  eapply run_reachable; [constructor|exact Hhs].
Qed.

Lemma reachable_pair_consistent_witness :
  demo_ready.(store).(accountAddress) = Some (rename alice).(address) /\
  rename alice ∈ demo_ready.(ui_keyring).
Proof.
  apply (reachable_pair_consistent [] demo_contract_address demo_socket [] []).
  - apply demo_reachable. vm_compute. by eexists.
  - vm_compute. reflexivity.
Defined.

Lemma reachable_contract_on_live_api_witness :
  exists c, demo_ready.(store).(tokenContract) = Some c /\
    demo_ready.(store).(api) = Some c.(contract_api) /\
    demo_ready.(store).(tokenContractAbi) = Some c.(contract_abi).
Proof.
  apply (reachable_contract_on_live_api [] demo_contract_address demo_socket [] []).
  - apply demo_reachable. vm_compute. by eexists.
  - right. vm_compute. reflexivity.
Defined.

Lemma reachable_single_api_witness : length demo_ready.(apis) <= 1.
Proof.
  apply (reachable_single_api [] demo_contract_address demo_socket [] []).
  apply demo_reachable. vm_compute. by eexists.
Defined.

Lemma contract_ready_only_by_version_witness :
  exists v, VersionAnswered (RpcOutput (Some 1%Z)) = VersionAnswered (RpcOutput (Some v)) /\
            v <> 0%Z.
Proof.
  apply (contract_ready_only_by_version [] demo_contract_address demo_loading demo_ready).
  - vm_compute. reflexivity.
  - vm_compute. discriminate.
  - vm_compute. reflexivity.
Defined.

(** The keyring stays in ERROR after the extension offered only a
    non-polkadot-js account. *)
Lemma keyring_state_stable_witness :
  (demo_after [EffectConnect; EffectLoadAccounts; ExtensionAnswered (ExtAccounts [bob]);
               EffectLoadAccounts]).(store).(keyringState) = Some ERROR.
Proof.
  apply (keyring_state_stable [] demo_contract_address demo_socket [] [] demo_keyring_error
           _ EffectLoadAccounts ERROR).
  - apply demo_reachable. vm_compute. by eexists.
  - vm_compute. reflexivity.
  - vm_compute. reflexivity.
Defined.

Lemma contract_stable_witness :
  let hs' := demo_after (demo_start ++ [VersionAnswered (RpcOutput (Some 1%Z)); EffectLoadContract CallSent]) in
  hs'.(store).(tokenContract) = Some (mkContract (ApiHandle 0) (mkAbi (ApiHandle 0)) demo_contract_address) /\
  (demo_ready.(version_pending) = None ->
   hs'.(version_pending) = None /\ hs'.(store).(tokenContractState) = demo_ready.(store).(tokenContractState)).
Proof.
  apply (contract_stable [] demo_contract_address demo_socket [] [] demo_ready _
           (EffectLoadContract CallSent)).
  - apply demo_reachable. vm_compute. by eexists.
  - vm_compute. reflexivity.
  - vm_compute. reflexivity.
Defined.

Lemma loadContract_guard_witness :
  (demo_after (firstn 5 demo_start)).(store).(tokenContract) = None /\
  (demo_after (firstn 5 demo_start)).(store).(apiState) = Some READY /\
  (demo_after (firstn 5 demo_start)).(store).(keyringState) = Some READY /\
  exists a, (demo_after (firstn 5 demo_start)).(store).(accountAddress) = Some a /\ a <> ""%string.
Proof.
  apply (loadContract_guard demo_contract_address _ CallSent
           [loading_of (mkContract (ApiHandle 0) (mkAbi (ApiHandle 0)) demo_contract_address)]
           (Some (mkContract (ApiHandle 0) (mkAbi (ApiHandle 0)) demo_contract_address))).
  - vm_compute. reflexivity.
  - discriminate.
Defined.

Lemma loadAccounts_without_polkadot_js_witness :
  loadAccounts_done [] [] (ExtAccounts [bob]) = (loadAll [] (map rename [bob]), [KEYRING_ERROR]).
Proof.
  apply loadAccounts_without_polkadot_js.
  - repeat constructor. vm_compute. discriminate.
  - vm_compute. discriminate.
Defined.

Lemma ready_reachable_witness :
  exists hs, reachable [] demo_contract_address demo_socket [] [] hs /\
    hs.(store).(apiState) = Some READY /\ hs.(store).(keyringState) = Some READY /\
    hs.(store).(tokenContractState) = Some READY /\
    hs.(store).(accountAddress) = Some alice.(address).
Proof.
  apply (ready_reachable [] demo_contract_address demo_socket [] [] alice [] 1%Z).
  - reflexivity.
  - vm_compute. discriminate.
  - lia.
Defined.

End Lifecycle.
