(* ===== verification/Connection.v ===== *)
(** * The connection status as an abstract state machine

    The store of [SubstrateContext.js] carries three status fields,
    [apiState], [keyringState] and [tokenContractState]; the UI reads
    nothing else to decide what to show. This file states what those
    fields may do, as an abstract transition system on the three of them
    with stuttering steps, and shows that the hook of [useSubstrate.js]
    (the [step] of [Lifecycle.v]) refines it: every event of a reachable
    state moves each field along its own machine or leaves it alone.

    The proof goes through two layers. [status_reducer] is the reducer
    seen through the abstraction [status]; [reducer_status] shows that the
    reducer of [Substrate.v] commutes with it, exceptions included. Then
    the actions each event dispatches ([event_actions] of [Lifecycle.v])
    are run on the abstract side, and two facts of reachable states not
    in [Lifecycle.Inv] ([SInv]) discharge the guarded transitions. *)

From stdpp Require Import relations.
From S2P Require Import Prelude Substrate Lifecycle.
Import Store Lifecycle.

Module Connection.

(** ** The abstraction *)

Record Status := mkStatus {
  st_api : option Phase;
  st_keyring : option Phase;
  st_contract : option Phase
}.

Definition status (s : State) : Status :=
  mkStatus s.(apiState) s.(keyringState) s.(tokenContractState).

Definition init_status : Status := mkStatus None None None.

(** The [switch] of [reducer], restricted to the three status fields:
    the same cases, the same throwing [default]. *)
Definition status_reducer (st : Status) (a : Action) : option Status :=
  match a with
  | RESET_SOCKET _ => Some (mkStatus None st.(st_keyring) st.(st_contract))
  | CONNECT _ => Some (mkStatus (Some CONNECTING) st.(st_keyring) st.(st_contract))
  | CONNECT_SUCCESS => Some (mkStatus (Some READY) st.(st_keyring) st.(st_contract))
  | CONNECT_ERROR _ => Some (mkStatus (Some ERROR) st.(st_keyring) st.(st_contract))
  | SET_KEYRING _ => Some (mkStatus st.(st_api) (Some READY) st.(st_contract))
  | KEYRING_ERROR => Some (mkStatus st.(st_api) (Some ERROR) st.(st_contract))
  | KEYRING_NO_ACCOUNTS => Some (mkStatus st.(st_api) (Some NO_ACCOUNTS) st.(st_contract))
  | SET_CONTRACT_DATA d =>
      Some (mkStatus st.(st_api) st.(st_keyring) (from_option Some st.(st_contract) d.(cd_tokenContractState)))
  | CONTRACT_ERROR => Some (mkStatus st.(st_api) st.(st_keyring) (Some ERROR))
  | SET_ACCOUNT_ADDRESS _ _ => Some st
  | UNKNOWN _ => None
  end.

Fixpoint status_run (st : Status) (acts : list Action) : option Status :=
  match acts with
  | [] => Some st
  | a :: rest => st' ← status_reducer st a; status_run st' rest
  end.

(** ** The abstract machine *)

(** [apiState]: the [connected] listener makes it CONNECTING, [ready] and
    [isReady] make it READY (only once an api has connected), [error]
    makes it ERROR. No listener empties it. *)
Inductive api_trans : option Phase -> option Phase -> Prop :=
| api_connecting p : api_trans p (Some CONNECTING)
| api_ready p : p <> None -> api_trans p (Some READY)
| api_error p : api_trans p (Some ERROR).

(** [keyringState]: set once, from [null], to one of its three outcomes. *)
Inductive keyring_trans : option Phase -> option Phase -> Prop :=
| kr_ready : keyring_trans None (Some READY)
| kr_error : keyring_trans None (Some ERROR)
| kr_no_accounts : keyring_trans None (Some NO_ACCOUNTS).

(** [tokenContractState]: while no contract is loading or loaded, the
    effect may start loading one or fail to build it; a loading contract
    becomes READY or ERROR on the [version] answer. *)
Inductive contract_trans : option Phase -> option Phase -> Prop :=
| ct_load p : p <> Some LOADING -> p <> Some READY -> contract_trans p (Some LOADING)
| ct_setup_error p : p <> Some LOADING -> p <> Some READY -> contract_trans p (Some ERROR)
| ct_ready : contract_trans (Some LOADING) (Some READY)
| ct_version_error : contract_trans (Some LOADING) (Some ERROR).

(** A field may also stay where it is: a stuttering step. *)
Definition stutter {A} (R : A -> A -> Prop) (x y : A) : Prop := x = y \/ R x y.

Definition conn_step (st st' : Status) : Prop :=
  stutter api_trans st.(st_api) st'.(st_api) /\
  stutter keyring_trans st.(st_keyring) st'.(st_keyring) /\
  stutter contract_trans st.(st_contract) st'.(st_contract).

(** ** Facts of reachable states the refinement needs *)

Record SInv (hs : HState) : Prop := {
  sinv_api : is_Some hs.(store).(api) -> is_Some hs.(store).(apiState);
  sinv_version : forall c, hs.(version_pending) = Some c -> hs.(store).(tokenContractState) = Some LOADING
}.

(** ** The reducer refines [status_reducer] *)

Lemma conn_step_refl (st : Status) : conn_step st st.
Proof. split_and!; by left. Qed.

(** Each case of the reducer changes the three status fields exactly as
    [status_reducer] says, and the [default] case throws on both sides. *)
Lemma reducer_status (s : State) (a : Action) :
  match reducer s a with
  | Ok s' => status_reducer (status s) a = Some (status s')
  | Throw _ => status_reducer (status s) a = None
  end.
Proof. by destruct a. Qed.

Lemma dispatch_all_status (s s' : State) (acts : list Action) :
  dispatch_all s acts = Ok s' -> status_run (status s) acts = Some (status s').
Proof.
  revert s. induction acts as [|a acts IH]; intros s H; simpl in *; [by injection H as <-|].
  pose proof (reducer_status s a) as Hr. destruct (reducer s a) as [s1|]; [|done].
  rewrite Hr. simpl. by apply IH.
Qed.

(** Actions other than the two contract ones leave [tokenContractState]. *)
Lemma status_run_contract (st st' : Status) (acts : list Action) :
  Forall (fun a => contract_action a = false) acts ->
  status_run st acts = Some st' -> st'.(st_contract) = st.(st_contract).
Proof.
  intros Hacts. revert st. induction Hacts as [|a acts Ha _ IH]; intros st H; simpl in H.
  - by injection H as <-.
  - destruct a; simpl in *; try discriminate; rewrite (IH _ H); done.
Qed.

(** [api] is never set without [apiState]: [CONNECT] sets both,
    [RESET_SOCKET] clears both, no other case writes [api]. *)
Definition api_ok (s : State) : Prop := is_Some s.(api) -> is_Some s.(apiState).

Lemma dispatch_all_api_ok (s s' : State) (acts : list Action) :
  api_ok s -> dispatch_all s acts = Ok s' -> api_ok s'.
Proof.
  revert s. induction acts as [|a acts IH]; intros s Hs H; simpl in H; [by injection H as <-|].
  destruct (reducer s a) as [s1|] eqn:Hr; [|done]. apply (IH s1); [|done].
  destruct a; simpl in Hr; simplify_eq; unfold api_ok in *; simpl;
    try exact Hs; try (intros; eexists; reflexivity); intros [? [=]].
Qed.

Section Refinement.
Context (DEVELOPMENT_KEYRING : list Account) (TOKEN_CONTRACT_ADDRESS : string).

Local Abbreviation step := (Lifecycle.step DEVELOPMENT_KEYRING TOKEN_CONTRACT_ADDRESS).
Local Abbreviation event_actions := (Lifecycle.event_actions DEVELOPMENT_KEYRING).

Lemma SInv_init (sock : string) (rpc tys : list string) : SInv (init sock rpc tys).
Proof. split; simpl; [intros [? [=]]|done]. Qed.

Lemma SInv_step (hs hs' : HState) (ev : Event) :
  Inv hs -> SInv hs -> step hs ev = Some hs' -> SInv hs'.
Proof.
  intros I [Sa Sv] Hs. destruct (step_dispatch _ _ _ _ _ Hs) as (acts & Hev & Hd).
  split; [exact (dispatch_all_api_ok _ _ _ Sa Hd)|].
  destruct (contract_event ev) eqn:Hc.
  - destruct ev; try discriminate; simpl in Hs; [|destruct (version_pending hs) eqn:Hv; [|done];
      unfold after in Hs; destruct (dispatch_all _ _); simplify_eq; done].
    case_decide; [done|].
    pose proof (loadContract_cases TOKEN_CONTRACT_ADDRESS (store hs) setup) as Hl.
    destruct (loadContract _ _ _) as [acts' pending]. unfold after in Hs.
    destruct (dispatch_all _ acts') eqn:Hd'; [|done]. injection Hs as <-. simpl.
    intros c Hpc. destruct Hl as [[-> ->]|[(-> & -> & Hn)|(h & Hn & _ & [[-> ->]|[-> ->]])]].
    + simpl in Hpc, Hd'. injection Hd' as <-. exact (Sv c Hpc).
    + simpl in Hpc. by rewrite (inv_version _ I _ Hpc) in Hn.
    + simpl in Hpc. by rewrite (inv_version _ I _ Hpc) in Hn.
    + simpl in Hd'. injection Hd' as <-. done.
  - intros c Hpc. rewrite (step_version_frame _ _ _ _ _ Hc Hs) in Hpc.
    apply dispatch_all_status in Hd.
    pose proof (status_run_contract _ _ _ (event_actions_noncontract _ _ _ _ _ Hc Hev) Hd) as Hst.
    simpl in Hst. rewrite Hst. exact (Sv c Hpc).
Qed.

Lemma reachable_SInv (sock : string) (rpc tys : list string) (hs : HState) :
  reachable DEVELOPMENT_KEYRING TOKEN_CONTRACT_ADDRESS sock rpc tys hs -> SInv hs.
Proof.
  induction 1 as [|hs ev hs' Hr IH Hs]; [apply SInv_init|].
  eapply SInv_step; [exact (reachable_Inv _ _ _ _ _ _ Hr)|exact IH|exact Hs].
Qed.

(** The fields an abstract step leaves alone are closed by stuttering. *)
Ltac conn_fields := unfold conn_step, stutter; cbn; split_and!; try (left; reflexivity).

Lemma step_refines (hs hs' : HState) (ev : Event) :
  Inv hs -> SInv hs -> step hs ev = Some hs' -> conn_step (status hs.(store)) (status hs'.(store)).
Proof.
  intros I SI Hs. pose proof Hs as Hs0.
  destruct (step_dispatch _ _ _ _ _ Hs) as (acts & Hev & Hd).
  apply dispatch_all_status in Hd. revert Hd. generalize (status (store hs')) as st'. intros st' Hd.
  destruct ev; simpl in Hev.
  all: try (subst acts; simpl in Hd; injection Hd as <-).
  all: try (apply conn_step_refl).
  - (* [loadContract]: only while no contract is loading or loaded *)
    destruct Hev as [->|(Hn & Hacts)]; [injection Hd as <-; apply conn_step_refl|].
    assert (tokenContractState (store hs) <> Some LOADING /\ tokenContractState (store hs) <> Some READY)
      as [Hl Hr] by (split; intros Hp; destruct (inv_contract _ I) as [c Hc];
                     [by left|by rewrite Hn in Hc|by right|by rewrite Hn in Hc]).
    destruct Hacts as [->|(c & [->| ->])]; simpl in Hd; injection Hd as <-; conn_fields.
    + right. by apply ct_setup_error.
    + right. by apply ct_setup_error.
    + right. by apply ct_load.
  - conn_fields. right. constructor.
  - (* [ready]: the api named is connected, so it is the store's *)
    simpl in Hs0. case_decide as Hin; [|done].
    destruct (Inv_single_api _ _ _ I Hin) as (_ & _ & Hapi).
    destruct (sinv_api _ SI) as [p Hp]; [rewrite Hapi; eauto|].
    conn_fields. right. apply api_ready. by rewrite Hp.
  - conn_fields. right. constructor.
  - (* the extension answers while [keyringState] is still null *)
    simpl in Hs0. destruct (accounts_pending hs) eqn:Hp; [|done].
    pose proof (inv_pending _ I Hp) as Hk.
    pose proof (loadAccounts_done_cases DEVELOPMENT_KEYRING (ui_keyring hs) ans) as Hl.
    destruct (loadAccounts_done _ _ _) as [kr' acts']; simpl in Hev; subst acts'.
    destruct Hl as [->|[->|[->|(p & _ & ->)]]]; simpl in Hd; injection Hd as <-;
      conn_fields; rewrite Hk; right; constructor.
  - (* the version query answers while the contract is LOADING *)
    simpl in Hs0. destruct (version_pending hs) as [c|] eqn:Hv; [|done].
    pose proof (sinv_version _ SI c Hv) as Hl. subst acts.
    destruct (version_done_cases ans) as [Ha|Ha]; rewrite Ha in Hd; simpl in Hd; injection Hd as <-;
      conn_fields; rewrite Hl; right; first [apply ct_ready | apply ct_version_error].
  - destruct Hev as [->|(p & ->)]; simpl in Hd; injection Hd as <-; apply conn_step_refl.
Qed.

(** The simulation lifted to every run: the status of a reachable state
    is reached from [init_status] by abstract steps. *)
Lemma reachable_status_rtc (sock : string) (rpc tys : list string) (hs : HState) :
  reachable DEVELOPMENT_KEYRING TOKEN_CONTRACT_ADDRESS sock rpc tys hs ->
  rtc conn_step init_status (status hs.(store)).
Proof.
  induction 1 as [|hs ev hs' Hr IH Hs]; [apply rtc_refl|].
  eapply rtc_r; [exact IH|]. eapply step_refines; [| |exact Hs].
  - exact (reachable_Inv _ _ _ _ _ _ Hr).
  - exact (reachable_SInv _ _ _ _ Hr).
Qed.

(** C26: the hook refines the abstract status machine: from every
    reachable state, every event moves [apiState], [keyringState] and
    [tokenContractState] each along its own transitions or leaves it
    unchanged; in particular no event empties [apiState], the keyring
    state is written once, and a contract is READY only after LOADING. *)
Theorem reachable_step_refines (sock : string) (rpc tys : list string) (hs hs' : HState) (ev : Event) :
  reachable DEVELOPMENT_KEYRING TOKEN_CONTRACT_ADDRESS sock rpc tys hs ->
  step hs ev = Some hs' ->
  conn_step (status hs.(store)) (status hs'.(store)).
Proof.
  intros Hr Hs. eapply step_refines; [| |exact Hs].
  - exact (reachable_Inv _ _ _ _ _ _ Hr).
  - exact (reachable_SInv _ _ _ _ Hr).
Qed.

(** The [disconnected] event of the ApiPromise has no listener, although
    the comment of [connect] says the listeners are there for
    disconnection: the status fields stay as they were, READY included. *)
Lemma disconnect_keeps_status (hs hs' : HState) (h : Api) :
  step hs (ApiDisconnected h) = Some hs' -> status hs'.(store) = status hs.(store).
Proof. simpl. case_decide; [|done]. by intros [= <-]. Qed.

End Refinement.

(** ** Concrete runs *)

(** The answer of the version query takes the demo run of [Lifecycle.v]
    from LOADING to READY. *)
Lemma reachable_step_refines_witness :
  conn_step (status demo_loading.(store)) (status demo_ready.(store)).
Proof.
  apply (reachable_step_refines [] demo_contract_address demo_socket [] [] demo_loading demo_ready
           (VersionAnswered (RpcOutput (Some 1%Z)))).
  - apply demo_reachable. vm_compute. by eexists.
  - vm_compute. reflexivity.
Defined.

Example demo_statuses :
  status demo_loading.(store) = mkStatus (Some READY) (Some READY) (Some LOADING) /\
  status demo_ready.(store) = mkStatus (Some READY) (Some READY) (Some READY).
Proof. split; vm_compute; reflexivity. Qed.

(** After the socket drops, the store still says READY. *)
Example disconnected_still_ready :
  exists hs', step [] demo_contract_address demo_ready (ApiDisconnected (ApiHandle 0)) = Some hs' /\
    status hs'.(store) = mkStatus (Some READY) (Some READY) (Some READY).
Proof. eexists. split; [vm_compute; reflexivity|]. vm_compute. reflexivity. Qed.

End Connection.
