(* ===== verification/App.v ===== *)
(** * What [Main] of [App.js] renders

    [Main] reads the connection store through [useSubstrate()] and renders
    an error message or a loader until the api, the keyring and the token
    contract are all ready; then it renders the account selector with the
    selected pair and the editors. [main] is that chain of early returns
    on the store of [Substrate.v]; the lemma of the file says what every
    reachable state of [Lifecycle.v] in which the editors are rendered
    guarantees to them. [app_store] is the store [App]'s provider
    creates, from which the runs of [Lifecycle.v] start. *)

From S2P Require Import Prelude Substrate Lifecycle.
Import Store Lifecycle.

Module App.

(** What [Main] returns: [message(err)], [loader(text)], or the page with
    [<AccountSelector selected={accountPair} />] and the editors. *)
Inductive Screen :=
| ErrorMessage (content : string)
| LoaderScreen (text : string)
| Dashboard (selected : option Account).

(** [`${err}`] for the store's [apiError]. *)
Definition template (e : option string) : string := default "undefined"%string e.

(** [Main] *)
Definition main (s : State) : Screen :=
  if decide (s.(apiState) = Some ERROR) then ErrorMessage (template s.(apiError))
  else if decide (s.(apiState) <> Some READY) then LoaderScreen "Connecting to Substrate"
  else if decide (s.(keyringState) = Some ERROR) then ErrorMessage "Could not initialize keyring"
  else if decide (s.(keyringState) = Some NO_ACCOUNTS) then
    ErrorMessage "No accounts available to use, please install Polkadot js extension and create new account."
  else if decide (s.(keyringState) <> Some READY) then
    LoaderScreen "Loading accounts (please review any extension's authorization)"
  else if decide (s.(tokenContractState) = Some ERROR) then ErrorMessage "Could not connect to smart contract!"
  else if decide (s.(tokenContractState) <> Some READY) then LoaderScreen "Connecting to SmartContract"
  else Dashboard s.(accountPair).

(** [App]: [Main] inside [<SubstrateContextProvider>], which is given no
    props (so its [initState] is [INIT_STATE] with the socket of
    [connectedSocket]), inside the account-metadata store's provider
    ([StoreContext] of [Tokens.v]). [app_store] is the connection store
    [Main] first reads. *)
Definition app_store (rpc_query : option string) (PROVIDER_SOCKET : string) (rpc CUSTOM_TYPES : list string)
    : State :=
  provider_init rpc_query PROVIDER_SOCKET rpc CUSTOM_TYPES None None.

(** The first render of [App] is the loader of the connection. *)
Lemma app_first_render (rpc_query : option string) (PROVIDER_SOCKET : string) (rpc CUSTOM_TYPES : list string) :
  main (app_store rpc_query PROVIDER_SOCKET rpc CUSTOM_TYPES) = LoaderScreen "Connecting to Substrate".
Proof. reflexivity. Qed.

(** The runs of [Lifecycle.v] start from the store [App] creates. *)
Lemma app_store_init (rpc_query : option string) (PROVIDER_SOCKET : string) (rpc CUSTOM_TYPES : list string) :
  app_store rpc_query PROVIDER_SOCKET rpc CUSTOM_TYPES =
  (init (connectedSocket rpc_query PROVIDER_SOCKET) rpc CUSTOM_TYPES).(store).
Proof. reflexivity. Qed.

Lemma main_dashboard (s : State) (sel : option Account) :
  main s = Dashboard sel ->
  s.(apiState) = Some READY /\ s.(keyringState) = Some READY /\ s.(tokenContractState) = Some READY /\
  sel = s.(accountPair).
Proof.
  unfold main. repeat case_decide; try discriminate. intros [= ->].
  split_and!; [| | |done]; apply dec_stable; congruence.
Qed.

Lemma main_ready (s : State) :
  s.(apiState) = Some READY -> s.(keyringState) = Some READY -> s.(tokenContractState) = Some READY ->
  main s = Dashboard s.(accountPair).
Proof. intros Ha Hk Hc. unfold main. rewrite Ha, Hk, Hc. by repeat case_decide. Qed.

Section Reachable.
Context (DEVELOPMENT_KEYRING : list Account) (TOKEN_CONTRACT_ADDRESS : string).

(** The editors are rendered only on a reachable state whose contract and
    ABI were built on the api the store holds, whose keyring is the
    ui-keyring, and whose selected pair, when there is one, is a pair of
    the keyring with the selected address. *)
Lemma dashboard_guarantees (sock : string) (rpc tys : list string) (hs : HState) (sel : option Account) :
  reachable DEVELOPMENT_KEYRING TOKEN_CONTRACT_ADDRESS sock rpc tys hs -> main hs.(store) = Dashboard sel ->
  (exists c, hs.(store).(tokenContract) = Some c /\ hs.(store).(api) = Some c.(contract_api) /\
             hs.(store).(tokenContractAbi) = Some c.(contract_abi)) /\
  hs.(store).(keyring) = Some UiKeyring /\
  (forall p, sel = Some p -> hs.(store).(accountAddress) = Some p.(address) /\ p ∈ hs.(ui_keyring)).
Proof.
  intros Hr Hm. pose proof (reachable_Inv _ _ _ _ _ _ Hr) as I.
  destruct (main_dashboard _ _ Hm) as (_ & Hk & Hc & ->).
  split_and!.
  - destruct (inv_contract _ I (or_intror Hc)) as [c Hc']. exists c. split; [done|].
    by apply (inv_contract_api _ I).
  - by apply (inv_keyring _ I).
  - intros p Hp. by apply (inv_pair _ I).
Qed.

End Reachable.

End App.
