(* ===== verification/ContractCalls.v ===== *)
(** * The contract query and transaction helpers of [useSubstrate.js]

    The six query helpers ([getAccountMetadata], [getSupplyChain],
    [getRoles], [getTokenMetadata], [listAllTokens], [getTokenOwner]) send
    a read-only call and decode its output. The JSON ones apply
    [u8aToString], then [trim], then [JSON.parse], and fall back to [{}] or
    [[]] on an empty string or a parse error; a rejected call propagates.
    The six update helpers ([updateAccountMetadata], [updateSupplyChain],
    [updateRoles], [mintToken], [updateTokenMetadata], [transferToken])
    share one shape, modelled once by [send_tx]: choose the signer, build
    and sign the extrinsic, and settle the returned promise from the
    statuses the node reports.

    JSON values are the Inductive [Json] (numbers are rationals: the
    decimal literals the editors use are exact). [JSON.parse] (a built-in, not
    code of the repository) is the class [JsonParse], so the theorems hold
    for any parser. *)

From Stdlib Require Import QArith.
From S2P Require Import Prelude Strings Substrate.
Import Store.

Module ContractCalls.

(** ** JSON values and the parser the helpers call *)

Inductive Json :=
| JNull
| JBool (b : bool)
| JNum (n : Q)
| JStr (s : jsstr)
| JArr (items : list Json)
| JObj (fields : list (jsstr * Json)).

Class JsonParse := json_parse : jsstr -> option Json.

(** ** Queries *)

(** [u8aToString] on the 7-bit bytes of the contract's output. *)
Definition u8aToString (elems : list Byte.byte) : jsstr := map ascii_of_byte elems.

(** What [tokenContract.call('rpc', ...).send(accountAddress)] yields: the
    output's bytes, or a rejection. *)
Inductive RpcResult :=
| RpcOk (elems : list Byte.byte)
| RpcErr (msg : string).

Section Queries.
Context `{JsonParse}.

(** The [.then] body shared by the JSON helpers, with [dflt] the value of
    its two fallbacks. *)
Definition decode_json (dflt : Json) (elems : list Byte.byte) : Json :=
  let jsonString := u8aToString elems in
  if decide (jsonString = []) then dflt
  else match json_parse (Trim.trim jsonString) with
       | Some v => v
       | None => dflt
       end.

(** A query helper: [tokenContract] must exist (otherwise [tokenContract.call]
    throws a TypeError), a rejection is re-thrown by [.catch]. *)
Definition json_query (tokenContract : option Contract) (dflt : Json) (r : RpcResult) : result Json :=
  match tokenContract with
  | None => Throw "Cannot read properties of null (reading 'call')"
  | Some _ =>
      match r with
      | RpcOk elems => Ok (decode_json dflt elems)
      | RpcErr e => Throw e
      end
  end.

Definition getAccountMetadata (c : option Contract) (r : RpcResult) : result Json :=
  json_query c (JObj []) r.
Definition getSupplyChain (c : option Contract) (r : RpcResult) : result Json :=
  json_query c (JArr []) r.
Definition getRoles (c : option Contract) (r : RpcResult) : result Json :=
  json_query c (JArr []) r.
Definition getTokenMetadata (c : option Contract) (r : RpcResult) : result Json :=
  json_query c (JObj []) r.

End Queries.

(** [listAllTokens]: the output's elements, each by its [toString()]; an
    absent or empty list gives [[]]. *)
Definition listAllTokens (c : option Contract) (r : result (option (list jsstr))) : result (list jsstr) :=
  match c with
  | None => Throw "Cannot read properties of null (reading 'call')"
  | Some _ =>
      match r with
      | Ok (Some (_ :: _ as items)) => Ok items
      | Ok _ => Ok []
      | Throw e => Throw e
      end
  end.

(** [getTokenOwner]: [res.output.toString()], or [''] when that throws
    ([None]: an output of [null] or [undefined]); a rejection is passed on. *)
Definition getTokenOwner (c : option Contract) (r : result (option jsstr)) : result jsstr :=
  match c with
  | None => Throw "Cannot read properties of null (reading 'call')"
  | Some _ =>
      match r with
      | Ok (Some text) => Ok text
      | Ok None => Ok []
      | Throw e => Throw e
      end
  end.

(** ** Transactions *)

(** The statuses [signAndSend] reports to its callback. *)
Inductive TxStatus :=
| Future | Ready | Broadcast
| InBlock (blockHash : string)
| Retracted | FinalityTimeout
| Finalized (blockHash : string)
| Usurped | Dropped | Invalid.

(** The state of the promise the helper returns. *)
Inductive Settlement :=
| Pending
| Resolved (v : bool)
| Rejected (msg : string).

(** Who signs: the address, with the extension's signer, or the local
    keyring pair. *)
Inductive Signer :=
| SignWithAddress (addr : string)
| SignWithPair (p : Account).

Record TxRun := mkTxRun {
  settlement : Settlement;
  unsubscribed : bool;
  signed_by : option Signer
}.

(** [resolve] and [reject] settle a promise once. *)
Definition settle (s : Settlement) (v : Settlement) : Settlement :=
  match s with Pending => v | _ => s end.

(** The status callback. *)
Definition on_status (t : TxRun) (st : TxStatus) : TxRun :=
  match st with
  | InBlock _ => mkTxRun (settle t.(settlement) (Resolved true)) t.(unsubscribed) t.(signed_by)
  | Finalized _ => mkTxRun t.(settlement) true t.(signed_by)
  | _ => t
  end.

(** The part of the helper's body before its [try]: reading
    [accountPair.meta.source] (a TypeError when no pair is selected) and,
    for an extension account, awaiting [web3FromAddress(accountAddress)].
    [Some (pr, ext)] when the [try] is reached, [ext] telling whether the
    extension signs. *)
Definition signer_of (accountPair : option Account) (injector : result unit) : option (Account * bool) :=
  match accountPair with
  | None => None
  | Some pr =>
      if decide (pr.(meta_source) = "polkadot-js"%string)
      then match injector with Ok _ => Some (pr, true) | Throw _ => None end
      else Some (pr, false)
  end.

(** The helper's body, given what the libraries answer: the selected pair,
    the injector of [web3FromAddress], the outcome of building and signing
    the extrinsic (inside the [try]), and the statuses. An exception
    before the [try] escapes the async IIFE: nothing settles the
    promise. *)
Definition send_tx (accountAddress : option string) (accountPair : option Account)
    (injector : result unit) (submit : result unit) (statuses : list TxStatus) : TxRun :=
  match signer_of accountPair injector with
  | None => mkTxRun Pending false None
  | Some (pr, ext) =>
      let who := if ext then SignWithAddress (default ""%string accountAddress)
                 else SignWithPair pr in
      match submit with
      | Throw e => mkTxRun (Rejected e) false None
      | Ok _ => foldl on_status (mkTxRun Pending false (Some who)) statuses
      end
  end.

(** [JSON.stringify], a built-in: a class, like [JSON.parse]. *)
Class JsonStringify := json_stringify : Json -> jsstr.

(** The messages the update helpers build with
    [tokenContractAbi.messages]. *)
Inductive Message :=
| setAccountMetadataOf (targetAddress : string) (metadata : jsstr)
| setSupplyChain (chainData : jsstr)
| setRoles (roles : jsstr)
| mint (id : Z)
| setTokenMetadataOf (targetToken : Json) (metadata : jsstr)
| transfer (targetAddress : string) (targetToken : Json).

Section UpdateHelpers.
Context `{JsonStringify} (accountAddress : option string) (accountPair : option Account)
  (injector submit : result unit) (statuses : list TxStatus).

(** An update helper: the transaction, and the message it builds once its
    [try] is reached. *)
Definition helper_tx (m : Message) : TxRun * option Message :=
  (send_tx accountAddress accountPair injector submit statuses,
   (fun _ => m) <$> signer_of accountPair injector).

Definition updateAccountMetadata (targetAddress : string) (metadata : Json) :=
  helper_tx (setAccountMetadataOf targetAddress (json_stringify metadata)).
Definition updateSupplyChain (chainData : Json) :=
  helper_tx (setSupplyChain (json_stringify chainData)).
Definition updateRoles (roles : Json) :=
  helper_tx (setRoles (json_stringify roles)).
Definition mintToken (id : Z) :=
  helper_tx (mint id).
Definition updateTokenMetadata (targetToken metadata : Json) :=
  helper_tx (setTokenMetadataOf targetToken (json_stringify metadata)).
Definition transferToken (targetAddress : string) (targetToken : Json) :=
  helper_tx (transfer targetAddress targetToken).

End UpdateHelpers.

(** ** Lemmas *)

Lemma u8aToString_bytes (l : jsstr) : u8aToString (map byte_of_ascii l) = l.
Proof.
  unfold u8aToString. rewrite map_map.
  erewrite map_ext; [apply map_id|]. apply ascii_of_byte_of_ascii.
Qed.

Definition is_in_block (st : TxStatus) : bool := if st is InBlock _ then true else false.
Definition is_finalized (st : TxStatus) : bool := if st is Finalized _ then true else false.

(** The status callback over a stream: resolved by the first [InBlock],
    unsubscribed by a [Finalized], signer unchanged. *)
Lemma foldl_on_status (t : TxRun) (sts : list TxStatus) :
  foldl on_status t sts =
  mkTxRun (if existsb is_in_block sts then settle t.(settlement) (Resolved true) else t.(settlement))
          (t.(unsubscribed) || existsb is_finalized sts) t.(signed_by).
Proof.
  revert t. induction sts as [|st sts IH]; intros [s u w]; simpl.
  - by rewrite orb_false_r.
  - rewrite IH. destruct st; simpl; try done; f_equal;
      try (by destruct (existsb _ _), s); by rewrite orb_true_r.
Qed.

Lemma existsb_in_block (sts : list TxStatus) :
  existsb is_in_block sts = true <-> exists h, InBlock h ∈ sts.
Proof.
  rewrite existsb_exists. split.
  - intros ([] & Hin & Hb); try done. exists blockHash. by apply list_elem_of_In.
  - intros [h Hh]. exists (InBlock h). split; [by apply list_elem_of_In|done].
Qed.

Lemma existsb_finalized (sts : list TxStatus) :
  existsb is_finalized sts = true <-> exists h, Finalized h ∈ sts.
Proof.
  rewrite existsb_exists. split.
  - intros ([] & Hin & Hb); try done. exists blockHash. by apply list_elem_of_In.
  - intros [h Hh]. exists (Finalized h). split; [by apply list_elem_of_In|done].
Qed.

(** ** Properties of the helpers *)

Section QueryProperties.
Context `{JsonParse}.

(** How the JSON queries decode a framed array text. *)
Lemma decode_json_framed (dflt : Json) (p body q : jsstr) (v : Json) :
  Forall (fun x => Trim.is_open x = false) p ->
  Forall (fun x => x <> "]"%char) q ->
  json_parse ("["%char :: body ++ ["]"%char]) = Some v ->
  decode_json dflt (map byte_of_ascii (p ++ "["%char :: body ++ "]"%char :: q)) = v.
Proof.
  intros Hp Hq Hv. unfold decode_json.
  rewrite u8aToString_bytes, decide_False by (by destruct p).
  pose proof (Trim.trim_bracketed p body q "["%char Hp eq_refl Hq) as Ht.
  change (Trim.end_char_of "[") with "]"%char in Ht. by rewrite Ht, Hv.
Qed.

(** C15: a JSON array stored by the contract comes back from
    [getSupplyChain] as the value [JSON.parse] reads from it, whatever
    bracket-free bytes precede it and whatever bytes without ']' follow. *)
Theorem getSupplyChain_framed (c : Contract) (p body q : jsstr) (v : Json) :
  Forall (fun x => Trim.is_open x = false) p ->
  Forall (fun x => x <> "]"%char) q ->
  json_parse ("["%char :: body ++ ["]"%char]) = Some v ->
  getSupplyChain (Some c) (RpcOk (map byte_of_ascii (p ++ "["%char :: body ++ "]"%char :: q))) = Ok v.
Proof.
  intros Hp Hq Hv. unfold getSupplyChain, json_query. by erewrite decode_json_framed.
Qed.

(** The JSON queries never throw on what the contract returns
    (parse errors and empty outputs fall back to the default); they throw
    only when the call is rejected or there is no contract yet. *)
Theorem json_query_throws (c : option Contract) (dflt : Json) (r : RpcResult) (m : string) :
  json_query c dflt r = Throw m <->
  (c = None /\ m = "Cannot read properties of null (reading 'call')"%string) \/
  (is_Some c /\ r = RpcErr m).
Proof.
  unfold json_query. destruct c as [c|], r as [elems|e]; split; intros Hm;
    try (injection Hm as <-); try naive_solver.
Qed.

End QueryProperties.

Section TxProperties.
Context (accountAddress : option string) (pr : Account) (injector submit : result unit).

(** The promise of a transaction that was submitted with a signer. *)
Definition submitted : Prop :=
  (pr.(meta_source) = "polkadot-js"%string -> is_ok injector = true) /\ is_ok submit = true.

(** A submitted transaction signs and runs the status callback over the
    reported statuses. *)
Lemma submitted_run (sts : list TxStatus) :
  submitted -> exists who,
  send_tx accountAddress (Some pr) injector submit sts = foldl on_status (mkTxRun Pending false (Some who)) sts.
Proof.
  intros [Hinj Hsub]. unfold send_tx, signer_of. destruct submit as [u|]; [|done].
  case_decide as Hs; [destruct injector; [|by specialize (Hinj Hs)]|]; by eexists.
Qed.

(** Once submitted, the promise is resolved by an [InBlock] status and
    stays pending otherwise. *)
Lemma send_tx_settlement (sts : list TxStatus) :
  submitted ->
  (send_tx accountAddress (Some pr) injector submit sts).(settlement) =
  if existsb is_in_block sts then Resolved true else Pending.
Proof. intros Hs. destruct (submitted_run sts Hs) as [who ->]. by rewrite foldl_on_status. Qed.

(** C17: once submitted, the helper resolves [true] exactly when the node
    reports the extrinsic in a block. *)
Theorem send_tx_resolves (sts : list TxStatus) :
  submitted ->
  (send_tx accountAddress (Some pr) injector submit sts).(settlement) = Resolved true <->
  exists h, InBlock h ∈ sts.
Proof.
  intros Hs. rewrite send_tx_settlement, <- existsb_in_block by done.
  destruct (existsb _ _); split; congruence.
Qed.

(** C18: a transaction whose statuses contain no [InBlock] (dropped,
    invalid, usurped, or first seen already finalized) never resolves:
    once the signer is known, the promise the editors await stays pending
    when the extrinsic was signed and sent, and is rejected with the
    exception only when building or signing it threw. *)
Theorem send_tx_pending_without_in_block (sts : list TxStatus) :
  (pr.(meta_source) = "polkadot-js"%string -> is_ok injector = true) ->
  Forall (fun st => is_in_block st = false) sts ->
  (send_tx accountAddress (Some pr) injector submit sts).(settlement) =
  match submit with Ok _ => Pending | Throw e => Rejected e end.
Proof.
  intros Hinj Hsts. unfold send_tx, signer_of.
  assert (exists ext, (if decide (pr.(meta_source) = "polkadot-js"%string)
     then match injector with Ok _ => Some (pr, true) | Throw _ => None end
     else Some (pr, false)) = Some (pr, ext)) as [ext ->].
  { case_decide as Hs; [destruct injector; [by eexists|by specialize (Hinj Hs)]|by eexists]. }
  destruct submit as [u|e]; [|done].
  rewrite foldl_on_status. simpl.
  replace (existsb is_in_block sts) with false; [done|].
  symmetry. apply not_true_iff_false. rewrite existsb_in_block.
  intros [h Hh]. by rewrite Forall_forall in Hsts; specialize (Hsts _ Hh).
Qed.

(** C19: when the extension's [web3FromAddress] rejects for a polkadot-js
    account, the exception escapes the async body before the [try]: the
    returned promise is neither resolved nor rejected, whatever happens
    next. *)
Theorem send_tx_injector_failure (sts : list TxStatus) (e : string) :
  pr.(meta_source) = "polkadot-js"%string -> injector = Throw e ->
  send_tx accountAddress (Some pr) injector submit sts = mkTxRun Pending false None.
Proof. intros Hs ->. unfold send_tx, signer_of. by rewrite decide_True. Qed.

(** The status subscription is closed exactly when a [Finalized]
    status arrives; a dropped or invalid transaction keeps it open. *)
Theorem send_tx_unsubscribes (sts : list TxStatus) :
  submitted ->
  (send_tx accountAddress (Some pr) injector submit sts).(unsubscribed) = true <->
  exists h, Finalized h ∈ sts.
Proof.
  intros Hs. destruct (submitted_run sts Hs) as [who ->].
  rewrite foldl_on_status. apply existsb_finalized.
Qed.

End TxProperties.

(** ** Concrete runs *)

(** A parser that reads every text as a string value: enough to run the
    query helpers on concrete bytes. *)
Definition text_parse : JsonParse := fun s => Some (JStr s).

Definition demo_contract : Contract :=
  mkContract (ApiHandle 0) (mkAbi (ApiHandle 0)) "5Token"%string.
Definition demo_extension_pair : Account :=
  mkAccount "5Alice"%string "alice"%string "polkadot-js"%string.

Lemma getSupplyChain_framed_witness :
  @getSupplyChain text_parse (Some demo_contract)
    (RpcOk (map byte_of_ascii (js "xy" ++ "["%char :: js "1,2" ++ "]"%char :: js "z")))
  = Ok (JStr (js "[1,2]")).
Proof.
  apply (@getSupplyChain_framed text_parse demo_contract (js "xy") (js "1,2") (js "z")).
  - by repeat constructor.
  - repeat constructor; discriminate.
  - reflexivity.
Defined.

Lemma send_tx_resolves_witness :
  (send_tx (Some "5Alice"%string) (Some demo_extension_pair) (Ok tt) (Ok tt)
     [Ready; InBlock "0x01"; Finalized "0x01"]).(settlement) = Resolved true.
Proof.
  apply (send_tx_resolves (Some "5Alice"%string) demo_extension_pair (Ok tt) (Ok tt)).
  - split; reflexivity.
  - exists "0x01"%string. by right; left.
Defined.

Lemma send_tx_pending_without_in_block_witness :
  (send_tx (Some "5Alice"%string) (Some demo_extension_pair) (Ok tt) (Ok tt)
     [Ready; Broadcast; Dropped]).(settlement) = Pending.
Proof.
  apply (send_tx_pending_without_in_block (Some "5Alice"%string) demo_extension_pair (Ok tt) (Ok tt)).
  - reflexivity.
  - by repeat constructor.
Defined.

Lemma send_tx_injector_failure_witness :
  send_tx (Some "5Alice"%string) (Some demo_extension_pair) (Throw "no extension"%string) (Ok tt)
    [InBlock "0x01"] = mkTxRun Pending false None.
Proof.
  apply (send_tx_injector_failure _ _ _ _ _ "no extension"%string); reflexivity.
Defined.

Lemma send_tx_unsubscribes_witness :
  (send_tx (Some "5Alice"%string) (Some demo_extension_pair) (Ok tt) (Ok tt)
     [InBlock "0x01"; Finalized "0x01"]).(unsubscribed) = true.
Proof.
  apply (send_tx_unsubscribes (Some "5Alice"%string) demo_extension_pair (Ok tt) (Ok tt)).
  - split; reflexivity.
  - exists "0x01"%string. by right; left.
Defined.

End ContractCalls.
