(* ===== verification/Auth.v ===== *)
(** * The authentication store of [src/src/redux]

    [redux/types.js] builds the table of action types with a loop: every
    key maps to its own name in development and to consecutive integers
    from a random start in production ([Env]). A key the table does not
    list reads as [undefined]. The reducer of [redux/reducers/auth.js] is
    a [switch] on [action.type]: its cases are the list [cases], tried in
    source order with [===], and the body of the first matching case runs.
    Reading [action.payload.msg] when there is no payload throws, so the
    reducer returns a [result]. Redux's [dispatch] refuses an action whose
    type is [undefined] before the reducer runs.

    The thunks of [redux/actions/auth.js] have two halves: the synchronous
    part (the in-flight guard and the [REQUEST] dispatch) and the [.then]
    or [.catch] that runs when the HTTP call settles. The browser state
    they write ([localStorage.accessToken], [localStorage.user] and the
    axios [authorization] header) is part of the [World] record. *)

From S2P Require Import Prelude.

Module Auth.

(** ** [redux/types.js] *)

(** The values [types.X] can hold. *)
Inductive TypeVal :=
| TUndefined
| TStr (s : string)
| TNum (n : Z).

#[export] Instance TypeVal_eq_dec : EqDecision TypeVal.
Proof. solve_decision. Defined.

(** The keys of the object literal, in source order. *)
Definition type_keys : list string :=
  ["SIGNUP_REQUEST"; "SIGNUP_SUCCESS"; "SIGNUP_FAIL";
   "LOGIN_REQUEST"; "LOGIN_SUCCESS"; "LOGIN_FAIL";
   "GET_ME_REQUEST"; "GET_ME_SUCCESS"; "GET_ME_FAIL";
   "LOGOUT_SUCCESS";
   "POST_REQUEST_RESEND_VERIFICATION_EMAIL_REQUEST";
   "POST_REQUEST_RESEND_VERIFICATION_EMAIL_SUCCESS";
   "POST_REQUEST_RESEND_VERIFICATION_EMAIL_FAIL";
   "POST_VERIFY_EMAIL_REQUEST"; "POST_VERIFY_EMAIL_SUCCESS"; "POST_VERIFY_EMAIL_FAIL";
   "POST_REQUEST_PWD_RESET_REQUEST"; "POST_REQUEST_PWD_RESET_SUCCESS";
   "POST_REQUEST_PWD_RESET_FAIL";
   "POST_VERIFY_PWD_RESET_TOKEN_REQUEST"; "POST_VERIFY_PWD_RESET_TOKEN_SUCCESS";
   "POST_VERIFY_PWD_RESET_TOKEN_FAIL";
   "POST_PWD_RESET_REQUEST"; "POST_PWD_RESET_SUCCESS"; "POST_PWD_RESET_FAIL"]%string.

(** [process.env.NODE_ENV], and in production the start index
    [Math.floor(Math.random() * 1000)]. *)
Inductive Env :=
| Development
| Production (idx : Z).

(** The production loop: [types[prop] = idx++]. *)
Fixpoint number_from (idx : Z) (keys : list string) : list (string * TypeVal) :=
  match keys with
  | [] => []
  | k :: ks => (k, TNum idx) :: number_from (idx + 1) ks
  end.

Definition types_table (env : Env) : list (string * TypeVal) :=
  match env with
  | Development => map (fun k => (k, TStr k)) type_keys
  | Production idx => number_from idx type_keys
  end.

(** Property access on the table: a missing key is [undefined]. *)
Fixpoint prop_get (tbl : list (string * TypeVal)) (key : string) : TypeVal :=
  match tbl with
  | [] => TUndefined
  | (k, v) :: rest => if decide (k = key) then v else prop_get rest key
  end.

Definition types (env : Env) (key : string) : TypeVal := prop_get (types_table env) key.

(** ** [redux/reducers/auth.js] *)

(** A user object, by its JSON text. *)
Abbreviation User := string.

(** A server's field errors, [err.response.data.errors]: each field with
    its message. *)
Abbreviation Errors := (list (string * string)).

(** [err.response] of an HTTP error: its status and the fields of its
    [data] the code reads. *)
Record Response := mkResponse {
  r_status : Z;
  r_msg : option string;
  r_errors : option Errors
}.

(** The fields of an action's payload the code reads ([None] is
    [undefined]): the reducer reads the first three, the pages the
    [response] a rejection payload copies from the HTTP error. *)
Record Payload := mkPayload {
  p_msg : option string;
  p_accessToken : option string;
  p_user : option User;
  p_response : option Response
}.

Record Action := mkAction {
  a_type : TypeVal;
  a_payload : option Payload
}.

Record AuthState := mkAuth {
  isPostingSignup : bool;
  isPostingLogin : bool;
  isFetchingMe : bool;
  accessToken : option string;
  user : option User;
  isPostingRequestResendVerificationEmail : bool;
  isPostingVerifyEmail : bool;
  isPostingPwdResetRequest : bool;
  isPostingVerifyPwdResetToken : bool;
  isPostingPwdReset : bool;
  isPostingUnsubscribe : bool;
  msg : option string
}.

Definition INITIAL_STATE : AuthState :=
  mkAuth false false false (Some ""%string) None false false false false false false (Some ""%string).

(** The bodies of the [switch]; cases that share a body share a branch. *)
Inductive Branch :=
| SignupRequest | SignupDone
| LoginRequest | LoginSuccess | LoginFail
| GetMeRequest | GetMeSuccess | GetMeFail
| LogoutSuccess
| ResendRequest | ResendDone
| VerifyEmailRequest | VerifyEmailDone
| PwdResetRequestRequest | PwdResetRequestDone
| VerifyPwdResetTokenRequest | VerifyPwdResetTokenDone
| PwdResetRequest | PwdResetDone
| UnsubscribeRequest | UnsubscribeDone.

(** The [case] labels in source order, by the key of [types] they read. *)
Definition cases : list (string * Branch) :=
  [("SIGNUP_REQUEST", SignupRequest); ("SIGNUP_SUCCESS", SignupDone); ("SIGNUP_FAIL", SignupDone);
   ("LOGIN_REQUEST", LoginRequest); ("LOGIN_SUCCESS", LoginSuccess); ("LOGIN_FAIL", LoginFail);
   ("GET_ME_REQUEST", GetMeRequest); ("GET_ME_SUCCESS", GetMeSuccess); ("GET_ME_FAIL", GetMeFail);
   ("LOGOUT_SUCCESS", LogoutSuccess);
   ("POST_REQUEST_RESEND_VERIFICATION_EMAIL_REQUEST", ResendRequest);
   ("POST_REQUEST_RESEND_VERIFICATION_EMAIL_SUCCESS", ResendDone);
   ("POST_REQUEST_RESEND_VERIFICATION_EMAIL_FAIL", ResendDone);
   ("POST_VERIFY_EMAIL_REQUEST", VerifyEmailRequest);
   ("POST_VERIFY_EMAIL_SUCCESS", VerifyEmailDone); ("POST_VERIFY_EMAIL_FAIL", VerifyEmailDone);
   ("POST_REQUEST_PWD_RESET_REQUEST", PwdResetRequestRequest);
   ("POST_REQUEST_PWD_RESET_SUCCESS", PwdResetRequestDone);
   ("POST_REQUEST_PWD_RESET_FAIL", PwdResetRequestDone);
   ("POST_VERIFY_PWD_RESET_TOKEN_REQUEST", VerifyPwdResetTokenRequest);
   ("POST_VERIFY_PWD_RESET_TOKEN_SUCCESS", VerifyPwdResetTokenDone);
   ("POST_VERIFY_PWD_RESET_TOKEN_FAIL", VerifyPwdResetTokenDone);
   ("POST_PWD_RESET_REQUEST", PwdResetRequest);
   ("POST_PWD_RESET_SUCCESS", PwdResetDone); ("POST_PWD_RESET_FAIL", PwdResetDone);
   ("POST_UNSUBSCRIBE_REQUEST", UnsubscribeRequest);
   ("POST_UNSUBSCRIBE_SUCCESS", UnsubscribeDone); ("POST_UNSUBSCRIBE_FAIL", UnsubscribeDone)]%string.

(** The first case whose label is [===] to the action's type. *)
Fixpoint select (env : Env) (cs : list (string * Branch)) (t : TypeVal) : option Branch :=
  match cs with
  | [] => None
  | (k, b) :: rest => if decide (types env k = t) then Some b else select env rest t
  end.

(** [action.payload.field], which throws when the payload is
    [undefined]. *)
Definition payload_of (a : Action) (field : string) : result Payload :=
  match a.(a_payload) with
  | Some p => Ok p
  | None => Throw ("Cannot read properties of undefined (reading '" ++ field ++ "')")%string
  end.

(** [x || y] on an optional object. *)
Definition or_user (x y : option User) : option User :=
  match x with Some _ => x | None => y end.

(** The in-flight flags, one per thunk. *)
Inductive Kind :=
| KSignup | KLogin | KGetMe | KResend | KVerifyEmail
| KPwdResetRequest | KVerifyPwdResetToken | KPwdReset | KUnsubscribe.

#[export] Instance Kind_eq_dec : EqDecision Kind.
Proof. solve_decision. Defined.

Definition flag_of (k : Kind) (s : AuthState) : bool :=
  match k with
  | KSignup => s.(isPostingSignup)
  | KLogin => s.(isPostingLogin)
  | KGetMe => s.(isFetchingMe)
  | KResend => s.(isPostingRequestResendVerificationEmail)
  | KVerifyEmail => s.(isPostingVerifyEmail)
  | KPwdResetRequest => s.(isPostingPwdResetRequest)
  | KVerifyPwdResetToken => s.(isPostingVerifyPwdResetToken)
  | KPwdReset => s.(isPostingPwdReset)
  | KUnsubscribe => s.(isPostingUnsubscribe)
  end.

(** [{ ...state, <flag of k>: b }] *)
Definition set_flag (k : Kind) (b : bool) (s : AuthState) : AuthState :=
  let 'mkAuth su lo me tok u re ve pr vt pw un m := s in
  match k with
  | KSignup => mkAuth b lo me tok u re ve pr vt pw un m
  | KLogin => mkAuth su b me tok u re ve pr vt pw un m
  | KGetMe => mkAuth su lo b tok u re ve pr vt pw un m
  | KResend => mkAuth su lo me tok u b ve pr vt pw un m
  | KVerifyEmail => mkAuth su lo me tok u re b pr vt pw un m
  | KPwdResetRequest => mkAuth su lo me tok u re ve b vt pw un m
  | KVerifyPwdResetToken => mkAuth su lo me tok u re ve pr b pw un m
  | KPwdReset => mkAuth su lo me tok u re ve pr vt b un m
  | KUnsubscribe => mkAuth su lo me tok u re ve pr vt pw b m
  end.

Definition set_msg (m : option string) (s : AuthState) : AuthState :=
  let 'mkAuth su lo me tok u re ve pr vt pw un _ := s in
  mkAuth su lo me tok u re ve pr vt pw un m.
Definition set_accessToken (t : option string) (s : AuthState) : AuthState :=
  let 'mkAuth su lo me _ u re ve pr vt pw un m := s in
  mkAuth su lo me t u re ve pr vt pw un m.
Definition set_user (x : option User) (s : AuthState) : AuthState :=
  let 'mkAuth su lo me tok _ re ve pr vt pw un m := s in
  mkAuth su lo me tok x re ve pr vt pw un m.

(** The flag a [*_REQUEST] case sets and its [*_SUCCESS]/[*_FAIL] cases
    clear, for the cases that do nothing else. *)
Definition flag_branch (b : Branch) : option (Kind * bool) :=
  match b with
  | ResendRequest => Some (KResend, true)
  | ResendDone => Some (KResend, false)
  | VerifyEmailRequest => Some (KVerifyEmail, true)
  | VerifyEmailDone => Some (KVerifyEmail, false)
  | PwdResetRequestRequest => Some (KPwdResetRequest, true)
  | PwdResetRequestDone => Some (KPwdResetRequest, false)
  | VerifyPwdResetTokenRequest => Some (KVerifyPwdResetToken, true)
  | VerifyPwdResetTokenDone => Some (KVerifyPwdResetToken, false)
  | PwdResetRequest => Some (KPwdReset, true)
  | PwdResetDone => Some (KPwdReset, false)
  | UnsubscribeRequest => Some (KUnsubscribe, true)
  | UnsubscribeDone => Some (KUnsubscribe, false)
  | _ => None
  end.

(** The body of each case. *)
Definition apply_branch (b : Branch) (s : AuthState) (a : Action) : result AuthState :=
  match b with
  | SignupRequest => Ok (set_msg (Some ""%string) (set_flag KSignup true s))
  | SignupDone =>
      p ← payload_of a "msg"; Ok (set_msg p.(p_msg) (set_flag KSignup false s))
  | LoginRequest => Ok (set_msg (Some ""%string) (set_flag KLogin true s))
  | LoginSuccess =>
      p ← payload_of a "accessToken";
      Ok (set_user (or_user p.(p_user) s.(user))
           (set_msg p.(p_msg) (set_accessToken p.(p_accessToken) (set_flag KLogin false s))))
  | LoginFail =>
      p ← payload_of a "msg";
      Ok (set_msg p.(p_msg) (set_accessToken (Some ""%string) (set_flag KLogin false s)))
  | GetMeRequest => Ok (set_msg (Some ""%string) (set_flag KGetMe true s))
  | GetMeSuccess =>
      p ← payload_of a "user";
      Ok (set_msg (Some ""%string) (set_user p.(p_user) (set_flag KGetMe false s)))
  | GetMeFail =>
      p ← payload_of a "msg"; Ok (set_msg p.(p_msg) (set_user None (set_flag KGetMe false s)))
  | LogoutSuccess =>
      p ← payload_of a "msg";
      Ok (set_msg p.(p_msg) (set_accessToken (Some ""%string) (set_user None s)))
  | _ =>
      match flag_branch b with
      | Some (k, v) => Ok (set_flag k v s)
      | None => Ok s
      end
  end.

(** The reducer: the first matching case, or [default: return state]. *)
Definition reducer (env : Env) (s : AuthState) (a : Action) : result AuthState :=
  match select env cases a.(a_type) with
  | Some b => apply_branch b s a
  | None => Ok s
  end.

(** Redux's [dispatch]: an action whose [type] is [undefined] is refused
    with an exception before the reducer runs. *)
Definition redux_dispatch (env : Env) (s : AuthState) (a : Action) : result AuthState :=
  if decide (a.(a_type) = TUndefined)
  then Throw "Actions may not have an undefined 'type' property. Have you misspelled a constant?"
  else reducer env s a.

(** ** [redux/actions/auth.js] and [utils/setApiAuthHeader.js] *)

(** What the thunks write outside the store: [localStorage.accessToken],
    [localStorage.user] and [axios.defaults.headers.common.authorization]. *)
Record World := mkWorld {
  store : AuthState;
  ls_accessToken : option string;
  ls_user : option string;
  auth_header : option string
}.

Definition with_store (w : World) (s : AuthState) : World :=
  mkWorld s w.(ls_accessToken) w.(ls_user) w.(auth_header).

(** [setApiAuthHeader(accessToken = null)]: a truthy token sets the header,
    anything else deletes it. *)
Definition setApiAuthHeader (tok : option string) : option string :=
  match tok with
  | Some t => if decide (t = ""%string) then None else Some t
  | None => None
  end.

(** [x || d] for a string [x] that may be [undefined]. *)
Definition str_or (x : option string) (d : string) : string :=
  match x with
  | Some m => if decide (m = ""%string) then d else m
  | None => d
  end.

(** The body of a response: the fields the code reads, and its JSON text
    (what [JSON.stringify(data)] gives, and the user object [getMe]
    stores). *)
Record Body := mkBody {
  b_msg : option string;
  b_accessToken : option string;
  b_user : option User;
  b_json : string
}.

(** How the HTTP call of a thunk settles: a response body ([null] is
    [None]), or an error with its [err.response] ([None] when no response
    came back). *)
Inductive ApiOutcome :=
| ApiResolved (data : option Body)
| ApiRejected (response : option Response).

(** What reaches the [.catch]: an HTTP error, the payload [login] rejects
    with, or an exception thrown in the [.then]. *)
Inductive Err :=
| ErrResponse (response : option Response)
| ErrValue (p : Payload)
| ErrException (m : string).

(** The state of the promise a thunk returns. *)
Inductive Outcome :=
| Fulfilled (p : Payload)
| RejectedWith (p : option Payload)
| RejectedError (m : string).

(** [{ ...data, msg }] *)
Definition spread_msg (data : option Body) (m : string) : Payload :=
  mkPayload (Some m) (data ≫= b_accessToken) (data ≫= b_user) None.

(** [(err.response && err.response.data && err.response.data.msg) || d] *)
Definition err_msg (e : Err) (d : string) : string :=
  match e with ErrResponse r => str_or (r ≫= r_msg) d | _ => d end.

(** [{ ...err, msg }]: an HTTP error's own [response] is copied, an
    exception has no enumerable property. *)
Definition err_payload (e : Err) (m : string) : Payload :=
  match e with
  | ErrValue p => mkPayload (Some m) p.(p_accessToken) p.(p_user) p.(p_response)
  | ErrResponse r => mkPayload (Some m) None None r
  | ErrException _ => mkPayload (Some m) None None None
  end.

(** The constants of one thunk: its flag, its three action types, and the
    default messages of its [.then] and [.catch]. *)
Record Flow := mkFlow {
  f_kind : Kind;
  f_request : string;
  f_success : string;
  f_fail : string;
  f_ok_msg : string;
  f_fail_msg : string
}.

Definition flow_of (k : Kind) : Flow :=
  match k with
  | KSignup => mkFlow k "SIGNUP_REQUEST" "SIGNUP_SUCCESS" "SIGNUP_FAIL" "Signup success!" "Signup failed!"
  | KLogin => mkFlow k "LOGIN_REQUEST" "LOGIN_SUCCESS" "LOGIN_FAIL" "Login success!" "Login failed!"
  | KGetMe => mkFlow k "GET_ME_REQUEST" "GET_ME_SUCCESS" "GET_ME_FAIL" "" "Get failed!"
  | KResend => mkFlow k "POST_REQUEST_RESEND_VERIFICATION_EMAIL_REQUEST"
      "POST_REQUEST_RESEND_VERIFICATION_EMAIL_SUCCESS" "POST_REQUEST_RESEND_VERIFICATION_EMAIL_FAIL"
      "Request successful!" "Request failed"
  | KVerifyEmail => mkFlow k "POST_VERIFY_EMAIL_REQUEST" "POST_VERIFY_EMAIL_SUCCESS"
      "POST_VERIFY_EMAIL_FAIL" "Email verified successfully" "Email verification failed"
  | KPwdResetRequest => mkFlow k "POST_REQUEST_PWD_RESET_REQUEST" "POST_REQUEST_PWD_RESET_SUCCESS"
      "POST_REQUEST_PWD_RESET_FAIL" "Request successful!" "Request failed"
  | KVerifyPwdResetToken => mkFlow k "POST_VERIFY_PWD_RESET_TOKEN_REQUEST"
      "POST_VERIFY_PWD_RESET_TOKEN_SUCCESS" "POST_VERIFY_PWD_RESET_TOKEN_FAIL"
      "Token verified!" "Token invalid"
  | KPwdReset => mkFlow k "POST_PWD_RESET_REQUEST" "POST_PWD_RESET_SUCCESS" "POST_PWD_RESET_FAIL"
      "Password changed!" "Password change failed"
  | KUnsubscribe => mkFlow k "POST_UNSUBSCRIBE_REQUEST" "POST_UNSUBSCRIBE_SUCCESS"
      "POST_UNSUBSCRIBE_FAIL" "Unsubscribe successful" "Unsubscribe failed"
  end%string.

Section Thunks.
Context (env : Env).

(** [dispatch({ type: types[key], payload })] *)
Definition dispatch_key (s : AuthState) (key : string) (p : option Payload) : result AuthState :=
  redux_dispatch env s (mkAction (types env key) p).

(** What the synchronous half of a thunk does. *)
Inductive Start :=
| Guarded                (** [return Promise.reject()] *)
| Started                (** the HTTP call is in flight *)
| Crashed (m : string)   (** an exception thrown to the caller *)
| Returned (p : Payload) (** [return Promise.resolve(payload)] *).

(** The guard and the [REQUEST] dispatch every thunk but [logout] opens
    with. *)
Definition thunk_start (k : Kind) (w : World) : World * Start :=
  if flag_of k w.(store) then (w, Guarded)
  else match dispatch_key w.(store) (flow_of k).(f_request) None with
       | Ok s' => (with_store w s', Started)
       | Throw m => (w, Crashed m)
       end.

(** The [.catch] of a thunk: dispatch [FAIL] with [{ ...err, msg }], run
    [after] ([getMe] clears the storage and the header), reject. *)
Definition catch_fail (k : Kind) (after : World -> World) (w : World) (e : Err) : World * Outcome :=
  let payload := err_payload e (err_msg e (flow_of k).(f_fail_msg)) in
  match dispatch_key w.(store) (flow_of k).(f_fail) (Some payload) with
  | Ok s' => (after (with_store w s'), RejectedWith (Some payload))
  | Throw m => (w, RejectedError m)
  end.

(** [localStorage.clear(); setApiAuthHeader();] *)
Definition clear_session (w : World) : World := mkWorld w.(store) None None None.

(** The [.then]/[.catch] of [signup], [requestResendVerificationEmail],
    [verifyEmail], [requestPwdReset], [verifyPwdResetToken], [resetPwd]
    and [unsubscribe]. *)
Definition plain_settle (k : Kind) (w : World) (o : ApiOutcome) : World * Outcome :=
  match o with
  | ApiResolved data =>
      let payload := spread_msg data (str_or (data ≫= b_msg) (flow_of k).(f_ok_msg)) in
      match dispatch_key w.(store) (flow_of k).(f_success) (Some payload) with
      | Ok s' => (with_store w s', Fulfilled payload)
      | Throw m => catch_fail k id w (ErrException m)
      end
  | ApiRejected r => catch_fail k id w (ErrResponse r)
  end.

(** The [.then]/[.catch] of [login]: a body without a truthy
    [accessToken] is rejected into the [.catch]. *)
Definition login_settle (w : World) (o : ApiOutcome) : World * Outcome :=
  match o with
  | ApiResolved data =>
      let payload := spread_msg data (str_or (data ≫= b_msg) "Login success!") in
      match setApiAuthHeader payload.(p_accessToken) with
      | None => catch_fail KLogin id w (ErrValue payload)
      | Some tok =>
          let w1 := mkWorld w.(store) (Some tok) w.(ls_user) (Some tok) in
          match dispatch_key w1.(store) "LOGIN_SUCCESS" (Some payload) with
          | Ok s' => (with_store w1 s', Fulfilled payload)
          | Throw m => catch_fail KLogin id w1 (ErrException m)
          end
      end
  | ApiRejected r => catch_fail KLogin id w (ErrResponse r)
  end.

(** The [.then]/[.catch] of [getMe]: the body is the user object. *)
Definition getMe_settle (w : World) (o : ApiOutcome) : World * Outcome :=
  match o with
  | ApiResolved data =>
      let text := default "null"%string (b_json <$> data) in
      let w1 := mkWorld w.(store) w.(ls_accessToken) (Some text) w.(auth_header) in
      let payload := mkPayload None None (b_json <$> data) None in
      match dispatch_key w1.(store) "GET_ME_SUCCESS" (Some payload) with
      | Ok s' => (with_store w1 s', Fulfilled payload)
      | Throw m => catch_fail KGetMe clear_session w1 (ErrException m)
      end
  | ApiRejected r => catch_fail KGetMe clear_session w (ErrResponse r)
  end.

Definition settle (k : Kind) : World -> ApiOutcome -> World * Outcome :=
  match k with
  | KLogin => login_settle
  | KGetMe => getMe_settle
  | _ => plain_settle k
  end.

Context (JSON_parse_user : string -> option User).

(** [loginWithToken(accessToken, user)]: synchronous; [JSON.parse(user)]
    runs after [LOGIN_REQUEST] was dispatched. *)
Definition loginWithToken (tok user_text : string) (w : World) : World * Start :=
  if w.(store).(isPostingLogin) then (w, Guarded)
  else match dispatch_key w.(store) "LOGIN_REQUEST" None with
       | Throw m => (w, Crashed m)
       | Ok s1 =>
           let w1 := mkWorld s1 (Some tok) w.(ls_user) (setApiAuthHeader (Some tok)) in
           match JSON_parse_user user_text with
           | None => (w1, Crashed "Unexpected token in JSON")
           | Some u =>
               let payload := mkPayload (Some "Login with token"%string) (Some tok) (Some u) None in
               match dispatch_key s1 "LOGIN_SUCCESS" (Some payload) with
               | Ok s2 => (with_store w1 s2, Returned payload)
               | Throw m => (w1, Crashed m)
               end
           end
       end.

(** [logout()]: clear the session, then dispatch [LOGOUT_SUCCESS]; the
    thunk returns nothing, or throws what [dispatch] throws. *)
Definition logout (w : World) : World * result unit :=
  let w1 := clear_session w in
  match dispatch_key w1.(store) "LOGOUT_SUCCESS" (Some (mkPayload (Some "Logout success!"%string) None None None)) with
  | Ok s' => (with_store w1 s', Ok tt)
  | Throw m => (w1, Throw m)
  end.

End Thunks.

(** ** The store with its thunks in flight *)

Section System.
Context (env : Env) (JSON_parse_user : string -> option User).

(** The browser state and the thunks whose HTTP call has not settled. *)
Record Sys := mkSys {
  world : World;
  inflight : list Kind
}.

(** A fresh page: the reducer's initial state, what [localStorage] holds
    from an earlier visit, no header. *)
Definition init (tok usr : option string) : Sys :=
  mkSys (mkWorld INITIAL_STATE tok usr None) [].

Inductive Event :=
| Call (k : Kind)                        (** a component calls a thunk *)
| Settle (k : Kind) (o : ApiOutcome)     (** its HTTP call settles *)
| LoginWithToken (tok user_text : string)
| Logout.

Fixpoint remove_one (k : Kind) (l : list Kind) : list Kind :=
  match l with
  | [] => []
  | k' :: l' => if decide (k' = k) then l' else k' :: remove_one k l'
  end.

Definition step (sy : Sys) (e : Event) : option Sys :=
  match e with
  | Call k =>
      let '(w', st) := thunk_start env k sy.(world) in
      Some (mkSys w' (if st is Started then k :: sy.(inflight) else sy.(inflight)))
  | Settle k o =>
      if decide (k ∈ sy.(inflight))
      then Some (mkSys (settle env k sy.(world) o).1 (remove_one k sy.(inflight)))
      else None
  | LoginWithToken tok u =>
      Some (mkSys (loginWithToken env JSON_parse_user tok u sy.(world)).1 sy.(inflight))
  | Logout => Some (mkSys (logout env sy.(world)).1 sy.(inflight))
  end.

Fixpoint run (sy : Sys) (evs : list Event) : option Sys :=
  match evs with
  | [] => Some sy
  | e :: evs' => sy' ← step sy e; run sy' evs'
  end.

Inductive reachable : Sys -> Prop :=
| reachable_init tok usr : reachable (init tok usr)
| reachable_step sy e sy' : reachable sy -> step sy e = Some sy' -> reachable sy'.

End System.

(** ** The action-type table and the [switch] *)

(** The [case] labelled with a key: the first one, as [switch] tries them. *)
Fixpoint case_of (cs : list (string * Branch)) (key : string) : option Branch :=
  match cs with
  | [] => None
  | (k, b) :: rest => if decide (k = key) then Some b else case_of rest key
  end.

(** The value the loop gives the key at position [i]. *)
Definition type_val (env : Env) (i : nat) (k : string) : TypeVal :=
  match env with
  | Development => TStr k
  | Production idx => TNum (idx + Z.of_nat i)
  end.


Lemma type_keys_NoDup : NoDup type_keys.
Proof. vm_decide. Qed.

Lemma prop_get_absent (tbl : list (string * TypeVal)) (k : string) :
  k ∉ tbl.*1 -> prop_get tbl k = TUndefined.
Proof.
  induction tbl as [|[k' v] tbl IH]; intros Hk; [done|]. simpl in *.
  rewrite elem_of_cons in Hk. rewrite decide_False by naive_solver. naive_solver.
Qed.

Lemma prop_get_number_from (idx : Z) (keys : list string) (i : nat) (k : string) :
  NoDup keys -> keys !! i = Some k -> prop_get (number_from idx keys) k = TNum (idx + Z.of_nat i).
Proof.
  revert idx i. induction keys as [|k' keys IH]; intros idx i Hnd Hi; [done|].
  apply NoDup_cons in Hnd as [Hn Hnd]. destruct i as [|i]; simpl in *.
  - injection Hi as ->. rewrite decide_True by done. f_equal; lia.
  - rewrite decide_False; [|intros ->; apply Hn; by eapply list_elem_of_lookup_2].
    rewrite (IH (idx + 1)%Z i Hnd Hi). f_equal; lia.
Qed.

Lemma prop_get_names (keys : list string) (k : string) :
  k ∈ keys -> prop_get (map (fun k => (k, TStr k)) keys) k = TStr k.
Proof.
  induction keys as [|k' keys IH]; intros Hk; [by apply not_elem_of_nil in Hk|]. simpl.
  case_decide as Heq; [by subst|]. apply IH. apply elem_of_cons in Hk as [->|]; done.
Qed.

Lemma number_from_keys (idx : Z) (keys : list string) : (number_from idx keys).*1 = keys.
Proof. revert idx. induction keys; intros; simpl; f_equal; auto. Qed.

Lemma names_keys (keys : list string) : (map (fun k => (k, TStr k)) keys).*1 = keys.
Proof. induction keys; simpl; f_equal; auto. Qed.

Lemma types_index (env : Env) (i : nat) (k : string) :
  type_keys !! i = Some k -> types env k = type_val env i k.
Proof.
  intros Hi. unfold types, types_table. destruct env.
  - apply prop_get_names. by eapply list_elem_of_lookup_2.
  - apply prop_get_number_from; [apply type_keys_NoDup|done].
Qed.

Lemma types_undefined (env : Env) (k : string) : k ∉ type_keys -> types env k = TUndefined.
Proof.
  intros Hk. apply prop_get_absent. destruct env; unfold types_table;
    [by rewrite names_keys|by rewrite number_from_keys].
Qed.

Lemma types_defined (env : Env) (k : string) : k ∈ type_keys -> types env k <> TUndefined.
Proof.
  intros Hk. apply list_elem_of_lookup_1 in Hk as [i Hi].
  rewrite (types_index env i k Hi). by destruct env.
Qed.

(** Both loops give distinct values to distinct keys. *)
Lemma types_inj (env : Env) (k1 k2 : string) :
  k1 ∈ type_keys -> k2 ∈ type_keys -> types env k1 = types env k2 -> k1 = k2.
Proof.
  intros H1 H2. apply list_elem_of_lookup_1 in H1 as [i1 Hi1], H2 as [i2 Hi2].
  rewrite (types_index env i1 k1 Hi1), (types_index env i2 k2 Hi2).
  destruct env; simpl; intros Heq; injection Heq as Heq; [done|].
  assert (i1 = i2) as -> by lia. congruence.
Qed.

Lemma select_types (env : Env) (cs : list (string * Branch)) (key : string) :
  key ∈ type_keys -> select env cs (types env key) = case_of cs key.
Proof.
  intros Hkey. induction cs as [|[k b] cs IH]; simpl; [done|].
  destruct (decide (k = key)) as [->|Hk]; [by rewrite decide_True|].
  rewrite decide_False; [done|]. intros Heq.
  destruct (decide (k ∈ type_keys)) as [Hin|Hout].
  - by apply Hk, (types_inj env).
  - rewrite types_undefined in Heq by done. by apply (types_defined env key).
Qed.

(** C21: in development and in production alike, dispatching an action
    whose type is [types.KEY], for a key the table lists, runs the body of
    the case labelled [KEY]: the random production numbering never makes
    two cases collide. *)
Theorem switch_selects_case (env : Env) (s : AuthState) (a : Action) (key : string) :
  key ∈ type_keys -> a.(a_type) = types env key ->
  redux_dispatch env s a =
  match case_of cases key with Some b => apply_branch b s a | None => Ok s end.
Proof.
  intros Hkey Ha. unfold redux_dispatch, reducer.
  rewrite decide_False by (rewrite Ha; by apply types_defined).
  by rewrite Ha, select_types.
Qed.

Lemma dispatch_key_case (env : Env) (s : AuthState) (key : string) (p : option Payload) (b : Branch) :
  key ∈ type_keys -> case_of cases key = Some b ->
  dispatch_key env s key p = apply_branch b s (mkAction (types env key) p).
Proof.
  intros Hkey Hb. unfold dispatch_key, redux_dispatch, reducer. cbn [a_type].
  rewrite decide_False by (by apply types_defined). by rewrite select_types, Hb.
Qed.

(** The three [unsubscribe] types are not in the table: Redux refuses
    them. *)
Lemma dispatch_unsubscribe (env : Env) (s : AuthState) (key : string) (p : option Payload) :
  key ∈ ["POST_UNSUBSCRIBE_REQUEST"; "POST_UNSUBSCRIBE_SUCCESS"; "POST_UNSUBSCRIBE_FAIL"]%string ->
  dispatch_key env s key p =
  Throw "Actions may not have an undefined 'type' property. Have you misspelled a constant?".
Proof.
  intros Hk. unfold dispatch_key, redux_dispatch. cbn [a_type].
  rewrite types_undefined; [by rewrite decide_True|].
  intros Hin. repeat (apply elem_of_cons in Hk as [->|Hk]; [revert Hin; vm_decide|]).
  by apply not_elem_of_nil in Hk.
Qed.

(** ** Frame lemmas on the flags *)

Lemma flag_of_set_flag (k k' : Kind) (b : bool) (s : AuthState) :
  flag_of k' (set_flag k b s) = if decide (k' = k) then b else flag_of k' s.
Proof. destruct s, k, k'; reflexivity. Qed.
Lemma flag_of_set_msg (k : Kind) (m : option string) (s : AuthState) :
  flag_of k (set_msg m s) = flag_of k s.
Proof. destruct s, k; reflexivity. Qed.
Lemma flag_of_set_accessToken (k : Kind) (t : option string) (s : AuthState) :
  flag_of k (set_accessToken t s) = flag_of k s.
Proof. destruct s, k; reflexivity. Qed.
Lemma flag_of_set_user (k : Kind) (u : option User) (s : AuthState) :
  flag_of k (set_user u s) = flag_of k s.
Proof. destruct s, k; reflexivity. Qed.

#[export] Hint Rewrite flag_of_set_flag flag_of_set_msg flag_of_set_accessToken
  flag_of_set_user : jsrw.

(** [s'] is [s] with the flag of [k] set to [v] and the other flags kept. *)
Definition flags_after (k : Kind) (v : bool) (s s' : AuthState) : Prop :=
  flag_of k s' = v /\ forall k', k' <> k -> flag_of k' s' = flag_of k' s.

Ltac solve_flags :=
  split; [|intros ? ?]; autorewrite with jsrw;
  [rewrite decide_True by done|rewrite decide_False by done]; done.

(** The [REQUEST] dispatch of a thunk other than [unsubscribe] succeeds
    and sets its flag only. *)
Lemma dispatch_request (env : Env) (k : Kind) (s : AuthState) :
  k <> KUnsubscribe ->
  exists s', dispatch_key env s (flow_of k).(f_request) None = Ok s' /\ flags_after k true s s'.
Proof.
  intros Hk. destruct k; try done;
    (erewrite dispatch_key_case; [|vm_decide|reflexivity]); eexists; (split; [reflexivity|]);
    solve_flags.
Qed.

(** Its [SUCCESS] and [FAIL] dispatches, with a payload, succeed and
    clear its flag only. *)
Lemma dispatch_done (env : Env) (k : Kind) (s : AuthState) (key : string) (p : Payload) :
  k <> KUnsubscribe -> key = (flow_of k).(f_success) \/ key = (flow_of k).(f_fail) ->
  exists s', dispatch_key env s key (Some p) = Ok s' /\ flags_after k false s s'.
Proof.
  intros Hk [->| ->]; destruct k; try done;
    (erewrite dispatch_key_case; [|vm_decide|reflexivity]); eexists; (split; [reflexivity|]);
    solve_flags.
Qed.

(** [LOGOUT_SUCCESS] succeeds and keeps every flag. *)
Lemma dispatch_logout (env : Env) (s : AuthState) (p : Payload) :
  exists s', dispatch_key env s "LOGOUT_SUCCESS" (Some p) = Ok s' /\
  forall k, flag_of k s' = flag_of k s.
Proof.
  erewrite dispatch_key_case; [|vm_decide|reflexivity].
  eexists; split; [reflexivity|]. intros k. by autorewrite with jsrw.
Qed.

(** ** What a settled thunk leaves behind *)

Ltac use_dispatch_done k :=
  match goal with
  | |- context [dispatch_key ?e ?s ?key (Some ?p)] =>
      let s' := fresh "s'" in let Hf := fresh "Hflags" in
      let Hk := fresh "Hk" in let Hkey := fresh "Hkey" in
      assert (Hk : k <> KUnsubscribe) by done;
      assert (Hkey : key = (flow_of k).(f_success) \/ key = (flow_of k).(f_fail))
        by (first [by left | by right]);
      destruct (dispatch_done e k s key p Hk Hkey) as (s' & -> & Hf); clear Hkey
  end.

Lemma catch_fail_ok (env : Env) (k : Kind) (after : World -> World) (w : World) (e : Err) :
  k <> KUnsubscribe ->
  exists s', flags_after k false w.(store) s' /\ (catch_fail env k after w e).1 = after (with_store w s').
Proof. intros Hk. unfold catch_fail. use_dispatch_done k. by eexists. Qed.

Lemma setApiAuthHeader_some (x : option string) (t : string) :
  setApiAuthHeader x = Some t -> x = Some t /\ t <> ""%string.
Proof. destruct x as [x|]; simpl; [case_decide; [done|]|done]. intros [= ->]. done. Qed.

(** Settling a request clears its flag, keeps the other flags, and either
    keeps the session, clears it ([getMe] failing), stores a login token
    in both places, or stores the user. *)
Lemma settle_shape (env : Env) (k : Kind) (w : World) (o : ApiOutcome) :
  k <> KUnsubscribe ->
  exists s', flags_after k false w.(store) s' /\
  ((settle env k w o).1 = with_store w s' \/
   (settle env k w o).1 = clear_session (with_store w s') \/
   (exists tok, tok <> ""%string /\
      (settle env k w o).1 = mkWorld s' (Some tok) w.(ls_user) (Some tok)) \/
   (exists text, (settle env k w o).1 = mkWorld s' w.(ls_accessToken) (Some text) w.(auth_header))).
Proof.
  intros Hk. destruct k; try done; unfold settle.
  2:{ unfold login_settle. destruct o as [data|r]; cbv zeta.
      - destruct (setApiAuthHeader _) as [tok|] eqn:Htok.
        + use_dispatch_done KLogin. exists s'. split; [done|].
          right; right; left. exists tok. split; [|done]. by apply setApiAuthHeader_some in Htok as [_ ?].
        + destruct (catch_fail_ok env KLogin id w (ErrValue (spread_msg data
            (str_or (data ≫= b_msg) "Login success!")))) as (s' & Hf & ->); [done|].
          exists s'. split; [done|]. by left.
      - destruct (catch_fail_ok env KLogin id w (ErrResponse r)) as (s' & Hf & ->); [done|].
        exists s'. split; [done|]. by left. }
  2:{ unfold getMe_settle. destruct o as [data|r]; cbv zeta.
      - use_dispatch_done KGetMe. exists s'. split; [done|]. right; right; right. by eexists.
      - destruct (catch_fail_ok env KGetMe clear_session w (ErrResponse r)) as (s' & Hf & ->); [done|].
        exists s'. split; [done|]. by right; left. }
  all: unfold plain_settle; destruct o as [data|r]; cbv zeta;
    [use_dispatch_done ltac:(match goal with |- context [flow_of ?k] => k end);
     eexists; split; [eassumption|by left]|].
  all: match goal with |- context [catch_fail ?e ?k ?a ?w ?er] =>
         destruct (catch_fail_ok e k a w er) as (s' & Hf & ->); [done|] end;
    exists s'; split; [done|by left].
Qed.

Lemma flags_after_trans (k : Kind) (v1 v2 : bool) (s s1 s2 : AuthState) :
  flags_after k v1 s s1 -> flags_after k v2 s1 s2 -> flags_after k v2 s s2.
Proof. intros [_ H1] [H2 H2']. split; [done|]. intros k' Hk'. by rewrite H2', H1. Qed.

(** The synchronous half of a thunk: rejected by its flag, refused by
    Redux ([unsubscribe]), or started with its flag set. *)
Lemma thunk_start_cases (env : Env) (k : Kind) (w : World) :
  (flag_of k w.(store) = true /\ thunk_start env k w = (w, Guarded)) \/
  (flag_of k w.(store) = false /\ k = KUnsubscribe /\
     thunk_start env k w = (w, Crashed
       "Actions may not have an undefined 'type' property. Have you misspelled a constant?")) \/
  (flag_of k w.(store) = false /\ k <> KUnsubscribe /\
     exists s', flags_after k true w.(store) s' /\ thunk_start env k w = (with_store w s', Started)).
Proof.
  unfold thunk_start. destruct (flag_of k w.(store)) eqn:Hf; [by left|right].
  destruct (decide (k = KUnsubscribe)) as [->|Hk].
  - left. rewrite dispatch_unsubscribe by (by left). done.
  - right. destruct (dispatch_request env k w.(store) Hk) as (s' & -> & Hs'). eauto.
Qed.

Lemma loginWithToken_cases (env : Env) (parse : string -> option User) (tok u : string) (w : World) :
  (w.(store).(isPostingLogin) = true /\ loginWithToken env parse tok u w = (w, Guarded)) \/
  (w.(store).(isPostingLogin) = false /\ exists s' v, flags_after KLogin v w.(store) s' /\
     (parse u = None -> v = true) /\
     (loginWithToken env parse tok u w).1 = mkWorld s' (Some tok) w.(ls_user) (setApiAuthHeader (Some tok))).
Proof.
  unfold loginWithToken. destruct (isPostingLogin (store w)) eqn:Hl; [by left|right].
  split; [done|].
  destruct (dispatch_request env KLogin w.(store)) as (s1 & Hd & Hs1); [done|].
  change (flow_of KLogin).(f_request) with "LOGIN_REQUEST"%string in Hd. rewrite Hd.
  destruct (parse u) as [usr|] eqn:Hp.
  - cbv zeta. use_dispatch_done KLogin. exists s', false. split; [by eapply flags_after_trans|].
    split; [done|reflexivity].
  - exists s1, true. done.
Qed.

Lemma logout_cases (env : Env) (w : World) :
  exists s', (forall k, flag_of k s' = flag_of k w.(store)) /\
  (logout env w).1 = with_store (clear_session w) s'.
Proof.
  unfold logout. match goal with |- context [dispatch_key ?e ?s _ (Some ?p)] =>
    destruct (dispatch_logout e s p) as (s' & -> & Hs') end. eauto.
Qed.

(** ** The session: localStorage and the axios header *)

(** The header, when set, is the token [localStorage] holds. *)
Definition header_ok (w : World) : Prop :=
  forall t, w.(auth_header) = Some t -> w.(ls_accessToken) = Some t /\ t <> ""%string.

Lemma header_ok_stored (s : AuthState) (tok : string) (u : option string) :
  header_ok (mkWorld s (Some tok) u (setApiAuthHeader (Some tok))).
Proof. intros t Ht. apply (setApiAuthHeader_some (Some tok)) in Ht as [[= ->] ?]. done. Qed.

Lemma header_ok_settle (env : Env) (k : Kind) (w : World) (o : ApiOutcome) :
  k <> KUnsubscribe -> header_ok w -> header_ok (settle env k w o).1.
Proof.
  intros Hk Hw. destruct (settle_shape env k w o Hk) as (s' & _ & [->|[->|[(tok & Htok & ->)|(text & ->)]]]).
  - exact Hw.
  - by intros t.
  - intros t [= <-]. done.
  - exact Hw.
Qed.

Lemma store_settle (env : Env) (k : Kind) (w : World) (o : ApiOutcome) :
  k <> KUnsubscribe -> flags_after k false w.(store) (settle env k w o).1.(store).
Proof.
  intros Hk. destruct (settle_shape env k w o Hk) as (s' & Hf & [->|[->|[(tok & _ & ->)|(text & ->)]]]);
    exact Hf.
Qed.

(** ** Invariant of the store with its thunks *)

Lemma remove_one_subset (k x : Kind) (l : list Kind) : x ∈ remove_one k l -> x ∈ l.
Proof.
  induction l as [|y l IH]; simpl; [done|]. case_decide as Hyk; [by right|].
  rewrite !elem_of_cons. naive_solver.
Qed.

Lemma remove_one_NoDup (k : Kind) (l : list Kind) :
  NoDup l -> NoDup (remove_one k l) /\ k ∉ remove_one k l.
Proof.
  induction l as [|y l IH]; simpl; intros Hnd; [split; [constructor|apply not_elem_of_nil]|].
  apply NoDup_cons in Hnd as [Hy Hnd]. case_decide as Hyk; [subst; done|].
  destruct (IH Hnd) as [IH1 IH2]. split.
  - constructor; [|done]. intros Hin. apply remove_one_subset in Hin. by apply Hy.
  - rewrite elem_of_cons. intros [->|]; done.
Qed.

Record Inv (sy : Sys) : Prop := {
  inv_nodup : NoDup sy.(inflight);
  inv_flags : forall k, k ∈ sy.(inflight) -> flag_of k sy.(world).(store) = true;
  inv_unsub : flag_of KUnsubscribe sy.(world).(store) = false;
  inv_header : header_ok sy.(world)
}.

Section Invariant.
Context (env : Env) (parse : string -> option User).

Lemma auth_Inv_init (tok usr : option string) : Inv (init tok usr).
Proof.
  split; simpl; [constructor|intros k Hk; by apply not_elem_of_nil in Hk|done|by intros t].
Qed.

Lemma inflight_not_unsub (sy : Sys) : Inv sy -> KUnsubscribe ∉ sy.(inflight).
Proof. intros HI Hin. apply (inv_flags _ HI) in Hin. rewrite (inv_unsub _ HI) in Hin. done. Qed.

Lemma Inv_call (sy : Sys) (k : Kind) (sy' : Sys) :
  Inv sy -> step env parse sy (Call k) = Some sy' -> Inv sy'.
Proof.
  intros HI Hs. simpl in Hs.
  destruct (thunk_start_cases env k sy.(world)) as [[_ Ht]|[[_ [_ Ht]]|(Hf & Hk & s' & [Hs'k Hs'] & Ht)]];
    rewrite Ht in Hs; injection Hs as <-; [by destruct sy|by destruct sy|]. split; cbn [world inflight with_store store].
  - constructor; [|apply HI]. intros Hin. apply (inv_flags _ HI) in Hin. congruence.
  - intros k' [->|Hin]%elem_of_cons; [done|].
    destruct (decide (k' = k)) as [->|Hne]; [done|]. rewrite Hs' by done. by apply HI.
  - rewrite Hs' by congruence. apply HI.
  - apply HI.
Qed.

Lemma Inv_settle (sy : Sys) (k : Kind) (o : ApiOutcome) (sy' : Sys) :
  Inv sy -> step env parse sy (Settle k o) = Some sy' -> Inv sy'.
Proof.
  intros HI Hs. simpl in Hs. case_decide as Hin; [|done]. injection Hs as <-.
  assert (k <> KUnsubscribe) as Hk by (intros ->; by apply (inflight_not_unsub sy HI)).
  destruct (store_settle env k sy.(world) o Hk) as [Hkf Hf].
  destruct (remove_one_NoDup k _ (inv_nodup _ HI)) as [Hnd Hnot]. split; cbn [world inflight].
  - done.
  - intros k' Hk'. assert (k' <> k) by (intros ->; done).
    rewrite Hf by done. apply HI. by eapply remove_one_subset.
  - rewrite Hf by congruence. apply HI.
  - apply header_ok_settle; [done|apply HI].
Qed.

Lemma Inv_login_with_token (sy : Sys) (tok u : string) (sy' : Sys) :
  Inv sy -> step env parse sy (LoginWithToken tok u) = Some sy' -> Inv sy'.
Proof.
  intros HI Hs. simpl in Hs. injection Hs as <-.
  destruct (loginWithToken_cases env parse tok u sy.(world))
    as [[_ ->]|(Hl & s' & v & [Hv Hf] & _ & ->)]; [by destruct sy|].
  assert (KLogin ∉ sy.(inflight)) as Hnl by (intros Hin; apply (inv_flags _ HI) in Hin; cbn in Hin; congruence).
  split; cbn [world inflight store with_store clear_session].
  - apply HI.
  - intros k' Hk'. assert (k' <> KLogin) by (intros ->; done). rewrite Hf by done. by apply HI.
  - rewrite Hf by done. apply HI.
  - apply header_ok_stored.
Qed.

Lemma Inv_logout (sy : Sys) (sy' : Sys) :
  Inv sy -> step env parse sy Logout = Some sy' -> Inv sy'.
Proof.
  intros HI Hs. simpl in Hs. injection Hs as <-.
  destruct (logout_cases env sy.(world)) as (s' & Hf & ->). split; cbn [world inflight store with_store clear_session].
  - apply HI.
  - intros k Hk. rewrite Hf. by apply HI.
  - rewrite Hf. apply HI.
  - by intros t.
Qed.

Lemma auth_Inv_step (sy : Sys) (e : Event) (sy' : Sys) :
  Inv sy -> step env parse sy e = Some sy' -> Inv sy'.
Proof.
  destruct e; [apply Inv_call|apply Inv_settle|apply Inv_login_with_token|apply Inv_logout].
Qed.

Lemma auth_reachable_Inv (sy : Sys) : reachable env parse sy -> Inv sy.
Proof. induction 1; [apply auth_Inv_init|by eapply auth_Inv_step]. Qed.

Lemma auth_run_reachable (sy sy' : Sys) (evs : list Event) :
  reachable env parse sy -> run env parse sy evs = Some sy' -> reachable env parse sy'.
Proof.
  revert sy. induction evs as [|e evs IH]; intros sy Hr Hrun; simpl in Hrun.
  - by injection Hrun as <-.
  - destruct (step env parse sy e) as [sy1|] eqn:Hs; [|done].
    eapply IH; [|exact Hrun]. by econstructor.
Qed.

End Invariant.

Section AuthProperties.
Context (env : Env) (parse : string -> option User).

(** A failed [loginWithToken] leaves [isPostingLogin] set with no login
    in flight; nothing clears it afterwards. *)
Lemma locked_step (sy : Sys) (e : Event) (sy' : Sys) :
  Inv sy -> sy.(world).(store).(isPostingLogin) = true -> KLogin ∉ sy.(inflight) ->
  step env parse sy e = Some sy' ->
  sy'.(world).(store).(isPostingLogin) = true /\ KLogin ∉ sy'.(inflight).
Proof.
  intros HI Hl Hn Hs. destruct e as [k|k o|tok u|]; simpl in Hs.
  - destruct (thunk_start_cases env k sy.(world))
      as [[_ Ht]|[[_ [_ Ht]]|(Hf & Hk & s' & [_ Hs'] & Ht)]];
      rewrite Ht in Hs; injection Hs as <-; [done|done|].
    assert (k <> KLogin) as Hkl by (intros ->; cbn in Hf; congruence).
    split; cbn [world inflight store with_store].
    + change (flag_of KLogin s' = true). by rewrite Hs'.
    + intros [Heq|Hin]%elem_of_cons; [congruence|done].
  - case_decide as Hin; [|done]. injection Hs as <-.
    assert (k <> KUnsubscribe) as Hk by (intros ->; by apply (inflight_not_unsub sy HI)).
    assert (k <> KLogin) as Hkl by (intros ->; done).
    destruct (store_settle env k sy.(world) o Hk) as [_ Hf]. split; cbn [world inflight].
    + change (flag_of KLogin (settle env k (world sy) o).1.(store) = true). by rewrite Hf.
    + intros Hin'. by apply Hn, (remove_one_subset k).
  - injection Hs as <-.
    destruct (loginWithToken_cases env parse tok u sy.(world)) as [[_ ->]|[Hl' _]]; [done|congruence].
  - injection Hs as <-. destruct (logout_cases env sy.(world)) as (s' & Hf & ->).
    split; [|done]. change (flag_of KLogin s' = true). by rewrite Hf.
Qed.

Lemma locked_run (sy sy' : Sys) (evs : list Event) :
  reachable env parse sy -> sy.(world).(store).(isPostingLogin) = true -> KLogin ∉ sy.(inflight) ->
  run env parse sy evs = Some sy' -> sy'.(world).(store).(isPostingLogin) = true.
Proof.
  revert sy. induction evs as [|e evs IH]; intros sy Hr Hl Hn Hrun; simpl in Hrun.
  - by injection Hrun as <-.
  - destruct (step env parse sy e) as [sy1|] eqn:Hs; [|done].
    destruct (locked_step sy e sy1 (auth_reachable_Inv env parse sy Hr) Hl Hn Hs).
    eapply IH; [by econstructor|done|done|exact Hrun].
Qed.

(** C22: the in-flight guards work: in every reachable state, at most one
    request of each thunk is in flight, and the flag of each one in flight
    is set. *)
Theorem reachable_single_request (sy : Sys) :
  reachable env parse sy ->
  NoDup sy.(inflight) /\ forall k, k ∈ sy.(inflight) -> flag_of k sy.(world).(store) = true.
Proof. intros Hr. destruct (auth_reachable_Inv env parse sy Hr). done. Qed.

(** C23: [unsubscribe] can never send its request: [types] has no
    [POST_UNSUBSCRIBE_REQUEST], so its first [dispatch] throws Redux's
    undefined-type error, in every reachable state and in both
    environments, and the store is left as it was. *)
Theorem unsubscribe_refused (sy : Sys) :
  reachable env parse sy ->
  thunk_start env KUnsubscribe sy.(world) =
  (sy.(world), Crashed "Actions may not have an undefined 'type' property. Have you misspelled a constant?").
Proof.
  intros Hr. pose proof (inv_unsub _ (auth_reachable_Inv env parse sy Hr)) as Hu.
  destruct (thunk_start_cases env KUnsubscribe sy.(world))
    as [[Hf _]|[[_ [_ Ht]]|(_ & Hk & _)]]; [congruence|done|done].
Qed.

(** C24: when [loginWithToken] is given a user text [JSON.parse] rejects,
    it throws after dispatching [LOGIN_REQUEST]; from then on, whatever
    happens, every call of [login] is rejected by its in-flight guard
    without reaching the server. *)
Theorem login_locked_forever (sy : Sys) (tok u : string) (sy1 sy' : Sys) (evs : list Event) :
  reachable env parse sy -> sy.(world).(store).(isPostingLogin) = false -> parse u = None ->
  step env parse sy (LoginWithToken tok u) = Some sy1 -> run env parse sy1 evs = Some sy' ->
  thunk_start env KLogin sy'.(world) = (sy'.(world), Guarded).
Proof.
  intros Hr Hl Hp Hs Hrun. unfold thunk_start.
  replace (flag_of KLogin sy'.(world).(store)) with true; [done|symmetry].
  pose proof (auth_reachable_Inv env parse sy Hr) as HI.
  simpl in Hs. injection Hs as <-.
  destruct (loginWithToken_cases env parse tok u sy.(world))
    as [[Hl' _]|(_ & s' & v & [Hv _] & Hpv & Hw)]; [congruence|].
  assert (KLogin ∉ sy.(inflight)) as Hn.
  { intros Hin. apply (inv_flags _ HI) in Hin. cbn in Hin. congruence. }
  apply (locked_run (mkSys (loginWithToken env parse tok u sy.(world)).1 sy.(inflight)) sy' evs);
    [|cbn [world]; rewrite Hw; cbn; by rewrite <- (Hpv Hp)|exact Hn|exact Hrun].
  apply (reachable_step env parse sy (LoginWithToken tok u)); [exact Hr|reflexivity].
Qed.

(** C25: the axios [authorization] header is only ever the token
    [localStorage] holds, and never empty. *)
Theorem header_from_storage (sy : Sys) (t : string) :
  reachable env parse sy -> sy.(world).(auth_header) = Some t ->
  sy.(world).(ls_accessToken) = Some t /\ t <> ""%string.
Proof. intros Hr. apply (inv_header _ (auth_reachable_Inv env parse sy Hr)). Qed.

End AuthProperties.

Section SettleProperties.
Context (env : Env).

(** A login response with a truthy [accessToken] stores that token
    in [localStorage], in the axios header and in the store, clears
    [isPostingLogin], and fulfils the promise with [{ ...data, msg }]. *)
Theorem login_settle_token (w : World) (data : option Body) (tok : string) :
  setApiAuthHeader (data ≫= b_accessToken) = Some tok ->
  let r := login_settle env w (ApiResolved data) in
  r.1.(ls_accessToken) = Some tok /\ r.1.(auth_header) = Some tok /\
  r.1.(store).(accessToken) = Some tok /\ r.1.(store).(isPostingLogin) = false /\
  r.2 = Fulfilled (spread_msg data (str_or (data ≫= b_msg) "Login success!")).
Proof.
  intros Htok. pose proof (setApiAuthHeader_some _ _ Htok) as [Hx _].
  unfold login_settle. cbv zeta. cbn [p_accessToken spread_msg]. rewrite Htok.
  erewrite dispatch_key_case; [|vm_decide|reflexivity].
  destruct w as [[] ? ? ?]. cbn. by rewrite Hx.
Qed.

(** A login response without a truthy [accessToken] is turned into
    [LOGIN_FAIL] with the message ['Login failed!']: the message the server
    sent is dropped, the store's token is emptied, and the session is
    left as it was. *)
Theorem login_without_token_rejects (w : World) (data : option Body) :
  setApiAuthHeader (data ≫= b_accessToken) = None ->
  let r := login_settle env w (ApiResolved data) in
  r.2 = RejectedWith (Some (mkPayload (Some "Login failed!"%string) (data ≫= b_accessToken) (data ≫= b_user) None)) /\
  r.1.(store).(msg) = Some "Login failed!"%string /\ r.1.(store).(accessToken) = Some ""%string /\
  r.1.(ls_accessToken) = w.(ls_accessToken) /\ r.1.(auth_header) = w.(auth_header).
Proof.
  intros Hnone. unfold login_settle. cbv zeta. cbn [p_accessToken spread_msg]. rewrite Hnone.
  unfold catch_fail. erewrite dispatch_key_case; [|vm_decide|reflexivity].
  destruct w as [[] ? ? ?]. done.
Qed.

(** C28: when [getMe] fails, [localStorage] and the axios header are
    cleared and the user is dropped, but the store keeps its
    [accessToken]: the app still holds a token the requests no longer
    send. *)
Theorem getMe_failure_keeps_token (w : World) (r : option Response) :
  let w' := (getMe_settle env w (ApiRejected r)).1 in
  w'.(ls_accessToken) = None /\ w'.(auth_header) = None /\ w'.(ls_user) = None /\
  w'.(store).(accessToken) = w.(store).(accessToken) /\ w'.(store).(user) = None /\
  w'.(store).(isFetchingMe) = false.
Proof.
  unfold getMe_settle, catch_fail. erewrite dispatch_key_case; [|vm_decide|reflexivity].
  destruct w as [[] ? ? ?]. done.
Qed.

End SettleProperties.

(** ** Concrete runs *)

(** A [JSON.parse] for user texts: an object text parses, anything else
    (such as the text [undefined]) throws. *)
Definition demo_parse (t : string) : option User :=
  match t with String "{"%char _ => Some t | _ => None end.

Definition demo_login_body : option Body :=
  Some (mkBody (Some "Welcome back"%string) (Some "jwt-1"%string) None "{}"%string).
Definition demo_unverified_body : option Body :=
  Some (mkBody (Some "Please verify your email"%string) None None "{}"%string).
Definition demo_world : World := (init None None).(world).

Lemma switch_selects_case_witness :
  "LOGIN_FAIL"%string ∈ type_keys /\
  redux_dispatch (Production 417) INITIAL_STATE
    (mkAction (types (Production 417) "LOGIN_FAIL") (Some (mkPayload (Some "Login failed!"%string) None None None)))
  = match case_of cases "LOGIN_FAIL" with
    | Some b => apply_branch b INITIAL_STATE
        (mkAction (types (Production 417) "LOGIN_FAIL") (Some (mkPayload (Some "Login failed!"%string) None None None)))
    | None => Ok INITIAL_STATE
    end.
Proof. split; [vm_decide|apply switch_selects_case; [vm_decide|reflexivity]]. Defined.

Lemma reachable_single_request_witness :
  exists sy, run Development demo_parse (init None None) [Call KSignup; Call KLogin; Call KLogin] = Some sy /\
  NoDup sy.(inflight) /\ forall k, k ∈ sy.(inflight) -> flag_of k sy.(world).(store) = true.
Proof.
  eexists; split; [reflexivity|]. apply (reachable_single_request Development demo_parse).
  apply (auth_run_reachable Development demo_parse (init None None) _ [Call KSignup; Call KLogin; Call KLogin]);
    [apply reachable_init|reflexivity].
Defined.

Lemma unsubscribe_refused_witness :
  exists sy, run Development demo_parse (init None None) [Call KSignup] = Some sy /\
  thunk_start Development KUnsubscribe sy.(world) =
  (sy.(world), Crashed "Actions may not have an undefined 'type' property. Have you misspelled a constant?").
Proof.
  eexists; split; [reflexivity|]. apply (unsubscribe_refused Development demo_parse).
  apply (auth_run_reachable Development demo_parse (init None None) _ [Call KSignup]);
    [apply reachable_init|reflexivity].
Defined.

Lemma login_locked_forever_witness :
  exists sy1 sy',
  step Development demo_parse (init None None) (LoginWithToken "jwt-1" "undefined") = Some sy1 /\
  run Development demo_parse sy1 [Call KSignup; Settle KSignup (ApiResolved None); Logout; Call KLogin] = Some sy' /\
  thunk_start Development KLogin sy'.(world) = (sy'.(world), Guarded).
Proof.
  do 2 eexists; split; [reflexivity|]; split; [reflexivity|].
  eapply (login_locked_forever Development demo_parse (init None None) "jwt-1" "undefined" _ _
    [Call KSignup; Settle KSignup (ApiResolved None); Logout; Call KLogin]);
    [apply reachable_init|reflexivity|reflexivity|reflexivity|reflexivity].
Defined.

Lemma header_from_storage_witness :
  exists sy, run Development demo_parse (init None None)
    [Call KLogin; Settle KLogin (ApiResolved demo_login_body)] = Some sy /\
  sy.(world).(auth_header) = Some "jwt-1"%string /\
  sy.(world).(ls_accessToken) = Some "jwt-1"%string /\ "jwt-1"%string <> ""%string.
Proof.
  eexists; split; [reflexivity|]. split; [reflexivity|].
  apply (header_from_storage Development demo_parse); [|reflexivity].
  apply (auth_run_reachable Development demo_parse (init None None) _
    [Call KLogin; Settle KLogin (ApiResolved demo_login_body)]); [apply reachable_init|reflexivity].
Defined.

Lemma login_settle_token_witness :
  let r := login_settle Development demo_world (ApiResolved demo_login_body) in
  r.1.(ls_accessToken) = Some "jwt-1"%string /\ r.1.(auth_header) = Some "jwt-1"%string /\
  r.1.(store).(accessToken) = Some "jwt-1"%string /\ r.1.(store).(isPostingLogin) = false /\
  r.2 = Fulfilled (spread_msg demo_login_body (str_or (demo_login_body ≫= b_msg) "Login success!")).
Proof. apply login_settle_token. reflexivity. Defined.

Lemma login_without_token_rejects_witness :
  let r := login_settle Development demo_world (ApiResolved demo_unverified_body) in
  r.2 = RejectedWith (Some (mkPayload (Some "Login failed!"%string) None None None)) /\
  r.1.(store).(msg) = Some "Login failed!"%string /\ r.1.(store).(accessToken) = Some ""%string /\
  r.1.(ls_accessToken) = demo_world.(ls_accessToken) /\ r.1.(auth_header) = demo_world.(auth_header).
Proof. apply login_without_token_rejects. reflexivity. Defined.

End Auth.
