(* ===== verification/Pages.v ===== *)
(** * The pages of the e-mail login flow

    [containers/Pages/AssetHandler/index.js] (the login page, with its
    forgot-password and resend-verification tabs),
    [containers/Pages/Auth/Signup/index.js] and
    [containers/Pages/Auth/ResetPassword/index.js]. Each page is a class
    component whose handlers validate a form, call a thunk of
    [redux/actions/auth.js] and react to the promise it returns. A handler
    is modelled as one function from the page state, the [World] of
    [Auth.v] and the outcome of each HTTP call it waits for, to the new
    state, the new world, the notifications shown, the navigation and how
    the handler ends: every promise handled, a rejection nobody catches,
    or an exception thrown to the caller.

    The pages import [utils/validator] (Joi with plain-error helpers),
    which is not in the repository: it is the class [Validator]. *)

From S2P Require Import Prelude Auth.
Import Auth.

Module Pages.

(** ** What a handler does besides its state *)

(** [notifier.success(m)] and [notifier.error(m)]; [None] is an undefined
    message. *)
Inductive Notice :=
| NoticeSuccess (m : option string)
| NoticeError (m : option string).

(** How a handler ends. *)
Inductive Ending :=
| Done                           (** every promise it started is handled *)
| Unhandled (reason : option string) (** a rejection nobody catches *)
| Thrown (m : string)            (** an exception thrown to the caller *).

Record Run (P : Type) := mkRun {
  page : P;
  world : World;
  notices : list Notice;
  pushed : option string;
  ending : Ending
}.
Arguments mkRun {P} page world notices pushed ending.
Arguments page {P} r.
Arguments world {P} r.
Arguments notices {P} r.
Arguments pushed {P} r.
Arguments ending {P} r.

(** The message of the [TypeError] thrown by reading [.msg] on [undefined]. *)
Definition read_msg_error : string := "Cannot read properties of undefined (reading 'msg')".

(** ** Forms and the validator *)

(** A form, and a plain object of strings: keys in insertion order. *)
Abbreviation Form := (list (string * string)).

(** [{ ...o, [k]: v }] on a plain object of strings. *)
Fixpoint obj_set (o : list (string * string)) (k v : string) : list (string * string) :=
  match o with
  | [] => [(k, v)]
  | (k', v') :: o' => if decide (k' = k) then (k', v) :: o' else (k', v') :: obj_set o' k v
  end.

(** [o[k]] on a plain object. *)
Fixpoint obj_get {V} (o : list (string * V)) (k : string) : option V :=
  match o with
  | [] => None
  | (k', v) :: o' => if decide (k' = k) then Some v else obj_get o' k
  end.

(** The Joi rules the pages' schemas use. *)
Inductive Rule := JString (label : string) | JEmail | JMin (n : nat) | JRequired.
Abbreviation Schema := (list (string * list Rule)).

(** [utils/validator]: [validateToPlainErrors] on an object and on a single
    value, and [hasPlainError]. *)
Class Validator := {
  validateToPlainErrors : Form -> Schema -> Errors;
  validateValue : string -> list Rule -> string;
  hasPlainError : Errors -> bool
}.

(** [this.schema[key]]; an unknown key has no rule. *)
Definition schema_of (sc : Schema) (k : string) : list Rule := default [] (obj_get sc k).

(** ** The promise a thunk returns *)

(** What the page sees of a thunk call: an exception thrown by the call,
    or the promise settled. A rejection carries [undefined] (the guard's
    [Promise.reject()]) or a value; an exception raised in the thunk's own
    [.catch] reaches the page as an [Error], whose [msg] and [response]
    are undefined ([exn_value]). *)
Inductive Call :=
| CallThrew (m : string)
| CallFulfilled (p : Payload)
| CallRejected (err : option Payload).

Definition exn_value : Payload := mkPayload None None None None.

Section Calls.
Context (env : Env).

(** [this.props.<thunk>(...)], its HTTP call settling with [o]. *)
Definition call_thunk (k : Kind) (w : World) (o : ApiOutcome) : World * Call :=
  let '(w1, st) := thunk_start env k w in
  match st with
  | Guarded => (w1, CallRejected None)
  | Crashed m => (w1, CallThrew m)
  | Returned p => (w1, CallFulfilled p)
  | Started =>
      let '(w2, out) := settle env k w1 o in
      (w2, match out with
           | Fulfilled p => CallFulfilled p
           | RejectedWith p => CallRejected p
           | RejectedError _ => CallRejected (Some exn_value)
           end)
  end.

End Calls.

(** [err.response && err.response.data && err.response.data.errors] *)
Definition response_errors (p : Payload) : option Errors := p.(p_response) ≫= r_errors.

(** [err.response && err.response.status && err.response.status === 401] *)
Definition is_unauthorized (p : Payload) : bool :=
  match p.(p_response) with Some r => bool_decide (r.(r_status) = 401%Z) | None => false end.

(** [(x && x.state && x.state.from) || '/'] *)
Definition redirect_of (from : option string) : string := str_or from "/".
(** ** [containers/Pages/AssetHandler/index.js]: the login page *)

(** [TABS] *)
Definition TABS_LOGIN : string := "1".
Definition TABS_RESEND_VERIFICATION : string := "2".
Definition TABS_FORGOT_PASSWORD : string := "3".

Record LoginPage := mkLoginPage {
  formData : Form;
  errors : Errors;
  activeTab : string
}.

(** The constructor's [this.state] ([msg] and [from] are never read). *)
Definition login_init : LoginPage :=
  mkLoginPage [("email", ""); ("password", "")]%string [] TABS_LOGIN.

(** The constructor's [this.schema]. *)
Definition login_schema : Schema :=
  [("email", [JString "Email"; JEmail; JRequired]); ("password", [JString "Password"; JRequired])]%string.

Definition with_errors (es : Errors) (ps : LoginPage) : LoginPage :=
  mkLoginPage ps.(formData) es ps.(activeTab).
Definition with_tab (t : string) (ps : LoginPage) : LoginPage :=
  mkLoginPage ps.(formData) ps.(errors) t.

Section LoginPage.
Context `{Validator} (env : Env).

(** [handleChange(val, key)] *)
Definition handleChange (val key : string) (ps : LoginPage) : LoginPage :=
  mkLoginPage (obj_set ps.(formData) key val)
    (obj_set ps.(errors) key (validateValue val (schema_of login_schema key))) ps.(activeTab).

(** [handleActiveResendVerificationTab] *)
Definition handleActiveResendVerificationTab (ps : LoginPage) : LoginPage :=
  with_tab TABS_RESEND_VERIFICATION ps.

(** [handleForgotPasswordButton] *)
Definition handleForgotPasswordButton (ps : LoginPage) : LoginPage := with_tab TABS_FORGOT_PASSWORD ps.

(** [handleTabChange(activeTab)] *)
Definition handleTabChange (t : string) (ps : LoginPage) : LoginPage := with_tab t ps.

(** [location.state] as the pages read it: its [from] and its [msg]
    ([None] for [undefined]). *)
Record LocState := mkLocState { ls_from : option string; ls_msg : option string }.

(** [history.push({ pathname, state })] *)
Record Push := mkPush { push_pathname : string; push_state : option LocState }.

(** [handleGoToSignupButton] of the login page: to the signup page, with
    the login page's [location.state]. *)
Definition handleGoToSignupButton (state : option LocState) : Push := mkPush "/signup" state.

(** [handleGoToLoginButton] of [Auth/Signup]: back to the login page, with
    the signup page's [location.state]. *)
Definition handleGoToLoginButton (state : option LocState) : Push := mkPush "/login" state.

(** The [.catch(err => ...)] of the login and forgot-password chains:
    [notifier.error(err.msg)], the server's field errors, and, when
    [check401], the resend-verification tab on a 401. On [undefined],
    reading [err.msg] throws inside the [.catch]. *)
Definition login_catch (check401 : bool) (ps : LoginPage) (err : option Payload)
    : LoginPage * list Notice * Ending :=
  match err with
  | None => (ps, [], Unhandled (Some read_msg_error))
  | Some p =>
      let ps1 := match response_errors p with Some es => with_errors es ps | None => ps end in
      let ps2 := if check401 && is_unauthorized p then handleActiveResendVerificationTab ps1 else ps1 in
      (ps2, [NoticeError p.(p_msg)], Done)
  end.

(** [handleLoginButton], the login call settling with [login_o] and the
    [getMe] call it chains settling with [getMe_o]; [from] is
    [location.state.from]. The [getMe] promise is not returned to the
    chain: its rejection is caught by nobody. *)
Definition handleLoginButton (ps : LoginPage) (w : World) (from : option string)
    (login_o getMe_o : ApiOutcome) : Run LoginPage :=
  let errs := validateToPlainErrors ps.(formData) login_schema in
  let ps1 := with_errors errs ps in
  if hasPlainError errs then mkRun ps1 w [NoticeError (Some "Please fix errors"%string)] None Done
  else
  let '(w1, c) := call_thunk env KLogin w login_o in
  match c with
  | CallThrew m => mkRun ps1 w1 [] None (Thrown m)
  | CallRejected err =>
      let '(ps2, ns, e) := login_catch true ps1 err in mkRun ps2 w1 ns None e
  | CallFulfilled res =>
      let ns := [NoticeSuccess res.(p_msg)] in
      let '(w2, c2) := call_thunk env KGetMe w1 getMe_o in
      match c2 with
      | CallThrew _ =>
          let '(ps2, ns2, e) := login_catch true ps1 (Some exn_value) in mkRun ps2 w2 (ns ++ ns2) None e
      | CallFulfilled _ => mkRun ps1 w2 ns (Some (redirect_of from)) Done
      | CallRejected err => mkRun ps1 w2 ns None (Unhandled (err ≫= p_msg))
      end
  end.

(** [handleResetPwdButton], the request settling with [o]. *)
Definition handleResetPwdButton (ps : LoginPage) (w : World) (o : ApiOutcome) : Run LoginPage :=
  let email := default ""%string (obj_get ps.(formData) "email") in
  let errs := validateToPlainErrors [("email", email)]%string [("email", schema_of login_schema "email")]%string in
  let ps1 := with_errors errs ps in
  if hasPlainError errs then mkRun ps1 w [NoticeError (Some "Please fix errors"%string)] None Done
  else
  let '(w1, c) := call_thunk env KPwdResetRequest w o in
  match c with
  | CallThrew m => mkRun ps1 w1 [] None (Thrown m)
  | CallFulfilled res => mkRun ps1 w1 [NoticeSuccess res.(p_msg)] None Done
  | CallRejected err => let '(ps2, ns, e) := login_catch true ps1 err in mkRun ps2 w1 ns None e
  end.

(** [handleResendVerificationButton], the request settling with [o]: its
    [.catch] has no 401 check. *)
Definition handleResendVerificationButton (ps : LoginPage) (w : World) (o : ApiOutcome) : Run LoginPage :=
  let email := default ""%string (obj_get ps.(formData) "email") in
  let errs := validateToPlainErrors [("email", email)]%string [("email", schema_of login_schema "email")]%string in
  let ps1 := with_errors errs ps in
  if hasPlainError errs then mkRun ps1 w [NoticeError (Some "Please fix errors"%string)] None Done
  else
  let '(w1, c) := call_thunk env KResend w o in
  match c with
  | CallThrew m => mkRun ps1 w1 [] None (Thrown m)
  | CallFulfilled res => mkRun ps1 w1 [NoticeSuccess res.(p_msg)] None Done
  | CallRejected err => let '(ps2, ns, e) := login_catch false ps1 err in mkRun ps2 w1 ns None e
  end.

End LoginPage.

(** ** What the pages read from the store *)

(** [mapStateToProps] of the login page: three flags of
    [store.rootReducer.auth]. *)
Record LoginProps := mkLoginProps {
  lp_isPostingLogin : bool;
  lp_isPostingRequestResendVerificationEmail : bool;
  lp_isPostingPwdResetRequest : bool
}.

Definition login_mapStateToProps (auth : AuthState) : LoginProps :=
  mkLoginProps auth.(isPostingLogin) auth.(isPostingRequestResendVerificationEmail)
    auth.(isPostingPwdResetRequest).

(** [mapStateToProps] of the signup page. *)
Record SignupProps := mkSignupProps {
  sp_isPostingSignup : bool;
  sp_isPostingRequestResendVerificationEmail : bool
}.

Definition signup_mapStateToProps (auth : AuthState) : SignupProps :=
  mkSignupProps auth.(isPostingSignup) auth.(isPostingRequestResendVerificationEmail).

(** [mapStateToProps] of the reset-password page. *)
Record ResetProps := mkResetProps {
  rsp_isPostingVerifyPwdResetToken : bool;
  rsp_isPostingPwdReset : bool
}.

Definition reset_mapStateToProps (auth : AuthState) : ResetProps :=
  mkResetProps auth.(isPostingVerifyPwdResetToken) auth.(isPostingPwdReset).

(** What the login page renders: the [Spin] while a login, a resend or a
    reset request is posted, and the [Tabs] with the pane of [activeTab]
    (the other panes are hidden). *)
Record LoginView := mkLoginView {
  l_spinning : bool;
  l_tab : string;
  l_email : option string;
  l_password : option string
}.

Definition login_tabs : list string := [TABS_LOGIN; TABS_FORGOT_PASSWORD; TABS_RESEND_VERIFICATION].

Definition login_view (ps : LoginPage) (w : World) : LoginView :=
  let props := login_mapStateToProps w.(store) in
  mkLoginView
    (props.(lp_isPostingLogin) || props.(lp_isPostingRequestResendVerificationEmail) ||
     props.(lp_isPostingPwdResetRequest))
    ps.(activeTab) (obj_get ps.(formData) "email") (obj_get ps.(formData) "password").

(** The user's events: a tab of the bar, a keystroke in an input, and the
    buttons of the panes, with how their requests settle. *)
Inductive LoginEvent :=
| LTab (t : string)
| LChange (val key : string)
| LLogin (login_o getMe_o : ApiOutcome)
| LForgot
| LReset (o : ApiOutcome)
| LResend (o : ApiOutcome).

(** Every pane has the e-mail input; the password input and the Login and
    ForgotPassword buttons are in the login pane, the Reset Password and
    Resend buttons in their panes; the tab bar offers the three keys. *)
Definition login_enabled (ps : LoginPage) (w : World) (ev : LoginEvent) : bool :=
  let v := login_view ps w in
  negb v.(l_spinning) &&
  match ev with
  | LTab t => bool_decide (t ∈ login_tabs)
  | LChange _ key =>
      bool_decide (key = "email")%string ||
      (bool_decide (key = "password")%string && bool_decide (v.(l_tab) = TABS_LOGIN))
  | LLogin _ _ | LForgot => bool_decide (v.(l_tab) = TABS_LOGIN)
  | LReset _ => bool_decide (v.(l_tab) = TABS_FORGOT_PASSWORD)
  | LResend _ => bool_decide (v.(l_tab) = TABS_RESEND_VERIFICATION)
  end.

Section LoginSession.
Context `{Validator} (env : Env) (from : option string).

(** An event's handler, with the path the page navigates to, if any. *)
Definition login_ui_step (st : LoginPage * World) (ev : LoginEvent) : (LoginPage * World) * list string :=
  let '(ps, w) := st in
  let out (r : Run LoginPage) := ((r.(page), r.(world)), option_list r.(pushed)) in
  match ev with
  | LTab t => ((handleTabChange t ps, w), [])
  | LChange val key => ((handleChange val key ps, w), [])
  | LLogin lo go => out (handleLoginButton env ps w from lo go)
  | LForgot => ((handleForgotPasswordButton ps, w), [])
  | LReset o => out (handleResetPwdButton env ps w o)
  | LResend o => out (handleResendVerificationButton env ps w o)
  end.

Definition login_session (w : World) (evs : list LoginEvent) : (LoginPage * World) * list string :=
  session (fun st ev => login_enabled st.1 st.2 ev) login_ui_step (login_init, w) evs.

(** The pane shown is always one of the three: the tab bar offers only
    their keys, ForgotPassword and a 401 switch to theirs, and nothing
    else writes [activeTab]. *)
Lemma login_session_tab (w : World) (evs : list LoginEvent) :
  (login_session w evs).1.1.(activeTab) ∈ login_tabs.
Proof.
  apply (session_inv _ _ (fun st => st.1.(activeTab) ∈ login_tabs) (fun _ => True)); [|by left].
  intros [ps w0] ev Hin Hen. split; [|by apply Forall_true].
  unfold login_enabled in Hen. cbn in Hin |- *.
  destruct ev as [t|val key|lo go| |o|o]; cbn [login_ui_step fst].
  - apply andb_true_iff in Hen as [_ Hen]. by apply bool_decide_eq_true in Hen.
  - done.
  - unfold handleLoginButton, login_catch, handleActiveResendVerificationTab. cbv zeta.
    repeat case_match; simplify_eq/=; try done; right; right; by left.
  - right; by left.
  - unfold handleResetPwdButton, login_catch, handleActiveResendVerificationTab. cbv zeta.
    repeat case_match; simplify_eq/=; try done; right; right; by left.
  - unfold handleResendVerificationButton, login_catch. cbv zeta.
    repeat case_match; simplify_eq/=; done.
Qed.

End LoginSession.

(** ** [containers/Pages/Auth/ResetPassword/index.js] *)

Record ResetPage := mkResetPage {
  token : string;
  hasCheckedToken : bool;
  isTokenValid : bool;
  hasFinishedResetPassword : bool;
  isSuccessful : bool;
  password : string;
  passwordConfirmation : string;
  rp_errors : Errors;
  rp_msg : option string
}.

Definition reset_init : ResetPage := mkResetPage "" false false false false "" "" [] (Some "").

Definition reset_schema : Schema :=
  [("password", [JString "Password"; JMin 6; JRequired]);
   ("passwordConfirmation", [JString "Password Confirmation"; JMin 6; JRequired])]%string.

(** The two keys [handleChange] is called with. *)
Inductive ResetField := FPassword | FPasswordConfirmation.

Definition field_key (f : ResetField) : string :=
  match f with FPassword => "password" | FPasswordConfirmation => "passwordConfirmation" end.

Definition mismatch_msg : string := "Password Confirmation does not match to password.".

(** [this.setState({ hasCheckedToken, isTokenValid, msg })] *)
Definition checked (valid : bool) (m : option string) (ps : ResetPage) : ResetPage :=
  mkResetPage ps.(token) true valid ps.(hasFinishedResetPassword) ps.(isSuccessful)
    ps.(password) ps.(passwordConfirmation) ps.(rp_errors) m.

(** [this.setState({ hasFinishedResetPassword: true, isSuccessful, msg })] *)
Definition finished (ok : bool) (m : option string) (ps : ResetPage) : ResetPage :=
  mkResetPage ps.(token) ps.(hasCheckedToken) ps.(isTokenValid) true ok
    ps.(password) ps.(passwordConfirmation) ps.(rp_errors) m.

Section ResetPasswordPage.
Context `{Validator} (env : Env).

(** [componentDidMount]: [code] is [this.props.match.params.code], the
    verification settling with [o]. [await to(p)] gives [[err, undefined]]
    on a rejection and [[null, res]] otherwise; an exception in the async
    function rejects the promise React ignores. *)
Definition componentDidMount (code : option string) (ps : ResetPage) (w : World) (o : ApiOutcome)
    : Run ResetPage :=
  match code with
  | None => mkRun (checked false (Some "Invalid request!"%string) ps) w [] None Done
  | Some c =>
      if decide (c = ""%string) then mkRun (checked false (Some "Invalid request!"%string) ps) w [] None Done
      else
      let ps1 := mkResetPage c ps.(hasCheckedToken) ps.(isTokenValid) ps.(hasFinishedResetPassword)
                   ps.(isSuccessful) ps.(password) ps.(passwordConfirmation) ps.(rp_errors) ps.(rp_msg) in
      let '(w1, call) := call_thunk env KVerifyPwdResetToken w o in
      match call with
      | CallThrew m => mkRun ps1 w1 [] None (Unhandled (Some m))
      | CallRejected (Some err) => mkRun (checked false err.(p_msg) ps1) w1 [] None Done
      | CallRejected None => mkRun ps1 w1 [] None (Unhandled (Some read_msg_error))
      | CallFulfilled res => mkRun (checked true res.(p_msg) ps1) w1 [] None Done
      end
  end.

(** [handleChange(val, key)] *)
Definition handleResetChange (val : string) (f : ResetField) (ps : ResetPage) : ResetPage :=
  let es := obj_set ps.(rp_errors) (field_key f) (validateValue val (schema_of reset_schema (field_key f))) in
  match f with
  | FPassword => mkResetPage ps.(token) ps.(hasCheckedToken) ps.(isTokenValid)
      ps.(hasFinishedResetPassword) ps.(isSuccessful) val ps.(passwordConfirmation) es ps.(rp_msg)
  | FPasswordConfirmation => mkResetPage ps.(token) ps.(hasCheckedToken) ps.(isTokenValid)
      ps.(hasFinishedResetPassword) ps.(isSuccessful) ps.(password) val es ps.(rp_msg)
  end.

(** The errors [handleResetButton] computes: the schema's, and the
    confirmation check written into the same object. *)
Definition reset_errors (ps : ResetPage) : Errors :=
  let es := validateToPlainErrors
              [("password", ps.(password)); ("passwordConfirmation", ps.(passwordConfirmation))]%string
              reset_schema in
  if decide (ps.(password) = ps.(passwordConfirmation)) then es
  else obj_set es "passwordConfirmation" mismatch_msg.

(** [handleResetButton], the request settling with [o]. *)
Definition handleResetButton (ps : ResetPage) (w : World) (o : ApiOutcome) : Run ResetPage :=
  let es := reset_errors ps in
  let ps1 := mkResetPage ps.(token) ps.(hasCheckedToken) ps.(isTokenValid)
               ps.(hasFinishedResetPassword) ps.(isSuccessful) ps.(password) ps.(passwordConfirmation)
               es ps.(rp_msg) in
  if hasPlainError es then mkRun ps1 w [NoticeError (Some "Please fix errors"%string)] None Done
  else
  let '(w1, c) := call_thunk env KPwdReset w o in
  match c with
  | CallThrew m => mkRun ps1 w1 [] None (Thrown m)
  | CallFulfilled res => mkRun (finished true res.(p_msg) ps1) w1 [] None Done
  | CallRejected (Some err) => mkRun (finished false err.(p_msg) ps1) w1 [] None Done
  | CallRejected None => mkRun ps1 w1 [] None (Unhandled (Some read_msg_error))
  end.


(** What the reset page shows in its card. *)
Inductive ResetScreen :=
| RVerifying
| RInvalid
| RForm (pw confirmation : string)
| RFinished (ok : bool) (msg : option string).

Record ResetView := mkResetView {
  r_spinning : bool;
  r_screen : ResetScreen
}.

(** The render: the [Spin] while either request is posted, and the card
    chosen by [hasCheckedToken], [isTokenValid] and
    [hasFinishedResetPassword]. *)
Definition reset_view (ps : ResetPage) (w : World) : ResetView :=
  let props := reset_mapStateToProps w.(store) in
  mkResetView (props.(rsp_isPostingVerifyPwdResetToken) || props.(rsp_isPostingPwdReset))
    (if ps.(hasCheckedToken) then
       if ps.(isTokenValid) then
         if negb ps.(hasFinishedResetPassword) then RForm ps.(password) ps.(passwordConfirmation)
         else RFinished ps.(isSuccessful) ps.(rp_msg)
       else RInvalid
     else RVerifying).

(** The user's events on the page after it mounted. *)
Inductive ResetEvent :=
| RChange (val : string) (f : ResetField)
| RReset (o : ApiOutcome).

(** Both events need the form on screen and no spinner over it. *)
Definition reset_enabled (ps : ResetPage) (w : World) (ev : ResetEvent) : bool :=
  let v := reset_view ps w in
  negb v.(r_spinning) && (if v.(r_screen) is RForm _ _ then true else false).

(** An event's handler, with the [resetPwd(token, password)] request it
    makes (and the confirmation the form held). *)
Definition reset_ui_step (st : ResetPage * World) (ev : ResetEvent)
    : (ResetPage * World) * list (string * string * string) :=
  let '(ps, w) := st in
  match ev with
  | RChange val f => ((handleResetChange val f ps, w), [])
  | RReset o =>
      let r := handleResetButton ps w o in
      ((r.(page), r.(world)),
       if hasPlainError (reset_errors ps) then [] else [(ps.(token), ps.(password), ps.(passwordConfirmation))])
  end.

(** A visit of the reset page: the mount with the URL's code, the token
    check settling with [o], then the user's events. *)
Definition reset_session (code : option string) (w : World) (o : ApiOutcome) (evs : list ResetEvent)
    : (ResetPage * World) * list (string * string * string) :=
  let r := componentDidMount code reset_init w o in
  session (fun st ev => reset_enabled st.1 st.2 ev) reset_ui_step (r.(page), r.(world)) evs.

End ResetPasswordPage.

(** ** [containers/Pages/Auth/Signup/index.js] *)

(** [DEFAULT_EMAIL_RESEND_COUNTER] of [constants/index.js]. *)
Definition DEFAULT_EMAIL_RESEND_COUNTER : Z := 30%Z.

Record SignupPage := mkSignupPage {
  s_formData : Form;
  emailSent : bool;
  retryCounter : Z;
  s_errors : Errors
}.

(** The constructor's [this.state] ([emailSentMsg] is never read). *)
Definition signup_init : SignupPage :=
  mkSignupPage [("firstName", ""); ("lastName", ""); ("username", ""); ("email", ""); ("password", "")]%string
    false 0%Z [].

Definition signup_schema : Schema :=
  [("firstName", [JString "First Name"; JRequired]); ("lastName", [JString "Last Name"; JRequired]);
   ("username", [JString "Username"; JRequired]); ("email", [JString "Email"; JEmail; JRequired]);
   ("password", [JString "Password"; JRequired])]%string.

(** One run of the interval [startResendCountDown] sets up. *)
Definition countdown_tick (ps : SignupPage) : SignupPage :=
  let c := if Z.ltb 0 ps.(retryCounter) then (ps.(retryCounter) - 1)%Z else ps.(retryCounter) in
  let c' := if Z.ltb c 0 then 0%Z else c in
  mkSignupPage ps.(s_formData) ps.(emailSent) c' ps.(s_errors).

(** The resend button's [disabled={retryCounter > 0}]. *)
Definition resend_disabled (ps : SignupPage) : bool := Z.ltb 0%Z ps.(retryCounter).

Section SignupPageHandlers.
Context `{Validator} (env : Env).

(** [handleChange(val, key)] *)
Definition handleSignupChange (val key : string) (ps : SignupPage) : SignupPage :=
  mkSignupPage (obj_set ps.(s_formData) key val) ps.(emailSent) ps.(retryCounter)
    (obj_set ps.(s_errors) key (validateValue val (schema_of signup_schema key))).

(** [handleSignupButton], the request settling with [o]. *)
Definition handleSignupButton (ps : SignupPage) (w : World) (o : ApiOutcome) : Run SignupPage :=
  let errs := validateToPlainErrors ps.(s_formData) signup_schema in
  let ps1 := mkSignupPage ps.(s_formData) ps.(emailSent) ps.(retryCounter) errs in
  if hasPlainError errs then mkRun ps1 w [NoticeError (Some "Please fix errors"%string)] None Done
  else
  let '(w1, c) := call_thunk env KSignup w o in
  match c with
  | CallThrew m => mkRun ps1 w1 [] None (Thrown m)
  | CallFulfilled res =>
      mkRun (mkSignupPage ps1.(s_formData) true ps1.(retryCounter) ps1.(s_errors))
        w1 [NoticeSuccess res.(p_msg)] None Done
  | CallRejected None => mkRun ps1 w1 [] None (Unhandled (Some read_msg_error))
  | CallRejected (Some err) =>
      let ps2 := match response_errors err with
                 | Some es => mkSignupPage ps1.(s_formData) ps1.(emailSent) ps1.(retryCounter) es
                 | None => ps1
                 end in
      mkRun ps2 w1 [NoticeError err.(p_msg)] None Done
  end.

(** [handleResendVerificationEmail], the request settling with [o]: an
    invalid address is reported without touching [errors]. *)
Definition handleResendVerificationEmail (ps : SignupPage) (w : World) (o : ApiOutcome) : Run SignupPage :=
  let email := default ""%string (obj_get ps.(s_formData) "email") in
  let errs := validateToPlainErrors [("email", email)]%string [("email", schema_of signup_schema "email")]%string in
  if hasPlainError errs then mkRun ps w [NoticeError (Some ("Invalid email address: " ++ email)%string)] None Done
  else
  let '(w1, c) := call_thunk env KResend w o in
  match c with
  | CallThrew m => mkRun ps w1 [] None (Thrown m)
  | CallFulfilled res =>
      mkRun (mkSignupPage ps.(s_formData) ps.(emailSent) DEFAULT_EMAIL_RESEND_COUNTER ps.(s_errors))
        w1 [NoticeSuccess res.(p_msg)] None Done
  | CallRejected None => mkRun ps w1 [] None (Unhandled (Some read_msg_error))
  | CallRejected (Some err) => mkRun ps w1 [NoticeError err.(p_msg)] None Done
  end.

End SignupPageHandlers.

(** The events of the signup page: a run of the interval, a keystroke,
    and the two buttons with the outcome of their request. *)
Inductive SignupEvent :=
| STick
| SChange (val key : string)
| SSignup (o : ApiOutcome)
| SResend (o : ApiOutcome).

Section SignupRun.
Context `{Validator} (env : Env).

Definition signup_event (ps : SignupPage) (w : World) (ev : SignupEvent) : SignupPage * World :=
  match ev with
  | STick => (countdown_tick ps, w)
  | SChange val key => (handleSignupChange val key ps, w)
  | SSignup o => let r := handleSignupButton env ps w o in (r.(page), r.(world))
  | SResend o => let r := handleResendVerificationEmail env ps w o in (r.(page), r.(world))
  end.

Fixpoint signup_run (ps : SignupPage) (w : World) (evs : list SignupEvent) : SignupPage * World :=
  match evs with
  | [] => (ps, w)
  | ev :: evs' => let '(ps', w') := signup_event ps w ev in signup_run ps' w' evs'
  end.


(** What the signup page renders: the antd [Spin] around the page while
    the signup or resend request is posted (its blurred content takes no
    clicks), the form card until the e-mail is sent, then the sent card
    with the resend button, disabled while [retryCounter > 0] and then
    showing the seconds left. *)
Record SignupView := mkSignupView {
  spinning : bool;
  form_shown : bool;
  form_values : list (option string);
  resend_button_disabled : bool;
  resend_wait : option Z
}.

Definition signup_fields : list string := ["firstName"; "lastName"; "username"; "email"; "password"]%string.

Definition signup_view (ps : SignupPage) (w : World) : SignupView :=
  let props := signup_mapStateToProps w.(store) in
  mkSignupView (props.(sp_isPostingSignup) || props.(sp_isPostingRequestResendVerificationEmail))
    (negb ps.(emailSent)) (map (obj_get ps.(s_formData)) signup_fields)
    (resend_disabled ps) (if resend_disabled ps then Some ps.(retryCounter) else None).

(** Whether an event's control is on screen and takes the click; the
    interval runs whatever is shown. *)
Definition signup_enabled (ps : SignupPage) (w : World) (ev : SignupEvent) : bool :=
  let v := signup_view ps w in
  match ev with
  | STick => true
  | SChange _ key => negb v.(spinning) && v.(form_shown) && bool_decide (key ∈ signup_fields)
  | SSignup _ => negb v.(spinning) && v.(form_shown)
  | SResend _ => negb v.(spinning) && negb v.(form_shown) && negb v.(resend_button_disabled)
  end.

(** Whether a handler's run told the user that its request succeeded. *)
Definition notified_success {P} (r : Run P) : bool :=
  existsb (fun n => match n with NoticeSuccess _ => true | NoticeError _ => false end) r.(notices).

(** A session on the signup page, observed with a clock: the number of
    runs of the interval so far, and the time of the last resend whose
    request succeeded (the handler's success notice), from which the
    countdown should run. Each resend click is recorded with the time it
    happens and that last successful resend. *)
Record SignupClock := mkSignupClock {
  c_page : SignupPage;
  c_world : World;
  c_now : nat;
  c_restart : option nat
}.

Definition signup_ui_step (st : SignupClock) (ev : SignupEvent) : SignupClock * list (nat * option nat) :=
  let '(ps', w') := signup_event st.(c_page) st.(c_world) ev in
  match ev with
  | STick => (mkSignupClock ps' w' (S st.(c_now)) st.(c_restart), [])
  | SResend o =>
      (mkSignupClock ps' w' st.(c_now)
         (if notified_success (handleResendVerificationEmail env st.(c_page) st.(c_world) o)
          then Some st.(c_now) else st.(c_restart)),
       [(st.(c_now), st.(c_restart))])
  | _ => (mkSignupClock ps' w' st.(c_now) st.(c_restart), [])
  end.

Definition signup_session (w : World) (evs : list SignupEvent) : SignupClock * list (nat * option nat) :=
  session (fun st ev => signup_enabled st.(c_page) st.(c_world) ev) signup_ui_step
    (mkSignupClock signup_init w 0 None) evs.

End SignupRun.

(** ** Lemmas on plain objects *)

Lemma obj_get_set_eq (o : list (string * string)) (k v : string) : obj_get (obj_set o k v) k = Some v.
Proof.
  induction o as [|[k' v'] o IH]; simpl; [by rewrite decide_True|].
  case_decide; simpl; [by rewrite decide_True|]. by rewrite decide_False.
Qed.

(** ** Lemmas: the thunk calls the login page makes *)

Section CallLemmas.
Context (env : Env).

Ltac dispatch := erewrite dispatch_key_case; [|vm_decide|reflexivity].
Ltac simp_calls := cbn -[dispatch_key types setApiAuthHeader]; try unfold catch_fail.
Ltac run_calls := simp_calls; repeat (dispatch; simp_calls).
Ltac found_world := eexists; split; [reflexivity|]; cbn; repeat split.

Lemma call_login_token (w : World) (data : option Body) (tok : string) :
  w.(store).(isPostingLogin) = false -> setApiAuthHeader (data ≫= b_accessToken) = Some tok ->
  exists w', call_thunk env KLogin w (ApiResolved data) =
    (w', CallFulfilled (spread_msg data (str_or (data ≫= b_msg) "Login success!"))) /\
  w'.(ls_accessToken) = Some tok /\ w'.(auth_header) = Some tok /\
  w'.(store).(accessToken) = Some tok /\ w'.(store).(isPostingLogin) = false /\
  w'.(store).(isFetchingMe) = w.(store).(isFetchingMe).
Proof.
  intros Hl Htok. pose proof (setApiAuthHeader_some _ _ Htok) as [Hx _].
  destruct w as [[] ? ? ?]; cbn in Hl; subst.
  unfold call_thunk, thunk_start. run_calls. rewrite Htok. simp_calls. rewrite Hx. found_world.
Qed.

Lemma call_getMe_rejected (w : World) (r : option Response) :
  w.(store).(isFetchingMe) = false ->
  exists w', call_thunk env KGetMe w (ApiRejected r) =
    (w', CallRejected (Some (mkPayload (Some (str_or (r ≫= r_msg) "Get failed!")) None None r))) /\
  w'.(ls_accessToken) = None /\ w'.(auth_header) = None /\ w'.(ls_user) = None /\
  w'.(store).(accessToken) = w.(store).(accessToken) /\
  w'.(store).(isPostingLogin) = w.(store).(isPostingLogin).
Proof.
  intros Hg. destruct w as [[] ? ? ?]; cbn in Hg; subst.
  unfold call_thunk, thunk_start. run_calls. found_world.
Qed.

Lemma call_login_rejected (w : World) (r : option Response) :
  w.(store).(isPostingLogin) = false ->
  exists w', call_thunk env KLogin w (ApiRejected r) =
    (w', CallRejected (Some (mkPayload (Some (str_or (r ≫= r_msg) "Login failed!")) None None r))) /\
  w'.(ls_accessToken) = w.(ls_accessToken) /\ w'.(auth_header) = w.(auth_header) /\
  w'.(store).(isPostingLogin) = false.
Proof.
  intros Hl. destruct w as [[] ? ? ?]; cbn in Hl; subst.
  unfold call_thunk, thunk_start. run_calls. found_world.
Qed.

End CallLemmas.
(** ** Properties of the login page *)

Section LoginProperties.
Context `{Validator} (env : Env).

Lemma setApiAuthHeader_token (t : string) : t <> ""%string -> setApiAuthHeader (Some t) = Some t.
Proof. intros Ht. unfold setApiAuthHeader. by rewrite decide_False. Qed.

(** C38: when the login succeeds but the [getMe] it chains fails, the page
    shows only the login success and never navigates; the rejection of
    [getMe] is caught by nobody; [localStorage] and the axios header are
    cleared while the store keeps the new token and reports no login in
    progress: the user stays on the login page, logged in for the store
    and logged out for the API. *)
Theorem login_page_getMe_failure (ps : LoginPage) (w : World) (from : option string)
    (body : Body) (t : string) (r : option Response) :
  hasPlainError (validateToPlainErrors ps.(formData) login_schema) = false ->
  w.(store).(isPostingLogin) = false -> w.(store).(isFetchingMe) = false ->
  body.(b_accessToken) = Some t -> t <> ""%string ->
  let run := handleLoginButton env ps w from (ApiResolved (Some body)) (ApiRejected r) in
  run.(pushed) = None /\
  run.(notices) = [NoticeSuccess (Some (str_or body.(b_msg) "Login success!"))] /\
  run.(ending) = Unhandled (Some (str_or (r ≫= r_msg) "Get failed!")) /\
  run.(world).(ls_accessToken) = None /\ run.(world).(auth_header) = None /\
  run.(world).(store).(accessToken) = Some t /\ run.(world).(store).(isPostingLogin) = false.
Proof.
  intros Hv Hl Hg Hb Ht. unfold handleLoginButton. cbv zeta. rewrite Hv.
  destruct (call_login_token env w (Some body) t Hl) as (w1 & -> & _ & _ & Ht1 & Hl1 & Hg1);
    [by cbn; rewrite Hb; apply setApiAuthHeader_token|].
  destruct (call_getMe_rejected env w1 r) as (w2 & -> & Hs2 & Hh2 & _ & Ht2 & Hl2); [congruence|].
  cbn. repeat split; congruence.
Qed.

(** A login the server answers with 401 switches the page to the
    resend-verification tab, shows the server's message (or
    ['Login failed!']) and its field errors, navigates nowhere and leaves
    the session as it was. *)
Theorem login_page_unauthorized (ps : LoginPage) (w : World) (from : option string)
    (resp : Response) (getMe_o : ApiOutcome) :
  hasPlainError (validateToPlainErrors ps.(formData) login_schema) = false ->
  w.(store).(isPostingLogin) = false -> resp.(r_status) = 401%Z ->
  let run := handleLoginButton env ps w from (ApiRejected (Some resp)) getMe_o in
  run.(page).(activeTab) = TABS_RESEND_VERIFICATION /\
  run.(page).(errors) = default (validateToPlainErrors ps.(formData) login_schema) resp.(r_errors) /\
  run.(notices) = [NoticeError (Some (str_or resp.(r_msg) "Login failed!"))] /\
  run.(pushed) = None /\ run.(ending) = Done /\
  run.(world).(ls_accessToken) = w.(ls_accessToken) /\ run.(world).(auth_header) = w.(auth_header).
Proof.
  intros Hv Hl Hs. unfold handleLoginButton. cbv zeta. rewrite Hv.
  destruct (call_login_rejected env w (Some resp) Hl) as (w1 & -> & Ha & Hh & _).
  unfold login_catch, is_unauthorized, response_errors. cbn. rewrite bool_decide_true by done.
  destruct (r_errors resp); cbn; repeat split; done.
Qed.

End LoginProperties.
(** ** Properties of the reset-password and signup pages *)

Lemma call_guarded (env : Env) (k : Kind) (w : World) (o : ApiOutcome) :
  flag_of k w.(store) = true -> call_thunk env k w o = (w, CallRejected None).
Proof. intros Hf. unfold call_thunk, thunk_start. by rewrite Hf. Qed.

(** C40: mounting the reset-password page while a verification of a
    token is still in flight (the page was left and opened again before
    the first answer) makes the thunk's guard reject with [undefined]:
    [to] turns it into [[undefined, undefined]], the [else] branch reads
    [res.msg] on [undefined] and throws, so the page keeps
    [hasCheckedToken] false and shows its spinner for ever. *)
Theorem reset_page_remount_hangs (env : Env) (w : World) (code : string) (o : ApiOutcome) :
  code <> ""%string -> w.(store).(isPostingVerifyPwdResetToken) = true ->
  let run := componentDidMount env (Some code) reset_init w o in
  run.(page).(hasCheckedToken) = false /\ run.(page).(token) = code /\
  run.(ending) = Unhandled (Some read_msg_error) /\ run.(world) = w.
Proof.
  intros Hc Hf. unfold componentDidMount. rewrite decide_False by done. cbv zeta.
  by rewrite call_guarded.
Qed.

Section ResetProperties.
Context `{Validator} (env : Env).
Hypothesis hasPlainError_mismatch :
  forall es, hasPlainError (obj_set es "passwordConfirmation" mismatch_msg) = true.

(** When the validator reports the confirmation message as an error, a
    confirmation that differs from the password never sends the request. *)
Lemma reset_mismatch_not_sent (ps : ResetPage) (w : World) (o : ApiOutcome) :
  ps.(password) <> ps.(passwordConfirmation) ->
  let run := handleResetButton env ps w o in
  run.(world) = w /\ run.(notices) = [NoticeError (Some "Please fix errors"%string)] /\
  obj_get run.(page).(rp_errors) "passwordConfirmation" = Some mismatch_msg.
Proof.
  intros Hne. unfold handleResetButton, reset_errors. cbv zeta.
  rewrite decide_False by done. rewrite hasPlainError_mismatch. cbn. split_and!; try done.
  apply obj_get_set_eq.
Qed.

Lemma reset_ui_step_keeps (st : ResetPage * World) (ev : ResetEvent) :
  (reset_ui_step env st ev).1.1.(token) = st.1.(token) /\
  (reset_ui_step env st ev).1.1.(isTokenValid) = st.1.(isTokenValid).
Proof.
  destruct st as [ps w], ev as [val []|o]; cbn; [done|done|].
  unfold handleResetButton. cbv zeta. repeat case_match; simplify_eq/=; done.
Qed.

Lemma reset_ui_step_request (st : ResetPage * World) (ev : ResetEvent) :
  reset_enabled st.1 st.2 ev = true ->
  Forall (fun req => req.1.1 = st.1.(token) /\ req.1.2 = req.2 /\ st.1.(isTokenValid) = true)
    (reset_ui_step env st ev).2.
Proof.
  destruct st as [ps w]. intros Hen. destruct ev as [val f|o]; cbn; [constructor|].
  destruct (hasPlainError (reset_errors ps)) eqn:He; repeat constructor.
  - unfold reset_errors in He. destruct (decide (password ps = passwordConfirmation ps)); [done|].
    by rewrite hasPlainError_mismatch in He.
  - unfold reset_enabled, reset_view in Hen. cbn in Hen.
    by destruct (hasCheckedToken ps), (isTokenValid ps), (hasFinishedResetPassword ps); rewrite ?andb_false_r in Hen.
Qed.

Lemma mount_valid (code : option string) (w : World) (o : ApiOutcome) :
  (componentDidMount env code reset_init w o).(page).(isTokenValid) = true ->
  code = Some (componentDidMount env code reset_init w o).(page).(token).
Proof.
  unfold componentDidMount. destruct code as [c|]; [|done]. case_decide; [done|].
  cbv zeta. destruct (call_thunk env KVerifyPwdResetToken w o) as [w1 []]; try case_match; done.
Qed.

(** C20: in a visit of the reset-password page, every [resetPwd] request
    carries the code of the URL, which the server accepted as a valid
    token, and a password equal to its confirmation: the form is shown
    only once the token check succeeded, the token is set once at mount,
    and a mismatch is reported as an error before any request. *)
Theorem reset_requests_verified (code : option string) (w : World) (o : ApiOutcome)
    (evs : list ResetEvent) :
  Forall (fun req => code = Some req.1.1 /\ req.1.2 = req.2 /\
            (componentDidMount env code reset_init w o).(page).(isTokenValid) = true)
    (reset_session env code w o evs).2.
Proof.
  set (p0 := (componentDidMount env code reset_init w o).(page)).
  destruct (session_inv (fun st ev => reset_enabled st.1 st.2 ev) (reset_ui_step env)
    (fun st => st.1.(token) = p0.(token) /\ st.1.(isTokenValid) = p0.(isTokenValid))
    (fun req => req.1.1 = p0.(token) /\ req.1.2 = req.2 /\ p0.(isTokenValid) = true))
    with evs (p0, (componentDidMount env code reset_init w o).(world)) as [_ Hw].
  - intros st ev [Ht Hv] Hen. destruct (reset_ui_step_keeps st ev) as [Ht' Hv'].
    split; [by rewrite Ht', Hv'|].
    eapply Forall_impl; [by apply reset_ui_step_request|]. intros req (H1 & H2 & H3).
    rewrite <- Ht, <- Hv. done.
  - done.
  - unfold reset_session. eapply Forall_impl; [exact Hw|]. intros req (H1 & H2 & H3).
    split_and!; [|done|done]. rewrite (mount_valid code w o H3). subst p0. by rewrite H1.
Qed.

End ResetProperties.

Lemma countdown_iter (ps : SignupPage) (n : nat) :
  (0 <= ps.(retryCounter))%Z ->
  (Nat.iter n countdown_tick ps).(retryCounter) = Z.max 0 (ps.(retryCounter) - Z.of_nat n).
Proof.
  intros Hc. induction n as [|n IH]; [simpl; lia|].
  rewrite Nat.iter_succ. unfold countdown_tick at 1. cbn [retryCounter]. rewrite IH.
  destruct (Z.ltb_spec 0 (Z.max 0 (retryCounter ps - Z.of_nat n))) as [Hp|Hp].
  - destruct (Z.ltb_spec (Z.max 0 (retryCounter ps - Z.of_nat n) - 1) 0); lia.
  - destruct (Z.ltb_spec (Z.max 0 (retryCounter ps - Z.of_nat n)) 0); lia.
Qed.

(** The countdown after a resend lets the button be used again after
    [DEFAULT_EMAIL_RESEND_COUNTER] runs of the interval, and not before. *)
Lemma resend_enabled_after_countdown (ps : SignupPage) (n : nat) :
  ps.(retryCounter) = DEFAULT_EMAIL_RESEND_COUNTER ->
  resend_disabled (Nat.iter n countdown_tick ps) = bool_decide (n < 30)%nat.
Proof.
  intros Hc. unfold resend_disabled. rewrite countdown_iter by (rewrite Hc; done).
  rewrite Hc. unfold DEFAULT_EMAIL_RESEND_COUNTER.
  destruct (Z.ltb_spec 0 (Z.max 0 (30 - Z.of_nat n))); case_bool_decide; lia.
Qed.

(** The resend counter of a page. *)
Definition counter_ok (ps : SignupPage) : Prop :=
  (0 <= ps.(retryCounter) <= DEFAULT_EMAIL_RESEND_COUNTER)%Z.

Section SignupBounds.
Context `{Validator} (env : Env).

Lemma signup_event_counter (ps : SignupPage) (w : World) (ev : SignupEvent) :
  (signup_event env ps w ev).1.(retryCounter) = ps.(retryCounter) \/
  (signup_event env ps w ev).1.(retryCounter) = DEFAULT_EMAIL_RESEND_COUNTER \/
  ev = STick.
Proof.
  destruct ev as [| | o | o]; [by right; right|by left| |].
  - left. unfold signup_event, handleSignupButton. cbv zeta.
    repeat case_match; simplify_eq/=; done.
  - unfold signup_event, handleResendVerificationEmail. cbv zeta.
    repeat case_match; simplify_eq/=; auto.
Qed.

(** A resend that tells the user it succeeded has set the counter to
    [DEFAULT_EMAIL_RESEND_COUNTER]; any other resend leaves it alone. *)
Lemma resend_notified (ps : SignupPage) (w : World) (o : ApiOutcome) :
  (handleResendVerificationEmail env ps w o).(page).(retryCounter) =
  if notified_success (handleResendVerificationEmail env ps w o) then DEFAULT_EMAIL_RESEND_COUNTER
  else ps.(retryCounter).
Proof. unfold handleResendVerificationEmail. cbv zeta. by repeat case_match; simplify_eq/=. Qed.

Lemma countdown_tick_ok (ps : SignupPage) : counter_ok ps -> counter_ok (countdown_tick ps).
Proof.
  unfold counter_ok, countdown_tick, DEFAULT_EMAIL_RESEND_COUNTER. cbn [retryCounter].
  destruct (Z.ltb_spec 0 (retryCounter ps)); [destruct (Z.ltb_spec (retryCounter ps - 1) 0)|
    destruct (Z.ltb_spec (retryCounter ps) 0)]; lia.
Qed.

(** C4: whatever the user does on the signup page and however the
    requests settle, the resend counter stays between 0 and
    [DEFAULT_EMAIL_RESEND_COUNTER]: a resend sets it to 30, every run of
    the interval lowers it by one down to 0, and nothing else writes it. *)
Theorem signup_counter_bounds (evs : list SignupEvent) (w : World) :
  counter_ok (signup_run env signup_init w evs).1.
Proof.
  cut (forall ps w, counter_ok ps -> counter_ok (signup_run env ps w evs).1).
  { intros Hc. apply Hc. unfold counter_ok. cbn. unfold DEFAULT_EMAIL_RESEND_COUNTER. lia. }
  induction evs as [|ev evs IH]; intros ps w0 Hok; [done|]. cbn [signup_run].
  destruct (signup_event env ps w0 ev) as [ps' w'] eqn:He. apply IH.
  destruct (signup_event_counter ps w0 ev) as [Hs|[Hs| ->]].
  - rewrite He in Hs. cbn in Hs. unfold counter_ok. by rewrite Hs.
  - rewrite He in Hs. cbn in Hs. unfold counter_ok. rewrite Hs. unfold DEFAULT_EMAIL_RESEND_COUNTER. lia.
  - cbn in He. injection He as <- _. by apply countdown_tick_ok.
Qed.

Lemma countdown_tick_ge (ps : SignupPage) : (ps.(retryCounter) - 1 <= (countdown_tick ps).(retryCounter))%Z.
Proof.
  unfold countdown_tick. cbn [retryCounter].
  destruct (Z.ltb_spec 0 (retryCounter ps)); [destruct (Z.ltb_spec (retryCounter ps - 1) 0)|
    destruct (Z.ltb_spec (retryCounter ps) 0)]; lia.
Qed.

(** The clock's invariant: the counter is in bounds and, since the last
    restart at [t], it has not run down faster than one per tick. *)
Definition clock_inv (st : SignupClock) : Prop :=
  counter_ok st.(c_page) /\
  match st.(c_restart) with
  | Some t => t <= st.(c_now) /\
      (Z.of_nat t + DEFAULT_EMAIL_RESEND_COUNTER - Z.of_nat st.(c_now) <= st.(c_page).(retryCounter))%Z
  | None => True
  end.

(** A resend click is at least [DEFAULT_EMAIL_RESEND_COUNTER] ticks after
    the last restart of the countdown. *)
Definition resend_spaced (click : nat * option nat) : Prop :=
  match click.2 with
  | Some t => (Z.of_nat t + DEFAULT_EMAIL_RESEND_COUNTER <= Z.of_nat click.1)%Z
  | None => True
  end.

Lemma signup_ui_step_inv (st : SignupClock) (ev : SignupEvent) :
  clock_inv st -> signup_enabled st.(c_page) st.(c_world) ev = true ->
  clock_inv (signup_ui_step env st ev).1 /\ Forall resend_spaced (signup_ui_step env st ev).2.
Proof.
  destruct st as [ps w now restart]. intros [Hok Hr] Hen. unfold signup_ui_step. cbn [c_page c_world c_now c_restart] in *.
  pose proof (signup_event_counter ps w ev) as Hc.
  destruct (signup_event env ps w ev) as [ps' w'] eqn:He. cbn [fst] in Hc.
  assert (counter_ok ps') as Hok'.
  { destruct Hc as [Hc|[Hc| ->]]; [by unfold counter_ok; rewrite Hc|
      unfold counter_ok, DEFAULT_EMAIL_RESEND_COUNTER in *; rewrite Hc; lia|].
    cbn in He. injection He as <- _. by apply countdown_tick_ok. }
  unfold counter_ok, DEFAULT_EMAIL_RESEND_COUNTER in *.
  destruct ev as [|val key|o|o].
  - cbn in He. injection He as <- <-. split; [|constructor]. split; [done|cbn [fst c_page c_now c_restart]; unfold DEFAULT_EMAIL_RESEND_COUNTER].
    destruct restart as [t|]; [|done]. pose proof (countdown_tick_ge ps). lia.
  - split; [|constructor]. split; [done|cbn [fst c_page c_now c_restart]; unfold DEFAULT_EMAIL_RESEND_COUNTER].
    destruct restart as [t|]; [|done]. destruct Hc as [Hc|[Hc|]]; [|lia|done]. lia.
  - split; [|constructor]. split; [done|cbn [fst c_page c_now c_restart]; unfold DEFAULT_EMAIL_RESEND_COUNTER].
    destruct restart as [t|]; [|done]. destruct Hc as [Hc|[Hc|]]; [|lia|done]. lia.
  - assert (retryCounter ps <= 0)%Z.
    { cbn in Hen. unfold resend_disabled in Hen. destruct (Z.ltb_spec 0 (retryCounter ps)); [|lia].
      by rewrite !andb_false_r in Hen. }
    pose proof (resend_notified ps w o) as Hn. cbn [signup_event] in He. injection He as <- _.
    split; [split; [done|cbn [fst c_page c_now c_restart]]|repeat constructor; cbn [fst snd]].
    + destruct (notified_success _); [unfold DEFAULT_EMAIL_RESEND_COUNTER in *; lia|].
      destruct restart as [t|]; [|done]. rewrite Hn. unfold DEFAULT_EMAIL_RESEND_COUNTER. lia.
    + destruct restart as [t|]; [|done]. unfold resend_spaced, DEFAULT_EMAIL_RESEND_COUNTER; cbn [fst snd]. lia.
Qed.

(** C10: on the rendered signup page, the resend button is clicked at
    least [DEFAULT_EMAIL_RESEND_COUNTER] runs of the interval after the
    last resend whose request succeeded: it is disabled while
    [retryCounter > 0], a successful resend sets the counter to 30, and
    each run lowers it by at most one. *)
Theorem resend_rate_limited (w : World) (evs : list SignupEvent) :
  Forall resend_spaced (signup_session env w evs).2.
Proof.
  apply (session_inv _ _ clock_inv).
  - intros st ev Hinv Hen. by apply signup_ui_step_inv.
  - split; [unfold counter_ok, DEFAULT_EMAIL_RESEND_COUNTER; cbn; lia|done].
Qed.

End SignupBounds.

(** A detour to the signup page and back keeps [location.state]: the
    login page still redirects where it was sent from. *)
Lemma goto_signup_and_back (state : option LocState) :
  let p := handleGoToLoginButton (handleGoToSignupButton state).(push_state) in
  p.(push_pathname) = "/login"%string /\
  redirect_of (p.(push_state) ≫= ls_from) = redirect_of (state ≫= ls_from).
Proof. split; reflexivity. Qed.

(** ** The pages under the store's thunks

    A page reads the [isPosting*] flags of the thunks below through its
    [mapStateToProps]; the store sets a thunk's flag while its request is
    in flight ([Auth.inv_flags]), whichever page called it. *)

Definition login_kinds : list Kind := [KLogin; KResend; KPwdResetRequest].
Definition signup_kinds : list Kind := [KSignup; KResend].
Definition reset_kinds : list Kind := [KVerifyPwdResetToken; KPwdReset].

Lemma login_view_spinning (ps : LoginPage) (w : World) :
  (login_view ps w).(l_spinning) = existsb (fun k => flag_of k w.(store)) login_kinds.
Proof. cbn. by rewrite orb_false_r, orb_assoc. Qed.

Lemma signup_view_spinning (ps : SignupPage) (w : World) :
  (signup_view ps w).(spinning) = existsb (fun k => flag_of k w.(store)) signup_kinds.
Proof. cbn. by rewrite orb_false_r. Qed.

Lemma reset_view_spinning (ps : ResetPage) (w : World) :
  (reset_view ps w).(r_spinning) = existsb (fun k => flag_of k w.(store)) reset_kinds.
Proof. cbn. by rewrite orb_false_r. Qed.

Section StoreLocks.
Context (env : Env) (parse : string -> option User).

Lemma inflight_spins (sy : Sys) (ks : list Kind) (k : Kind) :
  reachable env parse sy -> k ∈ ks -> k ∈ sy.(inflight) ->
  existsb (fun k => flag_of k sy.(Auth.world).(store)) ks = true.
Proof.
  intros Hr Hk Hin. apply existsb_exists. exists k. split; [by apply list_elem_of_In|].
  by apply (inv_flags _ (auth_reachable_Inv env parse sy Hr)).
Qed.

(** While a login, a resend or a password-reset request is in flight,
    the login page shows its spinner and none of its controls takes a
    click. *)
Lemma login_locked_inflight (sy : Sys) (k : Kind) (ps : LoginPage) (ev : LoginEvent) :
  reachable env parse sy -> k ∈ login_kinds -> k ∈ sy.(inflight) ->
  (login_view ps sy.(Auth.world)).(l_spinning) = true /\ login_enabled ps sy.(Auth.world) ev = false.
Proof.
  intros Hr Hk Hin. assert ((login_view ps sy.(Auth.world)).(l_spinning) = true) as Hs.
  { rewrite login_view_spinning. by eapply inflight_spins. }
  split; [done|]. unfold login_enabled. by rewrite Hs.
Qed.

(** While a signup or a resend is in flight, the signup page spins and
    only the interval runs. *)
Lemma signup_locked_inflight (sy : Sys) (k : Kind) (ps : SignupPage) (ev : SignupEvent) :
  reachable env parse sy -> k ∈ signup_kinds -> k ∈ sy.(inflight) ->
  (signup_view ps sy.(Auth.world)).(spinning) = true /\
  (signup_enabled ps sy.(Auth.world) ev = true -> ev = STick).
Proof.
  intros Hr Hk Hin. assert ((signup_view ps sy.(Auth.world)).(spinning) = true) as Hs.
  { rewrite signup_view_spinning. by eapply inflight_spins. }
  split; [done|]. unfold signup_enabled. rewrite Hs. by destruct ev.
Qed.

(** While the token check or the reset is in flight, the reset page
    spins and its form takes no input. *)
Lemma reset_locked_inflight (sy : Sys) (k : Kind) (ps : ResetPage) (ev : ResetEvent) :
  reachable env parse sy -> k ∈ reset_kinds -> k ∈ sy.(inflight) ->
  (reset_view ps sy.(Auth.world)).(r_spinning) = true /\ reset_enabled ps sy.(Auth.world) ev = false.
Proof.
  intros Hr Hk Hin. assert ((reset_view ps sy.(Auth.world)).(r_spinning) = true) as Hs.
  { rewrite reset_view_spinning. by eapply inflight_spins. }
  split; [done|]. unfold reset_enabled. by rewrite Hs.
Qed.

(** C3: the pages share the store's [isPosting*] flags: whichever page
    called a thunk, while its request is in flight every page that
    calls the same thunk shows its spinner and takes no click (the
    signup page lets only the interval run), so no page can send a
    second request of that kind before the first settles. *)
Theorem pages_locked_inflight (sy : Sys) (k : Kind) :
  reachable env parse sy -> k ∈ sy.(inflight) ->
  (k ∈ login_kinds -> forall ps ev,
     (login_view ps sy.(Auth.world)).(l_spinning) = true /\ login_enabled ps sy.(Auth.world) ev = false) /\
  (k ∈ signup_kinds -> forall ps ev,
     (signup_view ps sy.(Auth.world)).(spinning) = true /\
     (signup_enabled ps sy.(Auth.world) ev = true -> ev = STick)) /\
  (k ∈ reset_kinds -> forall ps ev,
     (reset_view ps sy.(Auth.world)).(r_spinning) = true /\ reset_enabled ps sy.(Auth.world) ev = false).
Proof.
  intros Hr Hin. split_and!; intros Hk ps ev;
    [eapply login_locked_inflight|eapply signup_locked_inflight|eapply reset_locked_inflight]; eauto.
Qed.

End StoreLocks.

Lemma countdown_tick_zero (ps : SignupPage) : ps.(retryCounter) = 0%Z -> countdown_tick ps = ps.
Proof. destruct ps as [f e c er]. cbn. intros ->. reflexivity. Qed.

(** C2: the countdown the interval runs terminates: from any counter
    [c >= 0], after [c] runs or more the counter is 0 and further runs
    leave the page unchanged, so the resend button is enabled for good. *)
Theorem countdown_terminates (ps : SignupPage) (n : nat) :
  (0 <= ps.(retryCounter))%Z -> (Z.to_nat ps.(retryCounter) <= n)%nat ->
  (Nat.iter n countdown_tick ps).(retryCounter) = 0%Z /\
  resend_disabled (Nat.iter n countdown_tick ps) = false /\
  countdown_tick (Nat.iter n countdown_tick ps) = Nat.iter n countdown_tick ps.
Proof.
  intros Hc Hn. assert ((Nat.iter n countdown_tick ps).(retryCounter) = 0%Z) as H0.
  { rewrite countdown_iter by done. lia. }
  split_and!; [done| |by apply countdown_tick_zero].
  unfold resend_disabled. by rewrite H0.
Qed.

(** ** Concrete runs *)

(** A validator that reports a field when its message is not empty, and
    finds nothing to report. *)
#[local] Instance demo_validator : Validator := {|
  validateToPlainErrors := fun _ _ => [];
  validateValue := fun _ _ => ""%string;
  hasPlainError := fun es => existsb (fun kv => negb (String.eqb kv.2 "")) es
|}.

Definition demo_login_page : LoginPage :=
  mkLoginPage [("email", "ann@example.org"); ("password", "secret")]%string [] TABS_LOGIN.
Definition demo_token_body : Body := mkBody (Some "Welcome"%string) (Some "tok1"%string) None "{}".
Definition demo_401 : Response := mkResponse 401 (Some "Email not verified"%string) None.

Lemma login_page_getMe_failure_witness :
  let run := handleLoginButton Development demo_login_page demo_world None
               (ApiResolved (Some demo_token_body)) (ApiRejected None) in
  run.(pushed) = None /\
  run.(notices) = [NoticeSuccess (Some (str_or demo_token_body.(b_msg) "Login success!"))] /\
  run.(ending) = Unhandled (Some (str_or (None ≫= r_msg) "Get failed!")) /\
  run.(world).(ls_accessToken) = None /\ run.(world).(auth_header) = None /\
  run.(world).(store).(accessToken) = Some "tok1"%string /\ run.(world).(store).(isPostingLogin) = false.
Proof. apply login_page_getMe_failure; [reflexivity|reflexivity|reflexivity|reflexivity|discriminate]. Defined.

Lemma login_page_unauthorized_witness :
  let run := handleLoginButton Development demo_login_page demo_world None
               (ApiRejected (Some demo_401)) (ApiRejected None) in
  run.(page).(activeTab) = TABS_RESEND_VERIFICATION /\
  run.(page).(errors) = default (validateToPlainErrors demo_login_page.(formData) login_schema) demo_401.(r_errors) /\
  run.(notices) = [NoticeError (Some (str_or demo_401.(r_msg) "Login failed!"))] /\
  run.(pushed) = None /\ run.(ending) = Done /\
  run.(world).(ls_accessToken) = demo_world.(ls_accessToken) /\ run.(world).(auth_header) = demo_world.(auth_header).
Proof. apply login_page_unauthorized; reflexivity. Defined.

(** The world while a first verification is in flight. *)
Definition verifying_world : World :=
  (thunk_start Development KVerifyPwdResetToken demo_world).1.

Lemma reset_page_remount_hangs_witness :
  let run := componentDidMount Development (Some "c0de"%string) reset_init verifying_world (ApiResolved None) in
  run.(page).(hasCheckedToken) = false /\ run.(page).(token) = "c0de"%string /\
  run.(ending) = Unhandled (Some read_msg_error) /\ run.(world) = verifying_world.
Proof. apply reset_page_remount_hangs; [discriminate|reflexivity]. Defined.

Lemma countdown_terminates_witness :
  let ps := mkSignupPage [] true DEFAULT_EMAIL_RESEND_COUNTER [] in
  (Nat.iter 30 countdown_tick ps).(retryCounter) = 0%Z /\
  resend_disabled (Nat.iter 30 countdown_tick ps) = false /\
  countdown_tick (Nat.iter 30 countdown_tick ps) = Nat.iter 30 countdown_tick ps.
Proof. apply countdown_terminates; cbn; unfold DEFAULT_EMAIL_RESEND_COUNTER; lia. Defined.

(** A session where the rate limit matters: after the signup, a first
    resend is sent at once, a second click while the counter runs is
    ignored, and the next one comes after thirty runs of the interval. *)
Example signup_resend_session :
  let ok := ApiResolved (Some demo_token_body) in
  (signup_session Development demo_world
     ([SSignup ok; SResend ok; SResend ok] ++ repeat STick 30 ++ [SResend ok])).2 =
  [(0, None); (30, Some 0)].
Proof. vm_compute. reflexivity. Qed.

Lemma demo_validator_mismatch (es : Errors) :
  hasPlainError (obj_set es "passwordConfirmation" mismatch_msg) = true.
Proof.
  induction es as [|[k v] es IH]; cbn [obj_set]; [reflexivity|]. case_decide; [reflexivity|].
  cbn in IH |- *. rewrite IH. apply orb_true_r.
Qed.

Lemma reset_requests_verified_witness :
  let evs := [RChange "secret1" FPassword; RChange "secret1" FPasswordConfirmation;
              RReset (ApiResolved (Some demo_token_body))]%string in
  length (reset_session Development (Some "c0de"%string) demo_world (ApiResolved (Some demo_token_body)) evs).2 = 1 /\
  Forall (fun req => Some "c0de"%string = Some req.1.1 /\ req.1.2 = req.2 /\
     (componentDidMount Development (Some "c0de"%string) reset_init demo_world
        (ApiResolved (Some demo_token_body))).(page).(isTokenValid) = true)
    (reset_session Development (Some "c0de"%string) demo_world (ApiResolved (Some demo_token_body)) evs).2.
Proof.
  split; [reflexivity|]. apply reset_requests_verified. exact demo_validator_mismatch.
Defined.

(** A resend requested from the login page locks the signup page too. *)
Lemma pages_locked_inflight_witness :
  let sy := from_option id (init None None) (run Development demo_parse (init None None) [Auth.Call KResend]) in
  KResend ∈ sy.(inflight) /\
  (KResend ∈ login_kinds -> forall ps ev,
     (login_view ps sy.(Auth.world)).(l_spinning) = true /\ login_enabled ps sy.(Auth.world) ev = false) /\
  (KResend ∈ signup_kinds -> forall ps ev,
     (signup_view ps sy.(Auth.world)).(spinning) = true /\
     (signup_enabled ps sy.(Auth.world) ev = true -> ev = STick)) /\
  (KResend ∈ reset_kinds -> forall ps ev,
     (reset_view ps sy.(Auth.world)).(r_spinning) = true /\ reset_enabled ps sy.(Auth.world) ev = false).
Proof.
  cbv zeta. split; [vm_compute; by left|].
  apply (pages_locked_inflight Development demo_parse); [|vm_compute; by left].
  destruct (run _ _ _ _) as [sy1|] eqn:Hrun; simpl; [|constructor].
  eapply auth_run_reachable; [constructor|exact Hrun].
Defined.

End Pages.
