(* ===== verification/JsObject.v ===== *)
(** * JS objects holding JSON values, as the editors use them

    The editors keep the metadata the contract returns in objects, merge
    them with spread syntax ([{ ...a, ...b }]), set one field with
    [{ ...o, [field]: value }] and send them back through
    [JSON.stringify]. This file models those operations of the language
    on the fields of an object: an association list in insertion order.
    [get] is property access, [set] is assignment (an existing key keeps
    its position), and [spread] copies the own enumerable properties of a
    value, as [...v] does in an object literal: the fields of an object,
    the indices of an array or a string, nothing for [null], numbers and
    booleans. [prop] is property access on any value, [truthy] is JS
    truthiness, [or_default] the [x || d] idiom, [guarded_prop] the
    [(v && v.k) || d] idiom and [strict_eq] the [===] operator. The lemmas
    give the value of a key after each operation. *)

From Stdlib Require Import QArith.
From stdpp Require Import pretty.
From S2P Require Import Prelude ContractCalls.
Import ContractCalls.

Module JsObject.

Abbreviation Fields := (list (jsstr * Json)).

(** [o[k]] ([None] is [undefined]). *)
Fixpoint get (o : Fields) (k : jsstr) : option Json :=
  match o with
  | [] => None
  | (k', v) :: o' => if decide (k' = k) then Some v else get o' k
  end.

(** [o[k] = v]: an existing key keeps its place, a new key goes last. *)
Fixpoint set (o : Fields) (k : jsstr) (v : Json) : Fields :=
  match o with
  | [] => [(k, v)]
  | (k', v') :: o' => if decide (k' = k) then (k', v) :: o' else (k', v') :: set o' k v
  end.

(** The property name of an index: its decimal digits. *)
Definition index_key (i : nat) : jsstr := js (pretty (N.of_nat i)).

(** The own enumerable properties of a JSON value, in order. *)
Definition own_props (v : Json) : Fields :=
  match v with
  | JObj f => f
  | JArr items => imap (fun i x => (index_key i, x)) items
  | JStr s => imap (fun i c => (index_key i, JStr [c])) s
  | _ => []
  end.

(** [{ ...o, ...v }]: each property of [v] assigned in turn. *)
Definition spread (o : Fields) (v : Json) : Fields :=
  foldl (fun acc kv => set acc kv.1 kv.2) o (own_props v).

(** The value of a key in a list of assignments: the last one wins. *)
Definition last_get (f : Fields) (k : jsstr) : option Json := get (reverse f) k.

(** JS truthiness of a JSON value. *)
Definition truthy (v : Json) : bool :=
  match v with
  | JNull => false
  | JBool b => b
  | JNum n => negb (Qeq_bool n 0)
  | JStr s => negb (bool_decide (s = []))
  | JArr _ | JObj _ => true
  end.

(** [x || d], [x] possibly [undefined]. *)
Definition or_default (x : option Json) (d : Json) : Json :=
  match x with Some v => if truthy v then v else d | None => d end.

(** Property access [v[k]] on any JSON value: an own property, or
    [undefined]. *)
Definition prop (v : Json) (k : jsstr) : option Json := last_get (own_props v) k.

(** [(v && v[k]) || d]: a property of a value that may be falsy, with a
    default for a falsy result. *)
Definition guarded_prop (v : Json) (k : jsstr) (d : Json) : Json :=
  if truthy v then or_default (prop v k) d else d.

(** The truthiness of a value that may be [undefined] ([None]). *)
Definition truthy_opt (o : option Json) : bool := if o is Some v then truthy v else false.

(** [===] between two values, [None] standing for [undefined]: primitives
    by value; two objects are never identical here, since the handlers
    compare values read from JSON with values typed in a form or written in
    the code, never an object with itself. *)
Definition strict_eq (x y : option Json) : bool :=
  match x, y with
  | None, None => true
  | Some JNull, Some JNull => true
  | Some (JBool a), Some (JBool b) => Bool.eqb a b
  | Some (JNum a), Some (JNum b) => Qeq_bool a b
  | Some (JStr a), Some (JStr b) => bool_decide (a = b)
  | _, _ => false
  end.

(** ** Lemmas *)

Lemma get_set_eq (o : Fields) (k : jsstr) (v : Json) : get (set o k v) k = Some v.
Proof.
  induction o as [|[k' v'] o IH]; simpl; [by rewrite decide_True|].
  case_decide as Hk; simpl; [by rewrite decide_True|]. by rewrite decide_False.
Qed.

Lemma get_set_ne (o : Fields) (k k' : jsstr) (v : Json) :
  k' <> k -> get (set o k v) k' = get o k'.
Proof.
  intros Hne. induction o as [|[k1 v1] o IH]; simpl; [by rewrite decide_False|].
  case_decide as Hk; simpl.
  - subst k1. by rewrite !decide_False.
  - case_decide; [done|]. exact IH.
Qed.

Lemma get_app (f g : Fields) (k : jsstr) :
  get (f ++ g) k = match get f k with Some v => Some v | None => get g k end.
Proof.
  induction f as [|[k' v'] f IH]; simpl; [done|]. case_decide; [done|]. exact IH.
Qed.

(** After assigning a list of properties, a key has the value of its last
    assignment, or the value it had. *)
Lemma get_foldl_set (f o : Fields) (k : jsstr) :
  get (foldl (fun acc kv => set acc kv.1 kv.2) o f) k =
  match last_get f k with Some v => Some v | None => get o k end.
Proof.
  unfold last_get. revert o. induction f as [|[k' v'] f IH]; intros o; simpl; [done|].
  rewrite IH, reverse_cons, get_app. simpl.
  destruct (get (reverse f) k); [done|].
  case_decide as Hk; [subst; apply get_set_eq|by apply get_set_ne].
Qed.

Lemma get_spread (o : Fields) (v : Json) (k : jsstr) :
  get (spread o v) k = match last_get (own_props v) k with Some x => Some x | None => get o k end.
Proof. apply get_foldl_set. Qed.

Lemma get_not_in (o : Fields) (k : jsstr) : k ∉ o.*1 -> get o k = None.
Proof.
  induction o as [|[k' v'] o IH]; simpl; [done|]. rewrite elem_of_cons. intros Hk.
  rewrite decide_False by naive_solver. naive_solver.
Qed.

Lemma keys_set_elem (o : Fields) (k x : jsstr) (v : Json) :
  x ∈ (set o k v).*1 -> x ∈ o.*1 \/ x = k.
Proof.
  induction o as [|[k' v'] o IH]; simpl.
  - rewrite list_elem_of_singleton. by right.
  - case_decide; simpl; rewrite !elem_of_cons; naive_solver.
Qed.

(** Assignment and spread never duplicate a key. *)
Lemma NoDup_set (o : Fields) (k : jsstr) (v : Json) : NoDup o.*1 -> NoDup (set o k v).*1.
Proof.
  induction o as [|[k' v'] o IH]; simpl; intros Hnd.
  - by apply NoDup_singleton.
  - apply NoDup_cons in Hnd as [Hk' Hnd]. case_decide as Hk; simpl; constructor; try done.
    + intros Hin. apply keys_set_elem in Hin as [|]; done.
    + by apply IH.
Qed.

Lemma NoDup_spread (o : Fields) (v : Json) : NoDup o.*1 -> NoDup (spread o v).*1.
Proof.
  unfold spread. generalize (own_props v). intros f. revert o.
  induction f as [|kv f IH]; intros o Hnd; simpl; [done|]. apply IH. by apply NoDup_set.
Qed.

(** Assignment and spread never remove a key. *)
Lemma get_set_is_Some (o : Fields) (k k' : jsstr) (v : Json) :
  is_Some (get o k') -> is_Some (get (set o k v) k').
Proof.
  destruct (decide (k' = k)) as [->|Hne]; [by rewrite get_set_eq|by rewrite get_set_ne].
Qed.

Lemma get_spread_is_Some (o : Fields) (v : Json) (k : jsstr) :
  is_Some (get o k) -> is_Some (get (spread o v) k).
Proof. rewrite get_spread. by destruct (last_get _ k). Qed.

(** Without duplicate keys, the last assignment is the only one. *)
Lemma last_get_NoDup (f : Fields) (k : jsstr) : NoDup f.*1 -> last_get f k = get f k.
Proof.
  unfold last_get. induction f as [|[k' v'] f IH]; simpl; intros Hnd; [done|].
  apply NoDup_cons in Hnd as [Hk' Hnd]. rewrite reverse_cons, get_app, IH by done. simpl.
  case_decide as Hk; [subst k'|by destruct (get f k)].
  by rewrite get_not_in.
Qed.

(** [{ ...o }] for an object without duplicate keys reads as [o]. *)
Lemma get_spread_obj (o : Fields) (k : jsstr) : NoDup o.*1 -> get (spread [] (JObj o)) k = get o k.
Proof. intros Hnd. rewrite get_spread. simpl. rewrite last_get_NoDup by done. by destruct (get o k). Qed.

End JsObject.
