(* ===== verification/JsonCodec.v ===== *)
(** * [JSON.stringify] and [JSON.parse]

    The update helpers send [JSON.stringify(data)] to the contract and the
    query helpers read it back with [JSON.parse(trim(...))]. Both are
    built-ins of the language. [ContractCalls.v] takes them as the classes
    [JsonStringify] and [JsonParse]; this file gives them definitions, so
    that a value can be followed from an editor to the chain and back.

    [stringify] prints without whitespace, escapes the double quote, the
    backslash and the control characters as JS does, and prints integral numbers in decimal (a
    non-integral number is printed as its exact decimal expansion, cut
    after 20 digits when it does not terminate; the decimal literals the
    editors use print as written). [parse] follows the JSON grammar:
    whitespace between tokens, the number syntax with its fraction and
    exponent and no leading zero, the string escapes, and an object built
    by assigning its members in order, so a repeated key keeps its first
    place and its last value. A [\u] escape above 255 has no character in
    this model and is a parse error. The parser recurses on a fuel bounded
    by the length of its input: every call consumes a character.

    The theorems of the file are the round trip, [parse (stringify v) =
    Some (reparse v)] for every value whose objects have distinct keys
    ([keys_ok]), proved through [parse_value_stringify] for any fuel at
    least the printed length and any text that may follow a value;
    [reparse v] is [v] with each number read back from its digits, equal
    to [v] for integral numbers ([wfb]) and equal number for number
    ([json_equiv]) when the numbers are decimals of at most twenty places
    ([num_value_exact]). [stringify] writes a number by its value
    ([print_number_Qeq]: at more places an exact fraction only gains
    trailing zeros, which are dropped), so it respects [json_equiv]
    (the [Proper] instance [stringify_proper]); with it, setoid
    rewriting shows that a value read back and written again gives the
    same text ([restringify]). Then the query helpers' decoding of what
    [stringify] printed (C36) and the composition with
    [updateSupplyChain] and [getSupplyChain]: what the helper sends is
    what the query reads back ([Integration.v] carries it on to the
    editor). *)

From Stdlib Require Import QArith.
From S2P Require Import Prelude Strings Substrate ContractCalls JsObject.
Import Store ContractCalls JsObject.

Module JsonCodec.

(** ** Characters *)

Definition dquote : ascii := "034"%char.
Definition bslash : ascii := "092"%char.

Definition digit (d : nat) : ascii := ascii_of_nat (48 + d).
Definition is_digit (c : ascii) : bool := (48 <=? nat_of_ascii c) && (nat_of_ascii c <=? 57).
Definition digit_val (c : ascii) : nat := nat_of_ascii c - 48.

Definition hex_digit (d : nat) : ascii :=
  if d <? 10 then ascii_of_nat (48 + d) else ascii_of_nat (87 + d).
Definition hex_val (c : ascii) : option nat :=
  let n := nat_of_ascii c in
  if (48 <=? n) && (n <=? 57) then Some (n - 48)
  else if (97 <=? n) && (n <=? 102) then Some (n - 87)
  else if (65 <=? n) && (n <=? 70) then Some (n - 55)
  else None.

Definition is_ws (c : ascii) : bool :=
  let n := nat_of_ascii c in (n =? 32) || (n =? 9) || (n =? 10) || (n =? 13).

(** ** [JSON.stringify] *)

(** The decimal digits of a natural number. *)
Fixpoint digits_go (fuel n : nat) : jsstr :=
  match fuel with
  | O => []
  | S f => if n <? 10 then [digit n] else digits_go f (n / 10) ++ [digit (n mod 10)]
  end.
Definition digits (n : nat) : jsstr := digits_go (S n) n.

(** The text of a number: an optional sign, the digits of the integer
    part and, when there are any, a point and the digits of the fraction. *)
Definition number_text (neg : bool) (ip : nat) (fp : jsstr) : jsstr :=
  (if neg then ["-"%char] else []) ++ digits ip ++ (if decide (fp = []) then [] else "."%char :: fp).

(** The first [k <= 20] with [den] dividing [10^k], or 20. *)
Definition frac_len (den : positive) : nat :=
  from_option snd 20 (list_find (fun k => (10 ^ Z.of_nat k) mod Z.pos den = 0)%Z (seq 1 20)).

Fixpoint strip_zeros_rev (s : jsstr) : jsstr :=
  match s with "0"%char :: r => strip_zeros_rev r | _ => s end.

Definition pad_left (k : nat) (s : jsstr) : jsstr := replicate (k - length s) "0"%char ++ s.

(** The sign, the integer part and the digits of the fraction a number is
    written with: an integer whole; otherwise the fraction cut after
    [frac_len] digits, its trailing zeros dropped. *)
Definition number_parts (q : Q) : bool * nat * jsstr :=
  let neg := (Qnum q <? 0)%Z in
  if decide (Qden q = 1%positive) then (neg, Z.to_nat (Z.abs (Qnum q)), [])
  else
    let k := frac_len (Qden q) in
    let m := (Z.abs (Qnum q) * 10 ^ Z.of_nat k / Z.pos (Qden q))%Z in
    (neg, Z.to_nat (m / 10 ^ Z.of_nat k),
     reverse (strip_zeros_rev (reverse (pad_left k (digits (Z.to_nat (m mod 10 ^ Z.of_nat k))))))).

Definition print_number (q : Q) : jsstr :=
  let '(neg, ip, fp) := number_parts q in number_text neg ip fp.

(** The escape of one character inside a string literal. *)
Definition escape_char (c : ascii) : jsstr :=
  let n := nat_of_ascii c in
  if n =? 34 then [bslash; dquote]
  else if n =? 92 then [bslash; bslash]
  else if n =? 8 then [bslash; "b"%char]
  else if n =? 12 then [bslash; "f"%char]
  else if n =? 10 then [bslash; "n"%char]
  else if n =? 13 then [bslash; "r"%char]
  else if n =? 9 then [bslash; "t"%char]
  else if n <? 32 then [bslash; "u"%char; "0"%char; "0"%char; hex_digit (n / 16); hex_digit (n mod 16)]
  else [c].

Definition quote (s : jsstr) : jsstr := dquote :: flat_map escape_char s ++ [dquote].

Fixpoint join (l : list jsstr) : jsstr :=
  match l with
  | [] => []
  | [x] => x
  | x :: r => x ++ ","%char :: join r
  end.

Fixpoint stringify (v : Json) : jsstr :=
  match v with
  | JNull => js "null"
  | JBool true => js "true"
  | JBool false => js "false"
  | JNum q => print_number q
  | JStr s => quote s
  | JArr items => "["%char :: join (map stringify items) ++ ["]"%char]
  | JObj fields =>
      "{"%char :: join (map (fun '(k, x) => quote k ++ ":"%char :: stringify x) fields) ++ ["}"%char]
  end.

#[export] Instance json_stringify_instance : JsonStringify := stringify.

(** ** [JSON.parse] *)

Fixpoint skip_ws (s : jsstr) : jsstr :=
  match s with
  | c :: r => if is_ws c then skip_ws r else s
  | [] => []
  end.

Fixpoint span_digits (s : jsstr) : jsstr * jsstr :=
  match s with
  | c :: r => if is_digit c then let '(d, r') := span_digits r in (c :: d, r') else ([], s)
  | [] => ([], [])
  end.

Definition digits_value (ds : jsstr) : nat := fold_left (fun acc c => acc * 10 + digit_val c) ds 0.

Definition parse_frac (s : jsstr) : option (jsstr * jsstr) :=
  match s with
  | c :: r =>
      if bool_decide (c = "."%char) then
        let '(f, r') := span_digits r in if decide (f = []) then None else Some (f, r')
      else Some ([], s)
  | [] => Some ([], [])
  end.

Definition parse_exp (s : jsstr) : option (Z * jsstr) :=
  match s with
  | e :: r =>
      if bool_decide (e = "e"%char) || bool_decide (e = "E"%char) then
        let '(sgn, r1) := match r with
                          | c :: r1 =>
                              if bool_decide (c = "+"%char) then (1%Z, r1)
                              else if bool_decide (c = "-"%char) then ((-1)%Z, r1)
                              else (1%Z, r)
                          | [] => (1%Z, [])
                          end in
        let '(d, r2) := span_digits r1 in
        if decide (d = []) then None else Some ((sgn * Z.of_nat (digits_value d))%Z, r2)
      else Some (0%Z, s)
  | [] => Some (0%Z, [])
  end.

(** The value of [mant * 10^e] as a rational. *)
Definition scaled (neg : bool) (mant : nat) (e : Z) : Q :=
  let n := if neg then (- Z.of_nat mant)%Z else Z.of_nat mant in
  if (0 <=? e)%Z then (n * 10 ^ e # 1) else (n # Z.to_pos (10 ^ (- e))).

Definition parse_number (s : jsstr) : option (Json * jsstr) :=
  let '(neg, s1) := match s with
                    | c :: r => if bool_decide (c = "-"%char) then (true, r) else (false, s)
                    | [] => (false, [])
                    end in
  let '(ip, s2) := span_digits s1 in
  match ip with
  | [] => None
  | c :: r =>
      if bool_decide (c = "0"%char) && negb (bool_decide (r = [])) then None
      else
        '(fp, s3) ← parse_frac s2;
        '(e, s4) ← parse_exp s3;
        Some (JNum (scaled neg (digits_value (ip ++ fp)) (e - Z.of_nat (length fp))), s4)
  end.

(** The characters of a string literal after its opening quote, up to
    the closing one. *)
Fixpoint parse_string_body (s : jsstr) : option (jsstr * jsstr) :=
  match s with
  | [] => None
  | c :: r =>
      if bool_decide (c = dquote) then Some ([], r)
      else if bool_decide (c = bslash) then
        match r with
        | e :: r' =>
            let simple := fun (x : ascii) =>
              '(t, rest) ← parse_string_body r'; Some (x :: t, rest) in
            if bool_decide (e = dquote) then simple dquote
            else if bool_decide (e = bslash) then simple bslash
            else if bool_decide (e = "/"%char) then simple "/"%char
            else if bool_decide (e = "b"%char) then simple "008"%char
            else if bool_decide (e = "f"%char) then simple "012"%char
            else if bool_decide (e = "n"%char) then simple "010"%char
            else if bool_decide (e = "r"%char) then simple "013"%char
            else if bool_decide (e = "t"%char) then simple "009"%char
            else if bool_decide (e = "u"%char) then
              match r' with
              | h1 :: h2 :: h3 :: h4 :: r'' =>
                  match hex_val h1, hex_val h2, hex_val h3, hex_val h4 with
                  | Some a, Some b, Some c', Some d =>
                      let code := ((a * 16 + b) * 16 + c') * 16 + d in
                      if code <? 256 then
                        '(t, rest) ← parse_string_body r''; Some (ascii_of_nat code :: t, rest)
                      else None
                  | _, _, _, _ => None
                  end
              | _ => None
              end
            else None
        | [] => None
        end
      else if nat_of_ascii c <? 32 then None
      else '(t, rest) ← parse_string_body r; Some (c :: t, rest)
  end.

(** A keyword at the head of the input. *)
Definition keyword (w s : jsstr) : bool := bool_decide (take (length w) s = w).

Fixpoint parse_value (fuel : nat) (s : jsstr) {struct fuel} : option (Json * jsstr) :=
  match fuel with
  | O => None
  | S f =>
      let s := skip_ws s in
      match s with
      | [] => None
      | c :: r =>
          if keyword (js "null") s then Some (JNull, drop 4 s)
          else if keyword (js "true") s then Some (JBool true, drop 4 s)
          else if keyword (js "false") s then Some (JBool false, drop 5 s)
          else if bool_decide (c = "["%char) then
            let r1 := skip_ws r in
            if bool_decide (head r1 = Some "]"%char) then Some (JArr [], tail r1)
            else '(items, r') ← parse_elements f r1; Some (JArr items, r')
          else if bool_decide (c = "{"%char) then
            let r1 := skip_ws r in
            if bool_decide (head r1 = Some "}"%char) then Some (JObj [], tail r1)
            else '(ms, r') ← parse_members f r1;
                 Some (JObj (foldl (fun o kv => set o kv.1 kv.2) [] ms), r')
          else if bool_decide (c = dquote) then '(t, r') ← parse_string_body r; Some (JStr t, r')
          else parse_number s
      end
  end
with parse_elements (fuel : nat) (s : jsstr) {struct fuel} : option (list Json * jsstr) :=
  match fuel with
  | O => None
  | S f =>
      '(v, r) ← parse_value f s;
      match skip_ws r with
      | c :: r' =>
          if bool_decide (c = ","%char) then '(vs, r'') ← parse_elements f r'; Some (v :: vs, r'')
          else if bool_decide (c = "]"%char) then Some ([v], r')
          else None
      | [] => None
      end
  end
with parse_members (fuel : nat) (s : jsstr) {struct fuel} : option (Fields * jsstr) :=
  match fuel with
  | O => None
  | S f =>
      match skip_ws s with
      | c :: r =>
          if bool_decide (c = dquote) then
            '(k, r1) ← parse_string_body r;
            match skip_ws r1 with
            | c1 :: r2 =>
                if bool_decide (c1 = ":"%char) then
                  '(v, r3) ← parse_value f r2;
                  match skip_ws r3 with
                  | c3 :: r4 =>
                      if bool_decide (c3 = ","%char) then
                        '(ms, r5) ← parse_members f r4; Some ((k, v) :: ms, r5)
                      else if bool_decide (c3 = "}"%char) then Some ([(k, v)], r4)
                      else None
                  | [] => None
                  end
                else None
            | [] => None
            end
          else None
      | [] => None
      end
  end.

(** [JSON.parse(text)]: one value, then only whitespace. *)
Definition parse (s : jsstr) : option Json :=
  '(v, r) ← parse_value (S (length s)) s;
  if decide (skip_ws r = []) then Some v else None.

#[export] Instance json_parse_instance : JsonParse := parse.

(** ** Well-formed values *)

(** Integral numbers and objects without repeated keys: the values
    [JSON.stringify] then [JSON.parse] gives back unchanged. *)
Fixpoint wfb (v : Json) : bool :=
  match v with
  | JNum q => bool_decide (Qden q = 1%positive)
  | JArr items => forallb wfb items
  | JObj fields => bool_decide (NoDup fields.*1) && forallb (fun '(_, x) => wfb x) fields
  | _ => true
  end.

(** What may follow a value inside a JSON text. *)
Definition delim (rest : jsstr) : Prop :=
  match rest with
  | [] => True
  | c :: _ => c = ","%char \/ c = "]"%char \/ c = "}"%char
  end.

(** ** Digits *)

Lemma digit_facts (d : nat) : d < 10 -> is_digit (digit d) = true /\ digit_val (digit d) = d.
Proof. intros Hd. do 10 (destruct d as [|d]; [split; reflexivity|]). lia. Qed.

Lemma digit_not_zero (d : nat) : d < 10 -> digit d = "0"%char -> d = 0.
Proof.
  intros Hd Heq. apply (f_equal nat_of_ascii) in Heq. unfold digit in Heq.
  rewrite nat_ascii_embedding in Heq by lia. change (nat_of_ascii "0"%char) with 48 in Heq. lia.
Qed.

Lemma digits_value_app (l1 l2 : jsstr) :
  digits_value (l1 ++ l2) = fold_left (fun acc c => acc * 10 + digit_val c) l2 (digits_value l1).
Proof. unfold digits_value. by rewrite fold_left_app. Qed.

Lemma digits_go_ok (fuel n : nat) :
  n < fuel ->
  Forall (fun c => is_digit c = true) (digits_go fuel n) /\
  digits_value (digits_go fuel n) = n /\
  exists c r, digits_go fuel n = c :: r /\ (1 <= n -> c <> "0"%char).
Proof.
  revert n. induction fuel as [|f IH]; intros n Hn; [lia|]. cbn [digits_go].
  destruct (n <? 10) eqn:Hlt.
  - apply Nat.ltb_lt in Hlt. destruct (digit_facts n Hlt) as [Hd Hv].
    split_and!; [by constructor|by unfold digits_value; simpl; rewrite Hv|].
    exists (digit n), []. split; [done|]. intros H1 H0. apply digit_not_zero in H0; lia.
  - apply Nat.ltb_ge in Hlt.
    assert (n mod 10 < 10) as Hm by (apply Nat.mod_upper_bound; lia).
    destruct (IH (n / 10)) as (Hf & Hv & c & r & Hcr & Hc); [apply Nat.Div0.div_lt_upper_bound; lia|].
    destruct (digit_facts _ Hm) as [Hd Hdv]. split_and!.
    + apply Forall_app; split; [done|by constructor].
    + rewrite digits_value_app, Hv. cbn [fold_left]. rewrite Hdv. pose proof (Nat.div_mod_eq n 10). lia.
    + rewrite Hcr. exists c, (r ++ [digit (n mod 10)]). split; [done|].
      intros _. apply Hc. apply Nat.div_le_lower_bound; lia.
Qed.

Lemma digits_ok (n : nat) :
  Forall (fun c => is_digit c = true) (digits n) /\ digits_value (digits n) = n /\
  exists c r, digits n = c :: r /\ (1 <= n -> c <> "0"%char).
Proof. apply digits_go_ok. lia. Qed.

Lemma span_digits_app (ds rest : jsstr) :
  Forall (fun c => is_digit c = true) ds ->
  (match rest with c :: _ => is_digit c = false | [] => True end) ->
  span_digits (ds ++ rest) = (ds, rest).
Proof.
  intros Hds Hr. induction Hds as [|c ds Hc Hds IH]; simpl.
  - destruct rest as [|c rest]; [done|]. simpl. by rewrite Hr.
  - rewrite Hc, IH. done.
Qed.

Lemma delim_facts (rest : jsstr) :
  delim rest ->
  (match rest with c :: _ => is_digit c = false | [] => True end) /\
  parse_frac rest = Some ([], rest) /\ parse_exp rest = Some (0%Z, rest).
Proof. destruct rest as [|c r]; [done|]. intros [ -> | [ -> | -> ]]; done. Qed.

Lemma leading_zero_ok (ip : nat) (c : ascii) (r : jsstr) :
  digits ip = c :: r -> bool_decide (c = "0"%char) && negb (bool_decide (r = [])) = false.
Proof.
  intros Hcr. destruct (digits_ok ip) as (_ & _ & c' & r' & Hcr' & Hc). rewrite Hcr in Hcr'.
  injection Hcr' as <- <-. destruct ip as [|ip'].
  - vm_compute in Hcr. by injection Hcr as <- <-.
  - rewrite bool_decide_false; [done|]. apply Hc; lia.
Qed.

(** Such a text reads back as the number it spells, followed by anything
    that may follow a value. *)
Lemma parse_decimal (neg : bool) (ip : nat) (fp rest : jsstr) :
  Forall (fun c => is_digit c = true) fp -> delim rest ->
  parse_number (number_text neg ip fp ++ rest) =
  Some (JNum (scaled neg (digits_value (digits ip ++ fp)) (0 - Z.of_nat (length fp))), rest).
Proof.
  intros Hfp Hrest. destruct (delim_facts rest Hrest) as (Hd & Hfrac & Hexp).
  destruct (digits_ok ip) as (Hds & _ & c & r & Hcr & _).
  pose proof (leading_zero_ok ip c r Hcr) as Hlead.
  set (F := if decide (fp = []) then [] else "."%char :: fp).
  assert (span_digits (digits ip ++ F ++ rest) = (digits ip, F ++ rest)) as Hspan.
  { apply span_digits_app; [done|]. subst F. destruct (decide (fp = [])); [exact Hd|reflexivity]. }
  assert (parse_frac (F ++ rest) = Some (fp, rest)) as Hpf.
  { subst F. destruct (decide (fp = [])); [by subst|]. cbn [app parse_frac]. rewrite bool_decide_true by done.
    rewrite span_digits_app by (done || by destruct (delim_facts rest Hrest)). by rewrite decide_False. }
  assert (c <> "-"%char) as Hm.
  { intros ->. rewrite Hcr in Hds. by apply Forall_inv in Hds. }
  unfold number_text. fold F. rewrite <- !app_assoc. unfold parse_number.
  destruct neg.
  - cbn [app]. rewrite bool_decide_true by done. rewrite Hspan, Hcr. cbn iota beta.
    rewrite Hlead. cbn [negb andb]. rewrite Hpf. cbn [mbind option_bind]. rewrite Hexp.
    cbn [mbind option_bind]. by rewrite <- Hcr.
  - cbn [app]. rewrite Hcr. cbn [app]. rewrite (bool_decide_false (c = "-"%char) Hm).
    rewrite (app_comm_cons r (F ++ rest) c), <- Hcr, Hspan, Hcr. cbn iota beta.
    rewrite Hlead. cbn [negb andb]. rewrite Hpf. cbn [mbind option_bind]. rewrite Hexp.
    cbn [mbind option_bind]. reflexivity.
Qed.

Lemma strip_zeros_rev_split (s : jsstr) : exists j, s = replicate j "0"%char ++ strip_zeros_rev s.
Proof.
  induction s as [|c s IH]; [by exists 0|].
  destruct (decide (c = "0"%char)) as [->|Hc].
  - destruct IH as [j Hj]. exists (S j). cbn [strip_zeros_rev replicate app]. by rewrite <- Hj.
  - exists 0. cbn [replicate app]. symmetry.
    destruct c as [[] [] [] [] [] [] [] []]; try reflexivity. by destruct Hc.
Qed.

(** The fraction the printer writes is made of digits. *)
Lemma fraction_digits (k n : nat) :
  Forall (fun c => is_digit c = true) (reverse (strip_zeros_rev (reverse (pad_left k (digits n))))).
Proof.
  assert (Forall (fun c => is_digit c = true) (reverse (pad_left k (digits n)))) as H.
  { apply Forall_reverse. unfold pad_left. apply Forall_app. split; [|apply digits_ok].
    by apply Forall_replicate. }
  apply Forall_reverse. destruct (strip_zeros_rev_split (reverse (pad_left k (digits n)))) as [j Hj].
  rewrite Hj in H. by apply Forall_app in H as [_ H].
Qed.

Lemma number_parts_digits (q : Q) : Forall (fun c => is_digit c = true) (number_parts q).2.
Proof. unfold number_parts. case_decide; [constructor|apply fraction_digits]. Qed.

(** The number [JSON.parse] reads from the text of [q]. *)
Definition num_value (q : Q) : Q :=
  let '(neg, ip, fp) := number_parts q in
  scaled neg (digits_value (digits ip ++ fp)) (0 - Z.of_nat (length fp)).

Lemma parse_print_number (q : Q) (rest : jsstr) :
  delim rest -> parse_number (print_number q ++ rest) = Some (JNum (num_value q), rest).
Proof.
  intros Hr. pose proof (number_parts_digits q) as Hd. unfold print_number, num_value.
  destruct (number_parts q) as [[neg ip] fp]. by apply parse_decimal.
Qed.

(** An integer reads back as itself. *)
Lemma num_value_int (z : Z) : num_value (z # 1) = z # 1.
Proof.
  unfold num_value, number_parts. cbn [Qden Qnum]. rewrite decide_True by done. cbn [length].
  rewrite app_nil_r. destruct (digits_ok (Z.to_nat (Z.abs z))) as (_ & -> & _).
  unfold scaled. simpl. rewrite Z.mul_1_r. repeat f_equal. destruct (Z.ltb_spec z 0); lia.
Qed.

(** ** Decimals

    The digits the printer writes for a number that is a decimal of at
    most twenty places read back as an equal rational. *)

Lemma fold_digits (l : jsstr) (acc : nat) :
  fold_left (fun acc c => acc * 10 + digit_val c) l acc = acc * 10 ^ length l + digits_value l.
Proof.
  revert acc. induction l as [|c l IH]; intros acc; [cbn; lia|].
  cbn [fold_left length]. rewrite IH. unfold digits_value at 2. cbn [fold_left]. rewrite IH.
  rewrite Nat.pow_succ_r'. lia.
Qed.

Lemma digits_value_app_pow (l1 l2 : jsstr) :
  digits_value (l1 ++ l2) = digits_value l1 * 10 ^ length l2 + digits_value l2.
Proof. rewrite digits_value_app. apply fold_digits. Qed.

Lemma digits_value_zeros (n : nat) : digits_value (replicate n "0"%char) = 0.
Proof. induction n as [|n IH]; [done|]. change (replicate (S n) "0"%char) with ([ "0"%char] ++ replicate n "0"%char).
  rewrite digits_value_app_pow, IH. reflexivity. Qed.

Lemma digits_go_length (fuel n k : nat) :
  n < fuel -> 1 <= k -> n < 10 ^ k -> length (digits_go fuel n) <= k.
Proof.
  revert n k. induction fuel as [|f IH]; intros n k Hf Hk Hn; [lia|]. cbn [digits_go].
  destruct (n <? 10) eqn:Hlt; [cbn; lia|]. apply Nat.ltb_ge in Hlt.
  destruct k as [|k]; [lia|]. rewrite length_app. cbn [length].
  assert (n / 10 < 10 ^ k). { apply Nat.Div0.div_lt_upper_bound. rewrite Nat.pow_succ_r' in Hn. lia. }
  destruct k as [|k]; [cbn in *; lia|].
  assert (length (digits_go f (n / 10)) <= S k); [apply IH; try lia|lia].
  apply Nat.Div0.div_lt_upper_bound. lia.
Qed.

Lemma frac_len_pos (den : positive) : 1 <= frac_len den.
Proof.
  unfold frac_len. destruct (list_find _ _) as [[i k]|] eqn:E; cbn; [|lia].
  apply list_find_Some in E as (Hk & _ & _). apply lookup_seq in Hk as [-> _]. lia.
Qed.

Lemma pad_left_facts (k : nat) (s : jsstr) :
  length s <= k -> length (pad_left k s) = k /\ digits_value (pad_left k s) = digits_value s.
Proof.
  intros Hs. unfold pad_left. rewrite length_app, length_replicate, digits_value_app_pow, digits_value_zeros.
  split; lia.
Qed.

Lemma strip_trailing_zeros (s : jsstr) :
  exists j, s = reverse (strip_zeros_rev (reverse s)) ++ replicate j "0"%char.
Proof.
  set (t := reverse s). destruct (strip_zeros_rev_split t) as [j Hj]. exists j.
  transitivity (reverse t); [subst t; by rewrite reverse_involutive|].
  rewrite Hj at 1. by rewrite reverse_app, reverse_replicate.
Qed.

(** [scaled] with a non-positive exponent is a quotient by a power of ten. *)
Lemma scaled_frac (neg : bool) (mant L : nat) :
  scaled neg mant (0 - Z.of_nat L) ==
    ((if neg then - Z.of_nat mant else Z.of_nat mant) # Z.to_pos (10 ^ Z.of_nat L))%Z.
Proof.
  unfold scaled. destruct L as [|L].
  - cbn. rewrite Z.mul_1_r. reflexivity.
  - rewrite (proj2 (Z.leb_gt 0 _)) by lia. replace (- (0 - Z.of_nat (S L)))%Z with (Z.of_nat (S L)) by lia.
    reflexivity.
Qed.

(** [N * K / d] is exact when [d] divides [K]. *)
Lemma exact_quotient (N K d : Z) :
  (0 <= N)%Z -> (0 < K)%Z -> (0 < d)%Z -> (K mod d = 0)%Z ->
  (N * K / d * d = N * K)%Z /\ (0 <= N * K / d)%Z.
Proof.
  intros HN HK Hd Hm. split.
  - rewrite Z.mul_comm. symmetry. apply Z_div_exact_full_2; [lia|].
    rewrite Z.mul_mod, Hm, Z.mul_0_r by lia. reflexivity.
  - apply Z.div_pos; [apply Z.mul_nonneg_nonneg|]; lia.
Qed.

(** The scaled numerator [m = 10^L * 10^j * ip + v * 10^j] of [N/den],
    split into its integer part and a fraction ending in [j] zeros, gives
    the mantissa [ip * 10^L + v] of [N/den] over [10^L]. *)
Lemma mantissa_exact (N den ip v L j : Z) :
  (0 < den)%Z -> (0 <= j)%Z ->
  ((10 ^ L * 10 ^ j * ip + v * 10 ^ j) * den = N * (10 ^ L * 10 ^ j))%Z ->
  ((ip * 10 ^ L + v) * den = N * 10 ^ L)%Z.
Proof.
  intros Hd Hj H. assert (0 < 10 ^ j)%Z by (apply Z.pow_pos_nonneg; lia).
  apply (Z.mul_cancel_r _ _ (10 ^ j)); [lia|]. rewrite <- (Z.mul_assoc N). rewrite <- H. ring.
Qed.

(** A number whose denominator divides [10^k], [k] the length of fraction
    the printer allows, reads back as an equal rational. *)
Lemma num_value_exact (q : Q) :
  (10 ^ Z.of_nat (frac_len (Qden q)) mod Z.pos (Qden q) = 0)%Z -> num_value q == q.
Proof.
  destruct q as [num den]. cbn [Qnum Qden]. intros Hk. unfold num_value, number_parts. cbn [Qnum Qden].
  case_decide as Hd.
  - subst den. rewrite app_nil_r. destruct (digits_ok (Z.to_nat (Z.abs num))) as (_ & -> & _).
    rewrite scaled_frac. cbn [length]. unfold Qeq. cbn [Qnum Qden]. change (Z.pos (Z.to_pos (10 ^ Z.of_nat 0))) with 1%Z. destruct (Z.ltb_spec num 0); lia.
  - pose proof (frac_len_pos den) as Hk1.
    set (k := frac_len den) in *. set (K := (10 ^ Z.of_nat k)%Z) in *.
    set (N := Z.abs num). set (m := (N * K / Z.pos den)%Z).
    assert (HK : (0 < K)%Z) by (apply Z.pow_pos_nonneg; lia).
    destruct (exact_quotient N K (Z.pos den)) as [Hm Hm0]; [lia|lia|lia|exact Hk|]. fold m in Hm, Hm0.
    set (ip := (m / K)%Z). set (fr := (m mod K)%Z).
    assert (Hdm : (m = K * ip + fr)%Z) by apply Z.div_mod, Z.neq_sym, Z.lt_neq, HK.
    assert (Hfr : (0 <= fr < K)%Z) by (apply Z.mod_pos_bound, HK).
    assert (Hip : (0 <= ip)%Z) by (apply Z.div_pos; lia).
    destruct (pad_left_facts k (digits (Z.to_nat fr))) as [Hlen Hval].
    { apply digits_go_length; [lia|done|]. apply Nat2Z.inj_lt. rewrite Nat2Z.inj_pow, Z2Nat.id by lia.
      change (Z.of_nat 10) with 10%Z. exact (proj2 Hfr). }
    destruct (strip_trailing_zeros (pad_left k (digits (Z.to_nat fr)))) as [j Hj].
    set (fp := reverse (strip_zeros_rev (reverse (pad_left k (digits (Z.to_nat fr)))))) in *.
    rewrite Hj in Hlen, Hval. rewrite length_app, length_replicate in Hlen.
    rewrite digits_value_app_pow, digits_value_zeros, length_replicate in Hval.
    destruct (digits_ok (Z.to_nat fr)) as (_ & Hfrv & _). rewrite Hfrv in Hval.
    rewrite scaled_frac. rewrite digits_value_app_pow. destruct (digits_ok (Z.to_nat ip)) as (_ & -> & _).
    set (L := length fp) in *.
    assert (HKs : K = (10 ^ Z.of_nat L * 10 ^ Z.of_nat j)%Z).
    { unfold K. rewrite <- Z.pow_add_r by lia. f_equal. lia. }
    assert (HPL : (0 < 10 ^ Z.of_nat L)%Z) by (apply Z.pow_pos_nonneg; lia).
    assert (HPJ : (0 < 10 ^ Z.of_nat j)%Z) by (apply Z.pow_pos_nonneg; lia).
    assert (Hfrz : fr = (Z.of_nat (digits_value fp) * 10 ^ Z.of_nat j)%Z).
    { rewrite <- (Z2Nat.id fr) by lia. rewrite <- Hval, Nat.add_0_r, Nat2Z.inj_mul, Nat2Z.inj_pow. done. }
    rewrite Hfrz in Hdm.
    assert (Hmd : (Z.of_nat (Z.to_nat ip * 10 ^ L + digits_value fp) * Z.pos den = N * 10 ^ Z.of_nat L)%Z).
    { rewrite Nat2Z.inj_add, Nat2Z.inj_mul, Nat2Z.inj_pow, Z2Nat.id by lia.
      apply (mantissa_exact _ _ _ _ _ (Z.of_nat j)); [lia|lia|].
      rewrite <- HKs, <- Hdm. exact Hm. }
    unfold Qeq. cbn [Qnum Qden]. rewrite Z2Pos.id by lia.
    unfold N in Hmd. destruct (Z.ltb_spec num 0); lia.
Qed.

(** ** Strings *)

(** Each escape reads back as its character. *)
Lemma parse_escape_char (c : ascii) (r : jsstr) :
  parse_string_body (escape_char c ++ r) = ('(t, rest) ← parse_string_body r; Some (c :: t, rest)).
Proof. destruct c as [[] [] [] [] [] [] [] []]; reflexivity. Qed.

Lemma parse_quoted (s rest : jsstr) :
  parse_string_body (flat_map escape_char s ++ dquote :: rest) = Some (s, rest).
Proof.
  induction s as [|c s IH]; [reflexivity|]. cbn [flat_map].
  rewrite <- app_assoc, parse_escape_char, IH. reflexivity.
Qed.

(** ** The round trip *)

(** Induction on JSON values, with the hypothesis on every item and
    member. *)
Lemma Json_nested_ind (P : Json -> Prop) :
  P JNull -> (forall b, P (JBool b)) -> (forall q, P (JNum q)) -> (forall s, P (JStr s)) ->
  (forall items, Forall P items -> P (JArr items)) ->
  (forall fields, Forall (fun kv => P kv.2) fields -> P (JObj fields)) ->
  forall v, P v.
Proof.
  intros Hn Hb Hq Hs Ha Ho. fix IH 1. intros [|b|q|s|items|fields].
  - exact Hn.
  - apply Hb.
  - apply Hq.
  - apply Hs.
  - apply Ha. induction items as [|x items IHi]; constructor; [apply IH|exact IHi].
  - apply Ho. induction fields as [|[k x] fields IHf]; constructor; [apply IH|exact IHf].
Qed.

(** The characters a number starts with lead [parse_value] to
    [parse_number]. *)
Lemma parse_value_number (f : nat) (c : ascii) (r : jsstr) :
  is_digit c = true \/ c = "-"%char -> parse_value (S f) (c :: r) = parse_number (c :: r).
Proof. intros Hc. destruct c as [[] [] [] [] [] [] [] []]; try (destruct Hc as [Hc|Hc]; discriminate); reflexivity. Qed.

Lemma number_text_head (neg : bool) (ip : nat) (fp : jsstr) :
  exists c r, number_text neg ip fp = c :: r /\ (is_digit c = true \/ c = "-"%char).
Proof.
  unfold number_text. destruct neg; [by eexists _, _; split; [reflexivity|right]|].
  destruct (digits_ok ip) as (Hds & _ & c & r & Hcr & _). rewrite Hcr in Hds |- *.
  eexists c, _. split; [reflexivity|left]. by apply Forall_inv in Hds.
Qed.

Lemma print_number_head (q : Q) :
  exists c r, print_number q = c :: r /\ (is_digit c = true \/ c = "-"%char).
Proof. unfold print_number. destruct (number_parts q) as [[neg ip] fp]. apply number_text_head. Qed.

Lemma number_head_plain (c : ascii) :
  is_digit c = true \/ c = "-"%char -> is_ws c = false /\ c <> "]"%char /\ c <> "}"%char.
Proof. intros Hc. destruct c as [[] [] [] [] [] [] [] []]; try (destruct Hc as [Hc|Hc]; discriminate); done. Qed.

(** The text of a value starts with a character that is neither
    whitespace nor a closing bracket. *)
Lemma stringify_head (v : Json) :
  exists c r, stringify v = c :: r /\ is_ws c = false /\ c <> "]"%char /\ c <> "}"%char.
Proof.
  destruct v as [|[]|q|s|items|fields]; try by eexists _, _.
  destruct (print_number_head q) as (c & r & Hcr & Hc). exists c, r.
  split; [exact Hcr|]. by apply number_head_plain.
Qed.

Lemma skip_ws_plain (c : ascii) (r : jsstr) : is_ws c = false -> skip_ws (c :: r) = c :: r.
Proof. simpl. by intros ->. Qed.

Lemma set_fresh (o : Fields) (k : jsstr) (v : Json) : k ∉ o.*1 -> set o k v = o ++ [(k, v)].
Proof.
  induction o as [|[k' v'] o IH]; simpl; [done|]. rewrite elem_of_cons. intros Hk.
  rewrite decide_False by naive_solver. f_equal. apply IH. naive_solver.
Qed.

(** Assigning members with distinct keys appends them. *)
Lemma foldl_set_fresh (acc fields : Fields) :
  NoDup (acc.*1 ++ fields.*1) -> foldl (fun o kv => set o kv.1 kv.2) acc fields = acc ++ fields.
Proof.
  revert acc. induction fields as [|[k v] fields IH]; intros acc Hnd; simpl; [by rewrite app_nil_r|].
  rewrite set_fresh.
  - rewrite IH, <- app_assoc; [done|]. by rewrite fmap_app, <- app_assoc.
  - intros Hin. apply NoDup_app in Hnd as (_ & Hdis & _). apply (Hdis k); [done|by left].
Qed.

Definition member_text (kv : jsstr * Json) : jsstr :=
  let '(k, x) := kv in quote k ++ ":"%char :: stringify x.

Lemma member_text_app (k : jsstr) (x : Json) (tail : jsstr) :
  member_text (k, x) ++ tail = dquote :: flat_map escape_char k ++ dquote :: ":"%char :: stringify x ++ tail.
Proof. unfold member_text, quote. simpl. by rewrite <- !app_assoc. Qed.

(** The value [JSON.parse] reads back from the text of a value: the
    same value, with each number as the parser reads its printed digits. *)
Fixpoint reparse (v : Json) : Json :=
  match v with
  | JNum q => JNum (num_value q)
  | JArr items => JArr (map reparse items)
  | JObj fields => JObj (map (fun '(k, x) => (k, reparse x)) fields)
  | _ => v
  end.

(** Objects without repeated keys, at every depth. *)
Fixpoint keys_ok (v : Json) : bool :=
  match v with
  | JArr items => forallb keys_ok items
  | JObj fields => bool_decide (NoDup fields.*1) && forallb (fun '(_, x) => keys_ok x) fields
  | _ => true
  end.

(** [x] is printed as a text [parse_value] reads back as [y], whatever
    may follow it. *)
Definition parses_as (x y : Json) : Prop :=
  forall fuel rest, length (stringify x) <= fuel -> delim rest ->
  parse_value fuel (stringify x ++ rest) = Some (y, rest).

Lemma parse_elements_join (g : Json -> Json) (items : list Json) (fuel : nat) (rest : jsstr) :
  Forall (fun x => parses_as x (g x)) items -> items <> [] -> length (join (map stringify items)) < fuel ->
  parse_elements fuel (join (map stringify items) ++ "]"%char :: rest) = Some (map g items, rest).
Proof.
  intros Hall. revert fuel. induction Hall as [|x items Hx Hall IH]; intros fuel Hne Hlen; [done|].
  destruct fuel as [|f]; [lia|]. destruct items as [|y items].
  - cbn [map join] in *. cbn [parse_elements]. rewrite Hx by (lia || (simpl; auto)). done.
  - cbn [map join] in *. rewrite <- app_assoc. cbn [app]. cbn [parse_elements].
    rewrite length_app in Hlen. cbn [length] in Hlen.
    rewrite Hx by (lia || (simpl; auto)). cbn [mbind option_bind skip_ws]. simpl.
    rewrite IH by (done || lia). done.
Qed.

Lemma parse_members_join (g : Json -> Json) (fields : Fields) (fuel : nat) (rest : jsstr) :
  Forall (fun kv => parses_as kv.2 (g kv.2)) fields -> fields <> [] ->
  length (join (map member_text fields)) < fuel ->
  parse_members fuel (join (map member_text fields) ++ "}"%char :: rest) =
    Some (map (fun '(k, x) => (k, g x)) fields, rest).
Proof.
  intros Hall. revert fuel. induction Hall as [|[k x] fields Hx Hall IH]; intros fuel Hne Hlen; [done|].
  destruct fuel as [|f]; [lia|]. cbn [snd] in Hx.
  assert (length (stringify x) < length (member_text (k, x))) as Hlx.
  { unfold member_text. rewrite length_app. simpl. lia. }
  destruct fields as [|kv fields].
  - cbn [map join] in *. rewrite member_text_app. cbn [parse_members skip_ws].
    simpl. rewrite parse_quoted. simpl. rewrite Hx by (lia || (simpl; auto)). done.
  - cbn [map join] in *. rewrite <- app_assoc. cbn [app]. rewrite member_text_app.
    rewrite length_app in Hlen. cbn [length] in Hlen.
    cbn [parse_members skip_ws]. simpl. rewrite parse_quoted. simpl.
    rewrite Hx by (lia || (simpl; auto)). simpl. rewrite IH by (done || lia). done.
Qed.

Lemma parse_value_open_arr (f : nat) (r : jsstr) :
  parse_value (S f) ("["%char :: r) =
  let r1 := skip_ws r in
  if bool_decide (head r1 = Some "]"%char) then Some (JArr [], tail r1)
  else '(items, r') ← parse_elements f r1; Some (JArr items, r').
Proof. reflexivity. Qed.

Lemma parse_value_open_obj (f : nat) (r : jsstr) :
  parse_value (S f) ("{"%char :: r) =
  let r1 := skip_ws r in
  if bool_decide (head r1 = Some "}"%char) then Some (JObj [], tail r1)
  else '(ms, r') ← parse_members f r1; Some (JObj (foldl (fun o kv => set o kv.1 kv.2) [] ms), r').
Proof. reflexivity. Qed.

Lemma parse_value_quote (f : nat) (r : jsstr) :
  parse_value (S f) (dquote :: r) = '(t, r') ← parse_string_body r; Some (JStr t, r').
Proof. reflexivity. Qed.

Lemma join_cons_head (c : ascii) (r : jsstr) (l : list jsstr) : exists t, join ((c :: r) :: l) = c :: t.
Proof. destruct l; simpl; eauto. Qed.

(** The text after an opening bracket, when the array or object is not
    empty, starts with what the first element starts with. *)
Lemma open_nonempty (J tail : jsstr) (c close : ascii) :
  (exists t, J = c :: t) -> is_ws c = false -> c <> close ->
  skip_ws (J ++ tail) = J ++ tail /\ bool_decide (head (J ++ tail) = Some close) = false.
Proof.
  intros [t ->] Hws Hc. cbn [app]. rewrite skip_ws_plain by done.
  split; [done|]. apply bool_decide_false. simpl. congruence.
Qed.

Lemma forallb_Forall {A} (f : A -> bool) (l : list A) : forallb f l = true -> Forall (fun x => f x = true) l.
Proof. intros H. apply Forall_forall. intros x Hx. apply list_elem_of_In in Hx. by eapply forallb_forall in H. Qed.

Lemma Forall_mp {A} (P Q : A -> Prop) (l : list A) :
  Forall (fun x => P x -> Q x) l -> Forall P l -> Forall Q l.
Proof. induction 1; inversion 1; constructor; auto. Qed.

Lemma reparse_keys (fields : Fields) : (map (fun '(k, x) => (k, reparse x)) fields).*1 = fields.*1.
Proof. induction fields as [|[k x] fields IH]; [done|]. cbn. by f_equal. Qed.

(** [JSON.parse] reads back what [JSON.stringify] printed for every value
    without repeated keys, followed by anything that may follow a value:
    the same value, numbers as the parser reads their digits. *)
Lemma parse_value_stringify (v : Json) : keys_ok v = true -> parses_as v (reparse v).
Proof.
  induction v as [| [] | q | s | items IH | fields IH] using Json_nested_ind;
    intros Hwf fuel rest Hlen Hrest;
    (destruct fuel as [|f];
      [exfalso; match type of Hlen with
                | length (stringify ?w) <= 0 =>
                    destruct (stringify_head w) as (? & ? & Hh & _); rewrite Hh in Hlen; simpl in Hlen; lia
                end|]).
  - reflexivity.
  - reflexivity.
  - reflexivity.
  - destruct (print_number_head q) as (c & r & Hcr & Hc). cbn [stringify reparse] in *.
    rewrite Hcr. cbn [app]. rewrite parse_value_number by done.
    rewrite app_comm_cons, <- Hcr. by apply parse_print_number.
  - cbn [stringify] in *. unfold quote. cbn [app]. rewrite <- app_assoc. cbn [app].
    rewrite parse_value_quote, parse_quoted. done.
  - cbn [stringify reparse] in *. cbn [app]. rewrite <- app_assoc. cbn [app]. rewrite parse_value_open_arr; cbv zeta.
    simpl in Hwf. apply forallb_Forall in Hwf. destruct items as [|x items']; [done|].
    destruct (stringify_head x) as (c & r & Hcr & Hws & Hc & _).
    destruct (open_nonempty (join (map stringify (x :: items'))) ("]"%char :: rest) c "]"%char)
      as [-> ->]; [rewrite map_cons, Hcr; apply join_cons_head|done|done|].
    rewrite (parse_elements_join reparse); [done|by apply (Forall_mp _ _ _ IH)|done|].
    cbn [length] in Hlen. rewrite length_app in Hlen. cbn [length] in Hlen. lia.
  - cbn [stringify reparse] in *.
    change (map (fun '(k, x) => quote k ++ ":"%char :: stringify x) fields) with (map member_text fields) in *.
    cbn [app]. rewrite <- app_assoc. cbn [app]. rewrite parse_value_open_obj; cbv zeta.
    simpl in Hwf. apply andb_prop in Hwf as [Hnd Hwf]. apply bool_decide_eq_true in Hnd.
    apply forallb_Forall in Hwf. destruct fields as [|[k x] fields']; [done|].
    destruct (open_nonempty (join (map member_text ((k, x) :: fields'))) ("}"%char :: rest) dquote "}"%char)
      as [-> ->]; [apply join_cons_head|done|done|].
    rewrite (parse_members_join reparse); [|apply (Forall_mp _ _ _ IH)|done|].
    + cbn [mbind option_bind]. rewrite foldl_set_fresh; [done|]. cbn [fmap list_fmap app].
      by rewrite reparse_keys.
    + eapply Forall_impl; [exact Hwf|]. by intros [? ?].
    + cbn [length] in Hlen. rewrite length_app in Hlen. cbn [length] in Hlen. lia.
Qed.

(** [JSON.parse(JSON.stringify(v))] for every value without repeated keys. *)
Lemma parse_stringify_reparse (v : Json) : keys_ok v = true -> parse (stringify v) = Some (reparse v).
Proof.
  intros Hwf. unfold parse.
  pose proof (parse_value_stringify v Hwf (S (length (stringify v))) [] ltac:(lia) I) as H.
  rewrite app_nil_r in H. by rewrite H.
Qed.

(** A well-formed value (integral numbers, no repeated keys) reads back
    unchanged. *)
Lemma wfb_reparse (v : Json) : wfb v = true -> keys_ok v = true /\ reparse v = v.
Proof.
  induction v as [| [] | [z d] | s | items IH | fields IH] using Json_nested_ind; intros Hwf; try done.
  - cbn in Hwf. apply bool_decide_eq_true in Hwf. cbn in Hwf. subst d. split; [done|].
    cbn [reparse]. by rewrite num_value_int.
  - cbn in Hwf. apply forallb_Forall in Hwf. pose proof (Forall_mp _ _ _ IH Hwf) as H.
    cbn [keys_ok reparse]. split.
    + apply forallb_forall. intros x Hx. apply list_elem_of_In in Hx.
      rewrite Forall_forall in H. by destruct (H x Hx).
    + f_equal. clear IH Hwf. induction H as [|x items [_ Hx] _ IHi]; [done|]. cbn [map].
      by rewrite Hx, IHi.
  - cbn in Hwf. apply andb_prop in Hwf as [Hnd Hwf]. apply forallb_Forall in Hwf.
    assert (Forall (fun kv => keys_ok kv.2 = true /\ reparse kv.2 = kv.2) fields) as H.
    { apply (Forall_mp _ _ _ IH). eapply Forall_impl; [exact Hwf|]. by intros [? ?]. }
    cbn [keys_ok reparse]. split.
    + rewrite Hnd. cbn. apply forallb_forall. intros [k x] Hx. apply list_elem_of_In in Hx.
      rewrite Forall_forall in H. by destruct (H (k, x) Hx).
    + f_equal. clear IH Hwf Hnd. induction H as [|[k x] fields [_ Hx] _ IHi]; [done|].
      cbn [map snd] in *. by rewrite Hx, IHi.
Qed.

(** [JSON.parse(JSON.stringify(v))] gives [v] back for every well-formed
    value (integral numbers, objects without duplicate keys). *)
Lemma parse_stringify (v : Json) : wfb v = true -> parse (stringify v) = Some v.
Proof.
  intros Hwf. destruct (wfb_reparse v Hwf) as [Hk Hr]. rewrite <- Hr at 2.
  by apply parse_stringify_reparse.
Qed.

(** ** Values equal number for number *)

(** The value with every number in lowest terms. *)
Fixpoint norm (v : Json) : Json :=
  match v with
  | JNum q => JNum (Qred q)
  | JArr items => JArr (map norm items)
  | JObj fields => JObj (map (fun '(k, x) => (k, norm x)) fields)
  | _ => v
  end.

(** Two values that differ only in how their numbers are written. *)
Definition json_equiv (a b : Json) : Prop := norm a = norm b.

#[export] Instance json_equiv_equivalence : Equivalence json_equiv.
Proof. unfold json_equiv. split; [done|by intros ???|intros ??? H1 H2; congruence]. Qed.

(** ** [JSON.stringify] depends on the values of the numbers only *)

Lemma digits_go_fuel (f1 f2 n : nat) : n < f1 -> n < f2 -> digits_go f1 n = digits_go f2 n.
Proof.
  revert f2 n. induction f1 as [|f1 IH]; intros [|f2] n H1 H2; try lia. cbn [digits_go].
  destruct (n <? 10) eqn:Hn; [done|]. apply Nat.ltb_ge in Hn.
  rewrite (IH f2); [done| |]; apply Nat.Div0.div_lt_upper_bound; lia.
Qed.

Lemma digits_go_S (f n : nat) :
  digits_go (S f) n = if n <? 10 then [digit n] else digits_go f (n / 10) ++ [digit (n mod 10)].
Proof. reflexivity. Qed.

Lemma digits_mul10 (n : nat) : 0 < n -> digits (n * 10) = digits n ++ ["0"%char].
Proof.
  intros Hn. unfold digits at 1. rewrite digits_go_S.
  rewrite (proj2 (Nat.ltb_ge _ _)) by lia. rewrite Nat.div_mul, Nat.Div0.mod_mul by lia.
  f_equal. apply digits_go_fuel; lia.
Qed.

(** Appending [j] zeros to a positive number appends them to its digits. *)
Lemma digits_shift (n j : nat) : 0 < n -> digits (n * 10 ^ j) = digits n ++ replicate j "0"%char.
Proof.
  intros Hn. induction j as [|j IH]; [by rewrite Nat.mul_1_r, app_nil_r|].
  assert (0 < 10 ^ j) by (apply Nat.neq_0_lt_0, Nat.pow_nonzero; lia).
  replace (n * 10 ^ S j) with (n * 10 ^ j * 10) by (rewrite Nat.pow_succ_r'; lia).
  rewrite digits_mul10 by nia. by rewrite IH, replicate_S_end, app_assoc.
Qed.

Lemma strip_zeros_rev_replicate (j : nat) (s : jsstr) :
  strip_zeros_rev (replicate j "0"%char ++ s) = strip_zeros_rev s.
Proof. induction j as [|j IH]; [done|]. exact IH. Qed.

Lemma pad_left_shift (k j : nat) (s : jsstr) :
  length s <= k -> pad_left (k + j) (s ++ replicate j "0"%char) = pad_left k s ++ replicate j "0"%char.
Proof.
  intros Hs. unfold pad_left. rewrite length_app, length_replicate, app_assoc.
  by replace (k + j - (length s + j)) with (k - length s) by lia.
Qed.

(** The fraction digits of [0], at any number of places, are none. *)
Lemma frac_text_zero (k : nat) : reverse (strip_zeros_rev (reverse (pad_left k (digits 0)))) = [].
Proof.
  unfold pad_left. change (digits 0) with ["0"%char].
  rewrite reverse_app, reverse_replicate.
  change (reverse ["0"%char] ++ replicate (k - length ["0"%char]) "0"%char)
    with (replicate (S (k - 1)) "0"%char).
  by rewrite <- (app_nil_r (replicate _ _)), strip_zeros_rev_replicate.
Qed.

(** The fraction digits at [k + j] places of a fraction exact at [k]
    places are those at [k] places: the [j] more are zeros, dropped. *)
Lemma frac_text_shift (k j F : nat) :
  F < 10 ^ k ->
  reverse (strip_zeros_rev (reverse (pad_left (k + j) (digits (F * 10 ^ j))))) =
  reverse (strip_zeros_rev (reverse (pad_left k (digits F)))).
Proof.
  intros HF. destruct (decide (F = 0)) as [->|HF0]; [by rewrite Nat.mul_0_l, !frac_text_zero|].
  rewrite digits_shift by lia. rewrite pad_left_shift.
  - by rewrite reverse_app, reverse_replicate, strip_zeros_rev_replicate.
  - unfold digits. destruct k as [|k]; [cbn in HF; lia|]. apply digits_go_length; lia.
Qed.

(** The fraction branch of [number_parts] at [k] places, for the
    absolute value [a] of the numerator and the denominator [d]. *)
Definition parts_at (neg : bool) (a : Z) (d : positive) (k : nat) : bool * nat * jsstr :=
  let m := (a * 10 ^ Z.of_nat k / Z.pos d)%Z in
  (neg, Z.to_nat (m / 10 ^ Z.of_nat k),
   reverse (strip_zeros_rev (reverse (pad_left k (digits (Z.to_nat (m mod 10 ^ Z.of_nat k))))))).

(** The places [number_parts] writes: none for an integer denominator. *)
Definition places (q : Q) : nat := if decide (Qden q = 1%positive) then 0 else frac_len (Qden q).

Lemma number_parts_at (q : Q) :
  number_parts q = parts_at (Qnum q <? 0)%Z (Z.abs (Qnum q)) (Qden q) (places q).
Proof.
  unfold number_parts, parts_at, places. case_decide as Hd; [|reflexivity].
  rewrite Hd. change (10 ^ Z.of_nat 0)%Z with 1%Z.
  rewrite Z.mul_1_r, !Z.div_1_r, Z.mod_1_r. change (Z.to_nat 0) with 0. by rewrite frac_text_zero.
Qed.

(** Two fractions of the same value, at the same places. *)
Lemma parts_at_ratio (neg : bool) (a1 a2 : Z) (d1 d2 : positive) (k : nat) :
  (a1 * Z.pos d2 = a2 * Z.pos d1)%Z -> parts_at neg a1 d1 k = parts_at neg a2 d2 k.
Proof.
  intros H. unfold parts_at.
  assert (a1 * 10 ^ Z.of_nat k / Z.pos d1 = a2 * 10 ^ Z.of_nat k / Z.pos d2)%Z as ->; [|done].
  rewrite <- (Z.div_mul_cancel_r (a1 * _) (Z.pos d1) (Z.pos d2)) by lia.
  rewrite <- (Z.div_mul_cancel_r (a2 * _) (Z.pos d2) (Z.pos d1)) by lia.
  f_equal; [|lia]. transitivity ((a1 * Z.pos d2) * 10 ^ Z.of_nat k)%Z; [ring|]. rewrite H. ring.
Qed.

(** A fraction exact at [k] places is written the same at [k + j]. *)
Lemma parts_at_shift (neg : bool) (a : Z) (d : positive) (k j : nat) :
  (0 <= a)%Z -> ((a * 10 ^ Z.of_nat k) mod Z.pos d = 0)%Z ->
  parts_at neg a d (k + j) = parts_at neg a d k.
Proof.
  intros Ha Hm. unfold parts_at.
  assert (0 < 10 ^ Z.of_nat k)%Z by (apply Z.pow_pos_nonneg; lia).
  assert (0 < 10 ^ Z.of_nat j)%Z by (apply Z.pow_pos_nonneg; lia).
  set (M := (a * 10 ^ Z.of_nat k / Z.pos d)%Z).
  assert (a * 10 ^ Z.of_nat (k + j) / Z.pos d = M * 10 ^ Z.of_nat j)%Z as ->.
  { rewrite Nat2Z.inj_add, Z.pow_add_r, Z.mul_assoc, (Z.mul_comm _ (10 ^ Z.of_nat j)) by lia.
    subst M. rewrite Z.divide_div_mul_exact by (try apply Z.mod_divide; lia). ring. }
  rewrite Nat2Z.inj_add, Z.pow_add_r by lia.
  rewrite Z.div_mul_cancel_r, Z.mul_mod_distr_r by lia. f_equal.
  assert (0 <= M mod 10 ^ Z.of_nat k < 10 ^ Z.of_nat k)%Z by (apply Z.mod_pos_bound; lia).
  rewrite Z2Nat.inj_mul by lia.
  replace (Z.to_nat (10 ^ Z.of_nat j)) with (10 ^ j) by (rewrite <- (Nat2Z.id (10 ^ j)), Nat2Z.inj_pow; reflexivity).
  apply frac_text_shift. apply Nat2Z.inj_lt. rewrite Nat2Z.inj_pow, Z2Nat.id by lia. lia.
Qed.

Lemma frac_len_facts (d : positive) :
  frac_len d <= 20 /\ (frac_len d < 20 -> ((10 ^ Z.of_nat (frac_len d)) mod Z.pos d = 0)%Z).
Proof.
  unfold frac_len. destruct (list_find _ _) as [[i k]|] eqn:E; cbn; [|lia].
  apply list_find_Some in E as (Hk & Hp & _). apply lookup_seq in Hk as [-> Hi]. split; [lia|done].
Qed.

(** Fewer than twenty places are exact. *)
Lemma places_exact (q : Q) :
  places q <= 20 /\
  (places q < 20 -> ((Z.abs (Qnum q) * 10 ^ Z.of_nat (places q)) mod Z.pos (Qden q) = 0)%Z).
Proof.
  unfold places. case_decide as Hd; [rewrite Hd; split; [lia|intros _; apply Z.mod_1_r]|].
  destruct (frac_len_facts (Qden q)) as [Hle Hex]. split; [done|]. intros Hlt.
  apply Z.mod_divide; [lia|]. apply Z.divide_mul_r, Z.mod_divide; [lia|auto].
Qed.

Lemma number_parts_le (q1 q2 : Q) :
  q1 == q2 -> places q1 <= places q2 -> number_parts q1 = number_parts q2.
Proof.
  intros Hq Hle. rewrite !number_parts_at. unfold Qeq in Hq.
  pose proof (Pos2Z.is_pos (Qden q1)). pose proof (Pos2Z.is_pos (Qden q2)).
  assert ((Qnum q1 <? 0) = (Qnum q2 <? 0))%Z as ->.
  { destruct (Z.ltb_spec (Qnum q1) 0), (Z.ltb_spec (Qnum q2) 0); try done; nia. }
  assert (Z.abs (Qnum q1) * Z.pos (Qden q2) = Z.abs (Qnum q2) * Z.pos (Qden q1))%Z as Habs.
  { change (Z.pos (Qden q2)) with (Z.abs (Z.pos (Qden q2))).
    change (Z.pos (Qden q1)) with (Z.abs (Z.pos (Qden q1))). by rewrite <- !Z.abs_mul, Hq. }
  destruct (decide (places q1 = places q2)) as [<-|Hne]; [by apply parts_at_ratio|].
  destruct (places_exact q1) as [_ Hex], (places_exact q2) as [H20 _].
  replace (places q2) with (places q1 + (places q2 - places q1)) by lia.
  rewrite <- (parts_at_ratio _ _ _ _ _ _ Habs). symmetry. apply parts_at_shift; [lia|]. apply Hex. lia.
Qed.

(** [JSON.stringify] writes a number by its value. *)
Lemma print_number_Qeq (q1 q2 : Q) : q1 == q2 -> print_number q1 = print_number q2.
Proof.
  intros Hq. unfold print_number.
  destruct (Nat.le_ge_cases (places q1) (places q2)).
  - by rewrite (number_parts_le q1 q2).
  - rewrite (number_parts_le q2 q1); [done|by symmetry|done].
Qed.

(** [JSON.stringify] of a value with its numbers in lowest terms. *)
Lemma stringify_norm (v : Json) : stringify (norm v) = stringify v.
Proof.
  induction v as [| | q | | items IH | fields IH] using Json_nested_ind; try reflexivity.
  - apply print_number_Qeq, Qred_correct.
  - cbn. rewrite map_map. by erewrite map_ext_Forall.
  - cbn. rewrite map_map. erewrite map_ext_Forall; [done|].
    eapply Forall_impl; [exact IH|]. intros [k x] Hx. cbn in *. by rewrite Hx.
Qed.

(** Values equal number for number are written alike. *)
#[export] Instance stringify_proper : Proper (json_equiv ==> eq) stringify.
Proof. intros a b Hab. unfold json_equiv in Hab. by rewrite <- (stringify_norm a), <- (stringify_norm b), Hab. Qed.

(** Every number is an integer or a decimal of at most twenty places. *)
Fixpoint exact_numbers (v : Json) : bool :=
  match v with
  | JNum q => bool_decide ((10 ^ Z.of_nat (frac_len (Qden q))) mod Z.pos (Qden q) = 0)%Z
  | JArr items => forallb exact_numbers items
  | JObj fields => forallb (fun '(_, x) => exact_numbers x) fields
  | _ => true
  end.

(** Reading back a value whose numbers are exact decimals changes none of
    them. *)
Lemma reparse_equiv (v : Json) : exact_numbers v = true -> json_equiv (reparse v) v.
Proof.
  unfold json_equiv.
  induction v as [| b | q | s | items IH | fields IH] using Json_nested_ind; intros He; try done.
  - cbn in *. apply bool_decide_eq_true in He. f_equal. apply Qred_complete, num_value_exact, He.
  - cbn in *. apply forallb_Forall in He. pose proof (Forall_mp _ _ _ IH He) as H. clear IH He.
    f_equal. rewrite map_map. induction H as [|x items Hx _ IHi]; [done|]. cbn. by rewrite Hx, IHi.
  - cbn in *. apply forallb_Forall in He.
    assert (Forall (fun kv => norm (reparse kv.2) = norm kv.2) fields) as H.
    { apply (Forall_mp _ _ _ IH). eapply Forall_impl; [exact He|]. by intros [? ?]. }
    clear IH He. f_equal. rewrite map_map.
    induction H as [|[k x] fields Hx _ IHi]; [done|]. cbn in *. by rewrite Hx, IHi.
Qed.

(** Writing again a value read back from its text gives the same text:
    [JSON.stringify (JSON.parse (JSON.stringify v)) = JSON.stringify v]
    for a value with distinct keys whose numbers are exact decimals. *)
Lemma restringify (v : Json) :
  keys_ok v = true -> exact_numbers v = true ->
  exists w, parse (stringify v) = Some w /\ stringify w = stringify v.
Proof.
  intros Hk He. exists (reparse v). split; [by apply parse_stringify_reparse|].
  by rewrite (reparse_equiv v He).
Qed.

(** The text a query decodes once it is framed: [trim] cuts a whole
    printed array or object out of bytes without opening brackets before
    it and without its closing bracket after it. *)
Lemma trim_container (v : Json) (p q : jsstr) :
  Forall (fun x => Trim.is_open x = false) p ->
  (exists items, v = JArr items /\ Forall (fun x => x <> "]"%char) q) \/
  (exists fields, v = JObj fields /\ Forall (fun x => x <> "}"%char) q) ->
  Trim.trim (p ++ stringify v ++ q) = stringify v.
Proof.
  intros Hp [[items [-> Hq]]|[fields [-> Hq]]]; cbn [stringify app]; rewrite <- app_assoc; cbn [app].
  - by apply (Trim.trim_bracketed p _ q "["%char).
  - by apply (Trim.trim_bracketed p _ q "{"%char).
Qed.

(** An output cut right after its opening bracket is kept as that
    bracket, which [JSON.parse] rejects. *)
Lemma trim_truncated (p : jsstr) :
  Forall (fun x => Trim.is_open x = false /\ x <> "]"%char) p ->
  Trim.trim (p ++ ["["%char]) = ["["%char].
Proof.
  intros Hp. apply Trim.trim_open_unclosed; [|done|].
  - eapply Forall_impl; [exact Hp|]. by intros x [? _].
  - intros m _ Hm. apply lookup_app_Some in Hm as [Hm|[_ Hm]].
    + eapply Forall_lookup_1 in Hm; [|exact Hp]. naive_solver.
    + destruct (m - length p) as [|[]]; simpl in Hm; by simplify_eq.
Qed.

(** C36: the query helpers decode what the update helpers encode: the
    bytes of [JSON.stringify(v)], for an array or object [v] without
    repeated keys, framed by bytes without opening brackets before it and
    without its closing bracket after it, go through [u8aToString],
    [trim] and [JSON.parse] to the value the parser reads from the
    printed digits ([reparse v]); when every number of [v] is an integer
    or a decimal of at most twenty places, that value equals [v] number
    for number. An output cut right after its opening bracket decodes to
    the helper's fallback. *)
Theorem decode_stringify (dflt v : Json) (p q : jsstr) :
  keys_ok v = true -> Forall (fun x => Trim.is_open x = false /\ x <> "]"%char) p ->
  (exists items, v = JArr items /\ Forall (fun x => x <> "]"%char) q) \/
  (exists fields, v = JObj fields /\ Forall (fun x => x <> "}"%char) q) ->
  decode_json dflt (map byte_of_ascii (p ++ stringify v ++ q)) = reparse v /\
  (exact_numbers v = true -> json_equiv (reparse v) v) /\
  decode_json dflt (map byte_of_ascii (p ++ ["["%char])) = dflt.
Proof.
  intros Hk Hp Hc. assert (Forall (fun x => Trim.is_open x = false) p) as Hp'
    by (eapply Forall_impl; [exact Hp|]; by intros x [? _]).
  split_and!; [|apply reparse_equiv|].
  - unfold decode_json. rewrite u8aToString_bytes, trim_container by done.
    rewrite decide_False by (destruct p, Hc as [[? [-> _]]|[? [-> _]]]; discriminate).
    unfold json_parse, json_parse_instance. by rewrite parse_stringify_reparse.
  - unfold decode_json. rewrite u8aToString_bytes, trim_truncated by done.
    rewrite decide_False by (destruct p; discriminate). reflexivity.
Qed.

(** A supply chain saved by [updateSupplyChain] reads back as itself:
    the message the helper builds carries a text which, stored by the
    contract between bytes without opening brackets and bytes without
    ']', [getSupplyChain] decodes to the very array that was saved. *)
Theorem supply_chain_roundtrip (accountAddress : option string) (accountPair : option Account)
    (injector submit : result unit) (statuses : list TxStatus) (items : list Json)
    (text p q : jsstr) (c : Contract) :
  wfb (JArr items) = true ->
  (updateSupplyChain accountAddress accountPair injector submit statuses (JArr items)).2
    = Some (setSupplyChain text) ->
  Forall (fun x => Trim.is_open x = false) p -> Forall (fun x => x <> "]"%char) q ->
  getSupplyChain (Some c) (RpcOk (map byte_of_ascii (p ++ text ++ q))) = Ok (JArr items).
Proof.
  intros Hwf Hm Hp Hq. unfold updateSupplyChain, helper_tx in Hm. cbn [snd] in Hm.
  destruct (signer_of _ _); simplify_eq/=. unfold json_stringify, json_stringify_instance.
  cbn [stringify app]. rewrite <- app_assoc. cbn [app].
  unfold getSupplyChain, json_query. erewrite decode_json_framed; [done|done|done|].
  apply (parse_stringify (JArr items) Hwf).
Qed.

(** ** Concrete runs *)

Definition demo_items : list Json :=
  [JObj [(js "id", JNum 1); (js "label", JStr (js "Farm A" ++ [dquote; bslash]))];
        JObj [(js "id", JNum (-2)); (js "edges", JArr [JNum 1; JNull; JBool true])]].
Definition demo_chain : Json := JArr demo_items.

(** Token metadata as the editor saves it, with decimal coordinates. *)
Definition demo_metadata : Json :=
  JObj [(js "remarks", JStr (js "keep cold")); (js "lat", JNum (51505 # 1000)); (js "long", JNum (-9 # 100))].

Lemma decode_stringify_witness :
  decode_json JNull (map byte_of_ascii (js "ok" ++ stringify demo_metadata ++ js " ]")) = reparse demo_metadata /\
  (exact_numbers demo_metadata = true -> json_equiv (reparse demo_metadata) demo_metadata) /\
  decode_json JNull (map byte_of_ascii (js "ok" ++ ["["%char])) = JNull.
Proof.
  apply decode_stringify; [reflexivity|repeat constructor; discriminate|].
  right. eexists. split; [reflexivity|]. repeat constructor; discriminate.
Defined.

(** The printed coordinates read back as the same rationals. *)
Example demo_metadata_reparse : reparse demo_metadata = demo_metadata.
Proof. vm_compute. reflexivity. Qed.

Definition demo_owner : Account := mkAccount "5Bob"%string "bob"%string "keyring"%string.

Lemma supply_chain_roundtrip_witness :
  getSupplyChain (Some demo_contract)
    (RpcOk (map byte_of_ascii (js "xy" ++ stringify demo_chain ++ js "z"))) = Ok demo_chain.
Proof.
  apply (supply_chain_roundtrip None (Some demo_owner) (Ok tt) (Ok tt) [] demo_items
           (stringify demo_chain) (js "xy") (js "z") demo_contract);
    [reflexivity|reflexivity|repeat constructor|repeat constructor; discriminate].
Defined.
End JsonCodec.
