(* ===== verification/Hook.v ===== *)
(** * The object [useSubstrate()] returns, and what the editors get from it

    [useSubstrate] ([contexts/useSubstrate.js]) returns the store spread
    with the helpers, each closed over the store fields its [useCallback]
    lists: the query helpers over [tokenContract] (and [accountAddress],
    which the node ignores for a read-only call), the update helpers over
    [accountAddress] and [accountPair]. [Hook] is that object as a record
    of functions, [useSubstrate] builds it from a store. [Main] of [App.js]
    renders the editors, which call these helpers, once the three states
    of the store are READY.

    [dashboard_queries_reach] and [dashboard_tx_signed] compose the
    lifecycle invariant, [Main]'s guard and the helpers. When [Main]
    renders the editors, no query helper throws its TypeError. An update
    call, when a pair is selected, reaches its [try] and signs with that
    pair or its address, and resolves exactly on [InBlock].
    [clear_selection_hangs] is the other side: the editors are
    rendered also when the selection has been cleared, and every update
    call then hangs. *)

From S2P Require Import Prelude Substrate Lifecycle ContractCalls App JsonCodec.
Import Store Lifecycle ContractCalls App.

Module Hook.

(** An update helper called with its arguments: what it does, given the
    injector, the outcome of building and signing the extrinsic, and the
    statuses the node reports. *)
Definition Tx : Type := result unit -> result unit -> list TxStatus -> TxRun * option Message.

(** [{ ...state, setAccountAddress, getAccountMetadata, ... }]. The store
    operations [setAccountAddress] and [dispatch] are the events of
    [Lifecycle.v]. *)
Record Hook := mkHook {
  hook_state : State;
  h_getAccountMetadata : RpcResult -> result Json;
  h_updateAccountMetadata : string -> Json -> Tx;
  h_getSupplyChain : RpcResult -> result Json;
  h_updateSupplyChain : Json -> Tx;
  h_getRoles : RpcResult -> result Json;
  h_updateRoles : Json -> Tx;
  h_listAllTokens : result (option (list jsstr)) -> result (list jsstr);
  h_mintToken : Z -> Tx;
  h_getTokenMetadata : RpcResult -> result Json;
  h_updateTokenMetadata : Json -> Json -> Tx;
  h_getTokenOwner : result (option jsstr) -> result jsstr;
  h_transferToken : string -> Json -> Tx
}.

Section UseSubstrate.
Context `{JsonParse} `{JsonStringify}.

(** The hook's return for the store [s]. *)
Definition useSubstrate (s : State) : Hook := {|
  hook_state := s;
  h_getAccountMetadata := getAccountMetadata s.(tokenContract);
  h_updateAccountMetadata a m inj sub sts :=
    updateAccountMetadata s.(accountAddress) s.(accountPair) inj sub sts a m;
  h_getSupplyChain := getSupplyChain s.(tokenContract);
  h_updateSupplyChain c inj sub sts :=
    updateSupplyChain s.(accountAddress) s.(accountPair) inj sub sts c;
  h_getRoles := getRoles s.(tokenContract);
  h_updateRoles r inj sub sts := updateRoles s.(accountAddress) s.(accountPair) inj sub sts r;
  h_listAllTokens := listAllTokens s.(tokenContract);
  h_mintToken id inj sub sts := mintToken s.(accountAddress) s.(accountPair) inj sub sts id;
  h_getTokenMetadata := getTokenMetadata s.(tokenContract);
  h_updateTokenMetadata t m inj sub sts :=
    updateTokenMetadata s.(accountAddress) s.(accountPair) inj sub sts t m;
  h_getTokenOwner := getTokenOwner s.(tokenContract);
  h_transferToken a t inj sub sts := transferToken s.(accountAddress) s.(accountPair) inj sub sts a t
|}.

End UseSubstrate.

(** The editors' calls of the update helpers, with their arguments. *)
Inductive TxCall :=
| CallUpdateAccountMetadata (targetAddress : string) (metadata : Json)
| CallUpdateSupplyChain (chainData : Json)
| CallUpdateRoles (roles : Json)
| CallMintToken (id : Z)
| CallUpdateTokenMetadata (targetToken metadata : Json)
| CallTransferToken (targetAddress : string) (targetToken : Json).

Definition call_tx (h : Hook) (c : TxCall) : Tx :=
  match c with
  | CallUpdateAccountMetadata a m => h.(h_updateAccountMetadata) a m
  | CallUpdateSupplyChain d => h.(h_updateSupplyChain) d
  | CallUpdateRoles r => h.(h_updateRoles) r
  | CallMintToken id => h.(h_mintToken) id
  | CallUpdateTokenMetadata t m => h.(h_updateTokenMetadata) t m
  | CallTransferToken a t => h.(h_transferToken) a t
  end.

(** The message each call builds with [tokenContractAbi.messages]. *)
Definition call_message `{JsonStringify} (c : TxCall) : Message :=
  match c with
  | CallUpdateAccountMetadata a m => setAccountMetadataOf a (json_stringify m)
  | CallUpdateSupplyChain d => setSupplyChain (json_stringify d)
  | CallUpdateRoles r => setRoles (json_stringify r)
  | CallMintToken id => mint id
  | CallUpdateTokenMetadata t m => setTokenMetadataOf t (json_stringify m)
  | CallTransferToken a t => transfer a t
  end.

(** The answer a query helper gives once [tokenContract] exists: the
    decoded output, or the rejection passed on. *)
Definition answered `{JsonParse} (dflt : Json) (r : RpcResult) : result Json :=
  match r with
  | RpcOk elems => Ok (decode_json dflt elems)
  | RpcErr e => Throw e
  end.

(** The signer [signAndSend] gets for the pair [p]: its address with the
    extension's signer, or the pair itself. *)
Definition signer_for (p : Account) : Signer :=
  if decide (p.(meta_source) = "polkadot-js"%string) then SignWithAddress p.(address) else SignWithPair p.

(** ** Lemmas *)

Section HookLemmas.
Context `{JsonParse} `{JsonStringify}.

(** Every update call of the hook is [helper_tx] over the store's
    selection, with the call's message. *)
Lemma hook_tx (s : State) (c : TxCall) (inj sub : result unit) (sts : list TxStatus) :
  call_tx (useSubstrate s) c inj sub sts =
  (send_tx s.(accountAddress) s.(accountPair) inj sub sts,
   (fun _ => call_message c) <$> signer_of s.(accountPair) inj).
Proof. by destruct c. Qed.

(** With no pair selected, an update call throws before its [try]. *)
Lemma hook_tx_no_pair (s : State) (c : TxCall) (inj sub : result unit) (sts : list TxStatus) :
  s.(accountPair) = None ->
  call_tx (useSubstrate s) c inj sub sts = (mkTxRun Pending false None, None).
Proof. intros Hp. rewrite hook_tx. unfold send_tx. by rewrite Hp. Qed.

(** A query helper once [tokenContract] exists. *)
Lemma json_query_some (k : Contract) (dflt : Json) (r : RpcResult) :
  json_query (Some k) dflt r = answered dflt r.
Proof. by destruct r. Qed.

End HookLemmas.

(** A submitted transaction signed by [who]: resolved exactly on
    [InBlock]. *)
Lemma signed_run_settles (who : Signer) (sts : list TxStatus) :
  (foldl on_status (mkTxRun Pending false (Some who)) sts).(settlement) = Resolved true <->
  exists h, InBlock h ∈ sts.
Proof.
  rewrite foldl_on_status, <- existsb_in_block. cbn. destruct (existsb _ _); split; congruence.
Qed.

Lemma signed_run_signer (who : Signer) (sts : list TxStatus) :
  (foldl on_status (mkTxRun Pending false (Some who)) sts).(signed_by) = Some who.
Proof. by rewrite foldl_on_status. Qed.

(** ** The helpers the rendered editors get *)

Section Dashboard.
Context `{JsonParse} `{JsonStringify} (DEVELOPMENT_KEYRING : list Account) (TOKEN_CONTRACT_ADDRESS : string).

Local Abbreviation reachable := (reachable DEVELOPMENT_KEYRING TOKEN_CONTRACT_ADDRESS).
Local Abbreviation step := (step DEVELOPMENT_KEYRING TOKEN_CONTRACT_ADDRESS).

(** C34: on every reachable state in which [Main] renders the editors,
    the hook's query helpers reach the contract: each gives the decoded
    output of the call or passes its rejection on, and none throws the
    TypeError of a missing [tokenContract]. *)
Theorem dashboard_queries_reach (sock : string) (rpc tys : list string) (hs : HState) (sel : option Account) :
  reachable sock rpc tys hs -> main hs.(store) = Dashboard sel ->
  let h := useSubstrate hs.(store) in
  (forall r, h.(h_getAccountMetadata) r = answered (JObj []) r) /\
  (forall r, h.(h_getSupplyChain) r = answered (JArr []) r) /\
  (forall r, h.(h_getRoles) r = answered (JArr []) r) /\
  (forall r, h.(h_getTokenMetadata) r = answered (JObj []) r) /\
  (forall r, h.(h_listAllTokens) r =
     match r with Ok (Some (_ :: _ as items)) => Ok items | Ok _ => Ok [] | Throw e => Throw e end) /\
  (forall r, h.(h_getTokenOwner) r =
     match r with Ok (Some text) => Ok text | Ok None => Ok [] | Throw e => Throw e end).
Proof.
  intros Hr Hm. destruct (dashboard_guarantees _ _ _ _ _ _ _ Hr Hm) as [(k & Hk & _) _].
  cbn. rewrite Hk. split_and!; intros r;
    [by destruct r..|by destruct r as [[[|]|]|]|by destruct r as [[]|]].
Qed.

(** C35: on every reachable state in which [Main] renders the editors
    with a selected pair [p], an update call whose injector answers (for
    an extension account) and whose extrinsic is built and signed builds
    its message, signs with [p] (by its address, which is the selected
    one, when the extension signs), and resolves exactly when the node
    reports it in a block. *)
Theorem dashboard_tx_signed (sock : string) (rpc tys : list string) (hs : HState) (p : Account)
    (c : TxCall) (inj : result unit) (sts : list TxStatus) :
  reachable sock rpc tys hs -> main hs.(store) = Dashboard (Some p) ->
  (p.(meta_source) = "polkadot-js"%string -> is_ok inj = true) ->
  let '(run, msg) := call_tx (useSubstrate hs.(store)) c inj (Ok tt) sts in
  msg = Some (call_message c) /\ run.(signed_by) = Some (signer_for p) /\
  (run.(settlement) = Resolved true <-> exists h, InBlock h ∈ sts).
Proof.
  intros Hr Hm Hinj. destruct (main_dashboard _ _ Hm) as (_ & _ & _ & Hsel).
  destruct (dashboard_guarantees _ _ _ _ _ _ _ Hr Hm) as (_ & _ & Hp).
  destruct (Hp p eq_refl) as [Haddr _].
  rewrite hook_tx. unfold send_tx, signer_for. rewrite <- Hsel, Haddr. cbn [signer_of].
  case_decide as Hs; [destruct inj; [|by specialize (Hinj Hs)]|];
    (split_and!; [done|apply signed_run_signer|apply signed_run_settles]).
Qed.

(** C27: [Main] guards the editors on the three states of the store
    only. From a state in which it renders them, a call
    [setAccountAddress('')] (the [AccountSelector] it renders, which is
    not in the repository, is handed that function) keeps them rendered
    with no pair selected,
    and every update call the editors then make throws on
    [accountPair.meta] before its [try]: the promise never settles,
    nothing is signed and no message is built. *)
Theorem clear_selection_hangs (hs hs' : HState) (sel : option Account) :
  main hs.(store) = Dashboard sel -> step hs (SelectAccount (Some ""%string)) = Some hs' ->
  main hs'.(store) = Dashboard None /\
  forall c inj sub sts, call_tx (useSubstrate hs'.(store)) c inj sub sts = (mkTxRun Pending false None, None).
Proof.
  intros Hm Hs. destruct (main_dashboard _ _ Hm) as (Ha & Hk & Hc & _).
  cbn in Hs. injection Hs as <-. cbn.
  split; [by apply main_ready|]. intros. by apply hook_tx_no_pair.
Qed.

End Dashboard.

(** ** The editors on the demo run of [Lifecycle.v] *)

Section Demo.
#[local] Existing Instances JsonCodec.json_parse_instance JsonCodec.json_stringify_instance.

Definition demo_cleared : HState :=
  demo_after (demo_start ++ [VersionAnswered (RpcOutput (Some 1%Z)); SelectAccount (Some ""%string)]).

Lemma dashboard_queries_reach_witness :
  let h := useSubstrate demo_ready.(store) in
  (forall r, h.(h_getAccountMetadata) r = answered (JObj []) r) /\
  (forall r, h.(h_getSupplyChain) r = answered (JArr []) r) /\
  (forall r, h.(h_getRoles) r = answered (JArr []) r) /\
  (forall r, h.(h_getTokenMetadata) r = answered (JObj []) r) /\
  (forall r, h.(h_listAllTokens) r =
     match r with Ok (Some (_ :: _ as items)) => Ok items | Ok _ => Ok [] | Throw e => Throw e end) /\
  (forall r, h.(h_getTokenOwner) r =
     match r with Ok (Some text) => Ok text | Ok None => Ok [] | Throw e => Throw e end).
Proof.
  apply (dashboard_queries_reach [] demo_contract_address demo_socket [] [] demo_ready (Some (rename alice))).
  - apply demo_reachable. vm_compute. by eexists.
  - vm_compute. reflexivity.
Defined.

Lemma dashboard_tx_signed_witness :
  let '(run, msg) := call_tx (useSubstrate demo_ready.(store)) (CallUpdateSupplyChain (JArr []))
                       (Ok tt) (Ok tt) [Ready; InBlock "0x01"; Finalized "0x01"] in
  msg = Some (call_message (CallUpdateSupplyChain (JArr []))) /\
  run.(signed_by) = Some (signer_for (rename alice)) /\
  (run.(settlement) = Resolved true <-> exists h, InBlock h ∈ [Ready; InBlock "0x01"; Finalized "0x01"]).
Proof.
  apply (dashboard_tx_signed [] demo_contract_address demo_socket [] [] demo_ready (rename alice)).
  - apply demo_reachable. vm_compute. by eexists.
  - vm_compute. reflexivity.
  - reflexivity.
Defined.

Lemma clear_selection_hangs_witness :
  reachable [] demo_contract_address demo_socket [] [] demo_ready /\
  main demo_cleared.(store) = Dashboard None /\
  forall c inj sub sts, call_tx (useSubstrate demo_cleared.(store)) c inj sub sts = (mkTxRun Pending false None, None).
Proof.
  split; [apply demo_reachable; vm_compute; by eexists|].
  apply (clear_selection_hangs [] demo_contract_address demo_ready demo_cleared (Some (rename alice))).
  - vm_compute. reflexivity.
  - vm_compute. reflexivity.
Defined.

End Demo.

End Hook.
