(* ===== verification/Editors.v ===== *)
(** * The supply-chain and roles editors

    [components/SupplyChainEditor/index.js] and
    [components/RolesManager/index.js]: React components whose state
    hooks become the fields of a Record and whose handlers become
    functions on it. What the contract helpers answer ([getSupplyChain],
    [getRoles], the settlement of [updateSupplyChain]) is an argument of
    the handler that awaits it.

    The supply-chain editor keeps its nodes in an array it mutates with
    [splice], so its state holds a reference into a heap of arrays
    ([Heap]) rather than a list value: [splice] changes the array in place
    and returns a new one, and the model keeps both.

    Each component's render is a [view] of its state (what a user sees
    and which controls are enabled); a session of user events on it is
    [Prelude.session] over [enabled] and the handlers. The roles table is
    also given an abstract meaning, a finite map from address to entry
    ([roles_abs]), which [onModalFinish] and the search refine. *)

From Stdlib Require Import QArith.
From stdpp Require Import gmap.
From S2P Require Import Prelude Substrate ContractCalls JsObject.
Import Store ContractCalls JsObject.

(** ** Arrays by reference *)

Module Heap.

(** The arrays allocated so far; a reference is an index. *)
Abbreviation Heap := (list (list Json)).

Definition alloc (h : Heap) (a : list Json) : Heap * nat := (h ++ [a], length h).

(** [arr.splice(start, 1)] for [0 <= start]: the array loses the element
    at [start] (if any), and the call returns a new array holding it. *)
Definition splice1 (arr : list Json) (start : nat) : list Json * list Json :=
  (take start arr ++ drop (S start) arr, take 1 (drop start arr)).

Lemma alloc_lookup_new (h : Heap) (a : list Json) : (alloc h a).1 !! (alloc h a).2 = Some a.
Proof. unfold alloc. cbn [fst snd]. by rewrite lookup_app_r, Nat.sub_diag by lia. Qed.

Lemma alloc_lookup_old (h : Heap) (a : list Json) (l : nat) (x : list Json) :
  h !! l = Some x -> (alloc h a).1 !! l = Some x.
Proof. intros Hl. unfold alloc. cbn [fst]. by apply lookup_app_l_Some. Qed.

Lemma splice1_delete (arr : list Json) (i : nat) : (splice1 arr i).1 = delete i arr.
Proof.
  unfold splice1. cbn [fst]. revert i. induction arr as [|x arr IH]; intros [|i]; simpl; try done.
  f_equal. apply IH.
Qed.

End Heap.

Module SupplyChainEditor.
Import Heap.

(** The value of [supplyChainData]: an array, by reference, or whatever
    else [getSupplyChain] resolved with. *)
Inductive Val :=
| Ref (l : nat)
| Prim (v : Json).

Record State := mkState {
  heap : Heap;
  supplyChainData : Val;
  isEdited : bool;
  isEditorLoading : bool;
  isAddModalOpen : bool;
  addModalData : Fields
}.

Definition init : State :=
  mkState [[]] (Ref 0) false false false [(js "name", JStr []); (js "writer", JStr [])].

(** [setSupplyChainData(value)]: a JSON array is a fresh array. *)
Definition store_value (s : State) (v : Json) : Heap * Val :=
  match v with
  | JArr items => let '(h, l) := alloc s.(heap) items in (h, Ref l)
  | _ => (s.(heap), Prim v)
  end.

(** [getSupplyChainOnContractReady], given whether the contract is
    READY and how [getSupplyChain()] settled. *)
Definition getSupplyChainOnContractReady (ready : bool) (s : State) (r : result Json) : State :=
  if negb ready then s
  else
    let '(h, v) := match r with
                   | Ok data => store_value s data
                   | Throw _ => store_value s (JArr [])
                   end in
    mkState h v false false s.(isAddModalOpen) s.(addModalData).

(** [onOpenAddModal]: [writer] is the selected address ([null] when
    none). *)
Definition onOpenAddModal (accountAddress : option string) (s : State) : State :=
  mkState s.(heap) s.(supplyChainData) s.(isEdited) s.(isEditorLoading) true
    [(js "name", JStr []); (js "writer", from_option (fun a => JStr (js a)) JNull accountAddress)].

(** The add modal's [onClose] and its Cancel button. *)
Definition closeAddModal (s : State) : State :=
  mkState s.(heap) s.(supplyChainData) s.(isEdited) s.(isEditorLoading) false s.(addModalData).

(** [onChangeAddModalData(field)] with the input's value. *)
Definition onChangeAddModalData (field : jsstr) (value : jsstr) (s : State) : State :=
  mkState s.(heap) s.(supplyChainData) s.(isEdited) s.(isEditorLoading) s.(isAddModalOpen)
    (set (spread [] (JObj s.(addModalData))) field (JStr value)).

(** [[...supplyChainData, addModalData]]: arrays and strings are
    iterable, anything else throws. *)
Definition elements (s : State) : result (list Json) :=
  match s.(supplyChainData) with
  | Ref l => Ok (default [] (s.(heap) !! l))
  | Prim (JStr cs) => Ok (map (fun c => JStr [c]) cs)
  | Prim _ => Throw "supplyChainData is not iterable"
  end.

Definition onAddNode (s : State) : result State :=
  items ← elements s;
  let '(h, l) := alloc s.(heap) (items ++ [JObj s.(addModalData)]) in
  Ok (mkState h (Ref l) true s.(isEditorLoading) false s.(addModalData)).

(** [onSaveSupplyChain], given how the promise of [updateSupplyChain]
    settles; a pending promise leaves the handler suspended at its
    [await]. *)
Definition onSaveSupplyChain (s : State) (settled : Settlement) : State :=
  if negb s.(isEdited) then s
  else
    match settled with
    | Pending => mkState s.(heap) s.(supplyChainData) s.(isEdited) true s.(isAddModalOpen) s.(addModalData)
    | Resolved _ => mkState s.(heap) s.(supplyChainData) false false s.(isAddModalOpen) s.(addModalData)
    | Rejected _ => mkState s.(heap) s.(supplyChainData) s.(isEdited) false s.(isAddModalOpen) s.(addModalData)
    end.

(** [onRemoveNode(id)]: [setSupplyChainData(supplyChainData.splice(id, 1))]. *)
Definition onRemoveNode (id : nat) (s : State) : result State :=
  match s.(supplyChainData) with
  | Ref l =>
      let arr := default [] (s.(heap) !! l) in
      let '(kept, removed) := splice1 arr id in
      let '(h, l') := alloc (<[l := kept]> s.(heap)) removed in
      Ok (mkState h (Ref l') s.(isEdited) s.(isEditorLoading) s.(isAddModalOpen) s.(addModalData))
  | Prim _ => Throw "supplyChainData.splice is not a function"
  end.

(** The nodes the component renders ([supplyChainData.map]). *)
Definition rendered (s : State) : list Json :=
  match s.(supplyChainData) with
  | Ref l => default [] (s.(heap) !! l)
  | Prim _ => []
  end.

(** ** What the editor renders *)

(** A node's label: [data.name || '*Node']; a [null] node throws. *)
Definition node_label (data : Json) : result Json :=
  match data with
  | JNull => Throw "Cannot read properties of null (reading 'name')"
  | v => Ok (or_default (prop v (js "name")) (JStr (js "*Node")))
  end.

(** [supplyChainData.map(...)]: only an array has [map]. *)
Definition nodes_of (s : State) : result (list Json) :=
  match s.(supplyChainData) with
  | Ref l => mapM node_label (default [] (s.(heap) !! l))
  | Prim _ => Throw "supplyChainData.map is not a function"
  end.

Record View := mkView {
  dimmed : bool;
  nodes : list Json;
  save_disabled : bool;
  reset_disabled : bool;
  add_modal_open : bool;
  name_value : option Json
}.

Definition view (s : State) : result View :=
  ns ← nodes_of s;
  Ok (mkView s.(isEditorLoading) ns (negb s.(isEdited)) (negb s.(isEdited)) s.(isAddModalOpen)
        (get s.(addModalData) (js "name"))).

(** The events of the editor; Reset runs [getSupplyChainOnContractReady]. *)
Inductive Op :=
| OpLoaded (ready : bool) (r : result Json)
| OpRemove (index : nat)
| OpOpenAdd (accountAddress : option string)
| OpChangeName (value : jsstr)
| OpAdd
| OpCloseAdd
| OpSave (settled : Settlement)
| OpReset (ready : bool) (r : result Json).

(** A remove button exists for each rendered node (the dimmer is not
    taken to block it), Save and Reset are disabled as rendered, and the
    modal's controls exist while it is open. *)
Definition enabled (s : State) (op : Op) : bool :=
  match view s with
  | Throw _ => false
  | Ok v =>
      match op with
      | OpLoaded _ _ | OpOpenAdd _ => true
      | OpRemove i => bool_decide (i < length v.(nodes))
      | OpChangeName _ | OpAdd | OpCloseAdd => v.(add_modal_open)
      | OpSave _ => negb v.(save_disabled)
      | OpReset _ _ => negb v.(reset_disabled)
      end
  end.

(** An event's handler, with the array [onSaveSupplyChain] hands to
    [updateSupplyChain]; a handler that throws does so before its setters. *)
Definition ui_step (s : State) (op : Op) : State * list (list Json) :=
  match op with
  | OpLoaded ready r | OpReset ready r => (getSupplyChainOnContractReady ready s r, [])
  | OpRemove i => (match onRemoveNode i s with Ok s' => s' | Throw _ => s end, [])
  | OpOpenAdd a => (onOpenAddModal a s, [])
  | OpChangeName v => (onChangeAddModalData (js "name") v s, [])
  | OpAdd => (match onAddNode s with Ok s' => s' | Throw _ => s end, [])
  | OpCloseAdd => (closeAddModal s, [])
  | OpSave settled => (onSaveSupplyChain s settled, if s.(isEdited) then [rendered s] else [])
  end.

Definition run_ui : State -> list Op -> State * list (list Json) := session enabled ui_step.

(** The events of a session that neither loads nor adds a node. *)
Definition no_add (op : Op) : bool :=
  match op with
  | OpRemove _ | OpSave _ | OpOpenAdd _ | OpChangeName _ | OpCloseAdd => true
  | _ => false
  end.

(** ** Lemmas *)

Lemma rendered_ref (s : State) (l : nat) :
  s.(supplyChainData) = Ref l -> rendered s = default [] (s.(heap) !! l).
Proof. unfold rendered. by intros ->. Qed.

(** C29: [onRemoveNode(id)] leaves the editor showing only the node it
    removed: [splice] deletes the node from the array the state held (that
    array, now unreferenced, holds the intended list) and returns the
    removed node, which becomes the new state; [isEdited] is unchanged, so
    the removal cannot be saved. *)
Theorem onRemoveNode_keeps_removed_only (s : State) (l id : nat) (items : list Json) :
  s.(supplyChainData) = Ref l -> s.(heap) !! l = Some items ->
  exists s', onRemoveNode id s = Ok s' /\
    rendered s' = take 1 (drop id items) /\
    s'.(heap) !! l = Some (delete id items) /\
    s'.(isEdited) = s.(isEdited).
Proof.
  intros Hd Hl. unfold onRemoveNode. rewrite Hd, Hl. cbn [default splice1].
  eexists; split; [reflexivity|]. split_and!.
  - unfold rendered. cbn [supplyChainData heap].
    by rewrite lookup_app_r, Nat.sub_diag by lia.
  - cbn [heap]. apply lookup_app_l_Some. rewrite list_lookup_insert.
    rewrite decide_True by (split; [done|by eapply lookup_lt_Some]).
    f_equal. exact (splice1_delete items id).
  - done.
Qed.

(** C30: saving the supply chain with a transaction the node never puts
    in a block (dropped, invalid, usurped) leaves the editor dimmed as
    loading with its edits unsaved: [await updateSupplyChain] never
    returns. *)
Theorem save_dropped_tx_stalls (s : State) (addr : option string) (pr : Account)
    (inj submit : result unit) (sts : list TxStatus) :
  s.(isEdited) = true -> submitted pr inj submit ->
  Forall (fun st => is_in_block st = false) sts ->
  let s' := onSaveSupplyChain s (send_tx addr (Some pr) inj submit sts).(settlement) in
  s'.(isEditorLoading) = true /\ s'.(isEdited) = true.
Proof.
  intros He Hsub Hsts. rewrite (send_tx_settlement addr pr inj submit sts Hsub).
  replace (existsb is_in_block sts) with false.
  - unfold onSaveSupplyChain. by rewrite He.
  - symmetry. apply not_true_iff_false. rewrite existsb_in_block. intros [h Hh].
    rewrite Forall_forall in Hsts. by specialize (Hsts _ Hh).
Qed.

Lemma no_add_step_unedited (s : State) (op : Op) :
  no_add op = true -> s.(isEdited) = false ->
  (ui_step s op).1.(isEdited) = false /\ (ui_step s op).2 = [].
Proof.
  intros Hop He. destruct op; try discriminate; cbn [ui_step fst snd];
    unfold onRemoveNode, onSaveSupplyChain; rewrite ?He; repeat case_match; simplify_eq/=; auto.
Qed.

(** C8: removals alone are never saved: from a state with no pending
    edit, a session of removals, Save clicks and uses of the add modal
    that never adds sends no [updateSupplyChain] at all, since
    [onRemoveNode] does not set [isEdited] and Save is disabled (and
    returns early) while it is unset. *)
Theorem removals_never_saved (s : State) (ops : list Op) :
  s.(isEdited) = false -> Forall (fun op => no_add op = true) ops ->
  (run_ui s ops).2 = [] /\ (run_ui s ops).1.(isEdited) = false.
Proof.
  intros He Hops. revert s He. induction Hops as [|op ops Hop Hops IH]; intros s He; [done|].
  unfold run_ui. cbn [session]. destruct (enabled s op); [|by apply IH].
  destruct (no_add_step_unedited s op Hop He) as [He' Hw].
  destruct (ui_step s op) as [s' w]. cbn in He', Hw. subst w.
  destruct (IH s' He') as [Hws Hs'']. unfold run_ui in Hws, Hs''.
  destruct (session enabled ui_step s' ops). by split.
Qed.

(** ** Concrete runs *)

Definition node (name : string) : Json :=
  JObj [(js "name", JStr (js name)); (js "writer", JStr (js "5Alice"))].
Definition demo_nodes : list Json := [node "farm"; node "mill"; node "shop"].
Definition demo_chain : State :=
  mkState [demo_nodes] (Ref 0) false false false [(js "name", JStr []); (js "writer", JStr [])].
Definition demo_edited : State :=
  mkState [demo_nodes] (Ref 0) true false false [(js "name", JStr []); (js "writer", JStr [])].

Lemma onRemoveNode_keeps_removed_only_witness :
  exists s', onRemoveNode 1 demo_chain = Ok s' /\
    rendered s' = take 1 (drop 1 demo_nodes) /\
    s'.(heap) !! 0 = Some (delete 1 demo_nodes) /\
    s'.(isEdited) = demo_chain.(isEdited).
Proof. apply (onRemoveNode_keeps_removed_only demo_chain 0 1 demo_nodes); reflexivity. Defined.

Lemma removals_never_saved_witness :
  let ops := [OpRemove 1; OpSave (Resolved true); OpOpenAdd None; OpCloseAdd; OpRemove 0; OpSave (Resolved true)] in
  (run_ui demo_chain ops).2 = [] /\ (run_ui demo_chain ops).1.(isEdited) = false.
Proof. apply removals_never_saved; [reflexivity|by repeat constructor]. Defined.

Lemma save_dropped_tx_stalls_witness :
  let s' := onSaveSupplyChain demo_edited
    (send_tx (Some "5Alice"%string) (Some demo_extension_pair) (Ok tt) (Ok tt) [Ready; Broadcast; Dropped]).(settlement) in
  s'.(isEditorLoading) = true /\ s'.(isEdited) = true.
Proof.
  apply save_dropped_tx_stalls.
  - reflexivity.
  - split; [intros _|]; reflexivity.
  - by repeat constructor.
Defined.

End SupplyChainEditor.

(** ** [components/RolesManager/index.js] *)

Module RolesManager.

(** [item[k]]: reading a property of [null] throws. *)
Definition item_prop (item : Json) (k : jsstr) : result (option Json) :=
  match item with
  | JObj f => Ok (get f k)
  | JNull => Throw ("Cannot read properties of null (reading '" ++ string_of_list_ascii k ++ "')")%string
  | _ => Ok None
  end.

Record ModalData := mkModal {
  isEdit : bool;
  m_address : Json;
  m_name : Json;
  m_role : Json
}.

Record State := mkState {
  rolesData : Json;
  isRolesDataLoading : bool;
  isModalOpen : bool;
  modalData : ModalData;
  selectedAddress : option Json;
  selectedAddressRole : option Json;
  addressSearchValue : option Json;
  accountMetadata : Json;
  isAccountMetadataLoading : option bool
}.

Definition init : State :=
  mkState (JArr []) false false (mkModal false (JStr []) (JStr []) (JStr []))
    (Some (JStr [])) (Some (JStr [])) (Some (JStr [])) JNull None.

Definition with_roles (s : State) (r : Json) (loading : bool) : State :=
  mkState r loading s.(isModalOpen) s.(modalData) s.(selectedAddress) s.(selectedAddressRole)
    s.(addressSearchValue) s.(accountMetadata) s.(isAccountMetadataLoading).

(** [rolesData.findIndex(item => item.address === a)] over the items. *)
Fixpoint find_index (items : list Json) (a : Json) (i : nat) : result (option nat) :=
  match items with
  | [] => Ok None
  | item :: rest =>
      p ← item_prop item (js "address");
      if strict_eq p (Some a) then Ok (Some i) else find_index rest a (S i)
  end.

(** [rolesData.find(item => item.address === a)] *)
Fixpoint find_item (items : list Json) (a : option Json) : result (option Json) :=
  match items with
  | [] => Ok None
  | item :: rest =>
      p ← item_prop item (js "address");
      if strict_eq p a then Ok (Some item) else find_item rest a
  end.

(** The array methods exist only on arrays. *)
Definition as_array (v : Json) (meth : string) : result (list Json) :=
  match v with
  | JArr items => Ok items
  | _ => Throw ("rolesData." ++ meth ++ " is not a function")%string
  end.

(** The object [onModalFinish] stores. *)
Definition role_obj (m : ModalData) : Json :=
  JObj [(js "address", m.(m_address)); (js "name", m.(m_name)); (js "role", m.(m_role))].

(** [newRolesData]: the entry with the modal's address replaced, or the
    new entry appended. *)
Definition upsert (items : list Json) (m : ModalData) : result (list Json) :=
  idx ← find_index items m.(m_address) 0;
  Ok (match idx with
      | Some i => <[i := role_obj m]> items
      | None => items ++ [role_obj m]
      end).

(** The synchronous part of [onModalFinish]: [setRolesDataLoading(true)]
    has run before anything can throw. *)
Definition onModalFinish (s : State) : State * result unit :=
  let s1 := with_roles s s.(rolesData) true in
  match as_array s.(rolesData) "findIndex" ≫= fun items => upsert items s.(modalData) with
  | Ok items' => (with_roles s (JArr items') true, Ok tt)
  | Throw e => (s1, Throw e)
  end.

(** [getRolesOnContractReady] *)
Definition getRolesOnContractReady (ready : bool) (s : State) (r : result Json) : State :=
  if negb ready then s
  else match r with
       | Ok v => with_roles s v false
       | Throw _ => with_roles s (JArr []) false
       end.

(** The [setTimeout] callback of [onModalFinish], given how [updateRoles]
    settles and what the reload returns. *)
Definition finishTimeout (ready : bool) (s : State) (settled : Settlement) (reload : result Json) : State :=
  match settled with
  | Pending => s
  | Rejected _ => with_roles s s.(rolesData) false
  | Resolved _ =>
      let s1 := getRolesOnContractReady ready s reload in
      mkState s1.(rolesData) false false s1.(modalData) s1.(selectedAddress)
        s1.(selectedAddressRole) s1.(addressSearchValue) s1.(accountMetadata) s1.(isAccountMetadataLoading)
  end.

(** The search input's [onChange]. *)
Definition setAddressSearchValue (v : jsstr) (s : State) : State :=
  mkState s.(rolesData) s.(isRolesDataLoading) s.(isModalOpen) s.(modalData)
    s.(selectedAddress) s.(selectedAddressRole) (Some (JStr v)) s.(accountMetadata) s.(isAccountMetadataLoading).

(** [onSearchAddress]: the address is selected first; the role is
    updated only when an entry has that address. *)
Definition onSearchAddress (s : State) : State * result unit :=
  let s1 := mkState s.(rolesData) s.(isRolesDataLoading) s.(isModalOpen) s.(modalData)
              s.(addressSearchValue) s.(selectedAddressRole)
              s.(addressSearchValue) s.(accountMetadata) s.(isAccountMetadataLoading) in
  match as_array s.(rolesData) "find" ≫= fun items => find_item items s.(addressSearchValue) with
  | Throw e => (s1, Throw e)
  | Ok None => (s1, Ok tt)
  | Ok (Some role) =>
      match item_prop role (js "role") with
      | Throw e => (s1, Throw e)
      | Ok r =>
          (mkState s1.(rolesData) s1.(isRolesDataLoading) s1.(isModalOpen) s1.(modalData)
             s1.(selectedAddress) r s1.(addressSearchValue) s1.(accountMetadata)
             s1.(isAccountMetadataLoading), Ok tt)
      end
  end.

(** [onOpenEditModal] *)
Definition onOpenEditModal (s : State) : State :=
  let name := match s.(accountMetadata) with JObj f => get f (js "name") | _ => None end in
  mkState s.(rolesData) s.(isRolesDataLoading) true
    (mkModal true (or_default s.(selectedAddress) (JStr [])) (or_default name (JStr []))
       (or_default s.(selectedAddressRole) (JStr [])))
    s.(selectedAddress) s.(selectedAddressRole) s.(addressSearchValue) s.(accountMetadata)
    s.(isAccountMetadataLoading).

(** [getAddressDetailsOnSelect], given how [getAccountMetadata] settled. *)
Definition getAddressDetailsOnSelect (s : State) (r : result Json) : State :=
  mkState s.(rolesData) s.(isRolesDataLoading) s.(isModalOpen) s.(modalData)
    s.(selectedAddress) s.(selectedAddressRole) s.(addressSearchValue)
    (match r with Ok m => m | Throw _ => JNull end) (Some false).

(** [rolesData[index]]: indexing [null] throws, a missing index is
    [undefined]. *)
Definition roles_at (rolesData : Json) (index : nat) : result (option Json) :=
  match rolesData with
  | JNull => Throw ("Cannot read properties of null (reading '" ++ string_of_list_ascii (index_key index) ++ "')")%string
  | v => Ok (prop v (index_key index))
  end.

(** [onViewDetails(index)]: the search value, the selected address and
    its role, all read from [rolesData[index]]. *)
Definition onViewDetails (index : nat) (s : State) : result State :=
  it ← roles_at s.(rolesData) index;
  match it with
  | None => Throw "Cannot read properties of undefined (reading 'address')"
  | Some item =>
      a ← item_prop item (js "address");
      r ← item_prop item (js "role");
      Ok (mkState s.(rolesData) s.(isRolesDataLoading) s.(isModalOpen) s.(modalData) a r a
            s.(accountMetadata) s.(isAccountMetadataLoading))
  end.

(** [onOpenAddModal] *)
Definition onOpenAddModal (s : State) : State :=
  mkState s.(rolesData) s.(isRolesDataLoading) true (mkModal false (JStr []) (JStr []) (JStr []))
    s.(selectedAddress) s.(selectedAddressRole) s.(addressSearchValue) s.(accountMetadata)
    s.(isAccountMetadataLoading).

(** The modal's [onClose]: [!setRolesDataLoading && setModalOpen(false)]
    tests the setter, a function, which is truthy: the modal is never
    closed this way. *)
Definition onModalClose (s : State) : State := s.

(** The Cancel button, disabled while [isRolesDataLoading]. *)
Definition cancelModal (s : State) : State :=
  if s.(isRolesDataLoading) then s
  else mkState s.(rolesData) s.(isRolesDataLoading) false s.(modalData) s.(selectedAddress)
         s.(selectedAddressRole) s.(addressSearchValue) s.(accountMetadata) s.(isAccountMetadataLoading).

(** The fields the modal's inputs change. *)
Inductive ModalField := MAddress | MName | MRole.

(** [onChangeModalData(field)] *)
Definition onChangeModalData (f : ModalField) (value : jsstr) (s : State) : State :=
  let m := s.(modalData) in
  let m' := match f with
            | MAddress => mkModal m.(isEdit) (JStr value) m.(m_name) m.(m_role)
            | MName => mkModal m.(isEdit) m.(m_address) (JStr value) m.(m_role)
            | MRole => mkModal m.(isEdit) m.(m_address) m.(m_name) (JStr value)
            end in
  mkState s.(rolesData) s.(isRolesDataLoading) s.(isModalOpen) m' s.(selectedAddress)
    s.(selectedAddressRole) s.(addressSearchValue) s.(accountMetadata) s.(isAccountMetadataLoading).

(** ** What the roles manager renders *)

(** The cells of a table row: [item.name || ''] and [item.role || ''];
    a [null] item throws. *)
Definition row_cells (item : Json) : result (Json * Json) :=
  n ← item_prop item (js "name");
  r ← item_prop item (js "role");
  Ok (or_default n (JStr []), or_default r (JStr [])).

(** [!!(rolesData && rolesData.length) && rolesData.map(...)]: an array is
    mapped (an empty one renders nothing), a value with a truthy [length]
    that is not an array throws, anything else renders nothing. *)
Definition table_rows (v : Json) : result (list (Json * Json)) :=
  match v with
  | JArr items => mapM row_cells items
  | JStr t => if bool_decide (t = []) then Ok [] else Throw "rolesData.map is not a function"
  | JObj _ => if truthy_opt (prop v (js "length")) then Throw "rolesData.map is not a function" else Ok []
  | _ => Ok []
  end.

Record View := mkView {
  rows : list (Json * Json);
  search_value : option Json;
  edit_disabled : bool;
  name_text : Json;
  role_text : option Json;
  location_text : Json;
  phone_text : Json;
  email_text : Json;
  modal_open : bool;
  address_input_disabled : bool;
  modal_values : Json * Json * Json;
  cancel_disabled : bool;
  update_disabled : bool
}.

(** The render, which throws where the table does. *)
Definition view (s : State) : result View :=
  rows ← table_rows s.(rolesData);
  let md := s.(accountMetadata) in
  let m := s.(modalData) in
  Ok (mkView rows s.(addressSearchValue)
        (negb (truthy_opt s.(selectedAddress)) || bool_decide (s.(isAccountMetadataLoading) = Some true))
        (guarded_prop md (js "name") (JStr [])) s.(selectedAddressRole)
        (guarded_prop md (js "location") (JStr [])) (guarded_prop md (js "phone") (JStr []))
        (guarded_prop md (js "email") (JStr []))
        s.(isModalOpen) m.(isEdit) (m.(m_address), m.(m_name), m.(m_role))
        s.(isRolesDataLoading)
        (negb (truthy m.(m_role)) || negb (truthy m.(m_address)))).

(** The events of the component. *)
Inductive Op :=
| OpRolesLoaded (ready : bool) (r : result Json)
| OpDetailsLoaded (r : result Json)
| OpViewDetails (index : nat)
| OpSearchInput (v : jsstr)
| OpSearch
| OpOpenAdd
| OpOpenEdit
| OpChangeModal (f : ModalField) (value : jsstr)
| OpFinish
| OpFinishTimeout (ready : bool) (settled : Settlement) (reload : result Json)
| OpCancel
| OpModalClose.

(** Whether the rendered tree lets the user fire an event: a row button
    exists for each row, the Edit and Update buttons and the address
    input are disabled as rendered, and the modal's controls exist only
    while it is open. When the render throws, nothing is on screen. *)
Definition enabled (s : State) (op : Op) : bool :=
  match view s with
  | Throw _ => false
  | Ok v =>
      match op with
      | OpRolesLoaded _ _ | OpDetailsLoaded _ | OpFinishTimeout _ _ _ => true
      | OpViewDetails i => bool_decide (i < length v.(rows))
      | OpSearchInput _ | OpSearch | OpOpenAdd => true
      | OpOpenEdit => negb v.(edit_disabled)
      | OpChangeModal MAddress _ => v.(modal_open) && negb v.(address_input_disabled)
      | OpChangeModal _ _ | OpModalClose => v.(modal_open)
      | OpFinish => v.(modal_open) && negb v.(update_disabled)
      | OpCancel => v.(modal_open)
      end
  end.

(** An event's handler, with the array [OpFinish] hands to [updateRoles]
    in its timeout. A handler that throws keeps what its setters did
    before the exception: React reports the error and the page stays. *)
Definition apply_op (s : State) (op : Op) : State * option (list Json) :=
  match op with
  | OpRolesLoaded ready r => (getRolesOnContractReady ready s r, None)
  | OpDetailsLoaded r => (getAddressDetailsOnSelect s r, None)
  | OpViewDetails i => (match onViewDetails i s with Ok s' => s' | Throw _ => s end, None)
  | OpSearchInput v => (setAddressSearchValue v s, None)
  | OpSearch => ((onSearchAddress s).1, None)
  | OpOpenAdd => (onOpenAddModal s, None)
  | OpOpenEdit => (onOpenEditModal s, None)
  | OpChangeModal f v => (onChangeModalData f v s, None)
  | OpFinish =>
      let '(s', r) := onModalFinish s in
      match r, s'.(rolesData) with
      | Ok _, JArr items => (s', Some items)
      | _, _ => (s', None)
      end
  | OpFinishTimeout ready settled reload => (finishTimeout ready s settled reload, None)
  | OpCancel => (cancelModal s, None)
  | OpModalClose => (onModalClose s, None)
  end.

(** A session on the roles manager, with the arrays sent to [updateRoles]. *)
Definition run_ui : State -> list Op -> State * list (list Json) :=
  session enabled (fun s op => let '(s', w) := apply_op s op in (s', option_list w)).

(** ** The upsert against a reference definition *)

Definition is_null (v : Json) : bool := if v is JNull then true else false.

(** [item.address === a] for an item that is not [null]. *)
Definition matches (a : Json) (item : Json) : bool :=
  match item with
  | JObj f => strict_eq (get f (js "address")) (Some a)
  | _ => strict_eq None (Some a)
  end.

(** Replace the first entry with the address, or append. *)
Fixpoint upsert_ref (items : list Json) (m : ModalData) : list Json :=
  match items with
  | [] => [role_obj m]
  | x :: rest => if matches m.(m_address) x then role_obj m :: rest else x :: upsert_ref rest m
  end.

Definition count_address (a : Json) (items : list Json) : nat :=
  length (filter (fun x => matches a x = true) items).

(** ** The roles table as a finite map

    What the roles page promises: a table from addresses to role entries,
    where [onModalFinish] is an insertion and the search a lookup.  An
    array of role entries stands for the map from each string address to
    the first entry carrying it; an array holding [null] stands for no
    table, since [find] and [findIndex] throw on it. *)

(** The string address of an entry, when it has one. *)
Definition entry_key (x : Json) : option jsstr :=
  match x with
  | JObj f => if get f (js "address") is Some (JStr a) then Some a else None
  | _ => None
  end.

Fixpoint roles_map (items : list Json) : gmap jsstr Json :=
  match items with
  | [] => ∅
  | x :: rest =>
      match entry_key x with
      | Some a => <[a := x]> (roles_map rest)
      | None => roles_map rest
      end
  end.

Definition roles_abs (r : Json) : option (gmap jsstr Json) :=
  match r with
  | JArr items => if forallb (fun x => negb (is_null x)) items then Some (roles_map items) else None
  | _ => None
  end.

Lemma item_prop_address (item a : Json) :
  is_null item = false ->
  exists p, item_prop item (js "address") = Ok p /\ strict_eq p (Some a) = matches a item.
Proof. destruct item; try done; intros _; eexists; split; reflexivity. Qed.

Lemma find_index_shift (items : list Json) (a : Json) (i : nat) :
  Forall (fun x => is_null x = false) items ->
  find_index items a (S i) = fmap (M:=result) (fun r : option nat => fmap (M:=option) S r) (find_index items a i).
Proof.
  intros Hn. revert i. induction Hn as [|x items Hx Hn IH]; intros i; [done|]. cbn [find_index].
  destruct (item_prop_address x a Hx) as (p & -> & Hp). simpl. rewrite Hp.
  destruct (matches a x); [done|]. apply IH.
Qed.

(** [findIndex] and the indexed assignment compute [upsert_ref]. *)
Lemma upsert_spec (items : list Json) (m : ModalData) :
  Forall (fun x => is_null x = false) items -> upsert items m = Ok (upsert_ref items m).
Proof.
  unfold upsert. induction 1 as [|x items Hx Hn IH]; [done|]. cbn [find_index upsert_ref].
  destruct (item_prop_address x m.(m_address) Hx) as (p & -> & Hp). simpl. rewrite Hp.
  destruct (matches m.(m_address) x); [done|].
  rewrite find_index_shift by done.
  destruct (find_index items m.(m_address) 0) as [[i|]|e]; simpl in *; try discriminate; injection IH as <-; done.
Qed.

Lemma matches_role_obj (m : ModalData) (a : jsstr) :
  matches (JStr a) (role_obj m) = strict_eq (Some m.(m_address)) (Some (JStr a)).
Proof. reflexivity. Qed.

Lemma find_item_upsert_ref (items : list Json) (m : ModalData) (a : jsstr) :
  Forall (fun x => is_null x = false) items -> m.(m_address) = JStr a ->
  find_item (upsert_ref items m) (Some (JStr a)) = Ok (Some (role_obj m)).
Proof.
  intros Hn Ha. induction Hn as [|x items Hx Hn IH]; cbn [upsert_ref].
  - simpl. rewrite Ha. simpl. by rewrite bool_decide_true.
  - rewrite Ha. destruct (matches (JStr a) x) eqn:Hm.
    + simpl. rewrite Ha. simpl. by rewrite bool_decide_true.
    + cbn [find_item]. destruct (item_prop_address x (JStr a) Hx) as (p & -> & Hp). simpl.
      rewrite Hp, Hm. exact IH.
Qed.

Lemma count_address_cons (a x : Json) (l : list Json) :
  count_address a (x :: l) = (if matches a x then 1 else 0) + count_address a l.
Proof.
  unfold count_address. rewrite filter_cons.
  destruct (matches a x); [rewrite decide_True by done|rewrite decide_False by done]; done.
Qed.

(** An entry has one address. *)
Lemma matches_unique (x : Json) (a b : jsstr) :
  matches (JStr a) x = true -> matches (JStr b) x = true -> a = b.
Proof.
  destruct x; try done. cbn [matches]. destruct (get fields (js "address")) as [[]|]; try done.
  cbn [strict_eq]. intros Ha Hb. apply bool_decide_eq_true in Ha, Hb. congruence.
Qed.

Lemma count_upsert_ref (items : list Json) (m : ModalData) (a : jsstr) :
  m.(m_address) = JStr a ->
  count_address (JStr a) (upsert_ref items m) = Nat.max 1 (count_address (JStr a) items) /\
  forall b, b <> a -> count_address (JStr b) (upsert_ref items m) = count_address (JStr b) items.
Proof.
  intros Ha. assert (forall b, matches (JStr b) (role_obj m) = bool_decide (a = b)) as Hr.
  { intros b. by rewrite matches_role_obj, Ha. }
  induction items as [|x items [IHa IHb]]; cbn [upsert_ref]; rewrite ?Ha.
  - split; [rewrite count_address_cons, Hr, bool_decide_true by done; done|].
    intros b Hb. rewrite count_address_cons, Hr, bool_decide_false by congruence. done.
  - destruct (matches (JStr a) x) eqn:Hx.
    + rewrite !count_address_cons, Hr, bool_decide_true, Hx by done. split; [lia|].
      intros b Hb. rewrite !count_address_cons, Hr, bool_decide_false by congruence.
      destruct (matches (JStr b) x) eqn:Hbx; [|done]. by destruct Hb; apply (matches_unique x b a).
    + rewrite !count_address_cons, Hx. split; [rewrite IHa; lia|].
      intros b Hb. rewrite !count_address_cons, IHb by done. done.
Qed.

Lemma find_item_none (items : list Json) (a : Json) :
  Forall (fun x => is_null x = false) items -> count_address a items = 0 ->
  find_item items (Some a) = Ok None.
Proof.
  induction 1 as [|x items Hx Hn IH]; [done|]. rewrite count_address_cons. intros Hc.
  cbn [find_item]. destruct (item_prop_address x a Hx) as (p & -> & Hp). simpl. rewrite Hp.
  destruct (matches a x); [lia|]. apply IH. lia.
Qed.

Lemma matches_key (a : jsstr) (x : Json) : matches (JStr a) x = bool_decide (entry_key x = Some a).
Proof.
  destruct x as [| | | | |f]; try done. cbn [matches entry_key].
  destruct (get f (js "address")) as [[| | | | |]|]; cbn [strict_eq]; try done.
  apply bool_decide_ext. split; congruence.
Qed.

Lemma forallb_not_null (items : list Json) :
  forallb (fun x => negb (is_null x)) items = true <-> Forall (fun x => is_null x = false) items.
Proof.
  rewrite forallb_forall, Forall_forall.
  split; intros H x Hx; [apply list_elem_of_In in Hx|apply list_elem_of_In in Hx];
    specialize (H x Hx); by destruct (is_null x).
Qed.

Lemma roles_abs_arr (items : list Json) (M : gmap jsstr Json) :
  roles_abs (JArr items) = Some M <-> Forall (fun x => is_null x = false) items /\ roles_map items = M.
Proof.
  cbn [roles_abs]. rewrite <- forallb_not_null.
  destruct (forallb _ items); split; try naive_solver.
Qed.

(** The search reads the map. *)
Lemma find_item_lookup (items : list Json) (a : jsstr) :
  Forall (fun x => is_null x = false) items ->
  find_item items (Some (JStr a)) = Ok (roles_map items !! a).
Proof.
  induction 1 as [|x items Hx Hn IH]; [done|]. cbn [find_item roles_map].
  destruct (item_prop_address x (JStr a) Hx) as (p & -> & Hp). simpl. rewrite Hp, matches_key.
  case_bool_decide as Hk.
  - by rewrite Hk, lookup_insert_eq.
  - rewrite IH. destruct (entry_key x) as [b|]; [|done].
    rewrite lookup_insert_ne; [done|congruence].
Qed.

(** The reference upsert is the map insertion. *)
Lemma roles_map_upsert_ref (items : list Json) (m : ModalData) (a : jsstr) :
  m.(m_address) = JStr a ->
  roles_map (upsert_ref items m) = <[a := role_obj m]> (roles_map items).
Proof.
  intros Ha. assert (entry_key (role_obj m) = Some a) as Hr by (cbn; by rewrite Ha).
  induction items as [|x items IH]; cbn [upsert_ref roles_map]; rewrite ?Ha, ?Hr; [done|].
  rewrite matches_key. case_bool_decide as Hk.
  - cbn [roles_map]. by rewrite Hr, Hk, insert_insert_eq.
  - cbn [roles_map]. rewrite IH. destruct (entry_key x) as [b|]; [|done].
    rewrite insert_insert_ne; [done|congruence].
Qed.

Lemma upsert_ref_not_null (items : list Json) (m : ModalData) :
  Forall (fun x => is_null x = false) items -> Forall (fun x => is_null x = false) (upsert_ref items m).
Proof.
  induction 1 as [|x items Hx Hn IH]; cbn [upsert_ref]; [by repeat constructor|].
  case_match; by repeat constructor.
Qed.

(** C32: [onModalFinish] refines the insertion into the roles table:
    when the roles array stands for the map [M] and the modal holds the
    string address [a], the handler succeeds, the new array stands for
    [M] with [a] bound to the entry built from the modal, and searching
    any address in it finds what that map holds. *)
Theorem modal_finish_refines (s : State) (M : gmap jsstr Json) (a : jsstr) :
  roles_abs s.(rolesData) = Some M -> s.(modalData).(m_address) = JStr a ->
  (onModalFinish s).2 = Ok tt /\
  roles_abs (onModalFinish s).1.(rolesData) = Some (<[a := role_obj s.(modalData)]> M) /\
  forall b, as_array (onModalFinish s).1.(rolesData) "find" ≫= (fun items => find_item items (Some (JStr b))) =
    Ok (<[a := role_obj s.(modalData)]> M !! b).
Proof.
  intros Hr Ha. destruct (rolesData s) as [| | | |items|] eqn:Hd; try done.
  apply roles_abs_arr in Hr as [Hn <-].
  unfold onModalFinish. rewrite Hd. cbn [as_array mbind result_bind].
  rewrite upsert_spec by done. cbn [rolesData fst snd].
  assert (roles_abs (JArr (upsert_ref items (modalData s))) =
    Some (<[a := role_obj s.(modalData)]> (roles_map items))) as Habs.
  { apply roles_abs_arr. split; [by apply upsert_ref_not_null|by apply roles_map_upsert_ref]. }
  split_and!; [done|done|]. intros b. cbn [rolesData with_roles as_array mbind result_bind].
  rewrite find_item_lookup by (by apply upsert_ref_not_null). by rewrite (roles_map_upsert_ref _ _ a).
Qed.

Lemma find_index_bound (items : list Json) (a : Json) (j i : nat) :
  find_index items a j = Ok (Some i) -> j <= i < j + length items.
Proof.
  revert j. induction items as [|x items IH]; intros j; cbn [find_index]; [done|].
  destruct (item_prop x (js "address")) as [p|e]; cbn; [|done].
  destruct (strict_eq p (Some a)); [intros [= ->]; cbn; lia|].
  intros H. apply IH in H. cbn. lia.
Qed.

(** The array [onModalFinish] builds holds the modal's entry. *)
Lemma upsert_elem (items items' : list Json) (m : ModalData) :
  upsert items m = Ok items' -> role_obj m ∈ items'.
Proof.
  unfold upsert. destruct (find_index items (m_address m) 0) as [[i|]|e] eqn:Hi; cbn; [|intros [= <-]|done].
  - intros [= <-]. apply find_index_bound in Hi.
    apply list_elem_of_lookup_2 with i. apply list_lookup_insert_eq. lia.
  - apply elem_of_app. right. by left.
Qed.

(** An entry the Update button can store: both its address and its role
    are truthy. *)
Definition stored_entry_ok (items : list Json) : Prop :=
  exists m, role_obj m ∈ items /\ truthy m.(m_address) = true /\ truthy m.(m_role) = true.

Lemma apply_op_sent (s : State) (op : Op) (items : list Json) :
  enabled s op = true -> (apply_op s op).2 = Some items -> stored_entry_ok items.
Proof.
  unfold enabled. destruct (view s) as [v|] eqn:Hv; [|done].
  destruct op; cbn [apply_op snd]; intros Hen Hw; try discriminate.
  unfold onModalFinish in Hw.
  destruct (as_array (rolesData s) "findIndex" ≫= (fun items0 => upsert items0 (modalData s))) as [l|] eqn:Hu;
    cbn in Hw; [|done]. injection Hw as <-.
  destruct (rolesData s); try done. cbn in Hu.
  exists (modalData s). split; [by eapply upsert_elem|].
  unfold view in Hv. destruct (table_rows _) in Hv; [|done]. injection Hv as <-. cbn in Hen.
  apply andb_true_iff in Hen as [_ Hen].
  destruct (truthy (m_role _)), (truthy (m_address _)); done.
Qed.

(** Every array a session on the roles manager hands to [updateRoles]
    holds an entry built by the modal whose address and role are both
    truthy: the Update button is disabled otherwise. *)
Lemma roles_session_sends_entries (s : State) (ops : list Op) :
  Forall stored_entry_ok (run_ui s ops).2.
Proof.
  apply (session_inv _ _ (fun _ => True)); [|done]. intros s0 op _ Hen. split; [done|].
  destruct (apply_op s0 op) as [s' [items|]] eqn:Hop; cbn; [|constructor].
  constructor; [|constructor]. apply (apply_op_sent s0 op); [done|by rewrite Hop].
Qed.

(** After [onModalFinish] stores a role for an address, searching
    that address shows the role just stored: the upsert puts the new entry
    first among the entries with its address. *)
Theorem modal_finish_then_search (s : State) (items : list Json) (a : jsstr) :
  s.(rolesData) = JArr items -> Forall (fun x => is_null x = false) items ->
  s.(modalData).(m_address) = JStr a ->
  (onModalFinish s).2 = Ok tt /\
  (onSearchAddress (setAddressSearchValue a (onModalFinish s).1)).1.(selectedAddress) = Some (JStr a) /\
  (onSearchAddress (setAddressSearchValue a (onModalFinish s).1)).1.(selectedAddressRole) =
    Some s.(modalData).(m_role).
Proof.
  intros Hr Hn Ha. unfold onModalFinish. rewrite Hr. cbn [as_array mbind result_bind].
  rewrite upsert_spec by done. split; [done|].
  unfold onSearchAddress. cbn [fst snd rolesData setAddressSearchValue with_roles addressSearchValue
    as_array mbind result_bind]. rewrite find_item_upsert_ref by done. done.
Qed.

(** [onModalFinish] keeps one entry per address: the modal's address
    ends up with [max 1 n] entries where it had [n], and every other
    address keeps its count. *)
Theorem modal_finish_count (s : State) (items : list Json) (a b : jsstr) :
  s.(rolesData) = JArr items -> Forall (fun x => is_null x = false) items ->
  s.(modalData).(m_address) = JStr a ->
  exists items', (onModalFinish s).1.(rolesData) = JArr items' /\
    count_address (JStr a) items' = Nat.max 1 (count_address (JStr a) items) /\
    (b <> a -> count_address (JStr b) items' = count_address (JStr b) items).
Proof.
  intros Hr Hn Ha. unfold onModalFinish. rewrite Hr. cbn [as_array mbind result_bind].
  rewrite upsert_spec by done. eexists; split; [reflexivity|].
  destruct (count_upsert_ref items s.(modalData) a Ha) as [H1 H2]. split; [done|]. apply H2.
Qed.

(** Searching an address no entry has selects that address but keeps
    the role shown for the previous selection. *)
Theorem search_unknown_keeps_role (s : State) (items : list Json) (a : Json) :
  s.(rolesData) = JArr items -> Forall (fun x => is_null x = false) items ->
  s.(addressSearchValue) = Some a -> count_address a items = 0 ->
  (onSearchAddress s).2 = Ok tt /\
  (onSearchAddress s).1.(selectedAddress) = Some a /\
  (onSearchAddress s).1.(selectedAddressRole) = s.(selectedAddressRole).
Proof.
  intros Hr Hn Ha Hc. unfold onSearchAddress. rewrite Hr, Ha. cbn [as_array mbind result_bind].
  by rewrite find_item_none.
Qed.

(** ** Concrete runs *)

Definition role_entry (addr role : string) : Json :=
  JObj [(js "address", JStr (js addr)); (js "name", JStr []); (js "role", JStr (js role))].
Definition demo_roles : list Json := [role_entry "5Alice" "farmer"; role_entry "5Bob" "miller"].
Definition demo_manager (modal_addr search : string) : State :=
  mkState (JArr demo_roles) false true
    (mkModal false (JStr (js modal_addr)) (JStr (js "Bob")) (JStr (js "carrier")))
    (Some (JStr (js "5Alice"))) (Some (JStr (js "farmer"))) (Some (JStr (js search))) JNull None.

Lemma modal_finish_then_search_witness :
  let s := demo_manager "5Bob" "" in
  (onModalFinish s).2 = Ok tt /\
  (onSearchAddress (setAddressSearchValue (js "5Bob") (onModalFinish s).1)).1.(selectedAddress) =
    Some (JStr (js "5Bob")) /\
  (onSearchAddress (setAddressSearchValue (js "5Bob") (onModalFinish s).1)).1.(selectedAddressRole) =
    Some s.(modalData).(m_role).
Proof. apply (modal_finish_then_search _ demo_roles); [reflexivity|by repeat constructor|reflexivity]. Defined.

Lemma modal_finish_count_witness :
  exists items', (onModalFinish (demo_manager "5Bob" "")).1.(rolesData) = JArr items' /\
    count_address (JStr (js "5Bob")) items' = Nat.max 1 (count_address (JStr (js "5Bob")) demo_roles) /\
    (js "5Alice" <> js "5Bob" -> count_address (JStr (js "5Alice")) items' =
       count_address (JStr (js "5Alice")) demo_roles).
Proof. apply modal_finish_count; [reflexivity|by repeat constructor|reflexivity]. Defined.

Lemma modal_finish_refines_witness :
  let s := demo_manager "5Carol" "" in
  (onModalFinish s).2 = Ok tt /\
  roles_abs (onModalFinish s).1.(rolesData) =
    Some (<[js "5Carol" := role_obj s.(modalData)]> (roles_map demo_roles)) /\
  forall b, as_array (onModalFinish s).1.(rolesData) "find" ≫= (fun items => find_item items (Some (JStr b))) =
    Ok (<[js "5Carol" := role_obj s.(modalData)]> (roles_map demo_roles) !! b).
Proof. apply modal_finish_refines; reflexivity. Defined.

Lemma search_unknown_keeps_role_witness :
  let s := demo_manager "5Bob" "5Carol" in
  (onSearchAddress s).2 = Ok tt /\
  (onSearchAddress s).1.(selectedAddress) = Some (JStr (js "5Carol")) /\
  (onSearchAddress s).1.(selectedAddressRole) = s.(selectedAddressRole).
Proof.
  apply (search_unknown_keeps_role _ demo_roles (JStr (js "5Carol")));
    [reflexivity|by repeat constructor|reflexivity|reflexivity].
Defined.

End RolesManager.
