(* ===== verification/Tokens.v ===== *)
(** * The token editor, the profile editor and the metadata store

    [components/TokenEditor/index.js], [components/AccountMetadata/index.js]
    and [store/StoreContext.js] with [store/useStore.js]. The edit modals
    hold plain objects ([Fields]) built with spread syntax; what a save
    sends to the contract is [JSON.stringify] of that object, so the model
    states it as the object. The token editor has one setter per state
    hook; its handlers take how each awaited helper settled. Its events
    form an [Op] type run by [run] (every handler) and by [run_ui] (a
    session on the rendered [view], where disabled controls ignore
    clicks), with the contract writes each event sends. *)

From Stdlib Require Import QArith.
From S2P Require Import Prelude ContractCalls JsObject.
Import ContractCalls JsObject.

(** ** [store/StoreContext.js] and [store/useStore.js] *)

Module StoreContext.

Record State := mkState { accountMetadata : Json }.

(** [INIT_STATE] *)
Definition INIT_STATE : State := mkState JNull.

Inductive Action :=
| SET_ACCOUNT_METADATA (payload : Json)
| Other (type : string).

(** The reducer: one case, and the [default:] branch throws. *)
Definition reducer (s : State) (a : Action) : result State :=
  match a with
  | SET_ACCOUNT_METADATA p => Ok (mkState p)
  | Other t => Throw ("Unknown type: " ++ t)%string
  end.

(** [useStore().setAccountMetadata] *)
Definition setAccountMetadata (s : State) (m : Json) : result State :=
  reducer s (SET_ACCOUNT_METADATA m).

End StoreContext.

(** ** [components/AccountMetadata/index.js] *)

Module AccountMetadata.

Record State := mkState {
  store : StoreContext.State;
  isEditModalOpen : bool;
  isEditModalLoading : bool;
  editModalData : Fields
}.

Definition empty_profile : Fields :=
  [(js "name", JStr []); (js "location", JStr []); (js "phone", JStr []); (js "email", JStr [])].

Definition init : State := mkState StoreContext.INIT_STATE false false empty_profile.

(** [getMetadataOnAccountSelect], given how [getAccountMetadata] settled:
    the metadata, or [null] when it rejected, goes to the shared store. *)
Definition getMetadataOnAccountSelect (s : State) (r : result Json) : result State :=
  st ← StoreContext.setAccountMetadata s.(store) (match r with Ok m => m | Throw _ => JNull end);
  Ok (mkState st s.(isEditModalOpen) s.(isEditModalLoading) s.(editModalData)).

(** [onOpenEditModal]: [{ ...editModalData, ...accountMetadata }]. *)
Definition onOpenEditModal (s : State) : State :=
  mkState s.(store) true s.(isEditModalLoading)
    (spread (spread [] (JObj s.(editModalData))) s.(store).(StoreContext.accountMetadata)).

(** [onChangeEditModalData(field)] *)
Definition onChangeEditModalData (field value : jsstr) (s : State) : State :=
  mkState s.(store) s.(isEditModalOpen) s.(isEditModalLoading)
    (set (spread [] (JObj s.(editModalData))) field (JStr value)).

(** The modal's [onClose] and its Cancel button (disabled while
    loading): [!isEditModalLoading && setEditModalOpen(false)]. *)
Definition closeEditModal (s : State) : State :=
  if s.(isEditModalLoading) then s
  else mkState s.(store) false s.(isEditModalLoading) s.(editModalData).

(** What [updateAccountMetadata(accountAddress, editModalData)] writes. *)
Definition saved_profile (s : State) : Json := JObj s.(editModalData).

(** [onSaveEditModalData], given how the update settled and what the
    reload returned. *)
Definition onSaveEditModalData (s : State) (settled : Settlement) (reload : result Json) : result State :=
  match settled with
  | Pending => Ok (mkState s.(store) s.(isEditModalOpen) true s.(editModalData))
  | Rejected _ => Ok (mkState s.(store) s.(isEditModalOpen) false s.(editModalData))
  | Resolved _ =>
      s1 ← getMetadataOnAccountSelect s reload;
      Ok (mkState s1.(store) false false s1.(editModalData))
  end.

(** ** What the profile editor renders *)

Record View := mkView {
  name_text : Json;
  role_text : Json;
  location_text : Json;
  modal_open : bool;
  modal_values : list (option Json);
  actions_disabled : bool
}.

(** The four form fields of the modal, in the order of its inputs. *)
Definition profile_keys : list jsstr := [js "name"; js "location"; js "phone"; js "email"].

(** The render; the Blockchain Address label shows [accountAddress] of
    the connection store, which this component does not hold. *)
Definition view (s : State) : View :=
  let md := s.(store).(StoreContext.accountMetadata) in
  mkView (guarded_prop md (js "name") (JStr [])) (guarded_prop md (js "role") (JStr []))
    (guarded_prop md (js "location") (JStr [])) s.(isEditModalOpen)
    (map (get s.(editModalData)) profile_keys) s.(isEditModalLoading).

Inductive Op :=
| OpLoaded (r : result Json)
| OpOpenEdit
| OpChange (field value : jsstr)
| OpSave (settled : Settlement) (reload : result Json)
| OpClose.

(** The Edit button is always there; the inputs and actions exist while
    the modal is open, and Cancel and Update are disabled while a save
    runs. *)
Definition enabled (s : State) (op : Op) : bool :=
  let v := view s in
  match op with
  | OpLoaded _ | OpOpenEdit => true
  | OpChange _ _ | OpClose => v.(modal_open)
  | OpSave _ _ => v.(modal_open) && negb v.(actions_disabled)
  end.

(** An event's handler, with the profile [onSaveEditModalData] hands to
    [updateAccountMetadata]. *)
Definition ui_step (s : State) (op : Op) : State * list Json :=
  let keep r := match r with Ok s' => s' | Throw _ => s end in
  match op with
  | OpLoaded r => (keep (getMetadataOnAccountSelect s r), [])
  | OpOpenEdit => (onOpenEditModal s, [])
  | OpChange f v => (onChangeEditModalData f v s, [])
  | OpSave settled reload => (keep (onSaveEditModalData s settled reload), [saved_profile s])
  | OpClose => (closeEditModal s, [])
  end.

Definition run_ui : State -> list Op -> State * list Json := session enabled ui_step.

(** The form: distinct keys, the four fields among them. *)
Definition form_ok (f : Fields) : Prop :=
  NoDup f.*1 /\ Forall (fun k => is_Some (get f k)) profile_keys.

(** Opening the profile editor shows, for each field, the value the
    selected account's metadata gives it, and otherwise the value the
    modal held before: a field the new account's metadata lacks keeps what
    was shown for the previously selected account, and a save writes it
    into the new account's profile. *)
Theorem profile_modal_fields (s : State) (m : Json) (k : jsstr) :
  NoDup s.(editModalData).*1 ->
  exists s1, getMetadataOnAccountSelect s (Ok m) = Ok s1 /\
  get (onOpenEditModal s1).(editModalData) k =
    match last_get (own_props m) k with Some v => Some v | None => get s.(editModalData) k end.
Proof.
  intros Hnd. eexists; split; [reflexivity|]. cbn [onOpenEditModal editModalData store].
  rewrite get_spread. cbn. destruct (last_get (own_props m) k); [done|].
  by apply get_spread_obj.
Qed.

Lemma form_ok_spread (f : Fields) (v : Json) : form_ok f -> form_ok (spread (spread [] (JObj f)) v).
Proof.
  intros [Hnd Hk]. split; [apply NoDup_spread, NoDup_spread; constructor|].
  eapply Forall_impl; [exact Hk|]. intros k Hs. apply get_spread_is_Some. by rewrite get_spread_obj.
Qed.

Lemma form_ok_set (f : Fields) (k : jsstr) (v : Json) : form_ok f -> form_ok (set (spread [] (JObj f)) k v).
Proof.
  intros [Hnd Hk]. split; [apply NoDup_set, NoDup_spread; constructor|].
  eapply Forall_impl; [exact Hk|]. intros k' Hs. apply get_set_is_Some. by rewrite get_spread_obj.
Qed.

Lemma ui_step_form (s : State) (op : Op) :
  form_ok s.(editModalData) -> form_ok (ui_step s op).1.(editModalData).
Proof.
  intros Hf. destruct op; cbn [ui_step fst];
    unfold getMetadataOnAccountSelect, onSaveEditModalData, closeEditModal;
    repeat case_match; simplify_eq/=; auto using form_ok_spread, form_ok_set.
Qed.

(** Every profile a session on the profile editor sends to
    [updateAccountMetadata] is an object with distinct keys that has the
    four fields of the form: spread and assignment never drop a field. *)
Lemma profile_session_writes (ops : list Op) :
  Forall (fun p => exists f, p = JObj f /\ form_ok f) (run_ui init ops).2.
Proof.
  apply (session_inv _ _ (fun s => form_ok s.(editModalData))).
  - intros s op Hf _. split; [by apply ui_step_form|].
    destruct op; cbn [ui_step snd]; repeat constructor. by exists s.(editModalData).
  - split; [vm_decide|by repeat constructor].
Qed.

(** ** Concrete runs *)

Definition alice_profile : Fields :=
  [(js "name", JStr (js "Alice")); (js "location", JStr (js "Lyon"));
   (js "phone", JStr []); (js "email", JStr (js "alice@example.org"))].

Lemma profile_modal_fields_witness :
  exists s1, getMetadataOnAccountSelect (mkState StoreContext.INIT_STATE false false alice_profile)
    (Ok (JObj [(js "name", JStr (js "Bob"))])) = Ok s1 /\
  get (onOpenEditModal s1).(editModalData) (js "email") =
    match last_get (own_props (JObj [(js "name", JStr (js "Bob"))])) (js "email") with
    | Some v => Some v | None => get alice_profile (js "email") end.
Proof. apply (profile_modal_fields (mkState _ false false alice_profile)). vm_decide. Defined.

End AccountMetadata.

(** ** [components/TokenEditor/index.js] *)

Module TokenEditor.

(** The component's [useState] hooks. *)
Record State := mkState {
  tokensList : list jsstr;
  isTokensListLoading : bool;
  selectedToken : Json;
  tokenMetadata : Json;
  isTokenMetadataLoading : bool;
  tokenOwner : jsstr;
  mapPosition : Json * Json;
  isEditModalOpen : bool;
  editModalData : Fields;
  isEditModalLoading : bool;
  isTransferModalOpen : bool;
  transferModalData : Fields;
  isTransferModalLoading : bool
}.

(** One setter per hook. *)
Definition set_tokensList (x : list jsstr) (s : State) : State :=
  let 'mkState _ b c d e f g h i j k l m := s in mkState x b c d e f g h i j k l m.
Definition set_isTokensListLoading (x : bool) (s : State) : State :=
  let 'mkState a _ c d e f g h i j k l m := s in mkState a x c d e f g h i j k l m.
Definition set_selectedToken (x : Json) (s : State) : State :=
  let 'mkState a b _ d e f g h i j k l m := s in mkState a b x d e f g h i j k l m.
Definition set_tokenMetadata (x : Json) (s : State) : State :=
  let 'mkState a b c _ e f g h i j k l m := s in mkState a b c x e f g h i j k l m.
Definition set_isTokenMetadataLoading (x : bool) (s : State) : State :=
  let 'mkState a b c d _ f g h i j k l m := s in mkState a b c d x f g h i j k l m.
Definition set_tokenOwner (x : jsstr) (s : State) : State :=
  let 'mkState a b c d e _ g h i j k l m := s in mkState a b c d e x g h i j k l m.
Definition set_mapPosition (x : Json * Json) (s : State) : State :=
  let 'mkState a b c d e f _ h i j k l m := s in mkState a b c d e f x h i j k l m.
Definition set_isEditModalOpen (x : bool) (s : State) : State :=
  let 'mkState a b c d e f g _ i j k l m := s in mkState a b c d e f g x i j k l m.
Definition set_editModalData (x : Fields) (s : State) : State :=
  let 'mkState a b c d e f g h _ j k l m := s in mkState a b c d e f g h x j k l m.
Definition set_isEditModalLoading (x : bool) (s : State) : State :=
  let 'mkState a b c d e f g h i _ k l m := s in mkState a b c d e f g h i x k l m.
Definition set_isTransferModalOpen (x : bool) (s : State) : State :=
  let 'mkState a b c d e f g h i j _ l m := s in mkState a b c d e f g h i j x l m.
Definition set_transferModalData (x : Fields) (s : State) : State :=
  let 'mkState a b c d e f g h i j k _ m := s in mkState a b c d e f g h i j k x m.
Definition set_isTransferModalLoading (x : bool) (s : State) : State :=
  let 'mkState a b c d e f g h i j k l _ := s in mkState a b c d e f g h i j k l x.

(** The defaults [onOpenEditMetadataModal] spreads the metadata over. *)
Definition edit_defaults : Fields :=
  [(js "remarks", JStr []); (js "requiredConditions", JStr []); (js "sensors", JStr []);
   (js "movements", JStr []); (js "photo", JStr []);
   (js "lat", JNum (51505 # 1000)); (js "long", JNum (-9 # 100))].

Definition init : State :=
  mkState [] false (JNum (-1)) JNull false [] (JNum 0, JNum 0) false
    [(js "remarks", JStr []); (js "requiredConditions", JStr []); (js "sensors", JStr []);
     (js "movements", JStr []); (js "photo", JStr []); (js "lat", JNum 0); (js "long", JNum 0)]
    false false [(js "targetAddress", JStr [])] false.

(** [getListOfTokensOnContractReady], given how [listAllTokens] settled. *)
Definition getListOfTokensOnContractReady (ready : bool) (s : State) (r : result (list jsstr)) : State :=
  if negb ready then s
  else set_isTokensListLoading false (set_tokensList (match r with Ok l => l | Throw _ => [] end) s).

(** [(metadata && metadata[k]) || 0] *)
Definition coord (metadata : Json) (k : jsstr) : Json :=
  if truthy metadata then or_default (prop metadata k) (JNum 0) else JNum 0.

(** [getTokenMetadataOnSelect], given how [getTokenMetadata] and then
    [getTokenOwner] settled: a failure of either sets the metadata to
    [null] and leaves the owner and the map as they were. *)
Definition getTokenMetadataOnSelect (s : State) (meta : result Json) (owner : result jsstr) : State :=
  let s' :=
    match meta with
    | Throw _ => set_tokenMetadata JNull s
    | Ok m =>
        let s1 := set_tokenMetadata m s in
        match owner with
        | Throw _ => set_tokenMetadata JNull s1
        | Ok o => set_mapPosition (coord m (js "lat"), coord m (js "long")) (set_tokenOwner o s1)
        end
    end in
  set_isTokenMetadataLoading false s'.

(** The id [onAddNewToken] asks [mintToken] for. *)
Definition mint_id (s : State) : Z := Z.of_nat (length s.(tokensList)) + 2.

(** [onAddNewToken], given how the mint settled and how the reload went. *)
Definition onAddNewToken (ready : bool) (s : State) (settled : Settlement)
    (reload : result (list jsstr)) : State :=
  match settled with
  | Pending => set_isTokensListLoading true s
  | Rejected _ => set_isTokensListLoading false s
  | Resolved _ => set_isTokensListLoading false (getListOfTokensOnContractReady ready s reload)
  end.

(** [onViewDetails(token)] *)
Definition onViewDetails (token : Json) (s : State) : State := set_selectedToken token s.

(** [onOpenEditMetadataModal] *)
Definition onOpenEditMetadataModal (s : State) : State :=
  set_isEditModalOpen true (set_editModalData (spread edit_defaults s.(tokenMetadata)) s).

(** [onChangeEditModalData(field)] *)
Definition onChangeEditModalData (field value : jsstr) (s : State) : State :=
  set_editModalData (set (spread [] (JObj s.(editModalData))) field (JStr value)) s.

(** What [updateTokenMetadata(selectedToken, editModalData)] writes. *)
Definition saved_metadata (s : State) : Json := JObj s.(editModalData).

(** [onSaveEditModalData], given how the update settled and how the reload
    of the metadata went. *)
Definition onSaveEditModalData (s : State) (settled : Settlement)
    (meta : result Json) (owner : result jsstr) : State :=
  match settled with
  | Pending => set_isEditModalLoading true s
  | Rejected _ => set_isEditModalLoading false s
  | Resolved _ =>
      set_isEditModalOpen false (set_isEditModalLoading false (getTokenMetadataOnSelect s meta owner))
  end.

(** The edit modal's [onClose] and its Cancel button (disabled while
    loading): [!isEditModalLoading && setEditModalOpen(false)]. *)
Definition closeEditModal (s : State) : State :=
  if s.(isEditModalLoading) then s else set_isEditModalOpen false s.

(** [onOpenTransferModal] *)
Definition onOpenTransferModal (s : State) : State :=
  set_isTransferModalOpen true (set_transferModalData [(js "targetAddress", JStr [])] s).

(** [onChangeTransferModalData(field)] *)
Definition onChangeTransferModalData (field value : jsstr) (s : State) : State :=
  set_transferModalData (set (spread [] (JObj s.(transferModalData))) field (JStr value)) s.

(** [onFinishTransferModal], given how [transferToken] settled. *)
Definition onFinishTransferModal (s : State) (settled : Settlement) : State :=
  match settled with
  | Pending => set_isTransferModalLoading true s
  | Rejected _ => set_isTransferModalLoading false s
  | Resolved _ => set_isTransferModalOpen false (set_isTransferModalLoading false s)
  end.

(** The transfer modal's [onClose] and its Cancel button (disabled while
    loading). *)
Definition closeTransferModal (s : State) : State :=
  if s.(isTransferModalLoading) then s else set_isTransferModalOpen false s.

(** The upload widget's answer: [result.event] and
    [result.info.secure_url]; [None] is an undefined [result]. *)
Definition UploadResult := option (jsstr * jsstr).

(** [onUploadFinish(error, result)] *)
Definition onUploadFinish (s : State) (res : UploadResult) : result State :=
  match res with
  | None => Throw "Cannot read properties of undefined (reading 'event')"
  | Some (event, url) =>
      if decide (event = js "success") then Ok (set_editModalData [(js "photo", JStr url)] s)
      else Ok s
  end.

(** The options [onUploadFile] passes to [cloudinary.createUploadWidget]. *)
Record WidgetOptions := mkWidgetOptions {
  cloudName : string;
  uploadPreset : string;
  folder : string;
  cropping : bool
}.

(** [onUploadFile]: it creates the widget with these options and
    [onUploadFinish] as its callback, and opens it; each answer of the
    widget is then an [OpUploadFinish] event. *)
Definition onUploadFile : WidgetOptions :=
  mkWidgetOptions "soapbravowork" "t3emetzy" "widgetUpload" true.

(** The events of the component: each handler with what it awaited. *)
Inductive Op :=
| OpListLoaded (ready : bool) (r : result (list jsstr))
| OpMetadataLoaded (meta : result Json) (owner : result jsstr)
| OpAddNewToken (ready : bool) (settled : Settlement) (reload : result (list jsstr))
| OpViewDetails (token : Json)
| OpOpenEdit
| OpChangeEdit (field value : jsstr)
| OpSaveEdit (settled : Settlement) (meta : result Json) (owner : result jsstr)
| OpCloseEdit
| OpOpenTransfer
| OpChangeTransfer (field value : jsstr)
| OpFinishTransfer (settled : Settlement)
| OpCloseTransfer
| OpUploadFinish (res : UploadResult).

Definition apply_op (s : State) (op : Op) : result State :=
  match op with
  | OpListLoaded ready r => Ok (getListOfTokensOnContractReady ready s r)
  | OpMetadataLoaded meta owner => Ok (getTokenMetadataOnSelect s meta owner)
  | OpAddNewToken ready settled reload => Ok (onAddNewToken ready s settled reload)
  | OpViewDetails token => Ok (onViewDetails token s)
  | OpOpenEdit => Ok (onOpenEditMetadataModal s)
  | OpChangeEdit field value => Ok (onChangeEditModalData field value s)
  | OpSaveEdit settled meta owner => Ok (onSaveEditModalData s settled meta owner)
  | OpCloseEdit => Ok (closeEditModal s)
  | OpOpenTransfer => Ok (onOpenTransferModal s)
  | OpChangeTransfer field value => Ok (onChangeTransferModalData field value s)
  | OpFinishTransfer settled => Ok (onFinishTransferModal s settled)
  | OpCloseTransfer => Ok (closeTransferModal s)
  | OpUploadFinish res => onUploadFinish s res
  end.

(** A run of events from a state; an exception stops it. *)
Fixpoint run (s : State) (ops : list Op) : result State :=
  match ops with
  | [] => Ok s
  | op :: ops' => s' ← apply_op s op; run s' ops'
  end.

(** The two plain objects of the state have distinct keys. *)
Definition objects_wf (s : State) : Prop :=
  NoDup s.(editModalData).*1 /\ NoDup s.(transferModalData).*1.

(** ** What the component renders *)

(** [(tokenMetadata && tokenMetadata[k]) || ''] *)
Definition meta_text (metadata : Json) (k : jsstr) : Json :=
  if truthy metadata then or_default (prop metadata k) (JStr []) else JStr [].

(** The controls and texts of the returned tree, read off the state. *)
Record View := mkView {
  new_disabled : bool;
  rows : list jsstr;
  edit_disabled : bool;
  owner_text : jsstr;
  remarks_text : Json;
  conditions_text : Json;
  movements_text : Json;
  map_center : Json * Json;
  transfer_disabled : bool;
  image_src : option Json;
  sensors_text : Json;
  edit_open : bool;
  edit_inputs : list (option Json);
  edit_actions_disabled : bool;
  transfer_open : bool;
  target_value : option Json;
  transfer_actions_disabled : bool
}.

(** The render: [rows] is [tokensList] when it is non-empty, each row with
    its eye button; [image_src] is [None] for the text No image available. *)
Definition view (s : State) : View :=
  let m := s.(tokenMetadata) in
  let unselected := strict_eq (Some s.(selectedToken)) (Some (JNum (-1))) in
  mkView s.(isTokensListLoading)
    (if bool_decide (s.(tokensList) = []) then [] else s.(tokensList))
    (unselected || s.(isTokenMetadataLoading))
    s.(tokenOwner) (meta_text m (js "remarks")) (meta_text m (js "requiredConditions"))
    (meta_text m (js "movements")) s.(mapPosition)
    (unselected || s.(isTokenMetadataLoading) || s.(isTransferModalLoading))
    (if truthy m && truthy (or_default (prop m (js "photo")) JNull) then Some (meta_text m (js "photo")) else None)
    (meta_text m (js "sensors"))
    s.(isEditModalOpen)
    (map (get s.(editModalData))
       [js "remarks"; js "requiredConditions"; js "sensors"; js "movements"; js "photo"; js "lat"; js "long"])
    s.(isEditModalLoading)
    s.(isTransferModalOpen) (get s.(transferModalData) (js "targetAddress"))
    s.(isTransferModalLoading).

(** Whether the user can fire an event on the rendered tree: a disabled
    button ignores clicks, a row button exists only for a listed token,
    and the inputs and buttons of a modal exist only while it is open.
    The effects and the settlements of awaited calls are not gated. *)
Definition enabled (s : State) (op : Op) : bool :=
  let v := view s in
  match op with
  | OpListLoaded _ _ | OpMetadataLoaded _ _ => true
  | OpAddNewToken _ _ _ => negb v.(new_disabled)
  | OpViewDetails token => if token is JStr t then bool_decide (t ∈ v.(rows)) else false
  | OpOpenEdit => negb v.(edit_disabled)
  | OpChangeEdit _ _ | OpCloseEdit | OpUploadFinish _ => v.(edit_open)
  | OpSaveEdit _ _ _ => v.(edit_open) && negb v.(edit_actions_disabled)
  | OpOpenTransfer => negb v.(transfer_disabled)
  | OpChangeTransfer _ _ | OpCloseTransfer => v.(transfer_open)
  | OpFinishTransfer _ => v.(transfer_open) && negb v.(transfer_actions_disabled)
  end.

(** The writes the handlers send to the token contract. *)
Inductive Write :=
| WMint (id : Z)
| WUpdate (token : Json) (metadata : Json)
| WTransfer (target : option Json) (token : Json).

Definition op_writes (s : State) (op : Op) : list Write :=
  match op with
  | OpAddNewToken _ _ _ => [WMint (mint_id s)]
  | OpSaveEdit _ _ _ => [WUpdate s.(selectedToken) (saved_metadata s)]
  | OpFinishTransfer _ => [WTransfer (get s.(transferModalData) (js "targetAddress")) s.(selectedToken)]
  | _ => []
  end.

(** One event of a session, with the writes it sends. The only handler
    that throws, [onUploadFinish], throws before any setter runs, and the
    page stays, so the session goes on from the same state. *)
Definition ui_step (s : State) (op : Op) : State * list Write :=
  (match apply_op s op with Ok s' => s' | Throw _ => s end, op_writes s op).

(** A session: the events the user fires, each ignored when its control
    is disabled or absent. *)
Definition run_ui : State -> list Op -> State * list Write := session enabled ui_step.

(** A token id as the table lists it: a string. *)
Definition is_token (v : Json) : bool := if v is JStr _ then true else false.

(** The selection is the initial [-1] or a listed token, and it is a token
    while a modal is open. *)
Definition ui_inv (s : State) : Prop :=
  (s.(selectedToken) = JNum (-1) \/ is_token s.(selectedToken) = true) /\
  (s.(isEditModalOpen) = true -> is_token s.(selectedToken) = true) /\
  (s.(isTransferModalOpen) = true -> is_token s.(selectedToken) = true).

Definition write_ok (w : Write) : Prop :=
  match w with
  | WMint _ => True
  | WUpdate token _ | WTransfer _ token => is_token token = true
  end.

(** An upload that succeeds replaces the whole edit form with
    [{ photo }]: the remarks, conditions, sensors, movements and position
    the form held (from the token's metadata or the defaults) are dropped,
    and a save writes a metadata object with the photo alone. *)
Theorem upload_drops_metadata (s : State) (url : jsstr) :
  is_Some (get (onOpenEditMetadataModal s).(editModalData) (js "remarks")) /\
  exists s2, onUploadFinish (onOpenEditMetadataModal s) (Some (js "success", url)) = Ok s2 /\
  saved_metadata s2 = JObj [(js "photo", JStr url)] /\
  (forall k, k <> js "photo" -> get s2.(editModalData) k = None).
Proof.
  split.
  - destruct s. cbn [onOpenEditMetadataModal set_editModalData set_isEditModalOpen editModalData].
    rewrite get_spread. destruct (last_get _ _); [by eexists|by eexists].
  - unfold onUploadFinish. rewrite decide_True by done. eexists; split; [reflexivity|].
    destruct s. split; [reflexivity|]. intros k Hk. cbn. by rewrite decide_False.
Qed.

(** When [getTokenOwner] fails after the metadata of the newly selected
    token was read, the metadata is dropped but the owner and the map
    position of the previously selected token stay on screen. *)
Lemma owner_failure_keeps_previous (s : State) (m : Json) (e : string) :
  let s' := getTokenMetadataOnSelect s (Ok m) (Throw e) in
  s'.(tokenMetadata) = JNull /\ s'.(tokenOwner) = s.(tokenOwner) /\
  s'.(mapPosition) = s.(mapPosition) /\ s'.(isTokenMetadataLoading) = false.
Proof. by destruct s. Qed.

Lemma objects_wf_init : objects_wf init.
Proof. split; vm_decide. Qed.

Lemma edit_defaults_NoDup : NoDup edit_defaults.*1.
Proof. vm_decide. Qed.

(** Every handler keeps the two objects well formed: the spreads and
    assignments of [JsObject.v] never repeat a key. *)
(** Unfold the handler an event runs in hypothesis [H] and split on every
    settlement and answer it depends on. *)
Ltac token_handlers H :=
  unfold getListOfTokensOnContractReady, getTokenMetadataOnSelect, onAddNewToken, onViewDetails,
    onOpenEditMetadataModal, onChangeEditModalData, onSaveEditModalData, closeEditModal,
    onOpenTransferModal, onChangeTransferModalData, onFinishTransferModal, closeTransferModal,
    onUploadFinish in H;
  repeat case_match; simplify_eq/=;
  unfold getListOfTokensOnContractReady, getTokenMetadataOnSelect;
  repeat case_match; simplify_eq/=.

Lemma apply_op_wf (s s' : State) (op : Op) :
  objects_wf s -> apply_op s op = Ok s' -> objects_wf s'.
Proof.
  destruct s as [a b c d e f g h i j k l m]. intros [He Ht] Hop.
  destruct op; cbn [apply_op] in Hop; token_handlers Hop; split; try done;
    first [apply NoDup_set, NoDup_spread; constructor
          |apply NoDup_spread, edit_defaults_NoDup
          |apply NoDup_singleton].
Qed.

(** Whatever the user does in the token editor, in whatever order and
    however the awaited helpers settle, the edit form and the transfer
    form stay plain objects with distinct keys. *)
Theorem run_objects_wf (ops : list Op) (s : State) :
  run init ops = Ok s -> objects_wf s.
Proof.
  cut (forall s0, objects_wf s0 -> run s0 ops = Ok s -> objects_wf s).
  { intros H. apply H, objects_wf_init. }
  induction ops as [|op ops IH]; intros s0 Hwf Hrun; cbn in Hrun; [by simplify_eq|].
  destruct (apply_op s0 op) as [s1|e] eqn:Hop; [|discriminate].
  apply (IH s1); [by eapply apply_op_wf|done].
Qed.

Lemma ui_inv_init : ui_inv init.
Proof. split_and!; [by left|done|done]. Qed.

(** A selection that is not [-1] is a token. *)
Lemma selected_token (c : Json) :
  c = JNum (-1) \/ is_token c = true -> strict_eq (Some c) (Some (JNum (-1))) = false -> is_token c = true.
Proof. by intros [->|?]. Qed.

(** Only [onViewDetails] writes the selection, and only the two open
    handlers open a modal. *)
Lemma apply_op_selection (s s' : State) (op : Op) :
  apply_op s op = Ok s' ->
  s'.(selectedToken) = (if op is OpViewDetails t then t else s.(selectedToken)) /\
  (s'.(isEditModalOpen) = true -> s.(isEditModalOpen) = true \/ op = OpOpenEdit) /\
  (s'.(isTransferModalOpen) = true -> s.(isTransferModalOpen) = true \/ op = OpOpenTransfer).
Proof.
  destruct s as [a b c d e f g h i j k l m]. intros Hop.
  destruct op; cbn [apply_op] in Hop; token_handlers Hop; split_and!; auto; discriminate.
Qed.

(** A row button selects a token. *)
Lemma enabled_selection (s : State) (op : Op) :
  enabled s op = true -> is_token s.(selectedToken) = true ->
  is_token (if op is OpViewDetails t then t else s.(selectedToken)) = true.
Proof. intros Hen Hs. destruct op; auto. destruct token; cbn in *; congruence. Qed.

Lemma enabled_step_inv (s s' : State) (op : Op) :
  ui_inv s -> enabled s op = true -> apply_op s op = Ok s' -> ui_inv s'.
Proof.
  intros (Hs & He & Ht) Hen (Hsel & He' & Ht')%apply_op_selection.
  assert (strict_eq (Some s.(selectedToken)) (Some (JNum (-1))) = false -> is_token s.(selectedToken) = true)
    as Hpick by (by apply selected_token).
  split_and!; rewrite Hsel.
  - destruct Hs as [Hs|Hs]; [|right; by apply enabled_selection].
    destruct op; auto. destruct token; cbn in Hen; try discriminate. by right.
  - intros Ho. destruct (He' Ho) as [Hw| ->]; [by apply enabled_selection, He|].
    apply Hpick. cbn [enabled view edit_disabled transfer_disabled] in Hen.
    destruct (strict_eq _ _); [cbn in Hen; discriminate|done].
  - intros Ho. destruct (Ht' Ho) as [Hw| ->]; [by apply enabled_selection, Ht|].
    apply Hpick. cbn [enabled view edit_disabled transfer_disabled] in Hen.
    destruct (strict_eq _ _); [cbn in Hen; discriminate|done].
Qed.

Lemma enabled_writes_ok (s : State) (op : Op) :
  ui_inv s -> enabled s op = true -> Forall write_ok (op_writes s op).
Proof.
  intros (Hs & He & Ht) Hen.
  destruct op; cbn [enabled view op_writes edit_open edit_actions_disabled transfer_open
    transfer_actions_disabled] in Hen |- *; repeat constructor; cbn.
  - apply He. by apply andb_true_iff in Hen as [-> _].
  - apply Ht. by apply andb_true_iff in Hen as [-> _].
Qed.

(** C31: in any session on the token editor, every metadata update and
    every transfer the editor sends names a token picked from the table,
    never the initial selection [-1]: the Edit and Transfer buttons are
    disabled while nothing is selected, and the Update and Transfer
    actions exist only inside the modals those buttons open. *)
Theorem ui_writes_selected_token (ops : list Op) (s : State) (ws : list Write) :
  run_ui init ops = (s, ws) -> Forall write_ok ws /\ ui_inv s.
Proof.
  intros Hr. destruct (session_inv enabled ui_step ui_inv write_ok) with ops init as [Hs Hw].
  - intros s0 op Hinv Hen. split; [|by apply enabled_writes_ok].
    cbn. destruct (apply_op s0 op) eqn:Hop; [by eapply enabled_step_inv|done].
  - apply ui_inv_init.
  - unfold run_ui in Hr. rewrite Hr in Hs, Hw. by split.
Qed.

(** ** Concrete runs *)

Definition demo_token_state : State :=
  set_tokenMetadata (JObj [(js "remarks", JStr (js "keep cold")); (js "lat", JNum 48)])
    (set_selectedToken (JStr (js "2")) (set_tokensList [js "2"] init)).

Lemma upload_drops_metadata_witness :
  let s := demo_token_state in
  is_Some (get (onOpenEditMetadataModal s).(editModalData) (js "remarks")) /\
  exists s2, onUploadFinish (onOpenEditMetadataModal s) (Some (js "success", js "https://img/1.png")) = Ok s2 /\
  saved_metadata s2 = JObj [(js "photo", JStr (js "https://img/1.png"))] /\
  (forall k, k <> js "photo" -> get s2.(editModalData) k = None).
Proof. apply upload_drops_metadata. Defined.

Definition demo_ops : list Op :=
  [OpOpenEdit; OpChangeEdit (js "remarks") (js "fragile"); OpUploadFinish (Some (js "success", js "u"));
   OpOpenTransfer; OpChangeTransfer (js "targetAddress") (js "5Bob")].

Lemma run_objects_wf_witness : exists s, run init demo_ops = Ok s /\ objects_wf s.
Proof. eexists; split; [reflexivity|]. apply (run_objects_wf demo_ops). reflexivity. Defined.

Definition demo_session : list Op :=
  [OpListLoaded true (Ok [js "2"; js "3"]); OpOpenEdit; OpViewDetails (JStr (js "3"));
   OpMetadataLoaded (Ok (JObj [(js "remarks", JStr (js "dry"))])) (Ok (js "5Alice"));
   OpOpenEdit; OpChangeEdit (js "remarks") (js "wet"); OpSaveEdit (Resolved true) (Ok JNull) (Ok []);
   OpOpenTransfer; OpChangeTransfer (js "targetAddress") (js "5Bob"); OpFinishTransfer (Resolved true)].

Lemma ui_writes_selected_token_witness :
  exists s ws, run_ui init demo_session = (s, ws) /\ length ws = 2 /\
    Forall write_ok ws /\ ui_inv s.
Proof.
  eexists _, _. split; [reflexivity|]. split; [reflexivity|].
  apply (ui_writes_selected_token demo_session). reflexivity.
Defined.

End TokenEditor.
