(* ===== verification/Config.v ===== *)
(** * The configuration, the notifier and two small UI helpers

    [config/index.js] merges the JSON configuration files with the
    [REACT_APP_] environment variables; [utils/notifier.js] is the object
    every page calls to show a notification; [components/ScrollToTop] and
    [components/LoadingIndicator] are two helpers of the page layout. The
    JSON files the configuration reads ([common.json] and the one named
    by [NODE_ENV]) are not in the repository: they are parameters, as is
    the process environment. The API constants of [constants/index.js]
    are read from the same environment. *)

From Stdlib Require Import QArith.
From S2P Require Import Prelude ContractCalls Pages JsObject.
Import ContractCalls Pages JsObject.

Module Config.

(** The environment variables the configuration accepts. *)
Definition envVarNames : list string := ["REACT_APP_PROVIDER_SOCKET"; "REACT_APP_DEVELOPMENT_KEYRING"]%string.

(** [n.slice(10)]: the name without its [REACT_APP_] prefix. *)
Definition slice10 (n : string) : string := substring 10 (String.length n - 10) n.

(** [envVarNames.reduce(...)]: each variable the environment defines,
    under its name without the prefix. *)
Definition envVars (env : string -> option string) : Fields :=
  fold_left (fun mem n => match env n with
                          | Some v => set mem (js (slice10 n)) (JStr (js v))
                          | None => mem
                          end) envVarNames [].

(** [callParams: { endowment, weight }], the two [BN]s as numbers. *)
Definition callParams : Json :=
  JObj [(js "endowment", JNum (1000000000000000 # 1)); (js "weight", JNum (1000000000000 # 1))].

(** [{ ...configCommon, ...configEnv, ...envVars, callParams }] *)
Definition config (configCommon configEnv : Json) (env : string -> option string) : Fields :=
  set (spread (spread (spread [] configCommon) configEnv) (JObj (envVars env))) (js "callParams") callParams.

(** [constants/index.js]: [API_SERVER + '/' + API_VERSION], where string
    concatenation writes an unset variable as [undefined]. *)
Definition API_SERVER_URL (env : string -> option string) : string :=
  (default "undefined" (env "REACT_APP_API_SERVER") ++ "/" ++
   default "undefined" (env "REACT_APP_API_VERSION"))%string.

(** [API_AUTH_HEADER_PREFIX]: read from the environment, and used by no
    code of the repository ([setApiAuthHeader] writes the bare token). *)
Definition API_AUTH_HEADER_PREFIX (env : string -> option string) : option string :=
  env "REACT_APP_API_AUTH_HEADER_PREFIX"%string.

End Config.

Module Notifier.

(** The notifier object: its [timer], the default duration in seconds. *)
Record Notifier := mkNotifier { timer : Z }.

Definition init : Notifier := mkNotifier 6.

(** [setTimer(sec)] *)
Definition setTimer (sec : Z) (n : Notifier) : Notifier := mkNotifier sec.

Inductive Kind := Success | Error.

(** The options handed to antd's [notification.success] or [.error]. *)
Record Notification := mkNotification {
  kind : Kind;
  message : option string;
  description : string;
  className : string;
  duration : Z
}.

(** [success(msg, desc, time)] and [error(msg, desc, time)]: a missing or
    empty description is falsy. *)
Definition notify (k : Kind) (msg desc : option string) (time : option Z) (n : Notifier) : Notification :=
  let d := match desc with Some s => if decide (s = ""%string) then None else Some s | None => None end in
  mkNotification k msg (default ""%string d)
    (if d is Some _ then "notifier-content" else "notifier-no-content")%string
    (default n.(timer) time).

(** A page's [notifier.success(msg)] or [notifier.error(msg)]. *)
Definition show (n : Notifier) (nt : Notice) : Notification :=
  match nt with
  | NoticeSuccess m => notify Success m None None n
  | NoticeError m => notify Error m None None n
  end.

End Notifier.

Module Layout.

(** [ScrollToTop.componentDidUpdate]: the content view scrolls back to
    the top when the path changes. *)
Definition scrolls (prevPathname pathname : string) : bool := negb (String.eqb pathname prevPathname).

Record IndicatorView := mkIndicatorView {
  indicator_class : string;
  indicator_display : string
}.

(** [LoadingIndicator({ isLoading, fullScreen })] *)
Definition loading_indicator (isLoading : bool) (fullScreen : option Json) : IndicatorView :=
  mkIndicatorView
    ("loading-indicator" ++ (if truthy_opt fullScreen then " fullscreen" else ""))%string
    (if isLoading then "flex" else "none")%string.

End Layout.

(** ** Lemmas *)

Lemma slice10_names :
  map Config.slice10 Config.envVarNames = ["PROVIDER_SOCKET"; "DEVELOPMENT_KEYRING"]%string.
Proof. reflexivity. Qed.

Lemma envVars_eq (env : string -> option string) :
  Config.envVars env =
    (if env "REACT_APP_PROVIDER_SOCKET"%string is Some p then [(js "PROVIDER_SOCKET", JStr (js p))] else []) ++
    (if env "REACT_APP_DEVELOPMENT_KEYRING"%string is Some d then [(js "DEVELOPMENT_KEYRING", JStr (js d))] else []).
Proof.
  unfold Config.envVars. cbn [fold_left Config.envVarNames].
  by destruct (env "REACT_APP_PROVIDER_SOCKET"%string), (env "REACT_APP_DEVELOPMENT_KEYRING"%string).
Qed.

Lemma NoDup_envVars (env : string -> option string) : NoDup (Config.envVars env).*1.
Proof.
  rewrite envVars_eq.
  destruct (env "REACT_APP_PROVIDER_SOCKET"%string), (env "REACT_APP_DEVELOPMENT_KEYRING"%string);
    cbn; repeat constructor; rewrite ?list_elem_of_singleton; try discriminate; apply not_elem_of_nil.
Qed.

(** The configuration takes a key from the environment when it defines
    it, then from the [NODE_ENV] file, then from [common.json];
    [callParams] is always the code's own. *)
Lemma config_precedence (common configEnv : Json) (env : string -> option string) (k : string) :
  k <> "callParams"%string ->
  get (Config.config common configEnv env) (js k) =
    match get (Config.envVars env) (js k) with
    | Some v => Some v
    | None =>
        match last_get (own_props configEnv) (js k) with
        | Some v => Some v
        | None => last_get (own_props common) (js k)
        end
    end.
Proof.
  intros Hk. unfold Config.config. rewrite get_set_ne.
  - rewrite !get_spread. cbn [own_props]. rewrite last_get_NoDup by apply NoDup_envVars.
    cbn [get]. by repeat case_match.
  - intros H. apply Hk. rewrite <- (string_of_list_ascii_of_string k). unfold js in H. rewrite H. done.
Qed.

(** [config.PROVIDER_SOCKET], which [connectedSocket] falls back to, is
    [REACT_APP_PROVIDER_SOCKET] whenever the environment sets it. *)
Lemma provider_socket_from_env (common configEnv : Json) (env : string -> option string) (v : string) :
  env "REACT_APP_PROVIDER_SOCKET"%string = Some v ->
  get (Config.config common configEnv env) (js "PROVIDER_SOCKET") = Some (JStr (js v)).
Proof.
  intros Hv. rewrite config_precedence by discriminate. rewrite envVars_eq, Hv. reflexivity.
Qed.

(** Every notice a page shows stays the notifier's six seconds, with no
    description: the pages pass the message alone and nothing calls
    [setTimer]. *)
Lemma page_notices_shown (nt : Notice) :
  (Notifier.show Notifier.init nt).(Notifier.duration) = 6%Z /\
  (Notifier.show Notifier.init nt).(Notifier.description) = ""%string /\
  (Notifier.show Notifier.init nt).(Notifier.className) = "notifier-no-content"%string.
Proof. by destruct nt. Qed.
