(* ===== verification/Integration.v ===== *)
(** * The editors, the hook and the contract together

    The supply-chain editor of [Editors.v] hands its array to
    [updateSupplyChain] ([ContractCalls.v]), which prints it with
    [JSON.stringify] ([JsonCodec.v]) into the [setSupplyChain] message and
    settles its promise from the statuses the node reports; when the
    component is loaded again, [getSupplyChain] decodes what the contract
    returns and [getSupplyChainOnContractReady] stores it. The contract
    itself is not part of the repository: what it returns for the stored
    text is any byte string framing that text with bytes that [trim]
    skips, the same assumption as [JsonCodec.supply_chain_roundtrip].

    This file composes the three, with the save split at its [await]
    (the click, then the settlement of the promise): a Save clicked in
    the editor, included in a block, and the next load of the component
    show the nodes that were saved ([save_then_load_roundtrip]); a node
    added while the save awaits is lost ([add_during_save_lost]). With
    [Hook.v] and [App.v], [dashboard_save] runs the Save on the helper
    the rendered dashboard hands the editor: it settles when a pair is
    selected and hangs when none is. *)

From Stdlib Require Import QArith.
From S2P Require Import Prelude Strings Substrate Lifecycle App ContractCalls JsObject JsonCodec Hook Editors.
Import Store ContractCalls JsObject JsonCodec.

Module Integration.
Import SupplyChainEditor.

(** ** The save with its [await] *)

(** The code of [onSaveSupplyChain] after [await updateSupplyChain(...)]:
    its setters run on whatever state the component is in when the
    promise settles. *)
Definition onSaveSupplyChain_resume (s : State) (settled : Settlement) : State :=
  match settled with
  | Pending => s
  | Resolved _ => mkState s.(heap) s.(supplyChainData) false false s.(isAddModalOpen) s.(addModalData)
  | Rejected _ => mkState s.(heap) s.(supplyChainData) s.(isEdited) false s.(isAddModalOpen) s.(addModalData)
  end.

(** The editor's events with the save split at its [await]: the click
    runs the handler up to the [await] and sends the array; the
    settlement of that promise is an event of its own, and the user's
    events may come in between. *)
Inductive AOp :=
| AUser (op : Op)
| ASaveClick
| ASaveSettled (settled : Settlement).

(** The editor and the number of saves awaiting their promise. *)
Abbreviation AState := (State * nat)%type.

(** The Save button is enabled as rendered (the dimmer covers the node
    list only: the buttons and the add modal are outside it). *)
Definition async_enabled (st : AState) (op : AOp) : bool :=
  match op with
  | AUser (OpSave _) => false
  | AUser op => enabled st.1 op
  | ASaveClick => enabled st.1 (OpSave Pending)
  | ASaveSettled _ => bool_decide (0 < st.2)
  end.

Definition async_step (st : AState) (op : AOp) : AState * list (list Json) :=
  let '(s, n) := st in
  match op with
  | AUser op => let '(s', w) := ui_step s op in ((s', n), w)
  | ASaveClick =>
      if s.(isEdited) then ((onSaveSupplyChain s Pending, S n), [rendered s]) else ((s, n), [])
  | ASaveSettled settled => ((onSaveSupplyChain_resume s settled, pred n), [])
  end.

Definition async_run : AState -> list AOp -> AState * list (list Json) := session async_enabled async_step.

(** The node the add modal builds from the selected address and a name. *)
Definition added_node (accountAddress : option string) (name : jsstr) : Json :=
  JObj [(js "name", JStr name); (js "writer", from_option (fun a => JStr (js a)) JNull accountAddress)].

(** ** Lemmas *)

(** An update helper that built its message, was submitted and reported
    in a block resolves [true]. *)
Lemma helper_tx_resolves (accountAddress : option string) (accountPair : option Account)
    (injector submit : result unit) (statuses : list TxStatus) (m m' : Message) :
  (helper_tx accountAddress accountPair injector submit statuses m).2 = Some m' ->
  is_ok submit = true -> (exists h, InBlock h ∈ statuses) ->
  (helper_tx accountAddress accountPair injector submit statuses m).1.(settlement) = Resolved true.
Proof.
  unfold helper_tx. cbn [fst snd]. intros Hm Hsub Hin.
  destruct accountPair as [pr|]; [|done].
  rewrite send_tx_settlement.
  - apply existsb_in_block in Hin. by rewrite Hin.
  - split; [|done]. intros Hpj. cbn in Hm. rewrite decide_True in Hm by done.
    by destruct injector.
Qed.

(** Saving changes neither the heap nor the array: the render is the
    same, and so are the controls that depend on it. *)
Lemma onSave_keeps_view (s : State) (st : Settlement) :
  nodes_of (onSaveSupplyChain s st) = nodes_of s /\ rendered (onSaveSupplyChain s st) = rendered s.
Proof. unfold onSaveSupplyChain. by destruct (isEdited s), st. Qed.

(** Loading an array shows it, with no pending edit. *)
Lemma load_array (s : State) (items : list Json) :
  let s' := getSupplyChainOnContractReady true s (Ok (JArr items)) in
  rendered s' = items /\ s'.(isEdited) = false /\ s'.(isEditorLoading) = false.
Proof.
  cbn. split_and!; [|done|done]. unfold rendered. cbn. by rewrite lookup_app_r, Nat.sub_diag by lia.
Qed.

(** What an enabled Save button says of the editor: an edit is pending
    and the nodes render, so [supplyChainData] is an array. *)
Lemma enabled_save_facts (s : State) (settled : Settlement) :
  enabled s (OpSave settled) = true ->
  s.(isEdited) = true /\ exists l ns, s.(supplyChainData) = Ref l /\ nodes_of s = Ok ns.
Proof.
  unfold enabled, view. destruct (nodes_of s) as [ns|] eqn:Hn; [|done]. cbn.
  destruct (isEdited s); [intros _|done]. split; [done|].
  unfold nodes_of in Hn. destruct (supplyChainData s) as [l|]; [eauto|done].
Qed.

(** C37: a supply chain saved from the editor reads back as itself. When
    Save is enabled on the rendered editor, the array is well formed, the
    helper built its [setSupplyChain] message with the text [text], was
    submitted and reported in a block, and the contract returns [text]
    between bytes [trim] skips: the click sends the rendered array once
    to [updateSupplyChain], the settlement of its promise leaves the
    editor with no pending edit, no dimmer and no save in flight, and the
    next load of the component decodes the contract's output to that
    array and shows exactly the nodes that were saved. *)
Theorem save_then_load_roundtrip (s : State) (accountAddress : option string)
    (accountPair : option Account) (injector submit : result unit) (statuses : list TxStatus)
    (c : Contract) (text p q : jsstr) :
  let tx := updateSupplyChain accountAddress accountPair injector submit statuses (JArr (rendered s)) in
  enabled s (OpSave Pending) = true ->
  wfb (JArr (rendered s)) = true ->
  tx.2 = Some (setSupplyChain text) ->
  is_ok submit = true -> (exists h, InBlock h ∈ statuses) ->
  Forall (fun x => Trim.is_open x = false) p -> Forall (fun x => x <> "]"%char) q ->
  let '((s1, n1), sent) := async_run (s, 0) [ASaveClick; ASaveSettled tx.1.(settlement)] in
  let r := getSupplyChain (Some c) (RpcOk (map byte_of_ascii (p ++ text ++ q))) in
  let '((s2, _), _) := async_run (s1, n1) [AUser (OpLoaded true r)] in
  sent = [rendered s] /\ n1 = 0 /\ s1.(isEdited) = false /\ s1.(isEditorLoading) = false /\
  r = Ok (JArr (rendered s)) /\ rendered s2 = rendered s.
Proof.
  intros tx Hen Hwf Hm Hsub Hin Hp Hq.
  assert (tx.1.(settlement) = Resolved true) as Hres by (eapply helper_tx_resolves; eauto).
  pose proof (supply_chain_roundtrip _ _ _ _ _ _ _ _ _ c Hwf Hm Hp Hq) as Hr.
  destruct (enabled_save_facts _ _ Hen) as (He & l & ns & Hl & Hns).
  unfold async_run. rewrite session_cons_enabled by exact Hen. cbn [async_step fst snd]. rewrite He.
  cbn [fst snd]. rewrite (session_cons_enabled async_enabled async_step) by reflexivity. rewrite Hres. cbn [async_step fst snd session].
  unfold onSaveSupplyChain. rewrite He. cbn [onSaveSupplyChain_resume].
  set (s1 := mkState _ _ false false _ _).
  assert (nodes_of s1 = Ok ns) as Hns1 by exact Hns.
  assert (enabled s1 (OpLoaded true (Ok (JArr (rendered s)))) = true) as Hen1
    by (unfold enabled, view; by rewrite Hns1).
  rewrite Hr. cbn [async_enabled fst]. rewrite Hen1. cbn [ui_step].
  destruct (load_array s1 (rendered s)) as (Hr' & _ & _).
  cbn -[rendered getSupplyChainOnContractReady]. rewrite Hr'. split_and!; done.
Qed.

(** The atomic [onSaveSupplyChain] of [Editors.v] is the split save
    with nothing in between: the click, then the settlement (an editor
    without edits returns before the [await]). *)
Lemma save_split (s : State) (settled : Settlement) :
  s.(isEdited) = true ->
  onSaveSupplyChain_resume (onSaveSupplyChain s Pending) settled = onSaveSupplyChain s settled.
Proof. unfold onSaveSupplyChain. intros ->. by destruct settled. Qed.

(** C39: a node added while a save awaits its transaction is shown but
    never saved: the save sends the array of the click, the add modal
    (outside the dimmer) appends the node and sets [isEdited], and the
    settlement of the first save clears [isEdited] again, which disables
    Save. *)
Lemma add_during_save_lost (s : State) (accountAddress : option string) (name : jsstr) :
  enabled s (OpSave Pending) = true ->
  let '((s', n), sent) := async_run (s, 0)
      [ASaveClick; AUser (OpOpenAdd accountAddress); AUser (OpChangeName name); AUser OpAdd;
       ASaveSettled (Resolved true)] in
  sent = [rendered s] /\ rendered s' = rendered s ++ [added_node accountAddress name] /\
  s'.(isEdited) = false /\ n = 0 /\ async_enabled (s', n) ASaveClick = false.
Proof.
  intros Hen. destruct (enabled_save_facts _ _ Hen) as (He & l & ns & Hl & Hns).
  assert (forall t, heap t = heap s -> supplyChainData t = supplyChainData s -> nodes_of t = Ok ns)
    as Hnodes by (intros t Hh Hd; unfold nodes_of in *; by rewrite Hd, Hh).
  unfold async_run. rewrite session_cons_enabled by exact Hen.
  cbn [async_step fst snd]. rewrite He. unfold onSaveSupplyChain. rewrite He. cbn [negb].
  do 3 (rewrite session_cons_enabled by
          (cbn [async_enabled fst snd]; unfold enabled, view; rewrite Hnodes by reflexivity; reflexivity);
        cbn [async_step ui_step fst snd onOpenAddModal onChangeAddModalData heap supplyChainData
             isEdited isEditorLoading isAddModalOpen addModalData]).
  unfold onAddNode, elements, onChangeAddModalData, onOpenAddModal. cbn [supplyChainData heap addModalData].
  rewrite Hl. cbn [mbind result_bind Heap.alloc].
  rewrite session_cons_enabled by reflexivity. cbn.
  rewrite decide_False by discriminate. cbn [set]. rewrite decide_True by reflexivity.
  rewrite lookup_app_r, Nat.sub_diag by lia. cbn -[nodes_of enabled rendered].
  rewrite (rendered_ref s l Hl). split_and!; try reflexivity.
  clear Hen Hns Hnodes. unfold enabled, view. destruct (nodes_of _); reflexivity.
Qed.

(** C16: the Save of the supply-chain editor, run on the helper the
    rendered dashboard hands it. The click sends the rendered array once
    and shows the dimmer. When [Main] renders the editors with a selected
    pair [p] (whose extension injector answers, for an extension account),
    the transaction is signed; once it is reported in a block its promise
    resolves, and the code after the [await] clears the edit and the
    dimmer. When it renders them with no pair selected, the promise of
    [updateSupplyChain] is never settled and no message is built, so the
    editor stays behind its dimmer. *)
Theorem dashboard_save (hs : Lifecycle.HState) (sel : option Account) (s : State)
    (inj : result unit) (sts : list TxStatus) :
  App.main hs.(Lifecycle.store) = App.Dashboard sel -> enabled s (OpSave Pending) = true ->
  let tx := Hook.call_tx (Hook.useSubstrate hs.(Lifecycle.store))
              (Hook.CallUpdateSupplyChain (JArr (rendered s))) inj (Ok tt) sts in
  let '((s1, n1), sent) := async_run (s, 0) [ASaveClick] in
  sent = [rendered s] /\ n1 = 1 /\ s1.(isEditorLoading) = true /\
  match sel with
  | Some p =>
      (p.(meta_source) = "polkadot-js"%string -> is_ok inj = true) -> (exists h, InBlock h ∈ sts) ->
      tx.1.(settlement) = Resolved true /\
      let '((s2, n2), _) := async_run (s1, n1) [ASaveSettled tx.1.(settlement)] in
      n2 = 0 /\ s2.(isEdited) = false /\ s2.(isEditorLoading) = false
  | None => tx.1.(settlement) = Pending /\ tx.2 = None
  end.
Proof.
  intros Hm Hen tx.
  assert (tx = Hook.call_tx (Hook.useSubstrate hs.(Lifecycle.store))
                 (Hook.CallUpdateSupplyChain (JArr (rendered s))) inj (Ok tt) sts) as Htx by reflexivity.
  clearbody tx. destruct (enabled_save_facts _ _ Hen) as (He & _).
  destruct (App.main_dashboard _ _ Hm) as (_ & _ & _ & Hsel).
  unfold async_run. rewrite (session_cons_enabled async_enabled async_step) by exact Hen.
  cbn [async_step fst snd]. rewrite He. unfold onSaveSupplyChain. rewrite He. cbn.
  split_and!; [done..|]. destruct sel as [p|].
  - intros Hinj Hin.
    assert (tx.1.(settlement) = Resolved true) as Hres.
    { rewrite Htx, Hook.hook_tx. cbn [fst]. rewrite <- Hsel.
      rewrite send_tx_settlement by (split; [exact Hinj|reflexivity]).
      apply existsb_in_block in Hin. by rewrite Hin. }
    split; [done|]. rewrite Hres. cbn. by split_and!.
  - rewrite Htx. by rewrite Hook.hook_tx_no_pair.
Qed.

(** ** A concrete run *)

(** An editor holding the demo array with an unsaved edit. *)
Definition demo_editor : State :=
  mkState [demo_items] (Ref 0) true false false [(js "name", JStr []); (js "writer", JStr [])].

Definition demo_output : list Byte.byte := map byte_of_ascii (js "xy" ++ stringify JsonCodec.demo_chain ++ js "z").

Definition demo_settlement : Settlement :=
  (updateSupplyChain None (Some demo_owner) (Ok tt) (Ok tt) [Ready; InBlock "0x01"]
     (JArr (rendered demo_editor))).1.(settlement).

Lemma save_then_load_roundtrip_witness :
  let '((s1, n1), sent) := async_run (demo_editor, 0) [ASaveClick; ASaveSettled demo_settlement] in
  let r := getSupplyChain (Some demo_contract) (RpcOk demo_output) in
  let '((s2, _), _) := async_run (s1, n1) [AUser (OpLoaded true r)] in
  sent = [rendered demo_editor] /\ n1 = 0 /\ s1.(isEdited) = false /\ s1.(isEditorLoading) = false /\
  r = Ok (JArr (rendered demo_editor)) /\ rendered s2 = rendered demo_editor.
Proof.
  apply (save_then_load_roundtrip demo_editor None (Some demo_owner) (Ok tt) (Ok tt)
           [Ready; InBlock "0x01"] demo_contract (stringify JsonCodec.demo_chain) (js "xy") (js "z")).
  - vm_compute. reflexivity.
  - vm_compute. reflexivity.
  - vm_compute. reflexivity.
  - reflexivity.
  - exists "0x01"%string. apply list_elem_of_In. simpl. auto.
  - repeat constructor.
  - repeat constructor; discriminate.
Defined.

(** Adding a node named Farm B while the demo editor's save is in flight. *)
Lemma add_during_save_lost_witness :
  enabled demo_editor (OpSave Pending) = true /\
  let '((s', n), sent) := async_run (demo_editor, 0)
      [ASaveClick; AUser (OpOpenAdd (Some "5Bob"%string)); AUser (OpChangeName (js "Farm B"));
       AUser OpAdd; ASaveSettled (Resolved true)] in
  sent = [rendered demo_editor] /\
  rendered s' = rendered demo_editor ++ [added_node (Some "5Bob"%string) (js "Farm B")] /\
  s'.(isEdited) = false /\ n = 0 /\ async_enabled (s', n) ASaveClick = false.
Proof.
  split; [vm_compute; reflexivity|].
  apply add_during_save_lost. vm_compute. reflexivity.
Defined.

(** The demo editor's Save on the dashboard of the ready demo run of
    [Lifecycle.v], signed by its polkadot-js pair. *)
Lemma dashboard_save_witness :
  let tx := Hook.call_tx (Hook.useSubstrate Lifecycle.demo_ready.(Lifecycle.store))
              (Hook.CallUpdateSupplyChain (JArr (rendered demo_editor))) (Ok tt) (Ok tt)
              [Ready; InBlock "0x01"] in
  let '((s1, n1), sent) := async_run (demo_editor, 0) [ASaveClick] in
  sent = [rendered demo_editor] /\ n1 = 1 /\ s1.(isEditorLoading) = true /\
  (((Lifecycle.rename Lifecycle.alice).(meta_source) = "polkadot-js"%string -> is_ok (Ok tt) = true) ->
   (exists h, InBlock h ∈ [Ready; InBlock "0x01"]) ->
   tx.1.(settlement) = Resolved true /\
   let '((s2, n2), _) := async_run (s1, n1) [ASaveSettled tx.1.(settlement)] in
   n2 = 0 /\ s2.(isEdited) = false /\ s2.(isEditorLoading) = false).
Proof.
  apply (dashboard_save Lifecycle.demo_ready (Some (Lifecycle.rename Lifecycle.alice)) demo_editor).
  - vm_compute. reflexivity.
  - vm_compute. reflexivity.
Defined.

End Integration.
