(* ===== verification/Races.v ===== *)
(** * The token editor's metadata effect, with its two awaits

    [getTokenMetadataOnSelect] of [components/TokenEditor/index.js] runs
    each time [selectedToken] changes. It sets the loading flag, awaits
    [getTokenMetadata(selectedToken)], stores the answer, awaits
    [getTokenOwner(selectedToken)], and stores the owner and the map
    position; nothing checks, when an answer arrives, that the selection
    is still the one the run started with. [Tokens.v] models the effect
    as one step with both answers; here it is split at its awaits, so that
    the runs of two selections interleave with each other and with the
    user's clicks.

    [select_split] shows that a run with nothing in between is the
    atomic handler of [Tokens.v]; [stale_metadata_saved] shows the race:
    the answers of an earlier selection arriving last are shown under
    the later one, and the edit modal, filled from them, writes them to
    the token now selected. Module [ProfileRace] does the same for the
    profile editor of [components/AccountMetadata], whose effect reruns
    when [accountAddress] changes: [stale_profile_saved] shows the
    earlier account's profile saved to the later one. *)

From Stdlib Require Import QArith.
From S2P Require Import Prelude ContractCalls JsObject Tokens.
Import ContractCalls JsObject.

Module TokenRace.
Import TokenEditor.

(** ** The effect split at its awaits *)

(** [setTokenMetadataLoading(true)], before the first await. *)
Definition meta_start (s : State) : State := set_isTokenMetadataLoading true s.

(** The answer of [getTokenMetadata]: stored, and the run goes on to the
    owner; a rejection sets the metadata to [null] and ends the run. *)
Definition meta_answered (s : State) (meta : result Json) : State * option Json :=
  match meta with
  | Ok m => (set_tokenMetadata m s, Some m)
  | Throw _ => (set_isTokenMetadataLoading false (set_tokenMetadata JNull s), None)
  end.

(** The answer of [getTokenOwner], for the metadata the run stored. *)
Definition owner_answered (s : State) (m : Json) (owner : result jsstr) : State :=
  set_isTokenMetadataLoading false
    (match owner with
     | Ok o => set_mapPosition (coord m (js "lat"), coord m (js "long")) (set_tokenOwner o s)
     | Throw _ => set_tokenMetadata JNull s
     end).

(** Where a run is suspended. *)
Inductive Await :=
| AwaitMeta
| AwaitOwner (metadata : Json).

(** The editor, the runs of the effect in flight (each with its id and
    the token selected when it started), and the next id. *)
Record RState := mkRState {
  editor : State;
  runs : list (nat * (Json * Await));
  next_run : nat
}.

Fixpoint run_of (id : nat) (rs : list (nat * (Json * Await))) : option (Json * Await) :=
  match rs with
  | [] => None
  | (i, r) :: rs' => if Nat.eqb i id then Some r else run_of id rs'
  end.

Definition drop_run (id : nat) (rs : list (nat * (Json * Await))) : list (nat * (Json * Await)) :=
  List.filter (fun r => negb (Nat.eqb r.1 id)) rs.

Definition set_run (id : nat) (x : Json * Await) (rs : list (nat * (Json * Await))) :=
  map (fun r => if Nat.eqb r.1 id then (id, x) else r) rs.

(** The user's events on the rendered editor, and the answers of the
    suspended runs. *)
Inductive ROp :=
| RUser (op : Op)
| RMeta (id : nat) (meta : result Json)
| ROwner (id : nat) (owner : result jsstr).

Definition race_enabled (r : RState) (op : ROp) : bool :=
  match op with
  | RUser (OpMetadataLoaded _ _) => false
  | RUser op => enabled r.(editor) op
  | RMeta id _ => if run_of id r.(runs) is Some (_, AwaitMeta) then true else false
  | ROwner id _ => if run_of id r.(runs) is Some (_, AwaitOwner _) then true else false
  end.

(** A click on a row's eye button selects the token; when the selection
    changes (React compares the dependency with [Object.is], which agrees
    with [===] on strings and on the initial [-1]), the effect starts a
    run for it. *)
Definition race_step (r : RState) (op : ROp) : RState * list Write :=
  let s := r.(editor) in
  match op with
  | RUser (OpViewDetails t as op) =>
      let '(s', w) := ui_step s op in
      if strict_eq (Some t) (Some s.(selectedToken)) then (mkRState s' r.(runs) r.(next_run), w)
      else (mkRState (meta_start s') (r.(runs) ++ [(r.(next_run), (t, AwaitMeta))]) (S r.(next_run)), w)
  | RUser op => let '(s', w) := ui_step s op in (mkRState s' r.(runs) r.(next_run), w)
  | RMeta id meta =>
      match run_of id r.(runs) with
      | Some (t, AwaitMeta) =>
          let '(s', next) := meta_answered s meta in
          match next with
          | Some m => (mkRState s' (set_run id (t, AwaitOwner m) r.(runs)) r.(next_run), [])
          | None => (mkRState s' (drop_run id r.(runs)) r.(next_run), [])
          end
      | _ => (r, [])
      end
  | ROwner id owner =>
      match run_of id r.(runs) with
      | Some (_, AwaitOwner m) => (mkRState (owner_answered s m owner) (drop_run id r.(runs)) r.(next_run), [])
      | _ => (r, [])
      end
  end.

Definition race_run : RState -> list ROp -> RState * list Write := session race_enabled race_step.

(** ** Lemmas *)

(** A run with nothing in between is the atomic handler of [Tokens.v]. *)
Lemma select_split (s : State) (meta : result Json) (owner : result jsstr) :
  getTokenMetadataOnSelect s meta owner =
  match meta_answered (meta_start s) meta with
  | (s1, Some m) => owner_answered s1 m owner
  | (s1, None) => s1
  end.
Proof. destruct s, meta, owner; reflexivity. Qed.

(** A listed token has its row, with its eye button. *)
Lemma listed_row (l : list jsstr) (t : jsstr) :
  t ∈ l -> bool_decide (t ∈ (if bool_decide (l = []) then [] else l)) = true.
Proof.
  intros Ht. rewrite (bool_decide_eq_false_2 (l = [])) by (intros ->; by apply not_elem_of_nil in Ht).
  by apply bool_decide_eq_true_2.
Qed.

(** [===] between a token id and another value. *)
Lemma strict_eq_token (t : jsstr) (x : Json) :
  x <> JStr t -> strict_eq (Some (JStr t)) (Some x) = false.
Proof.
  intros Hx. destruct x; try reflexivity. cbn. apply bool_decide_eq_false_2. congruence.
Qed.

(** C33: the metadata effect has no guard against a stale answer. When
    token [a] and then token [b] are selected, and the answers for [b]
    arrive before those for [a], the editor ends with [b] selected and
    [a]'s metadata shown, the Edit button enabled; the edit modal is
    filled from that metadata, and Save writes it to token [b]: the
    session's only contract write is [a]'s metadata for [b]. *)
Lemma stale_metadata_saved (s : State) (a b : jsstr) (ma mb : Json) (oa ob : jsstr)
    (settled : Settlement) (meta : result Json) (owner : result jsstr) :
  a ∈ s.(tokensList) -> b ∈ s.(tokensList) -> a <> b -> s.(selectedToken) <> JStr a ->
  s.(isEditModalLoading) = false ->
  let '(r, writes) := race_run (mkRState s [] 0)
    [RUser (OpViewDetails (JStr a)); RUser (OpViewDetails (JStr b));
     RMeta 1 (Ok mb); ROwner 1 (Ok ob); RMeta 0 (Ok ma); ROwner 0 (Ok oa);
     RUser OpOpenEdit; RUser (OpSaveEdit settled meta owner)] in
  writes = [WUpdate (JStr b) (JObj (spread edit_defaults ma))].
Proof.
  intros Ha Hb Hab Hsel Hload.
  pose proof (strict_eq_token a _ Hsel) as Hsa.
  assert (bool_decide (b = a) = false) as Hba by (apply bool_decide_eq_false_2; congruence).
  destruct s. cbn in Ha, Hb, Hsel, Hload, Hsa. unfold race_run.
  rewrite session_cons_enabled by (cbn; by apply listed_row).
  cbn. rewrite Hsa. cbn. rewrite (listed_row _ b Hb). cbn. rewrite Hba. cbn.
  rewrite Hload. reflexivity.
Qed.

(** ** A concrete run *)

Definition demo_editor : State := set_tokensList [js "1"; js "2"] init.
Definition demo_meta_1 : Json := JObj [(js "remarks", JStr (js "keep cold"))].
Definition demo_meta_2 : Json := JObj [(js "remarks", JStr (js "fragile"))].

Lemma stale_metadata_saved_witness :
  let '(r, writes) := race_run (mkRState demo_editor [] 0)
    [RUser (OpViewDetails (JStr (js "1"))); RUser (OpViewDetails (JStr (js "2")));
     RMeta 1 (Ok demo_meta_2); ROwner 1 (Ok (js "5Bob")); RMeta 0 (Ok demo_meta_1);
     ROwner 0 (Ok (js "5Alice")); RUser OpOpenEdit; RUser (OpSaveEdit (Resolved true) (Ok demo_meta_2) (Ok (js "5Bob")))] in
  writes = [WUpdate (JStr (js "2")) (JObj (spread edit_defaults demo_meta_1))].
Proof.
  apply stale_metadata_saved.
  - vm_compute. left.
  - vm_compute. right. left.
  - discriminate.
  - discriminate.
  - reflexivity.
Defined.

End TokenRace.

(** * The profile editor's metadata effect, split at its await

    [getMetadataOnAccountSelect] of [components/AccountMetadata] runs each
    time [accountAddress] of the connection store changes: it awaits
    [getAccountMetadata(accountAddress)] and stores the answer in the
    shared account-metadata store, with no check that the address is
    still the selected one. The profile editor saves its form with
    [updateAccountMetadata(accountAddress, editModalData)], to the address
    selected at the time of the click. *)

Module ProfileRace.
Import AccountMetadata.

(** The profile editor, the [accountAddress] of the connection store, and
    the runs of the effect awaiting their query (with the address each
    started for), with the next run's id. *)
Record PState := mkPState {
  profile : AccountMetadata.State;
  address : option string;
  queries : list (nat * option string);
  next_query : nat
}.

(** A new [accountAddress] ([setAccountAddress] of the hook), the answer
    of a run's query, and the user's events on the editor. *)
Inductive POp :=
| PSelect (addr : option string)
| PAnswer (id : nat) (r : result Json)
| PUser (op : Op).

Definition profile_enabled (st : PState) (op : POp) : bool :=
  match op with
  | PSelect _ => true
  | PAnswer id _ => bool_decide (id ∈ st.(queries).*1)
  | PUser (OpLoaded _) => false
  | PUser op => enabled st.(profile) op
  end.

(** The effect runs again when its dependency [accountAddress] changes;
    an answer is stored whatever the address is by then; a save writes
    the form to the address selected now. *)
Definition profile_step (st : PState) (op : POp) : PState * list (option string * Json) :=
  match op with
  | PSelect addr =>
      if decide (addr = st.(address)) then (st, [])
      else (mkPState st.(profile) addr (st.(queries) ++ [(st.(next_query), addr)]) (S st.(next_query)), [])
  | PAnswer id r =>
      let s' := match getMetadataOnAccountSelect st.(profile) r with Ok s' => s' | Throw _ => st.(profile) end in
      (mkPState s' st.(address) (List.filter (fun q => negb (Nat.eqb q.1 id)) st.(queries)) st.(next_query), [])
  | PUser op =>
      let '(s', w) := ui_step st.(profile) op in
      (mkPState s' st.(address) st.(queries) st.(next_query), map (fun p => (st.(address), p)) w)
  end.

Definition profile_run : PState -> list POp -> PState * list (option string * Json) :=
  session profile_enabled profile_step.

(** C5: the metadata effect of the profile editor has no guard against a
    stale answer. When account [a] and then account [b] are selected and
    the answer for [a] arrives after the one for [b], the store holds
    [a]'s metadata while [b] is selected; the profile modal, filled from
    it, then writes [a]'s profile to [b]: the session's only
    [updateAccountMetadata] call names [b] with [a]'s fields. *)
Lemma stale_profile_saved (s : AccountMetadata.State) (a b : string) (ma mb : Json)
    (settled : Settlement) (reload : result Json) :
  a <> b -> s.(isEditModalLoading) = false ->
  let '(st, writes) := profile_run (mkPState s None [] 0)
    [PSelect (Some a); PSelect (Some b); PAnswer 1 (Ok mb); PAnswer 0 (Ok ma);
     PUser OpOpenEdit; PUser (OpSave settled reload)] in
  writes = [(Some b, JObj (spread (spread [] (JObj s.(editModalData))) ma))].
Proof.
  intros Hab Hl. destruct s as [st o l ed]. cbn in Hl. subst l.
  unfold profile_run. cbn. repeat (case_decide; [congruence|]; cbn). reflexivity.
Qed.

Lemma stale_profile_saved_witness :
  let '(st, writes) := profile_run (mkPState AccountMetadata.init None [] 0)
    [PSelect (Some "5Alice"%string); PSelect (Some "5Bob"%string);
     PAnswer 1 (Ok (JObj [(js "name", JStr (js "Bob"))]));
     PAnswer 0 (Ok (JObj [(js "name", JStr (js "Alice"))]));
     PUser OpOpenEdit; PUser (OpSave (Resolved true) (Ok (JObj [])))] in
  writes = [(Some "5Bob"%string,
             JObj (spread (spread [] (JObj AccountMetadata.init.(editModalData)))
                     (JObj [(js "name", JStr (js "Alice"))])))].
Proof. apply stale_profile_saved; [discriminate|reflexivity]. Defined.

End ProfileRace.
